(** * UCAgentWeb: the status-text parser and the progress/elapsed-time model

    A shallow embedding of the logic of the agent status page
    ([AgentStatusPage]: [extractTextContent], [parseStatusResponse],
    [parseLastCheckResult], [calculateProgress], [isStageCompleted],
    [getCurrentStage], [convertTimeToSeconds], [convertSecondsToTime],
    [getCurrentStageElapsedTime]) and the properties of it that the
    specification states.

    Conventions of the embedding.
    - A JavaScript string is the list of its UTF-16 code units ([jsstring]);
      a literal is written [lit "text"].
    - [undefined] is [None]; an optional field of a [Partial<...>] object is
      an [option].
    - A Number is a binary64 value: [Num z] is the double that holds the
      integer [z], and every operation rounds to the nearest double as the
      platform does (exact up to 2^53, [Infinity] from 2^1024). The
      percentage of [calculateProgress] is computed with the primitive
      binary64 floats.
    - A regular expression is a list of quantified character classes matched
      greedily with backtracking, as the ECMAScript matcher does. *)

From Stdlib Require Import String Ascii.
From Stdlib Require Import ZArith NArith List Bool Lia.
From Stdlib Require Import Floats Uint63.
Import ListNotations.
Open Scope Z_scope.
Set Warnings "-comment-terminator-in-string,-register-all".

(** ** Strings *)

Module JsString.

Definition jsstring := list N.

(** The code units of an ASCII literal. *)
Definition lit (s : string) : jsstring :=
  map N_of_ascii (list_ascii_of_string s).

(** Like [lit], with every apostrophe standing for a double quote
    (code unit 34), for literals that contain double quotes. *)
Definition litq (s : string) : jsstring :=
  map (fun c => if N.eqb c 39 then 34%N else c) (lit s).

Definition eqb (a b : jsstring) : bool :=
  if list_eq_dec N.eq_dec a b then true else false.

(** ECMAScript LineTerminator: LF, CR, LS, PS. *)
Definition is_line_terminator (c : N) : bool :=
  (N.eqb c 10 || N.eqb c 13 || N.eqb c 8232 || N.eqb c 8233)%bool.

(** ECMAScript WhiteSpace (TAB, VT, FF, SP, NBSP, ZWNBSP and the space
    separators) together with LineTerminator: what [\s] matches and what
    [trim] strips. *)
Definition is_space (c : N) : bool :=
  (N.eqb c 9 || N.eqb c 11 || N.eqb c 12 || N.eqb c 32 || N.eqb c 160
   || N.eqb c 5760 || (N.leb 8192 c && N.leb c 8202) || N.eqb c 8239
   || N.eqb c 8287 || N.eqb c 12288 || N.eqb c 65279
   || is_line_terminator c)%bool.

(** [\d] *)
Definition is_digit (c : N) : bool := (N.leb 48 c && N.leb c 57)%bool.

(** [\w] *)
Definition is_word (c : N) : bool :=
  (is_digit c || (N.leb 65 c && N.leb c 90) || (N.leb 97 c && N.leb c 122)
   || N.eqb c 95)%bool.

(** [.] (without the s flag) *)
Definition is_dot (c : N) : bool := negb (is_line_terminator c).

Fixpoint drop_while (p : N -> bool) (s : jsstring) : jsstring :=
  match s with
  | [] => []
  | c :: s' => if p c then drop_while p s' else s
  end.

Fixpoint take_while (p : N -> bool) (s : jsstring) : jsstring :=
  match s with
  | [] => []
  | c :: s' => if p c then c :: take_while p s' else []
  end.

Definition trimStart (s : jsstring) : jsstring := drop_while is_space s.
Definition trimEnd (s : jsstring) : jsstring := rev (drop_while is_space (rev s)).

(** [String.prototype.trim] *)
Definition trim (s : jsstring) : jsstring := trimEnd (trimStart s).

(** [String.prototype.startsWith] *)
Fixpoint startsWith (s p : jsstring) : bool :=
  match p, s with
  | [], _ => true
  | _ :: _, [] => false
  | a :: p', c :: s' => (N.eqb a c && startsWith s' p')%bool
  end.

(** [String.prototype.includes] *)
Fixpoint includes (s p : jsstring) : bool :=
  (startsWith s p ||
   match s with
   | [] => false
   | _ :: s' => includes s' p
   end)%bool.

(** [String.prototype.indexOf]: [None] is the result -1. *)
Fixpoint indexOf (s p : jsstring) : option nat :=
  if startsWith s p then Some O
  else match s with
       | [] => None
       | _ :: s' => option_map S (indexOf s' p)
       end.

(** [s.substring(n)] for [0 <= n]. *)
Definition substring_from (n : nat) (s : jsstring) : jsstring := skipn n s.

(** [s.substring(0, n)] *)
Definition substring_to (n : nat) (s : jsstring) : jsstring := firstn n s.

(** [s.split(sep)] for a one-unit separator: always at least one piece. *)
Fixpoint split (sep : N) (s : jsstring) : list jsstring :=
  match s with
  | [] => [[]]
  | c :: s' =>
      if N.eqb c sep then [] :: split sep s'
      else match split sep s' with
           | [] => [[c]]
           | l :: ls => (c :: l) :: ls
           end
  end.

(** Truthiness of a string: non-empty. *)
Definition nonempty (s : jsstring) : bool :=
  match s with [] => false | _ => true end.

End JsString.
Export JsString.

(** ** Regular expressions

    The patterns of the source are sequences of single characters and
    character classes, each taken once, [*] or [+], some of them captured.
    [match_here] is the backtracking matcher: a quantifier first takes as
    many characters as it can and gives them back one at a time when the rest
    of the pattern fails. *)

Module Regex.

Inductive quant := One | Star | Plus.

Record item := It { captured : bool; quantifier : quant; accepts : N -> bool }.

Definition regex := list item.

(** The result of a successful match: the captured groups in order, and the
    text after the match. *)
Definition matched := (list jsstring * jsstring)%type.

(** What is done once an item has taken [taken] (in reverse): the rest of
    the pattern, [k], is matched on [rest], and a captured item records what
    it took. *)
Definition conclude (cap : bool) (k : jsstring -> option matched)
    (taken rest : jsstring) : option matched :=
  match k rest with
  | Some (caps, r) => Some (if cap then rev taken :: caps else caps, r)
  | None => None
  end.

(** A quantified item: one more character is taken while it can be, and
    given back when what follows fails. *)
Fixpoint many (cap : bool) (a : N -> bool) (k : jsstring -> option matched)
    (taken s : jsstring) {struct s} : option matched :=
  match s with
  | c :: s' =>
      if a c then
        match many cap a k (c :: taken) s' with
        | Some r => Some r
        | None => conclude cap k taken s
        end
      else conclude cap k taken s
  | [] => conclude cap k taken s
  end.

Fixpoint match_here (re : regex) (s : jsstring) : option matched :=
  match re with
  | [] => Some ([], s)
  | It cap q a :: re' =>
      match q with
      | One =>
          match s with
          | c :: s' => if a c then conclude cap (match_here re') [c] s' else None
          | [] => None
          end
      | Star => many cap a (match_here re') [] s
      | Plus =>
          match s with
          | c :: s' => if a c then many cap a (match_here re') [c] s' else None
          | [] => None
          end
      end
  end.

(** A pattern that starts with [^]: matched at the start only. *)
Definition match_anchored (re : regex) (s : jsstring) : option matched :=
  match_here re s.

(** A pattern without [^]: the leftmost position where it matches. *)
Fixpoint search (re : regex) (s : jsstring) : option matched :=
  match match_here re s with
  | Some r => Some r
  | None => match s with
            | [] => None
            | _ :: s' => search re s'
            end
  end.

Definition test (o : option matched) : bool :=
  match o with Some _ => true | None => false end.

(** Pattern pieces. *)
Definition chr (c : N) : item := It false One (N.eqb c).
Definition str (s : string) : regex := map chr (lit s).
Definition star (p : N -> bool) : item := It false Star p.
Definition plus (p : N -> bool) : item := It false Plus p.
Definition group (i : item) : item := It true (quantifier i) (accepts i).

End Regex.
Export Regex.

(** ** Numbers

    A Number is an IEEE 754 binary64 value. [Num z] is the double whose
    value is the integer [z]; the few values of the code that need not be
    integers (a quotient before [Math.floor] is taken) are of type
    [double]. Every operation gives the double nearest to the exact
    result, a tie going to the even mantissa, and [Infinity] from 2^1024
    on, as the arithmetic of the platform does. *)

Inductive jsnum :=
| Num (z : Z)
| NaN
| Infinity (negative : bool).

(** A double that need not be an integer: [Dy m s] is [m / 2^s]. *)
Inductive double :=
| Dy (m s : Z)
| DInfinity (negative : bool)
| DNaN.

(** [num / den * 2^s] as a fraction. *)
Definition scaled (num den s : Z) : Z * Z :=
  if 0 <=? s then (num * 2 ^ s, den) else (num, den * 2 ^ (- s)).

(** The integer nearest to [n / d], a tie going to the even one. *)
Definition round_half_even (n d : Z) : Z :=
  let t := n / d in
  let r := n mod d in
  if ((d <? 2 * r) || ((2 * r =? d) && Z.odd t))%bool then t + 1 else t.

(** The scale of the double nearest to [num / den > 0]: the [s] with
    [2^52 <= num / den * 2^s < 2^53] (a mantissa of 53 bits), and 1074 for
    what lies below the normal numbers. *)
Definition scale_of (num den : Z) : Z :=
  let s0 := 52 - (Z.log2 num - Z.log2 den) in
  let '(n, d) := scaled num den s0 in
  Z.min 1074 (if n / d <? 2 ^ 52 then s0 + 1 else s0).

(** The double nearest to [num / den], for [den > 0]. *)
Definition nearest (num den : Z) : double :=
  if num =? 0 then Dy 0 0
  else
    let s := scale_of (Z.abs num) den in
    let '(n, d) := scaled (Z.abs num) den s in
    let m := round_half_even n d in
    if ((s <? -971) || ((s =? -971) && (m =? 2 ^ 53)))%bool
    then DInfinity (num <? 0)
    else Dy (Z.sgn num * m) s.

(** [Math.floor] *)
Definition Math_floor (x : double) : jsnum :=
  match x with
  | Dy m s => Num (if 0 <=? s then m / 2 ^ s else m * 2 ^ (- s))
  | DInfinity b => Infinity b
  | DNaN => NaN
  end.

(** The double nearest to the integer [z]: [z] itself up to 2^53, an
    integer with a mantissa of 53 bits beyond, [Infinity] from 2^1024. *)
Definition round64 (z : Z) : jsnum := Math_floor (nearest z 1).

(** The value of a digit in radix up to 36. *)
Definition digit_value (c : N) : option Z :=
  if is_digit c then Some (Z.of_N c - 48)
  else if (N.leb 97 c && N.leb c 122)%bool then Some (Z.of_N c - 87)
  else if (N.leb 65 c && N.leb c 90)%bool then Some (Z.of_N c - 55)
  else None.

Definition in_radix (r : Z) (c : N) : bool :=
  match digit_value c with Some d => d <? r | None => false end.

Definition radix_value (r : Z) (ds : jsstring) : Z :=
  fold_left (fun acc c => match digit_value c with
                          | Some d => r * acc + d
                          | None => acc
                          end) ds 0.

(** The sign of a numeral and the text after it. *)
Definition read_sign (s : jsstring) : bool * jsstring :=
  match s with
  | 45%N :: r => (true, r)
  | 43%N :: r => (false, r)
  | _ => (false, s)
  end.

(** The radix of a numeral and the text of its digits: a [0x] prefix
    selects radix 16 when no radix (or 16) is asked for. *)
Definition read_radix (radix : option Z) (s : jsstring) : Z * jsstring :=
  let hex_allowed := match radix with None => true | Some r => r =? 16 end in
  let given := match radix with None => 10 | Some r => r end in
  match s with
  | 48%N :: x :: rest =>
      if (hex_allowed && (N.eqb x 120 || N.eqb x 88))%bool then (16, rest)
      else (given, s)
  | _ => (given, s)
  end.

(** [parseInt(s, radix)]; [radix = None] is the call with one argument.
    Leading white space is skipped, a sign is read, and the longest prefix
    of digits of the radix is the numeral; no digit gives [NaN], and the
    result is the double nearest to the integer that the numeral
    denotes. *)
Definition parseInt (s : jsstring) (radix : option Z) : jsnum :=
  let signed := read_sign (trimStart s) in
  let numeral := read_radix radix (snd signed) in
  let ds := take_while (in_radix (fst numeral)) (snd numeral) in
  match ds with
  | [] => NaN
  | _ => round64 (if fst signed then - radix_value (fst numeral) ds
                  else radix_value (fst numeral) ds)
  end.

Definition isNaN (n : jsnum) : bool :=
  match n with NaN => true | _ => false end.

(** Arithmetic and comparisons of Numbers that hold integers: the exact
    result, rounded. *)
Definition jadd (a b : jsnum) : jsnum :=
  match a, b with
  | Num x, Num y => round64 (x + y)
  | NaN, _ | _, NaN => NaN
  | Infinity s, Infinity t => if Bool.eqb s t then Infinity s else NaN
  | Infinity s, Num _ | Num _, Infinity s => Infinity s
  end.

Definition jmul (a b : jsnum) : jsnum :=
  match a, b with
  | Num x, Num y => round64 (x * y)
  | NaN, _ | _, NaN => NaN
  | Infinity s, Infinity t => Infinity (xorb s t)
  | Infinity s, Num y | Num y, Infinity s =>
      if y =? 0 then NaN else Infinity (xorb s (y <? 0))
  end.

(** [a < b] *)
Definition jlt (a b : jsnum) : bool :=
  match a, b with
  | Num x, Num y => x <? y
  | NaN, _ | _, NaN => false
  | Infinity s, Infinity t => (s && negb t)%bool
  | Infinity s, Num _ => s
  | Num _, Infinity s => negb s
  end.

(** [a === b] on Numbers *)
Definition jeq (a b : jsnum) : bool :=
  match a, b with
  | Num x, Num y => x =? y
  | Infinity s, Infinity t => Bool.eqb s t
  | _, _ => false
  end.

(** [a <= b], [a > b], [a >= b] *)
Definition jle (a b : jsnum) : bool := (jlt a b || jeq a b)%bool.
Definition jgt (a b : jsnum) : bool := jlt b a.
Definition jge (a b : jsnum) : bool := jle b a.

(** [a / d] for a positive integer [d] *)
Definition div64 (a : jsnum) (d : Z) : double :=
  match a with
  | Num x => nearest x d
  | Infinity b => DInfinity b
  | NaN => DNaN
  end.

(** [a + b] for a [b] that need not be an integer *)
Definition add64 (a : jsnum) (b : double) : double :=
  match a, b with
  | Num x, Dy m s =>
      if 0 <=? s then nearest (x * 2 ^ s + m) (2 ^ s)
      else nearest (x + m * 2 ^ (- s)) 1
  | NaN, _ | _, DNaN => DNaN
  | Infinity s, DInfinity t => if Bool.eqb s t then DInfinity s else DNaN
  | Infinity s, Dy _ _ => DInfinity s
  | Num _, DInfinity t => DInfinity t
  end.

(** [Math.floor(a / d)] for a positive integer [d]. *)
Definition floor_div (a : jsnum) (d : Z) : jsnum := Math_floor (div64 a d).

(** [a % d] for a positive integer [d]: the remainder has the sign of [a]
    and is exact. *)
Definition jrem (a : jsnum) (d : Z) : jsnum :=
  match a with
  | Num x => Num (Z.rem x d)
  | _ => NaN
  end.

(** The decimal digits of a non-negative integer, most significant first. *)
Fixpoint digits_aux (fuel : nat) (n : Z) (acc : jsstring) : jsstring :=
  match fuel with
  | O => acc
  | S f =>
      let acc' := Z.to_N (48 + n mod 10) :: acc in
      if n <? 10 then acc' else digits_aux f (n / 10) acc'
  end.

Definition digits (n : Z) : jsstring :=
  digits_aux (S (Z.to_nat (Z.log2 n))) n [].

(** The decimal with the fewest digits that reads back as the double [a]:
    with [k] significant digits the candidates are the two multiples of
    [10^(len - k)] next to [a], and the one nearer to [a] is taken when
    both read back as [a]. With all the [len] digits of [a] the decimal is
    [a] itself. *)
Fixpoint shortest_from (fuel : nat) (k a len : Z) : Z :=
  match fuel with
  | O => a
  | S f =>
      let p := 10 ^ (len - k) in
      let lo := a / p * p in
      let hi := lo + p in
      let ok_lo := jeq (round64 lo) (Num a) in
      let ok_hi := jeq (round64 hi) (Num a) in
      if (ok_lo && ok_hi)%bool then (if a - lo <=? hi - a then lo else hi)
      else if ok_lo then lo
      else if ok_hi then hi
      else shortest_from f (k + 1) a len
  end.

Definition shortest (a : Z) : Z :=
  shortest_from (length (digits a)) 1 a (Z.of_nat (length (digits a))).

Fixpoint strip_zeros (reversed : jsstring) : jsstring :=
  match reversed with
  | 48%N :: r => strip_zeros r
  | _ => reversed
  end.

(** [d.ddde+n]: the digits without the zeros at the end, and the number of
    the digits after the first. *)
Definition exponent_text (c : Z) : jsstring :=
  let ds := digits c in
  let e := digits (Z.of_nat (length ds) - 1) in
  match rev (strip_zeros (rev ds)) with
  | [] => ds
  | [d] => d :: lit "e+" ++ e
  | d :: fraction => d :: lit "." ++ fraction ++ lit "e+" ++ e
  end.

(** [String(n)] (a template literal's conversion) of a double that holds
    the integer [n]: the digits of the shortest decimal that reads back as
    it, in exponent notation from 10^21 on. An integer up to 2^53 is
    printed with all its digits. *)
Definition NumberToString (n : Z) : jsstring :=
  let text a :=
    let c := shortest a in
    if c <? 10 ^ 21 then digits c else exponent_text c in
  if n <? 0 then 45%N :: text (- n) else text n.

(** [String(a)] *)
Definition ToString (a : jsnum) : jsstring :=
  match a with
  | Num x => NumberToString x
  | NaN => lit "NaN"
  | Infinity s => if s then lit "-Infinity" else lit "Infinity"
  end.

(** ** Durations *)

(** [/(\d+)h/], [/(\d+)m/], [/(\d+)s/] *)
Definition re_amount (unit : string) : regex :=
  group (plus is_digit) :: str unit.

(** [m ? parseInt(m[1]) : 0] for [m = timeStr.match(re)] *)
Definition amount (re : regex) (timeStr : jsstring) : jsnum :=
  match search re timeStr with
  | Some (d :: _, _) => parseInt d None
  | _ => Num 0
  end.

Definition convertTimeToSeconds (timeStr : jsstring) : jsnum :=
  if (negb (nonempty timeStr) || JsString.eqb timeStr (lit "''")
      || JsString.eqb timeStr (lit "Not started"))%bool
  then Num 0
  else
    let hours := amount (re_amount "h") timeStr in
    let minutes := amount (re_amount "m") timeStr in
    let seconds := amount (re_amount "s") timeStr in
    jadd (jadd (jmul hours (Num 3600)) (jmul minutes (Num 60))) seconds.

Definition convertSecondsToTime (totalSeconds : jsnum) : jsstring :=
  if jle totalSeconds (Num 0) then lit "0s"
  else
    let hours := floor_div totalSeconds 3600 in
    let minutes := floor_div (jrem totalSeconds 3600) 60 in
    let seconds := jrem totalSeconds 60 in
    let result := [] in
    let result :=
      if jgt hours (Num 0) then result ++ ToString hours ++ lit "h "
      else result in
    let result :=
      if jgt minutes (Num 0) then result ++ ToString minutes ++ lit "m "
      else result in
    let result :=
      if (jgt seconds (Num 0)
          || (jeq hours (Num 0) && jeq minutes (Num 0)))%bool
      then result ++ ToString seconds ++ lit "s"
      else result in
    trim result.

(** ** The status record *)

(** [Partial<Stage>]: [index] is set when the object is created, every other
    field only by its property line. *)
Record Stage := mkStage {
  index : jsnum;
  title : option jsstring;
  reached : option bool;
  fail_count : option jsnum;
  is_skipped : option bool;
  time_cost : option jsstring;
  needs_human_check : option bool
}.

(** A JavaScript object used as a map from strings to ['a]: its own
    properties in the order in which they are enumerated, the array
    indices (the canonical numerals below 2^32 - 1) first and in ascending
    order, then the other keys in the order of their creation. Assigning a
    string to the key [__proto__] is ignored by the engine. *)
Definition dict (A : Type) := list (jsstring * A).

Fixpoint dict_get {A} (k : jsstring) (d : dict A) : option A :=
  match d with
  | [] => None
  | (k', v) :: d' => if JsString.eqb k k' then Some v else dict_get k d'
  end.

(** The number of a key that is an array index. *)
Definition array_index (k : jsstring) : option Z :=
  let n := radix_value 10 k in
  if (forallb is_digit k && JsString.eqb k (digits n) && (n <? 2 ^ 32 - 1))%bool
  then Some n else None.

(** The value of a property that exists is replaced where it is. *)
Fixpoint dict_replace {A} (k : jsstring) (v : A) (d : dict A) : dict A :=
  match d with
  | [] => []
  | (k', v') :: d' =>
      if JsString.eqb k k' then (k', v) :: d' else (k', v') :: dict_replace k v d'
  end.

(** A new array index goes before the first key that is not a smaller
    array index. *)
Fixpoint dict_insert {A} (n : Z) (k : jsstring) (v : A) (d : dict A)
  : dict A :=
  match d with
  | [] => [(k, v)]
  | (k', v') :: d' =>
      match array_index k' with
      | Some n' =>
          if n' <? n then (k', v') :: dict_insert n k v d' else (k, v) :: d
      | None => (k, v) :: d
      end
  end.

(** [obj[k] = v] *)
Definition dict_put {A} (k : jsstring) (v : A) (d : dict A) : dict A :=
  match dict_get k d with
  | Some _ => dict_replace k v d
  | None =>
      match array_index k with
      | Some n => dict_insert n k v d
      | None => d ++ [(k, v)]
      end
  end.

(** [obj[k] = v] for a string [v] *)
Definition dict_set_string {A} (inj : jsstring -> A) (k v : jsstring)
    (d : dict A) : dict A :=
  if JsString.eqb k (lit "__proto__") then d else dict_put k (inj v) d.

Record TaskInfo := mkTask {
  task_title : jsstring;
  description : list jsstring;
  reference_files : dict jsstring;
  output_files : list jsstring
}.

(** The declared type of [current_task]: the object or a string. *)
Inductive CurrentTask :=
| TaskObject (t : TaskInfo)
| TaskString (s : jsstring).

(** Values stored in an entry of [check_info]. *)
Inductive ci_value :=
| CStr (s : jsstring)
| CNum (n : jsnum)
| CArr (l : list jsstring).

Record CheckResult := mkCheck {
  check_pass : option bool;
  check_info : option (list (dict ci_value))
}.

(** [Partial<AgentStatus>] *)
Record AgentStatus := mkStatus {
  mission : option jsstring;
  stage_list : list Stage;
  process : option jsstring;
  current_task : CurrentTask;
  current_stage_index : option jsnum;
  current_stage_name : option jsstring;
  last_check_result : option CheckResult
}.

(** What a call does: it returns, it throws, or the model's loop ran out of
    fuel. *)
Inductive run (A : Type) :=
| Returned (a : A)
| Threw (what : jsstring)
| OutOfFuel.
Arguments Returned {A} a.
Arguments Threw {A} what.
Arguments OutOfFuel {A}.

Definition bind {A B} (r : run A) (k : A -> run B) : run B :=
  match r with
  | Returned a => k a
  | Threw e => Threw e
  | OutOfFuel => OutOfFuel
  end.

(** [arr[n]] for a Number [n]: an element, or [undefined]. *)
Definition array_get {A} (l : list A) (n : jsnum) : option A :=
  match n with
  | Num z => if z <? 0 then None else nth_error l (Z.to_nat z)
  | _ => None
  end.

(** ** The status-text parser *)

(** The patterns of [parseStatusResponse] and [parseLastCheckResult]. *)
Definition re_stage_start : regex :=          (* "/^\s*-\s+index:/" *)
  [star is_space] ++ str "-" ++ [plus is_space] ++ str "index:".
Definition re_index : regex :=                (* "/index:\s*(\d+)/" *)
  str "index:" ++ [star is_space; group (plus is_digit)].
Definition re_property : regex :=             (* "/^\s+(\w+):\s*(.*)/" *)
  [plus is_space; group (plus is_word)] ++ str ":"
  ++ [star is_space; group (star is_dot)].
Definition re_key : regex :=                  (* "/^\w+:/" *)
  [plus is_word] ++ str ":".
Definition re_list_item : regex :=            (* "/^\s*-\s+/" *)
  [star is_space] ++ str "-" ++ [plus is_space].
Definition re_indent : regex :=               (* "/^\s+/" *)
  [plus is_space].
Definition re_name_start : regex :=           (* "/^\s*-\s+name:/" *)
  [star is_space] ++ str "-" ++ [plus is_space] ++ str "name:".
Definition re_name : regex :=                 (* "/name:\s*(.+)/" *)
  str "name:" ++ [star is_space; group (plus is_dot)].
Definition re_array_item : regex :=           (* "/^\s*-\s+(.+)/" *)
  [star is_space] ++ str "-" ++ [plus is_space; group (plus is_dot)].

(** [line.replace(re, '')] for an anchored [re]. *)
Definition remove_match (re : regex) (line : jsstring) : jsstring :=
  match match_anchored re line with
  | Some (_, rest) => rest
  | None => line
  end.

(** *** [parseLastCheckResult] *)

Record lcr_state := mkLcr {
  lcr_result : CheckResult;
  insideCheckInfo : bool;
  checkInfoArray : list (dict ci_value)
}.

(** Truthiness of a property read off an entry. *)
Definition ci_truthy (v : option ci_value) : bool :=
  match v with
  | None => false
  | Some (CStr s) => nonempty s
  | Some (CNum n) => negb (isNaN n || jeq n (Num 0))
  | Some (CArr _) => true
  end.

(** [currentObj.last_msg.push(x)]: a method call on whatever [last_msg]
    holds; only an array has [push]. *)
Definition push_last_msg (x : jsstring) (obj : dict ci_value)
  : run (dict ci_value) :=
  match dict_get (lit "last_msg") obj with
  | Some (CArr l) => Returned (dict_put (lit "last_msg") (CArr (l ++ [x])) obj)
  | _ => Threw (lit "TypeError: currentObj.last_msg.push is not a function")
  end.

(** The body of the loop for one line that is neither blank nor the start of
    the next top-level property. *)
Definition lcr_line (line : jsstring) (st : lcr_state) : run lcr_state :=
  let trimmedLine := trim line in
  if JsString.eqb trimmedLine (lit "check_info:") then
    Returned (mkLcr (lcr_result st) true (checkInfoArray st))
  else if insideCheckInfo st then
    if test (match_anchored re_name_start line) then
      match search re_name line with
      | Some (name :: _, _) =>
          Returned (mkLcr (lcr_result st) true
                      (checkInfoArray st ++ [[(lit "name", CStr (trim name))]]))
      | _ => Returned st
      end
    else
      match rev (checkInfoArray st) with
      | [] => Returned st
      | currentObj :: before =>
          let store obj :=
            Returned (mkLcr (lcr_result st) true (rev (obj :: before))) in
          match match_anchored re_property line with
          | Some (property :: value :: _, _) =>
              let value := trim value in
              if (JsString.eqb property (lit "last_msg")
                  || JsString.eqb property (lit "description"))%bool
              then store (dict_put property (CArr []) currentObj)
              else if (JsString.eqb property (lit "count_pass")
                       || JsString.eqb property (lit "count_fail")
                       || JsString.eqb property (lit "count_check"))%bool
              then store (dict_put property
                            (CNum (parseInt value (Some 10))) currentObj)
              else store (dict_set_string CStr property value currentObj)
          | _ =>
              if ((test (match_anchored re_list_item line)
                   && includes line (lit "last_msg:"))
                  || includes line (lit "description:"))%bool
              then
                match match_anchored re_array_item line with
                | Some (item :: _, _) =>
                    let obj :=
                      if ci_truthy (dict_get (lit "last_msg") currentObj)
                      then currentObj
                      else dict_put (lit "last_msg") (CArr []) currentObj in
                    bind (push_last_msg (trim item) obj) store
                | _ => Returned st
                end
              else Returned st
          end
      end
  else if startsWith trimmedLine (lit "check_pass:") then
    let v := trim (substring_from 11 trimmedLine) in
    Returned (mkLcr (mkCheck (Some (JsString.eqb v (lit "true")))
                       (check_info (lcr_result st)))
                false (checkInfoArray st))
  else Returned st.

Fixpoint lcr_loop (lines : list jsstring) (st : lcr_state) : run lcr_state :=
  match lines with
  | [] => Returned st
  | line :: rest =>
      let trimmedLine := trim line in
      if negb (nonempty trimmedLine) then lcr_loop rest st
      else if (nonempty line && negb (test (match_anchored re_indent line))
               && negb (startsWith trimmedLine (lit "- "))
               && includes trimmedLine (lit ":"))%bool
      then Returned st
      else bind (lcr_line line st) (lcr_loop rest)
  end.

Definition parseLastCheckResult (lines : list jsstring) : run CheckResult :=
  bind (lcr_loop lines (mkLcr (mkCheck None None) false []))
    (fun st =>
       Returned
         (match checkInfoArray st with
          | [] => lcr_result st
          | arr => mkCheck (check_pass (lcr_result st)) (Some arr)
          end)).

(** *** [parseStatusResponse] *)

Inductive section := SecStageList | SecCurrentTask.
Inductive subsection := SubDescription | SubReferenceFiles | SubOutputFiles.

Definition section_eqb (a : option section) (b : section) : bool :=
  match a, b with
  | Some SecStageList, SecStageList => true
  | Some SecCurrentTask, SecCurrentTask => true
  | _, _ => false
  end.

Definition subsection_eqb (a : option subsection) (b : subsection) : bool :=
  match a, b with
  | Some SubDescription, SubDescription => true
  | Some SubReferenceFiles, SubReferenceFiles => true
  | Some SubOutputFiles, SubOutputFiles => true
  | _, _ => false
  end.

(** The local variables of [parseStatusResponse]. *)
Record pstate := mkP {
  result : AgentStatus;
  currentSection : option section;
  currentSubsection : option subsection;
  currentStage : option Stage
}.

Definition set_result (r : AgentStatus) (st : pstate) : pstate :=
  mkP r (currentSection st) (currentSubsection st) (currentStage st).
Definition set_section (s : option section) (st : pstate) : pstate :=
  mkP (result st) s (currentSubsection st) (currentStage st).
Definition set_subsection (s : option subsection) (st : pstate) : pstate :=
  mkP (result st) (currentSection st) s (currentStage st).
Definition set_stage (s : option Stage) (st : pstate) : pstate :=
  mkP (result st) (currentSection st) (currentSubsection st) s.

Definition set_mission v (r : AgentStatus) : AgentStatus :=
  mkStatus (Some v) (stage_list r) (process r) (current_task r)
    (current_stage_index r) (current_stage_name r) (last_check_result r).
Definition set_stage_list v (r : AgentStatus) : AgentStatus :=
  mkStatus (mission r) v (process r) (current_task r)
    (current_stage_index r) (current_stage_name r) (last_check_result r).
Definition set_process v (r : AgentStatus) : AgentStatus :=
  mkStatus (mission r) (stage_list r) (Some v) (current_task r)
    (current_stage_index r) (current_stage_name r) (last_check_result r).
Definition set_current_task v (r : AgentStatus) : AgentStatus :=
  mkStatus (mission r) (stage_list r) (process r) v
    (current_stage_index r) (current_stage_name r) (last_check_result r).
Definition set_current_stage_index v (r : AgentStatus) : AgentStatus :=
  mkStatus (mission r) (stage_list r) (process r) (current_task r)
    (Some v) (current_stage_name r) (last_check_result r).
Definition set_current_stage_name v (r : AgentStatus) : AgentStatus :=
  mkStatus (mission r) (stage_list r) (process r) (current_task r)
    (current_stage_index r) (Some v) (last_check_result r).
Definition set_last_check_result v (r : AgentStatus) : AgentStatus :=
  mkStatus (mission r) (stage_list r) (process r) (current_task r)
    (current_stage_index r) (current_stage_name r) (Some v).

Definition set_index v (s : Stage) : Stage :=
  mkStage v (title s) (reached s) (fail_count s) (is_skipped s)
    (time_cost s) (needs_human_check s).
Definition set_title v (s : Stage) : Stage :=
  mkStage (index s) (Some v) (reached s) (fail_count s) (is_skipped s)
    (time_cost s) (needs_human_check s).
Definition set_reached v (s : Stage) : Stage :=
  mkStage (index s) (title s) (Some v) (fail_count s) (is_skipped s)
    (time_cost s) (needs_human_check s).
Definition set_fail_count v (s : Stage) : Stage :=
  mkStage (index s) (title s) (reached s) (Some v) (is_skipped s)
    (time_cost s) (needs_human_check s).
Definition set_is_skipped v (s : Stage) : Stage :=
  mkStage (index s) (title s) (reached s) (fail_count s) (Some v)
    (time_cost s) (needs_human_check s).
Definition set_time_cost v (s : Stage) : Stage :=
  mkStage (index s) (title s) (reached s) (fail_count s) (is_skipped s)
    (Some v) (needs_human_check s).
Definition set_needs_human_check v (s : Stage) : Stage :=
  mkStage (index s) (title s) (reached s) (fail_count s) (is_skipped s)
    (time_cost s) (Some v).

(** [{ index: -1 }] *)
Definition new_stage : Stage :=
  mkStage (Num (-1)) None None None None None None.

(** [if (result.current_task && typeof result.current_task === 'object')]
    then update the object. *)
Definition update_task (f : TaskInfo -> TaskInfo) (r : AgentStatus)
  : AgentStatus :=
  match current_task r with
  | TaskObject t => set_current_task (TaskObject (f t)) r
  | TaskString _ => r
  end.

(** Truthiness of [result.current_task]. *)
Definition task_truthy (t : CurrentTask) : bool :=
  match t with
  | TaskObject _ => true
  | TaskString s => nonempty s
  end.

(** The search, after a [last_check_result:] line at [i], for the next line
    that is not blank and not indented: [j] runs over the lines after [i]
    ([rest] are the lines from [j] on), and the result is the new [i]. *)
Fixpoint skip_block (rest : list jsstring) (len j i : nat) : nat :=
  match rest with
  | [] => i
  | l :: rest' =>
      if (nonempty (trim l) && negb (test (match_anchored re_indent l)))%bool
      then (j - 1)%nat
      else skip_block rest' len (S j)
             (if Nat.eqb j (len - 1) then j else i)
  end.

(** The stage-property switch. *)
Definition stage_property (property value : jsstring) (s : Stage) : Stage :=
  if JsString.eqb property (lit "title") then set_title value s
  else if JsString.eqb property (lit "reached")
  then set_reached (JsString.eqb value (lit "true")) s
  else if JsString.eqb property (lit "fail_count")
  then set_fail_count (parseInt value (Some 10)) s
  else if JsString.eqb property (lit "is_skipped")
  then set_is_skipped (JsString.eqb value (lit "true")) s
  else if JsString.eqb property (lit "time_cost") then set_time_cost value s
  else if JsString.eqb property (lit "needs_human_check")
  then set_needs_human_check (JsString.eqb value (lit "true")) s
  else s.

(** The branch [currentSection === 'stage_list']. *)
Definition stage_list_line (line trimmedLine : jsstring) (st : pstate)
  : pstate :=
  if test (match_anchored re_stage_start line) then
    let st :=
      match currentStage st with
      | Some s =>
          set_result (set_stage_list (stage_list (result st) ++ [s])
                        (result st)) st
      | None => st
      end in
    let s := new_stage in
    let s :=
      match search re_index line with
      | Some (d :: _, _) => set_index (parseInt d (Some 10)) s
      | _ => s
      end in
    set_stage (Some s) st
  else
    match currentStage st with
    | Some s =>
        match match_anchored re_property line with
        | Some (property :: value :: _, _) =>
            set_stage (Some (stage_property property (trim value) s)) st
        | _ =>
            if test (match_anchored re_key trimmedLine)
            then set_subsection None (set_section None st)
            else st
        end
    | None => st
    end.

(** The branch [currentSection === 'current_task']. *)
Definition current_task_line (line trimmedLine : jsstring) (st : pstate)
  : pstate :=
  let is_item := test (match_anchored re_list_item line) in
  if startsWith trimmedLine (lit "title:") then
    set_result
      (update_task
         (fun t => mkTask (trim (substring_from 6 trimmedLine))
                     (description t) (reference_files t) (output_files t))
         (result st)) st
  else if JsString.eqb trimmedLine (lit "description:") then
    set_subsection (Some SubDescription) st
  else if (subsection_eqb (currentSubsection st) SubDescription
           && is_item)%bool then
    let descItem := trim (remove_match re_list_item line) in
    if nonempty descItem then
      set_result
        (update_task
           (fun t => mkTask (task_title t) (description t ++ [descItem])
                       (reference_files t) (output_files t))
           (result st)) st
    else st
  else if JsString.eqb trimmedLine (lit "reference_files:") then
    set_subsection (Some SubReferenceFiles) st
  else if (subsection_eqb (currentSubsection st) SubReferenceFiles
           && is_item)%bool then
    let fileEntry := trim (remove_match re_list_item line) in
    let '(file, status) :=
      match indexOf fileEntry (lit ": ") with
      | Some colonIndex =>
          (substring_to colonIndex fileEntry,
           substring_from (colonIndex + 2) fileEntry)
      | None => (fileEntry, lit "Not Read")
      end in
    set_result
      (update_task
         (fun t => mkTask (task_title t) (description t)
                     (dict_set_string (fun s => s) file status
                        (reference_files t))
                     (output_files t))
         (result st)) st
  else if JsString.eqb trimmedLine (lit "output_files:") then
    set_subsection (Some SubOutputFiles) st
  else if (subsection_eqb (currentSubsection st) SubOutputFiles
           && is_item)%bool then
    let file := trim (remove_match re_list_item line) in
    if nonempty file then
      set_result
        (update_task
           (fun t => mkTask (task_title t) (description t)
                       (reference_files t) (output_files t ++ [file]))
           (result st)) st
    else st
  else if test (match_anchored re_key trimmedLine) then
    set_subsection None (set_section None st)
  else st.

(** The body of the [for] loop at index [i]: the index the body leaves in
    [i] and the new values of the local variables. *)
Definition body (lines : list jsstring) (i : nat) (st : pstate)
  : run (nat * pstate) :=
  let line := nth i lines [] in
  let trimmedLine := trim line in
  let r := result st in
  if negb (nonempty trimmedLine) then Returned (i, st)
  else if startsWith trimmedLine (lit "mission:") then
    Returned (i, set_section None
                   (set_result
                      (set_mission (trim (substring_from 8 trimmedLine)) r) st))
  else if startsWith trimmedLine (lit "process:") then
    Returned (i, set_section None
                   (set_result
                      (set_process (trim (substring_from 8 trimmedLine)) r) st))
  else if startsWith trimmedLine (lit "current_stage_index:") then
    let value := trim (substring_from 20 trimmedLine) in
    let idx :=
      if (nonempty value && negb (isNaN (parseInt value (Some 10))))%bool
      then parseInt value (Some 10)
      else Num (-1) in
    Returned (i, set_section None
                   (set_result (set_current_stage_index idx r) st))
  else if startsWith trimmedLine (lit "current_stage_name:") then
    Returned (i, set_section None
                   (set_result
                      (set_current_stage_name
                         (trim (substring_from 19 trimmedLine)) r) st))
  else if startsWith trimmedLine (lit "last_check_result:") then
    bind (parseLastCheckResult (skipn i lines))
      (fun lcr =>
         Returned (skip_block (skipn (S i) lines) (length lines) (S i) i,
                   set_section None
                     (set_result (set_last_check_result lcr r) st)))
  else if JsString.eqb trimmedLine (lit "stage_list:") then
    Returned (i, set_section (Some SecStageList) st)
  else if startsWith trimmedLine (lit "current_task:") then
    let currentTaskValue := trim (substring_from 13 trimmedLine) in
    if (nonempty currentTaskValue
        && negb (JsString.eqb currentTaskValue []))%bool then
      if task_truthy (current_task r) then
        Returned (i, set_result
                       (set_current_task
                          (TaskObject
                             (mkTask currentTaskValue
                                [lit "Mission completed or no active task"]
                                [] []))
                          r) st)
      else Returned (i, st)
    else Returned (i, set_section (Some SecCurrentTask) st)
  else if section_eqb (currentSection st) SecStageList then
    Returned (i, stage_list_line line trimmedLine st)
  else if section_eqb (currentSection st) SecCurrentTask then
    Returned (i, current_task_line line trimmedLine st)
  else Returned (i, st).

(** [for (let i = 0; i < lines.length; i++) body] *)
Fixpoint loop (fuel : nat) (lines : list jsstring) (i : nat) (st : pstate)
  : run pstate :=
  if Nat.leb (length lines) i then Returned st
  else match fuel with
       | O => OutOfFuel
       | S fuel' =>
           bind (body lines i st)
             (fun '(i', st') => loop fuel' lines (S i') st')
       end.

Definition initial_task : TaskInfo := mkTask [] [] [] [].

Definition initial_state : pstate :=
  mkP (mkStatus None [] None (TaskObject initial_task) None None None)
    None None None.

(** The statements after the loop. *)
Definition after_loop (st : pstate) : AgentStatus :=
  match currentStage st with
  | Some s => set_stage_list (stage_list (result st) ++ [s]) (result st)
  | None => result st
  end.

Definition parseLines (lines : list jsstring) : run AgentStatus :=
  bind (loop (length lines) lines 0 initial_state)
    (fun st => Returned (after_loop st)).

Definition parseStatusResponse (statusText : jsstring) : run AgentStatus :=
  parseLines (split 10 statusText).

(** ** Progress and elapsed time

    The functions below read the component's state: [status] (an
    [AgentStatus] or [null]) and [lastFetchTime] (a time stamp or [null]);
    they take it as an argument. *)

Definition re_process : regex :=              (* "/(\d+)\/(\d+)/" *)
  [group (plus is_digit)] ++ str "/" ++ [group (plus is_digit)].

(** [x === true] for an optional boolean field. *)
Definition is_true (o : option bool) : bool :=
  match o with Some true => true | _ => false end.

(** [stage?.reached === true || stage?.is_skipped === true] for
    [stage = status.stage_list[stageIndex]]. *)
Definition reached_or_skipped_at (status : AgentStatus) (stageIndex : jsnum)
  : bool :=
  match array_get (stage_list status) stageIndex with
  | Some stage => (is_true (reached stage) || is_true (is_skipped stage))%bool
  | None => false
  end.

(** The test on [status.process]: it matches [a/b] with
    [a >= b && a > 0]. *)
Definition process_complete (status : AgentStatus) : bool :=
  match process status with
  | Some p =>
      match search re_process p with
      | Some (c :: t :: _, _) =>
          let completedCount := parseInt c (Some 10) in
          let totalCount := parseInt t (Some 10) in
          (jge completedCount totalCount && jgt completedCount (Num 0))%bool
      | _ => false
      end
  | None => false
  end.

Definition isStageCompleted (status : option AgentStatus) (stageIndex : jsnum)
  : bool :=
  match status with
  | None => false
  | Some status =>
      if process_complete status then reached_or_skipped_at status stageIndex
      else
        match current_stage_index status with
        | Some csi =>
            if negb (jeq csi (Num (-1))) then jlt stageIndex csi
            else reached_or_skipped_at status stageIndex
        | None => reached_or_skipped_at status stageIndex
        end
  end.

(** The Number of a count. *)
Definition float_of_nat (n : nat) : float :=
  PrimFloat.of_uint63 (Uint63.of_Z (Z.of_nat n)).

(** [Math.round]: the integer nearest to [x], a tie going up. *)
Definition Math_round (x : float) : jsnum :=
  match Prim2SF x with
  | S754_zero _ => Num 0
  | S754_finite s m e =>
      let n := if s then Z.neg m else Z.pos m in
      Num (if 0 <=? e then n * 2 ^ e else (2 * n + 2 ^ (- e)) / 2 ^ (1 - e))
  | S754_infinity s => Infinity s
  | S754_nan => NaN
  end.

Definition completedStages (status : AgentStatus) : nat :=
  length (filter (fun stage => isStageCompleted (Some status) (index stage))
            (stage_list status)).

Definition calculateProgress (status : option AgentStatus) : jsnum :=
  match status with
  | None => Num 0
  | Some st =>
      if Nat.eqb (length (stage_list st)) 0 then Num 0
      else
        let totalStages := float_of_nat (length (stage_list st)) in
        let completed := float_of_nat (completedStages st) in
        Math_round (PrimFloat.mul (PrimFloat.div completed totalStages) 100)
  end.

(** [null] and [undefined] are both [None]. *)
Definition getCurrentStage (status : option AgentStatus) : option Stage :=
  match status with
  | None => None
  | Some st =>
      match current_stage_index st with
      | None => None
      | Some csi => array_get (stage_list st) csi
      end
  end.

(** [currentStage.time_cost || '0s'] *)
Definition time_cost_or_0s (s : Stage) : jsstring :=
  match time_cost s with
  | Some t => if nonempty t then t else lit "0s"
  | None => lit "0s"
  end.

(** [convertTimeToSeconds] applied to a field that may be [undefined]. *)
Definition convertTimeToSeconds_field (t : option jsstring) : jsnum :=
  match t with
  | Some s => convertTimeToSeconds s
  | None => Num 0
  end.

(** [now] is [Date.now()], in milliseconds like [lastFetchTime]; both hold
    integers, and their difference is rounded to a double. *)
Definition getCurrentStageElapsedTime (status : option AgentStatus)
    (lastFetchTime : option Z) (now : Z) : jsstring :=
  match status, getCurrentStage status with
  | Some _, Some currentStage =>
      if (isStageCompleted status (index currentStage)
          || is_true (is_skipped currentStage))%bool
      then time_cost_or_0s currentStage
      else
        match lastFetchTime with
        | None => time_cost_or_0s currentStage
        | Some last =>
            if last =? 0 then time_cost_or_0s currentStage
            else
              let timeSinceLastFetch := div64 (round64 (now - last)) 1000 in
              let baseTimeInSeconds :=
                convertTimeToSeconds_field (time_cost currentStage) in
              let totalTimeInSeconds :=
                add64 baseTimeInSeconds timeSinceLastFetch in
              convertSecondsToTime (Math_floor totalTimeInSeconds)
        end
  | _, _ => lit "0s"
  end.

(** The condition under which the one-second timer is started. *)
Definition inProgress (status : option AgentStatus) : bool :=
  match status with
  | None => false
  | Some st =>
      match current_stage_index st with
      | None => false
      | Some csi =>
          match array_get (stage_list st) csi with
          | Some currentStage =>
              negb (isStageCompleted status (index currentStage))
          | None => false
          end
      end
  end.

(** ** The content extractor *)

(** A value that came out of [response.json()] or [JSON.parse], or
    [undefined]. A Number is kept as the decimal [mantissa * 10^exponent] of
    its JSON token. *)
Inductive jsval :=
| VUndefined
| VNull
| VBool (b : bool)
| VNumber (mantissa exponent : Z)
| VString (s : jsstring)
| VArray (items : list jsval)
| VObject (fields : dict jsval).

(** The double nearest to [m * 10^e] is zero: [m] is zero, or the decimal is
    at most half the least subnormal, 2^-1075. *)
Definition rounds_to_zero (m e : Z) : bool :=
  ((m =? 0) || ((e <? 0) && (Z.abs m * 2 ^ 1075 <=? 10 ^ (- e))))%bool.

Definition truthy (v : jsval) : bool :=
  match v with
  | VUndefined | VNull => false
  | VBool b => b
  | VNumber m e => negb (rounds_to_zero m e)
  | VString s => nonempty s
  | VArray _ | VObject _ => true
  end.

(** [v[k]] for a key that no prototype defines: reading a property of [null]
    or [undefined] throws, a primitive or an array has none. *)
Definition get_property (v : jsval) (k : jsstring) : run jsval :=
  match v with
  | VUndefined | VNull =>
      Threw (lit "TypeError: cannot read properties of null or undefined")
  | VObject o =>
      Returned (match dict_get k o with Some x => x | None => VUndefined end)
  | _ => Returned VUndefined
  end.

(** The same read where the source has ruled [null] and [undefined] out. *)
Definition property (v : jsval) (k : jsstring) : jsval :=
  match v with
  | VObject o => match dict_get k o with Some x => x | None => VUndefined end
  | _ => VUndefined
  end.

Definition is_string_value (v : jsval) (s : jsstring) : bool :=
  match v with VString t => JsString.eqb t s | _ => false end.

(** *** [JSON.parse], for evaluating the extractor on concrete payloads *)

Module Json.

Definition is_ws (c : N) : bool :=
  (N.eqb c 32 || N.eqb c 9 || N.eqb c 10 || N.eqb c 13)%bool.

Definition skip_ws (s : jsstring) : jsstring := drop_while is_ws s.

Definition hex_value (c : N) : option N :=
  if is_digit c then Some (c - 48)%N
  else if (N.leb 97 c && N.leb c 102)%bool then Some (c - 87)%N
  else if (N.leb 65 c && N.leb c 70)%bool then Some (c - 55)%N
  else None.

(** The characters of a string token after its opening quote. *)
Fixpoint string_body (s acc : jsstring) : option (jsstring * jsstring) :=
  match s with
  | [] => None
  | c :: r =>
      if N.eqb c 34 then Some (rev acc, r)
      else if N.eqb c 92 then
        match r with
        | [] => None
        | x :: r' =>
            if N.eqb x 34 then string_body r' (34%N :: acc)
            else if N.eqb x 92 then string_body r' (92%N :: acc)
            else if N.eqb x 47 then string_body r' (47%N :: acc)
            else if N.eqb x 98 then string_body r' (8%N :: acc)
            else if N.eqb x 102 then string_body r' (12%N :: acc)
            else if N.eqb x 110 then string_body r' (10%N :: acc)
            else if N.eqb x 114 then string_body r' (13%N :: acc)
            else if N.eqb x 116 then string_body r' (9%N :: acc)
            else if N.eqb x 117 then
              match r' with
              | a :: b :: c' :: d :: r'' =>
                  match hex_value a, hex_value b, hex_value c', hex_value d with
                  | Some a, Some b, Some c', Some d =>
                      string_body r''
                        ((4096 * a + 256 * b + 16 * c' + d)%N :: acc)
                  | _, _, _, _ => None
                  end
              | _ => None
              end
            else None
        end
      else if N.ltb c 32 then None
      else string_body r (c :: acc)
  end.

Definition decimal_value (ds : jsstring) : Z := radix_value 10 ds.

(** A number token: [-? int frac? exp?]. *)
Definition number (s : jsstring) : option (jsval * jsstring) :=
  let '(neg, s1) :=
    match s with 45%N :: r => (true, r) | _ => (false, s) end in
  let int_part := take_while is_digit s1 in
  let s2 := drop_while is_digit s1 in
  let int_ok :=
    match int_part with
    | [] => false
    | [_] => true
    | d :: _ => negb (N.eqb d 48)
    end in
  if negb int_ok then None
  else
    let frac_result :=
      match s2 with
      | 46%N :: r =>
          match take_while is_digit r with
          | [] => None
          | fs => Some (fs, drop_while is_digit r)
          end
      | _ => Some ([], s2)
      end in
    match frac_result with
    | None => None
    | Some (frac, s3) =>
        let exp_result :=
          match s3 with
          | x :: r =>
              if (N.eqb x 101 || N.eqb x 69)%bool then
                let '(eneg, r1) :=
                  match r with
                  | 45%N :: r' => (true, r')
                  | 43%N :: r' => (false, r')
                  | _ => (false, r)
                  end in
                match take_while is_digit r1 with
                | [] => None
                | es => Some ((if eneg then - decimal_value es
                               else decimal_value es),
                              drop_while is_digit r1)
                end
              else Some (0, s3)
          | [] => Some (0, s3)
          end in
        match exp_result with
        | None => None
        | Some (e, s4) =>
            let m := decimal_value (int_part ++ frac) in
            Some (VNumber (if neg then - m else m)
                    (e - Z.of_nat (length frac)), s4)
        end
    end.

(** The elements of an array after the first [ws], [value] being the
    parser of one value. *)
Fixpoint elements (n : nat) (value : jsstring -> option (jsval * jsstring))
    (s : jsstring) (acc : list jsval) : option (jsval * jsstring) :=
  match n with
  | O => None
  | S n' =>
      match value s with
      | None => None
      | Some (v, r) =>
          match skip_ws r with
          | c :: r' =>
              if N.eqb c 44 then elements n' value r' (v :: acc)
              else if N.eqb c 93 then Some (VArray (rev (v :: acc)), r')
              else None
          | [] => None
          end
      end
  end.

(** The members of an object; a repeated key keeps its place and takes the
    later value. *)
Fixpoint members (n : nat) (value : jsstring -> option (jsval * jsstring))
    (s : jsstring) (acc : dict jsval) : option (jsval * jsstring) :=
  match n with
  | O => None
  | S n' =>
      match skip_ws s with
      | q :: r0 =>
          if negb (N.eqb q 34) then None
          else
            match string_body r0 [] with
            | None => None
            | Some (k, r1) =>
                match skip_ws r1 with
                | c :: r2 =>
                    if negb (N.eqb c 58) then None
                    else
                      match value r2 with
                      | None => None
                      | Some (v, r3) =>
                          let acc' := dict_put k v acc in
                          match skip_ws r3 with
                          | d :: r4 =>
                              if N.eqb d 44 then members n' value r4 acc'
                              else if N.eqb d 125 then Some (VObject acc', r4)
                              else None
                          | [] => None
                          end
                      end
                | [] => None
                end
            end
      | [] => None
      end
  end.

(** One value, white space before it skipped. *)
Fixpoint value (fuel : nat) (s : jsstring) : option (jsval * jsstring) :=
  match fuel with
  | O => None
  | S fuel' =>
      match skip_ws s with
      | [] => None
      | c :: r =>
          if N.eqb c 34 then
            match string_body r [] with
            | Some (str, r') => Some (VString str, r')
            | None => None
            end
          else if N.eqb c 91 then
            match skip_ws r with
            | 93%N :: r' => Some (VArray [], r')
            | _ => elements (length r) (value fuel') r []
            end
          else if N.eqb c 123 then
            match skip_ws r with
            | 125%N :: r' => Some (VObject [], r')
            | _ => members (length r) (value fuel') r []
            end
          else if startsWith (c :: r) (lit "null")
          then Some (VNull, skipn 4 (c :: r))
          else if startsWith (c :: r) (lit "true")
          then Some (VBool true, skipn 4 (c :: r))
          else if startsWith (c :: r) (lit "false")
          then Some (VBool false, skipn 5 (c :: r))
          else number (c :: r)
      end
  end.

(** [JSON.parse(text)]: [None] when it throws a [SyntaxError]. *)
Definition parse (text : jsstring) : option jsval :=
  match value (S (length text)) text with
  | Some (v, r) => match skip_ws r with [] => Some v | _ => None end
  | None => None
  end.

End Json.

(** *** [extractTextContent] *)

Section Extractor.

(** The platform's [JSON.parse] ([None]: it throws), [JSON.stringify(data,
    null, 2)] (a string, or [undefined]) and Number-to-string conversion of
    the double nearest to [m * 10^e]. *)
Variable JSON_parse : jsstring -> option jsval.
Variable JSON_stringify : jsval -> jsval.
Variable Number_toString : Z -> Z -> jsstring.

Definition join_comma (l : list jsstring) : jsstring :=
  match l with
  | [] => []
  | x :: rest => x ++ flat_map (fun y => 44%N :: y) rest
  end.

Fixpoint sequence {A} (l : list (run A)) : run (list A) :=
  match l with
  | [] => Returned []
  | r :: rest => bind r (fun a => bind (sequence rest)
                                    (fun l' => Returned (a :: l')))
  end.

(** [String(v)], as a template literal converts a value: an array joins its
    elements, an object prints as [[object Object]] unless a [toString] key
    of its own (never a function in JSON data) hides the inherited method,
    and then the conversion throws. *)
Fixpoint ToStringV (v : jsval) : run jsstring :=
  match v with
  | VUndefined => Returned (lit "undefined")
  | VNull => Returned (lit "null")
  | VBool b => Returned (if b then lit "true" else lit "false")
  | VNumber m e => Returned (Number_toString m e)
  | VString s => Returned s
  | VArray items =>
      bind (sequence
              (map (fun x => match x with
                             | VUndefined | VNull => Returned []
                             | _ => ToStringV x
                             end) items))
        (fun l => Returned (join_comma l))
  | VObject o =>
      match dict_get (lit "toString") o with
      | Some _ =>
          Threw (lit "TypeError: cannot convert object to primitive value")
      | None => Returned (lit "[object Object]")
      end
  end.

Definition try_catch {A} (block : run A) (handler : jsstring -> run A)
  : run A :=
  match block with
  | Threw e => handler e
  | r => r
  end.

(** [data.content.find((item) => item && item.type === 'text')] *)
Definition find_text_item (content : list jsval) : option jsval :=
  find (fun item =>
          (truthy item && is_string_value (property item (lit "type"))
                            (lit "text"))%bool) content.

(** The inner [try]: [Some v] when it returns [v] from the function, [None]
    when control goes on after it. *)
Definition error_check (text : jsstring) : run (option jsval) :=
  try_catch
    (bind (match JSON_parse text with
           | Some parsed => Returned parsed
           | None => Threw (lit "SyntaxError")
           end)
       (fun parsed =>
          bind (get_property parsed (lit "error"))
            (fun err =>
               if truthy err then
                 bind (ToStringV err)
                   (fun s => Returned (Some (VString (lit "error: " ++ s))))
               else Returned None)))
    (fun _ => Returned (Some (VString text))).

Definition extractTextContent (data : jsval) : run jsval :=
  try_catch
    (let fallthrough := Returned (JSON_stringify data) in
     match data with
     | VObject o =>
         match dict_get (lit "content") o with
         | Some (VArray content) =>
             match find_text_item content with
             | Some textItem =>
                 let text := property textItem (lit "text") in
                 if truthy text then
                   match text with
                   | VString t =>
                       if includes t (litq "'error'") then
                         bind (error_check t)
                           (fun r => match r with
                                     | Some v => Returned v
                                     | None => Returned text
                                     end)
                       else Returned text
                   | _ => Returned text
                   end
                 else fallthrough
             | None => fallthrough
             end
         | _ => fallthrough
         end
     | _ => fallthrough
     end)
    (fun _ => Returned (JSON_stringify data)).

End Extractor.

(** ** What the page renders

    The conditions and texts of the JSX that [AgentStatusPage] returns for
    a status: which badges a stage gets, the colour of its card, the status
    line of the current stage. *)

(** Truthiness of an optional boolean field. *)
Definition flag (o : option bool) : bool :=
  match o with Some b => b | None => false end.

Module Page.

(** [status.stage_list?.[status.current_stage_index]] *)
Definition currentStage (status : AgentStatus) : option Stage :=
  match current_stage_index status with
  | Some csi => array_get (stage_list status) csi
  | None => None
  end.

(** The line under [Verification Progress]. *)
Definition progress_summary (status : AgentStatus) : jsstring :=
  if Nat.eqb (length (stage_list status)) 0 then lit "No stages available"
  else ToString (Num (Z.of_nat (completedStages status))) ++ lit " of "
       ++ ToString (Num (Z.of_nat (length (stage_list status))))
       ++ lit " stages completed".

(** The [Status:] of the card of the current stage. *)
Definition stage_status (status : AgentStatus) (currentStage : Stage)
  : jsstring :=
  if flag (is_skipped currentStage) then lit "SKIPPED"
  else if isStageCompleted (Some status) (index currentStage)
  then lit "COMPLETED"
  else lit "IN PROGRESS".

(** The two constants of a card of the stage list. *)
Definition isCompleted (status : AgentStatus) (stage : Stage) : bool :=
  isStageCompleted (Some status) (index stage).

Definition isInProgress (status : AgentStatus) (stage : Stage) : bool :=
  (flag (reached stage) && negb (isCompleted status stage))%bool.

(** The colour classes of the card. *)
Definition card_class (status : AgentStatus) (stage : Stage) : jsstring :=
  if flag (is_skipped stage) then lit "bg-yellow-50 border-l-yellow-500"
  else if isCompleted status stage then lit "bg-green-50 border-l-green-500"
  else if isInProgress status stage then lit "bg-blue-50 border-l-blue-500"
  else if flag (needs_human_check stage)
  then lit "bg-orange-50 border-l-orange-500"
  else lit "bg-slate-50 border-l-slate-300".

(** [{cond && <span>text</span>}] *)
Definition badge (cond : bool) (text : jsstring) : list jsstring :=
  if cond then [text] else [].

(** [{stage.fail_count > 0 && <span>{stage.fail_count}
    failure{stage.fail_count !== 1 ? 's' : ''}</span>}] *)
Definition failures (stage : Stage) : list jsstring :=
  match fail_count stage with
  | Some n =>
      badge (jgt n (Num 0))
        (ToString n ++ lit " failure"
         ++ (if negb (jeq n (Num 1)) then lit "s" else []))
  | None => []
  end.

(** The badges of a card, in the order of the page. *)
Definition badges (status : AgentStatus) (stage : Stage) : list jsstring :=
  badge (isCompleted status stage && negb (flag (is_skipped stage)))
    (lit "Completed")
  ++ badge (isInProgress status stage) (lit "In Progress")
  ++ badge (flag (is_skipped stage)) (lit "Skipped")
  ++ badge (negb (flag (reached stage)) && negb (flag (is_skipped stage)))
       (lit "Pending")
  ++ badge (flag (needs_human_check stage)) (lit "Human Check Required")
  ++ failures stage.

(** The time at the right of a card. *)
Definition time_label (stage : Stage) : jsstring :=
  match time_cost stage with
  | Some t =>
      if (nonempty t && negb (JsString.eqb t (lit "''")))%bool
      then lit "Time: " ++ t
      else lit "Not started"
  | None => lit "Not started"
  end.

End Page.

(** ** The choice of the status tool in [fetchStatus] *)

Section StatusTool.

(** [String.prototype.toLowerCase] of the platform. *)
Variable toLowerCase : jsstring -> jsstring.

(** The callback of [find]: reading [name] off [null] or [undefined]
    throws, and so does calling [toLowerCase] on a name that is not a
    string. *)
Definition is_status_tool (tool : jsval) : run bool :=
  bind (get_property tool (lit "name"))
    (fun name =>
       match name with
       | VString n =>
           Returned
             (JsString.eqb (toLowerCase n) (lit "status")
              || JsString.eqb (toLowerCase n) (lit "agentstatus")
              || includes (toLowerCase n) (lit "status"))%bool
       | _ => Threw (lit "TypeError: tool.name.toLowerCase is not a function")
       end).

(** [Array.prototype.find] with a callback that may throw; [None] is
    [undefined]. *)
Fixpoint find_first (p : jsval -> run bool) (l : list jsval)
  : run (option jsval) :=
  match l with
  | [] => Returned None
  | x :: rest =>
      bind (p x) (fun b => if b then Returned (Some x) else find_first p rest)
  end.

(** [toolsData.tools?.find(...)] *)
Definition statusTool (toolsData : jsval) : run (option jsval) :=
  bind (get_property toolsData (lit "tools"))
    (fun tools =>
       match tools with
       | VUndefined | VNull => Returned None
       | VArray l => find_first is_status_tool l
       | _ => Threw (lit "TypeError: toolsData.tools.find is not a function")
       end).

(** The tool that [fetchStatus] goes on to call: [statusTool], or the error
    thrown when there is none. *)
Definition status_tool_or_error (toolsData : jsval) : run jsval :=
  bind (statusTool toolsData)
    (fun found =>
       match found with
       | Some tool => Returned tool
       | None => Threw (lit "Status tool not found in available tools")
       end).

End StatusTool.

(** ** From the reply of the tool to the status in [fetchStatus] *)

Section StatusOfResult.

Variable JSON_parse : jsstring -> option jsval.
Variable JSON_stringify : jsval -> jsval.
Variable Number_toString : Z -> Z -> jsstring.

(** [parseStatusResponse(extractTextContent(data.result))]: what
    [extractTextContent] returns is split into lines, and only a string has
    [split]. *)
Definition status_of_result (result : jsval) : run AgentStatus :=
  bind (extractTextContent JSON_parse JSON_stringify Number_toString result)
    (fun statusText =>
       match statusText with
       | VString s => parseStatusResponse s
       | _ => Threw (lit "TypeError: statusText.split is not a function")
       end).

End StatusOfResult.

(** * The page of [AgentStatus.tsx]

    The same component without elapsed times and skipped stages: its
    parser has no special case for a [current_stage_index] that is not a
    number, for a [current_task:] line with text, or for the lines under
    [last_check_result:], and its progress counts the stages reached. *)

Module AgentStatusTsx.

(** [current_task] is the object in this interface. *)
Record AgentStatus := mkStatus {
  mission : option jsstring;
  stage_list : list Stage;
  process : option jsstring;
  current_task : TaskInfo;
  current_stage_index : option jsnum;
  current_stage_name : option jsstring;
  last_check_result : option CheckResult
}.

Inductive section := SecLastCheckResult | SecStageList | SecCurrentTask.

Definition section_eqb (a : option section) (b : section) : bool :=
  match a, b with
  | Some SecLastCheckResult, SecLastCheckResult => true
  | Some SecStageList, SecStageList => true
  | Some SecCurrentTask, SecCurrentTask => true
  | _, _ => false
  end.

(** The local variables of [parseStatusResponse]. *)
Record pstate := mkP {
  result : AgentStatus;
  currentSection : option section;
  currentSubsection : option subsection;
  currentStage : option Stage
}.

Definition set_result (r : AgentStatus) (st : pstate) : pstate :=
  mkP r (currentSection st) (currentSubsection st) (currentStage st).
Definition set_section (s : option section) (st : pstate) : pstate :=
  mkP (result st) s (currentSubsection st) (currentStage st).
Definition set_subsection (s : option subsection) (st : pstate) : pstate :=
  mkP (result st) (currentSection st) s (currentStage st).
Definition set_stage (s : option Stage) (st : pstate) : pstate :=
  mkP (result st) (currentSection st) (currentSubsection st) s.

Definition set_mission v (r : AgentStatus) : AgentStatus :=
  mkStatus (Some v) (stage_list r) (process r) (current_task r)
    (current_stage_index r) (current_stage_name r) (last_check_result r).
Definition set_stage_list v (r : AgentStatus) : AgentStatus :=
  mkStatus (mission r) v (process r) (current_task r)
    (current_stage_index r) (current_stage_name r) (last_check_result r).
Definition set_process v (r : AgentStatus) : AgentStatus :=
  mkStatus (mission r) (stage_list r) (Some v) (current_task r)
    (current_stage_index r) (current_stage_name r) (last_check_result r).
Definition set_current_task v (r : AgentStatus) : AgentStatus :=
  mkStatus (mission r) (stage_list r) (process r) v
    (current_stage_index r) (current_stage_name r) (last_check_result r).
Definition set_current_stage_index v (r : AgentStatus) : AgentStatus :=
  mkStatus (mission r) (stage_list r) (process r) (current_task r)
    (Some v) (current_stage_name r) (last_check_result r).
Definition set_current_stage_name v (r : AgentStatus) : AgentStatus :=
  mkStatus (mission r) (stage_list r) (process r) (current_task r)
    (current_stage_index r) (Some v) (last_check_result r).
Definition set_last_check_result v (r : AgentStatus) : AgentStatus :=
  mkStatus (mission r) (stage_list r) (process r) (current_task r)
    (current_stage_index r) (current_stage_name r) (Some v).

(** [if (result.current_task)] then update the object. *)
Definition update_task (f : TaskInfo -> TaskInfo) (r : AgentStatus)
  : AgentStatus :=
  set_current_task (f (current_task r)) r.

(** The branch [currentSection === 'stage_list']. *)
Definition stage_list_line (line trimmedLine : jsstring) (st : pstate)
  : pstate :=
  if test (match_anchored re_stage_start line) then
    let st :=
      match currentStage st with
      | Some s =>
          set_result (set_stage_list (stage_list (result st) ++ [s])
                        (result st)) st
      | None => st
      end in
    let s := new_stage in
    let s :=
      match search re_index line with
      | Some (d :: _, _) => set_index (parseInt d (Some 10)) s
      | _ => s
      end in
    set_stage (Some s) st
  else
    match currentStage st with
    | Some s =>
        match match_anchored re_property line with
        | Some (property :: value :: _, _) =>
            set_stage (Some (stage_property property (trim value) s)) st
        | _ =>
            if test (match_anchored re_key trimmedLine)
            then set_subsection None (set_section None st)
            else st
        end
    | None => st
    end.

(** The branch [currentSection === 'current_task']. *)
Definition current_task_line (line trimmedLine : jsstring) (st : pstate)
  : pstate :=
  let is_item := test (match_anchored re_list_item line) in
  if startsWith trimmedLine (lit "title:") then
    set_result
      (update_task
         (fun t => mkTask (trim (substring_from 6 trimmedLine))
                     (description t) (reference_files t) (output_files t))
         (result st)) st
  else if JsString.eqb trimmedLine (lit "description:") then
    set_subsection (Some SubDescription) st
  else if (subsection_eqb (currentSubsection st) SubDescription
           && is_item)%bool then
    let descItem := trim (remove_match re_list_item line) in
    if nonempty descItem then
      set_result
        (update_task
           (fun t => mkTask (task_title t) (description t ++ [descItem])
                       (reference_files t) (output_files t))
           (result st)) st
    else st
  else if JsString.eqb trimmedLine (lit "reference_files:") then
    set_subsection (Some SubReferenceFiles) st
  else if (subsection_eqb (currentSubsection st) SubReferenceFiles
           && is_item)%bool then
    let fileEntry := trim (remove_match re_list_item line) in
    let '(file, status) :=
      match indexOf fileEntry (lit ": ") with
      | Some colonIndex =>
          (substring_to colonIndex fileEntry,
           substring_from (colonIndex + 2) fileEntry)
      | None => (fileEntry, lit "Not Read")
      end in
    set_result
      (update_task
         (fun t => mkTask (task_title t) (description t)
                     (dict_set_string (fun s => s) file status
                        (reference_files t))
                     (output_files t))
         (result st)) st
  else if JsString.eqb trimmedLine (lit "output_files:") then
    set_subsection (Some SubOutputFiles) st
  else if (subsection_eqb (currentSubsection st) SubOutputFiles
           && is_item)%bool then
    let file := trim (remove_match re_list_item line) in
    if nonempty file then
      set_result
        (update_task
           (fun t => mkTask (task_title t) (description t)
                       (reference_files t) (output_files t ++ [file]))
           (result st)) st
    else st
  else if test (match_anchored re_key trimmedLine) then
    set_subsection None (set_section None st)
  else st.

(** The body of the [for] loop for one line; nothing in it moves the
    index. *)
Definition body (line : jsstring) (st : pstate) : pstate :=
  let trimmedLine := trim line in
  let r := result st in
  if negb (nonempty trimmedLine) then st
  else if startsWith trimmedLine (lit "mission:") then
    set_section None
      (set_result (set_mission (trim (substring_from 8 trimmedLine)) r) st)
  else if startsWith trimmedLine (lit "process:") then
    set_section None
      (set_result (set_process (trim (substring_from 8 trimmedLine)) r) st)
  else if startsWith trimmedLine (lit "current_stage_index:") then
    set_section None
      (set_result
         (set_current_stage_index
            (parseInt (trim (substring_from 20 trimmedLine)) (Some 10)) r) st)
  else if startsWith trimmedLine (lit "current_stage_name:") then
    set_section None
      (set_result
         (set_current_stage_name (trim (substring_from 19 trimmedLine)) r) st)
  else if startsWith trimmedLine (lit "last_check_result:") then
    set_section (Some SecLastCheckResult)
      (set_result (set_last_check_result (mkCheck None None) r) st)
  else if JsString.eqb trimmedLine (lit "stage_list:") then
    set_section (Some SecStageList) st
  else if JsString.eqb trimmedLine (lit "current_task:") then
    set_section (Some SecCurrentTask) st
  else if section_eqb (currentSection st) SecStageList then
    stage_list_line line trimmedLine st
  else if section_eqb (currentSection st) SecCurrentTask then
    current_task_line line trimmedLine st
  else st.

Definition initial_state : pstate :=
  mkP (mkStatus None [] None (mkTask [] [] [] []) None None None)
    None None None.

(** The statements after the loop. *)
Definition after_loop (st : pstate) : AgentStatus :=
  match currentStage st with
  | Some s => set_stage_list (stage_list (result st) ++ [s]) (result st)
  | None => result st
  end.

Definition parseStatusResponse (statusText : jsstring) : AgentStatus :=
  after_loop
    (fold_left (fun st line => body line st) (split 10 statusText)
       initial_state).

(** A stage counts when [stage.reached] is truthy. *)
Definition calculateProgress (status : option AgentStatus) : jsnum :=
  match status with
  | None => Num 0
  | Some st =>
      if Nat.eqb (length (stage_list st)) 0 then Num 0
      else
        let totalStages := float_of_nat (length (stage_list st)) in
        let completedStages :=
          float_of_nat
            (length (filter (fun stage => flag (reached stage))
                       (stage_list st))) in
        Math_round
          (PrimFloat.mul (PrimFloat.div completedStages totalStages) 100)
  end.

Definition getCurrentStage (status : option AgentStatus) : option Stage :=
  match status with
  | None => None
  | Some st =>
      match current_stage_index st with
      | None => None
      | Some csi => array_get (stage_list st) csi
      end
  end.

End AgentStatusTsx.

(** ** Duration strings, as the specification describes them

    Components [<N>h], [<N>m], [<N>s] in this order, each present or not,
    separated by one space, the number written in decimal without padding. *)

Definition token_string (t : Z * N) : jsstring :=
  digits (fst t) ++ [snd t].

Definition join_space (parts : list jsstring) : jsstring :=
  match parts with
  | [] => []
  | p :: ps => p ++ flat_map (fun q => 32%N :: q) ps
  end.

Definition optional_token (v : option Z) (unit : N) : list (Z * N) :=
  match v with
  | Some n => [(n, unit)]
  | None => []
  end.

Definition tokens (h m s : option Z) : list (Z * N) :=
  optional_token h 104 ++ optional_token m 109 ++ optional_token s 115.

Definition duration_string (h m s : option Z) : jsstring :=
  join_space (map token_string (tokens h m s)).

(** The value of a component that may be absent. *)
Definition amount_or_0 (v : option Z) : Z :=
  match v with Some n => n | None => 0 end.

(** A component is present exactly when its amount is positive. *)
Definition when_positive (n : Z) : option Z :=
  if 0 <? n then Some n else None.

(** No component that is present is zero (or negative). *)
Definition no_zero_component (h m s : option Z) : Prop :=
  Forall (fun t => 0 < fst t) (tokens h m s).

(** Minutes and seconds, when present, are below 60. *)
Definition below_60 (v : option Z) : Prop :=
  match v with Some n => n < 60 | None => True end.

(** ** Vocabulary of the proofs *)

Definition all (p : N -> bool) (s : jsstring) : Prop :=
  Forall (fun c => p c = true) s.

(** The text [s] does not go on with a character of the class. *)
Definition stops (a : N -> bool) (s : jsstring) : Prop :=
  match s with
  | [] => True
  | c :: _ => a c = false
  end.

Definition re_amount_of (u : N) : regex := [group (plus is_digit); chr u].

(** The text after the digits does not start with the unit. *)
Definition misses (u : N) (s : jsstring) : Prop :=
  match s with
  | [] => True
  | c :: _ => is_digit c = false /\ c <> u
  end.

(** What [amount] makes of the result of the search. *)
Definition amount_of (o : option matched) : jsnum :=
  match o with
  | Some (d :: _, _) => parseInt d None
  | _ => Num 0
  end.

(** The amount of the first token of unit [u], or 0. *)
Fixpoint find_amount (u : N) (toks : list (Z * N)) : Z :=
  match toks with
  | [] => 0
  | (v, u') :: rest => if N.eqb u' u then v else find_amount u rest
  end.

Definition unit_char (c : N) : Prop := c = 104%N \/ c = 109%N \/ c = 115%N.

Definition well_formed_tokens (toks : list (Z * N)) : Prop :=
  Forall (fun t => 0 <= fst t /\ unit_char (snd t)) toks.

(** The text ends with a character that is not white space. *)
Definition ends_solid (x : jsstring) : Prop :=
  exists front u, x = front ++ [u] /\ is_space u = false.

(** ** The sample of the specification *)

Definition sample_status : jsstring := lit
"mission: Adder verification
stage_list:
- index: 0
  title: plan
  reached: true
  fail_count: 0
  is_skipped: false
  time_cost: 1m 5s
  needs_human_check: false
- index: 1
  title: implement
  reached: false
  fail_count: 2
  is_skipped: false
  time_cost: ''
  needs_human_check: true
process: 1/2
current_stage_index: 1
current_stage_name: implement".

Definition sample_record : AgentStatus :=
  mkStatus (Some (lit "Adder verification"))
    [ mkStage (Num 0) (Some (lit "plan")) (Some true) (Some (Num 0))
        (Some false) (Some (lit "1m 5s")) (Some false);
      mkStage (Num 1) (Some (lit "implement")) (Some false) (Some (Num 2))
        (Some false) (Some (lit "''")) (Some true) ]
    (Some (lit "1/2"))
    (TaskObject initial_task)
    (Some (Num 1))
    (Some (lit "implement"))
    None.

(** ** Progress, as the specification states it *)

(** [reached || isSkipped] *)
Definition reached_or_skipped (s : Stage) : bool :=
  (is_true (reached s) || is_true (is_skipped s))%bool.

(** The number [k] of stages that satisfy [reached || isSkipped]. *)
Definition count_reached_or_skipped (st : AgentStatus) : nat :=
  length (filter reached_or_skipped (stage_list st)).

(** [round(100*k/N)] in exact arithmetic, a tie going up; 0 for [N = 0]. *)
Definition spec_percentage (k n : nat) : Z :=
  if Nat.eqb n 0 then 0
  else (200 * Z.of_nat k + Z.of_nat n) / (2 * Z.of_nat n).

(** [Math.round((k / n) * 100)] in double arithmetic; 0 for [n = 0]. *)
Definition percentage (k n : nat) : jsnum :=
  if Nat.eqb n 0 then Num 0
  else Math_round
         (PrimFloat.mul (PrimFloat.div (float_of_nat k) (float_of_nat n)) 100).

(** The record has an active stage index: [current_stage_index] is neither
    [undefined] nor -1. *)
Definition has_current_index (st : AgentStatus) : bool :=
  match current_stage_index st with
  | Some csi => negb (jeq csi (Num (-1)))
  | None => false
  end.

(** The stages that count as completed: by their flags when [process] says
    that all is done or there is no active stage index, and otherwise those
    whose index is below the active one. *)
Definition counted_stages (st : AgentStatus) : nat :=
  if (process_complete st || negb (has_current_index st))%bool
  then count_reached_or_skipped st
  else
    match current_stage_index st with
    | Some csi => length (filter (fun s => jlt (index s) csi) (stage_list st))
    | None => 0%nat
    end.

(** Every stage carries its position in [stage_list] as its index. *)
Definition indexed_by_position (l : list Stage) : Prop :=
  forall i s, nth_error l i = Some s -> index s = Num (Z.of_nat i).

(** Two stages, both reached, the second one running. *)
Definition running_record : AgentStatus :=
  mkStatus (Some (lit "m"))
    [ mkStage (Num 0) (Some (lit "plan")) (Some true) (Some (Num 0))
        (Some false) (Some (lit "1m 5s")) (Some false);
      mkStage (Num 1) (Some (lit "implement")) (Some true) (Some (Num 0))
        (Some false) (Some (lit "10s")) (Some false) ]
    (Some (lit "1/2"))
    (TaskObject initial_task)
    (Some (Num 1))
    (Some (lit "implement"))
    None.

(** ** Tool-call results with a text item *)

(** [{content: [{type: "text", text: <text>}]}] *)
Definition text_result (text : jsstring) : jsval :=
  VObject [(lit "content",
            VArray [VObject [(lit "type", VString (lit "text"));
                             (lit "text", VString text)]])].

(** The first text item of [data.content] holds the string [text]. *)
Definition has_text_payload (data : jsval) (text : jsstring) : Prop :=
  exists o content item,
    data = VObject o /\
    dict_get (lit "content") o = Some (VArray content) /\
    find_text_item content = Some item /\
    property item (lit "text") = VString text.

(** ** Vocabulary of the statements on the parser *)

(** [typeof current_task === 'string'], the test of the page. *)
Definition is_string_variant (t : CurrentTask) : bool :=
  match t with
  | TaskString _ => true
  | TaskObject _ => false
  end.

(** What the parser stores for a [current_task:] line with text after the
    colon. *)
Definition completed_task (value : jsstring) : CurrentTask :=
  TaskObject (mkTask value [lit "Mission completed or no active task"] [] []).

(** The value starts, after white space and an optional sign, with a
    decimal digit: the values that [parseInt(value, 10)] reads as a
    number. *)
Definition starts_with_integer (v : jsstring) : bool :=
  match snd (read_sign (trimStart v)) with
  | c :: _ => is_digit c
  | [] => false
  end.


(** The trimmed line is taken by one of the branches for top-level keys. *)
Definition top_level_key (t : jsstring) : bool :=
  (startsWith t (lit "mission:") || startsWith t (lit "process:")
   || startsWith t (lit "current_stage_index:")
   || startsWith t (lit "current_stage_name:")
   || startsWith t (lit "last_check_result:")
   || JsString.eqb t (lit "stage_list:")
   || startsWith t (lit "current_task:"))%bool.




(** ** Invariants of the parser *)

(** In an entry of [check_info], [last_msg] is absent or an array. *)
Definition good_entry (o : dict ci_value) : Prop :=
  match dict_get (lit "last_msg") o with
  | Some (CArr _) | None => True
  | Some _ => False
  end.

(** [current_task] holds an object. *)
Definition task_is_object (st : pstate) : Prop :=
  exists t, current_task (result st) = TaskObject t.

(** ** Stage indices *)

(** The index that a stage-start line carries: the digits after [index:],
    or -1 when there are none. *)
Definition written_index (line : jsstring) : jsnum :=
  match search re_index line with
  | Some (d :: _, _) => parseInt d (Some 10)
  | _ => Num (-1)
  end.

(** The index of a line that starts a stage; nothing for another line. *)
Definition stage_start_index (line : jsstring) : list jsnum :=
  if test (match_anchored re_stage_start line) then [written_index line]
  else [].

(** The indices of the stage-start lines of a text, in order. *)
Definition written_indices (lines : list jsstring) : list jsnum :=
  flat_map stage_start_index lines.

(** [a] is [b] with some elements left out. *)
Inductive subseq {A : Type} : list A -> list A -> Prop :=
| subseq_nil : subseq [] []
| subseq_skip x a b : subseq a b -> subseq a (x :: b)
| subseq_take x a b : subseq a b -> subseq (x :: a) (x :: b).

(** The indices of the stages that the scanner has opened so far. *)
Definition opened (st : pstate) : list jsnum :=
  map index (stage_list (result st))
  ++ match currentStage st with
     | Some s => [index s]
     | None => []
     end.

(** Two stage-start lines with the same index. *)
Definition repeated_index_status : jsstring := lit
"stage_list:
- index: 0
  title: first
- index: 0
  title: second".

(** The record has no active stage index: [current_stage_index] is
    [undefined] (no line gave it) or the sentinel -1. *)
Definition no_active_index (r : AgentStatus) : Prop :=
  current_stage_index r = None \/ current_stage_index r = Some (Num (-1)).

(** A line that the search after [last_check_result:] stops at: it is not
    blank and not indented. *)
Definition top_level_line (l : jsstring) : Prop :=
  nonempty (trim l) = true /\ test (match_anchored re_indent l) = false.

(** ** Vocabulary of the further properties *)

(** The text has no decimal digit. *)
Definition no_digit (s : jsstring) : Prop :=
  Forall (fun c => is_digit c = false) s.

(** What the page shows for a duration text: the text rendered back from
    its number of seconds. *)
Definition shown_duration (timeStr : jsstring) : jsstring :=
  convertSecondsToTime (convertTimeToSeconds timeStr).

(** The text [a/b] of [process], the two numbers in decimal digits. *)
Definition process_text (a b : Z) : jsstring :=
  digits a ++ lit "/" ++ digits b.

(** The badge [text] is on the card of the stage. *)
Definition shows (status : AgentStatus) (stage : Stage) (text : string)
  : Prop :=
  In (lit text) (Page.badges status stage).

(** The record of a text without any line that the parser reads. *)
Definition empty_record : AgentStatus :=
  mkStatus None [] None (TaskObject initial_task) None None None.

(** The text has a single line. *)
Definition one_line (s : jsstring) : Prop :=
  Forall (fun c => c <> 10%N) s.

(** An element of [content] that [find] passes over: it is falsy or its
    [type] is not ["text"]. *)
Definition not_text_item (item : jsval) : Prop :=
  (truthy item && is_string_value (property item (lit "type")) (lit "text"))%bool
  = false.

(** An element of [content] that [find] stops at. *)
Definition text_item (item : jsval) : Prop :=
  (truthy item && is_string_value (property item (lit "type")) (lit "text"))%bool
  = true.

(** The line is taken by the branch for [last_check_result:]. *)
Definition is_check_result_line (l : jsstring) : bool :=
  startsWith (trim l) (lit "last_check_result:").

(** The object [{}] that [parseLastCheckResult] starts from. *)
Definition empty_check_result : CheckResult := mkCheck None None.

(** A text with a block under [last_check_result:]. *)
Definition checked_status : jsstring := lit
"mission: m
last_check_result:
  check_pass: true
process: 0/1".

(** ** The scanner, line by line *)

(** What the body of the loop does to the local variables on one line
    that it is given alone. *)
Definition line_step (line : jsstring) (st : pstate) : pstate :=
  match body [line] 0 st with
  | Returned (_, st') => st'
  | _ => st
  end.

(** The local variables after the lines, read from left to right. *)
Definition scan (lines : list jsstring) (st : pstate) : pstate :=
  fold_left (fun st line => line_step line st) lines st.

(** No line of the text is a [last_check_result:] line. *)
Definition no_check_result_line (lines : list jsstring) : Prop :=
  Forall (fun l => is_check_result_line l = false) lines.

(** ** The layout of the status text

    The text as the comment at the head of [parseStatusResponse] shows it:
    [mission:], the [stage_list:] block with seven lines for a stage,
    [process:], the [current_task:] block with its title and its three
    lists, [current_stage_index:] and [current_stage_name:]. *)

Definition bool_text (b : bool) : jsstring :=
  if b then lit "true" else lit "false".

Definition text_of (o : option jsstring) : jsstring :=
  match o with Some t => t | None => [] end.

Definition number_of (o : option jsnum) : jsnum :=
  match o with Some n => n | None => Num 0 end.

Definition stage_lines (s : Stage) : list jsstring :=
  [ lit "- index: " ++ ToString (index s);
    lit "  title: " ++ text_of (title s);
    lit "  reached: " ++ bool_text (flag (reached s));
    lit "  fail_count: " ++ ToString (number_of (fail_count s));
    lit "  is_skipped: " ++ bool_text (flag (is_skipped s));
    lit "  time_cost: " ++ text_of (time_cost s);
    lit "  needs_human_check: " ++ bool_text (flag (needs_human_check s)) ].

Definition item_line (x : jsstring) : jsstring := lit "  - " ++ x.

Definition reference_line (e : jsstring * jsstring) : jsstring :=
  lit "  - " ++ fst e ++ lit ": " ++ snd e.

Definition task_lines (t : TaskInfo) : list jsstring :=
  [lit "current_task:"; lit "  title: " ++ task_title t; lit "  description:"]
  ++ map item_line (description t)
  ++ [lit "  reference_files:"] ++ map reference_line (reference_files t)
  ++ [lit "  output_files:"] ++ map item_line (output_files t).

Definition task_of (c : CurrentTask) : TaskInfo :=
  match c with
  | TaskObject t => t
  | TaskString _ => initial_task
  end.

Definition status_lines (r : AgentStatus) : list jsstring :=
  [lit "mission: " ++ text_of (mission r); lit "stage_list:"]
  ++ flat_map stage_lines (stage_list r)
  ++ [lit "process: " ++ text_of (process r)]
  ++ task_lines (task_of (current_task r))
  ++ [lit "current_stage_index: "
      ++ ToString (number_of (current_stage_index r));
      lit "current_stage_name: " ++ text_of (current_stage_name r)].

(** The lines with a line feed between them. *)
Definition join_lines (lines : list jsstring) : jsstring :=
  match lines with
  | [] => []
  | l :: ls => l ++ flat_map (fun x => 10%N :: x) ls
  end.

Definition status_text (r : AgentStatus) : jsstring :=
  join_lines (status_lines r).

(** A value that fits on the line of its key: no line terminator in it and
    no white space at its ends. *)
Definition value_text (v : jsstring) : Prop :=
  all is_dot v /\ stops is_space v /\ stops is_space (rev v).

(** An item of a list: a value that is not empty. *)
Definition item_text (v : jsstring) : Prop := value_text v /\ v <> [].

(** A stage with all its fields, its index and failure count natural
    numbers below 2^53. *)
Definition written_stage (s : Stage) : Prop :=
  exists i t r f k c h,
    s = mkStage (Num i) (Some t) (Some r) (Some (Num f)) (Some k) (Some c)
          (Some h) /\
    0 <= i < 2 ^ 53 /\ 0 <= f < 2 ^ 53 /\ value_text t /\ value_text c.

(** A reference file and its status: the name has no colon followed by a
    space, is not [__proto__] and is not an array index (a name such as
    [10], which an object puts before its other keys). *)
Definition written_reference (e : jsstring * jsstring) : Prop :=
  item_text (fst e) /\ item_text (snd e) /\
  includes (fst e) (lit ": ") = false /\ fst e <> lit "__proto__" /\
  array_index (fst e) = None.

Definition written_task (t : TaskInfo) : Prop :=
  value_text (task_title t) /\ Forall item_text (description t) /\
  Forall written_reference (reference_files t) /\
  NoDup (map fst (reference_files t)) /\
  Forall item_text (output_files t).

(** A record that the layout can show in full. *)
Definition written_status (r : AgentStatus) : Prop :=
  exists m p t c n,
    r = mkStatus (Some m) (stage_list r) (Some p) (TaskObject t)
          (Some (Num c)) (Some n) None /\
    value_text m /\ value_text p /\ value_text n /\ 0 <= c < 2 ^ 53 /\
    written_task t /\ Forall written_stage (stage_list r).

(** [undefined] or one element. *)
Definition option_list {A} (o : option A) : list A :=
  match o with Some x => [x] | None => [] end.

(** A record with every field and every list filled. *)
Definition full_record : AgentStatus :=
  mkStatus (Some (lit "Adder verification"))
    [ mkStage (Num 0) (Some (lit "plan")) (Some true) (Some (Num 0))
        (Some false) (Some (lit "1m 5s")) (Some false);
      mkStage (Num 1) (Some (lit "implement")) (Some false) (Some (Num 2))
        (Some false) (Some (lit "''")) (Some true) ]
    (Some (lit "1/2"))
    (TaskObject
       (mkTask (lit "implement")
          [lit "Step 1: read Adder/README.md"; lit "Step 2: write the tests"]
          [(lit "Adder/README.md", lit "Read"); (lit "Adder/design.md", lit "Not Read")]
          [lit "out/report.md"]))
    (Some (Num 1))
    (Some (lit "implement"))
    None.

(** ** The two versions of the parser *)

(** A record of [AgentStatus.tsx] as a record of [App.tsx]. *)
Definition upgrade (r : AgentStatusTsx.AgentStatus) : AgentStatus :=
  mkStatus (AgentStatusTsx.mission r) (AgentStatusTsx.stage_list r)
    (AgentStatusTsx.process r) (TaskObject (AgentStatusTsx.current_task r))
    (AgentStatusTsx.current_stage_index r)
    (AgentStatusTsx.current_stage_name r)
    (AgentStatusTsx.last_check_result r).

Definition upgrade_section (s : option AgentStatusTsx.section)
  : option section :=
  match s with
  | Some AgentStatusTsx.SecStageList => Some SecStageList
  | Some AgentStatusTsx.SecCurrentTask => Some SecCurrentTask
  | _ => None
  end.

Definition upgrade_state (st : AgentStatusTsx.pstate) : pstate :=
  mkP (upgrade (AgentStatusTsx.result st))
    (upgrade_section (AgentStatusTsx.currentSection st))
    (AgentStatusTsx.currentSubsection st)
    (AgentStatusTsx.currentStage st).

(** A line on which the two versions have the same code: it is not a
    [last_check_result:] line, not a [current_task:] line with text after
    the colon, and not a [current_stage_index:] line whose value is not a
    number. *)
Definition common_line (l : jsstring) : bool :=
  let t := trim l in
  (negb (startsWith t (lit "last_check_result:"))
   && negb (startsWith t (lit "current_task:")
            && nonempty (trim (substring_from 13 t)))
   && negb (startsWith t (lit "current_stage_index:")
            && isNaN (parseInt (trim (substring_from 20 t)) (Some 10))))%bool.

(** ** The tools of the server *)

(** A tool whose [name] is a string that, in lower case, does not contain
    [status]. *)
Definition other_tool (toLowerCase : jsstring -> jsstring) (tool : jsval)
  : Prop :=
  exists n,
    get_property tool (lit "name") = Returned (VString n) /\
    includes (toLowerCase n) (lit "status") = false.

(** A tool whose [name] is a string that, in lower case, contains
    [status]. *)
Definition status_named (toLowerCase : jsstring -> jsstring) (tool : jsval)
  : Prop :=
  exists n,
    get_property tool (lit "name") = Returned (VString n) /\
    includes (toLowerCase n) (lit "status") = true.

(** ** The lines under [last_check_result:] *)

(** A line that the search after a [last_check_result:] line passes over:
    it is blank or indented. *)
Definition passed_over (l : jsstring) : bool :=
  negb (nonempty (trim l) && negb (test (match_anchored re_indent l))).

(** The lines that the loop comes to: after a [last_check_result:] line
    ([skipping]) the lines up to the next one that is not passed over are
    left out. *)
Fixpoint read_lines (skipping : bool) (lines : list jsstring)
  : list jsstring :=
  match lines with
  | [] => []
  | l :: rest =>
      if (skipping && passed_over l)%bool then read_lines true rest
      else l :: read_lines (is_check_result_line l) rest
  end.

(** A [last_check_result:] line starts at the margin. *)
Definition key_at_margin (l : jsstring) : Prop :=
  is_check_result_line l = true -> test (match_anchored re_indent l) = false.

(** A text with a block under [last_check_result:] between two keys. *)
Definition block_lines : list jsstring :=
  [ lit "  check_pass: true"; lit "  check_info:"; lit "  - name: lint";
    lit "   "; lit "    mission: none" ].

(** ** What [parseLastCheckResult] returns *)

(** The line on which [parseLastCheckResult] breaks off: it is not blank,
    not indented, does not start a list item and has a colon. *)
Definition starts_next_property (l : jsstring) : bool :=
  (nonempty (trim l) && nonempty l
   && negb (test (match_anchored re_indent l))
   && negb (startsWith (trim l) (lit "- "))
   && includes (trim l) (lit ":"))%bool.

(** The properties that are given an array. *)
Definition is_array_key (k : jsstring) : bool :=
  (JsString.eqb k (lit "last_msg") || JsString.eqb k (lit "description"))%bool.

(** The properties that are given a number. *)
Definition is_count_key (k : jsstring) : bool :=
  (JsString.eqb k (lit "count_pass") || JsString.eqb k (lit "count_fail")
   || JsString.eqb k (lit "count_check"))%bool.

(** The kind of the value goes by the name of the property. *)
Definition typed_value (k : jsstring) (v : ci_value) : Prop :=
  match v with
  | CArr _ => is_array_key k = true
  | CNum _ => is_array_key k = false /\ is_count_key k = true
  | CStr _ => is_array_key k = false /\ is_count_key k = false
  end.

(** An entry of [check_info]: it has a [name], a string, and every
    property has the kind of its name. *)
Definition typed_entry (o : dict ci_value) : Prop :=
  (exists n, dict_get (lit "name") o = Some (CStr n)) /\
  forall k v, dict_get k o = Some v -> typed_value k v.

(** [check_info] is absent or a non-empty array of such entries. *)
Definition typed_check_result (r : CheckResult) : Prop :=
  match check_info r with
  | None => True
  | Some arr => arr <> [] /\ Forall typed_entry arr
  end.

(** ** The progress of the two pages *)

(** A finished run as [AgentStatus.tsx] holds it: two stages, both
    reached. *)
Definition finished_record : AgentStatusTsx.AgentStatus :=
  AgentStatusTsx.mkStatus (Some (lit "m"))
    [ mkStage (Num 0) (Some (lit "plan")) (Some true) (Some (Num 0))
        (Some false) (Some (lit "1m 5s")) (Some false);
      mkStage (Num 1) (Some (lit "implement")) (Some true) (Some (Num 1))
        (Some false) (Some (lit "10s")) (Some false) ]
    (Some (lit "2/2"))
    initial_task
    (Some (Num 1))
    (Some (lit "implement"))
    None.

(** ** Vocabulary of the statements on Numbers *)

(** The double with the opposite sign. *)
Definition opposite (x : double) : double :=
  match x with
  | Dy m s => Dy (- m) s
  | DInfinity b => DInfinity (negb b)
  | DNaN => DNaN
  end.

(** ** The platform's floats

    The primitive binary64 floats, against which the operations on Numbers
    are checked on a sample of operands. *)

Definition float_of_int (z : Z) : float := PrimFloat.of_uint63 (Uint63.of_Z z).

(** The value of a float as a [double]. *)
Definition double_of_float (x : float) : double :=
  match Prim2SF x with
  | S754_zero _ => Dy 0 0
  | S754_infinity s => DInfinity s
  | S754_nan => DNaN
  | S754_finite s m e => Dy (if s then Z.neg m else Z.pos m) (- e)
  end.

Definition double_of_jsnum (a : jsnum) : double :=
  match a with
  | Num z => Dy z 0
  | Infinity b => DInfinity b
  | NaN => DNaN
  end.

(** The two doubles have the same value. *)
Definition same_double (x y : double) : bool :=
  match x, y with
  | Dy m s, Dy n t => m * 2 ^ (Z.max s t - s) =? n * 2 ^ (Z.max s t - t)
  | DInfinity a, DInfinity b => Bool.eqb a b
  | DNaN, DNaN => true
  | _, _ => false
  end.

Definition sample_operands : list (Z * Z) :=
  [ (1, 3); (7, 1000); (9007199254740993, 1000); (2501999792984, 3600);
    (3600000, 1000000000000000000); (9007199254742400, 1);
    (9223372036854775807, 9223372036854775807); (5, 2); (123456789, 60);
    (4611686018427387905, 3) ].

(** Conversion, product, sum, quotient and the sum with a quotient of two
    operands give the same doubles as the floats do. *)
Definition agrees_with_floats (p : Z * Z) : bool :=
  let '(a, b) := p in
  let fa := float_of_int a in
  let fb := float_of_int b in
  match round64 a, round64 b with
  | Num x, Num y =>
      same_double (double_of_float fa) (Dy x 0)
      && same_double (double_of_float (fa * fb))
           (double_of_jsnum (jmul (Num x) (Num y)))
      && same_double (double_of_float (fa + fb))
           (double_of_jsnum (jadd (Num x) (Num y)))
      && same_double (double_of_float (fa / fb)) (div64 (Num x) y)
      && same_double (double_of_float (fa + fa / fb))
           (add64 (Num x) (div64 (Num x) y))
  | _, _ => false
  end.

(** The mantissa of an integer of more than 53 bits. *)
Definition mantissa (z : Z) : Z := round_half_even z (2 ^ (Z.log2 z - 52)).


(** ** Vocabulary of the statements on the lines of a text *)

(** The trimmed line starts with [current_task:]. *)
Definition is_current_task_line (l : jsstring) : bool :=
  startsWith (trim l) (lit "current_task:").

(** The trimmed line starts with [current_stage_index:]. *)
Definition is_stage_index_line (l : jsstring) : bool :=
  startsWith (trim l) (lit "current_stage_index:").

(** The loop comes to a line after the lines [pre]: the line is at the
    margin, where the search after a [last_check_result:] line stops, or
    no line of [pre] starts such a search. *)
Definition loop_comes_to (pre : list jsstring) (line : jsstring) : Prop :=
  test (match_anchored re_indent line) = false \/ no_check_result_line pre.

(** The scanner is inside a [current_task] block. *)
Definition in_task_section (st : pstate) : bool :=
  section_eqb (currentSection st) SecCurrentTask.








(** The status of a finished mission, with lines after [current_task:]
    and [current_stage_index:]. *)
Definition finished_status : jsstring := lit
"mission: Verify the Adder
stage_list:
- index: 0
  title: Requirement analysis
  reached: true
  time_cost: 1m 5s
- index: 1
  title: Functional specification
  reached: true
  is_skipped: false
process: 2/2
current_task: Mission completed
current_stage_index: null
current_stage_name: none
last_check_result:
  check_pass: true".

(** A [current_stage_index:] line whose value starts with a digit. *)
Definition leading_digit_status : jsstring :=
  lit "current_stage_index: 1abc".

(** * Properties *)

(** ** Numbers: the nearest double *)

Lemma pow2_pos (n : Z) : 0 < 2 ^ n \/ (n < 0 /\ 2 ^ n = 0).
Proof.
  destruct (Z_lt_le_dec n 0) as [H|H].
  - right. split; [exact H|]. now apply Z.pow_neg_r.
  - left. apply Z.pow_pos_nonneg; lia.
Qed.

Lemma pow2_gt0 (n : Z) : 0 <= n -> 0 < 2 ^ n.
Proof. intros. apply Z.pow_pos_nonneg; lia. Qed.

(** The fraction at scale [s + 1] is twice the fraction at scale [s]. *)
Lemma scaled_succ_div (num den s : Z) :
  0 < num -> 0 < den ->
  2 * (fst (scaled num den s) / snd (scaled num den s))
  <= fst (scaled num den (s + 1)) / snd (scaled num den (s + 1)).
Proof.
  intros Hn Hd. unfold scaled.
  destruct (0 <=? s) eqn:E1; destruct (0 <=? s + 1) eqn:E2;
    try apply Z.leb_le in E1; try apply Z.leb_gt in E1;
    try apply Z.leb_le in E2; try apply Z.leb_gt in E2; try lia; cbn [fst snd].
  - rewrite Z.pow_add_r by lia. change (2 ^ 1) with 2.
    pose proof (pow2_gt0 s E1) as Hp.
    apply Z.div_le_lower_bound; [lia|].
    pose proof (Z.mul_div_le (num * 2 ^ s) den Hd). nia.
  - assert (s = -1) by lia. subst s. change (- -1) with 1.
    change (-1 + 1) with 0. change (2 ^ 1) with 2. change (2 ^ 0) with 1.
    apply Z.div_le_lower_bound; [lia|].
    pose proof (Z.mul_div_le num (den * 2) ltac:(lia)). nia.
  - replace (- s) with (- (s + 1) + 1) by lia.
    rewrite (Z.pow_add_r 2 (- (s + 1)) 1) by lia. change (2 ^ 1) with 2.
    pose proof (pow2_gt0 (- (s + 1)) ltac:(lia)) as Hp.
    set (D := den * 2 ^ (- (s + 1))) in *.
    assert (HD : 0 < D) by (unfold D; nia).
    replace (den * (2 ^ (- (s + 1)) * 2)) with (D * 2) by (unfold D; ring).
    apply Z.div_le_lower_bound; [lia|].
    pose proof (Z.mul_div_le num (D * 2) ltac:(lia)). nia.
Qed.

(** The mantissa at the scale of [num / den] has 53 bits, unless the scale
    is that of the subnormal numbers. *)
Lemma scale_of_spec (num den : Z) :
  0 < num -> 0 < den ->
  let s := scale_of num den in
  s <= 1074 /\
  (s < 1074 ->
   2 ^ 52 <= fst (scaled num den s) / snd (scaled num den s)).
Proof.
  intros Hn Hd. unfold scale_of.
  set (s0 := 52 - (Z.log2 num - Z.log2 den)).
  destruct (scaled num den s0) as [n d] eqn:E.
  assert (H51 : 2 ^ 51 <= n / d).
  { pose proof (Z.log2_spec num Hn) as [Hn1 Hn2].
    pose proof (Z.log2_spec den Hd) as [Hd1 Hd2].
    pose proof (Z.log2_nonneg num) as Ln. pose proof (Z.log2_nonneg den) as Ld.
    unfold scaled in E. destruct (0 <=? s0) eqn:E0.
    - apply Z.leb_le in E0. inversion E; subst n d.
      apply Z.div_le_lower_bound; [lia|].
      assert (2 ^ (Z.log2 num) * 2 ^ s0 = 2 ^ 51 * 2 ^ Z.succ (Z.log2 den)).
      { rewrite <- !Z.pow_add_r by lia. f_equal. unfold s0. lia. }
      pose proof (pow2_gt0 s0 E0). nia.
    - apply Z.leb_gt in E0. inversion E; subst n d.
      pose proof (pow2_gt0 (- s0) ltac:(lia)) as Hp.
      apply Z.div_le_lower_bound; [nia|].
      assert (2 ^ (Z.log2 num)
              = 2 ^ 51 * (2 ^ Z.succ (Z.log2 den) * 2 ^ (- s0))).
      { rewrite <- !Z.pow_add_r by lia. f_equal. unfold s0. lia. }
      nia. }
  cbv zeta. split; [apply Z.le_min_l|].
  destruct (n / d <? 2 ^ 52) eqn:E52.
  - intros Hs. rewrite Z.min_r by lia.
    pose proof (scaled_succ_div num den s0 Hn Hd) as H2.
    rewrite E in H2. cbn [fst snd] in H2.
    change (2 ^ 52) with (2 * 2 ^ 51). lia.
  - apply Z.ltb_ge in E52. intros Hs. rewrite Z.min_r by lia.
    rewrite E. exact E52.
Qed.

(** Rounding to the nearest integer goes to the floor or to the next
    integer. *)
Lemma round_half_even_floor (n d : Z) :
  0 < d -> n / d <= round_half_even n d.
Proof.
  intros. unfold round_half_even.
  destruct ((d <? 2 * (n mod d)) || ((2 * (n mod d) =? d) && Z.odd (n / d)))%bool;
    lia.
Qed.

(** What is rounded is at most an integer [c]: so is the result. *)
Lemma round_half_even_le (n d c : Z) :
  0 < d -> n <= c * d -> round_half_even n d <= c.
Proof.
  intros Hd Hc. unfold round_half_even.
  pose proof (Z.div_mod n d ltac:(lia)) as E.
  pose proof (Z.mod_pos_bound n d Hd) as Hr.
  set (q := n / d) in *. set (r := n mod d) in *.
  destruct ((d <? 2 * r) || ((2 * r =? d) && Z.odd q))%bool eqn:Eup.
  - assert (0 < r).
    { apply orb_true_iff in Eup. destruct Eup as [Eup|Eup].
      - apply Z.ltb_lt in Eup. lia.
      - apply andb_true_iff in Eup. destruct Eup as [Eup _].
        apply Z.eqb_eq in Eup. lia. }
    assert (d * q < d * c) by lia.
    assert (q < c) by (apply (Z.mul_lt_mono_pos_l d); lia). lia.
  - assert (d * q <= d * c) by lia.
    assert (q <= c) by (apply (Z.mul_le_mono_pos_l _ _ d); lia). lia.
Qed.

(** The double nearest to a fraction that lies between an integer [N] and
    [N + 1 - 2^-j], where [N + 1] has at most [53 - j] bits: its scale is
    at least [j] and it lies between the same two numbers. *)
Lemma nearest_bounds (num den N j : Z) :
  0 < num -> 0 < den -> 0 <= N -> 0 <= j ->
  N * den <= num ->
  num * 2 ^ j <= ((N + 1) * 2 ^ j - 1) * den ->
  (N + 1) * 2 ^ j <= 2 ^ 53 ->
  exists m s,
    nearest num den = Dy m s /\ j <= s /\
    N * 2 ^ s <= m <= (N + 1) * 2 ^ s - 2 ^ (s - j).
Proof.
  intros Hn Hd HN Hj Hlo Hhi Hfit. unfold nearest.
  replace (num =? 0) with false by (symmetry; apply Z.eqb_neq; lia).
  rewrite (Z.abs_eq num) by lia.
  pose proof (scale_of_spec num den Hn Hd) as [Hs1 Hs2]. cbv zeta in Hs1, Hs2.
  set (s := scale_of num den) in *.
  pose proof (pow2_gt0 j Hj) as Hpj.
  (* the number is below 2^53, so the scale is not negative *)
  assert (Hlt : num * 2 ^ j < 2 ^ 53 * den) by nia.
  assert (Hj53 : j <= 53).
  { destruct (Z_lt_le_dec 53 j) as [Hbig|]; [|assumption]. exfalso.
    assert (2 ^ 53 < 2 ^ j) by (apply Z.pow_lt_mono_r; lia). nia. }
  assert (Hs : j <= s).
  { destruct (Z_lt_le_dec s j) as [Hsj|]; [|assumption]. exfalso.
    specialize (Hs2 ltac:(lia)). unfold scaled in Hs2.
    destruct (0 <=? s) eqn:E0; cbn [fst snd] in Hs2.
    - apply Z.leb_le in E0.
      pose proof (pow2_gt0 s E0) as Hps.
      pose proof (Z.mul_div_le (num * 2 ^ s) den Hd) as Hq.
      assert (Hsplit : 2 ^ j = 2 ^ s * 2 ^ (j - s)).
      { rewrite <- Z.pow_add_r by lia. f_equal. lia. }
      assert (2 <= 2 ^ (j - s)).
      { change 2 with (2 ^ 1) at 1. apply Z.pow_le_mono_r; lia. }
      change (2 ^ 53) with (2 * 2 ^ 52) in Hfit.
      assert (2 ^ 52 * den <= num * 2 ^ s) by nia.
      assert ((N + 1) * 2 ^ s * 2 <= 2 * 2 ^ 52) by nia.
      assert (num * 2 ^ s < (N + 1) * 2 ^ s * den) by nia.
      nia.
    - apply Z.leb_gt in E0.
      pose proof (pow2_gt0 (- s) ltac:(lia)) as Hps.
      pose proof (Z.mul_div_le num (den * 2 ^ (- s)) ltac:(nia)) as Hq.
      assert (2 <= 2 ^ (- s)).
      { change 2 with (2 ^ 1) at 1. apply Z.pow_le_mono_r; lia. }
      assert (num <= num * 2 ^ j) by nia.
      set (P := 2 ^ (- s)) in *. set (Q := num / (den * P)) in *.
      assert (den * P * 2 ^ 52 <= den * P * Q)
        by (apply Z.mul_le_mono_nonneg_l; nia).
      assert (den * 2 * 2 ^ 52 <= den * P * 2 ^ 52)
        by (apply Z.mul_le_mono_nonneg_r; [apply Z.pow_nonneg|]; nia).
      change (2 ^ 53) with (2 * 2 ^ 52) in Hlt. lia. }
  assert (Hs0 : 0 <= s) by lia.
  unfold scaled. replace (0 <=? s) with true by (symmetry; apply Z.leb_le; lia).
  replace (s <? -971) with false by (symmetry; apply Z.ltb_ge; lia).
  replace (s =? -971) with false by (symmetry; apply Z.eqb_neq; lia).
  cbn [orb andb]. rewrite (Z.sgn_pos num) by lia. rewrite Z.mul_1_l.
  pose proof (pow2_gt0 s Hs0) as Hps.
  eexists. eexists. split; [reflexivity|]. split; [exact Hs|]. split.
  - etransitivity; [|apply round_half_even_floor; exact Hd].
    apply Z.div_le_lower_bound; [lia | nia].
  - apply round_half_even_le; [exact Hd|].
    assert (Hsplit : 2 ^ s = 2 ^ j * 2 ^ (s - j)).
    { rewrite <- Z.pow_add_r by lia. f_equal. lia. }
    pose proof (pow2_gt0 (s - j) ltac:(lia)) as Hpd.
    rewrite Hsplit.
    replace (((N + 1) * (2 ^ j * 2 ^ (s - j)) - 2 ^ (s - j)) * den)
      with (((N + 1) * 2 ^ j - 1) * den * 2 ^ (s - j)) by ring.
    nia.
Qed.

Lemma nearest_zero (den : Z) : nearest 0 den = Dy 0 0.
Proof. reflexivity. Qed.

Lemma nearest_opp (num den : Z) :
  nearest (- num) den = opposite (nearest num den).
Proof.
  unfold nearest. destruct (Z.eq_dec num 0) as [->|Hnz]; [reflexivity|].
  replace (- num =? 0) with false by (symmetry; apply Z.eqb_neq; lia).
  replace (num =? 0) with false by (symmetry; apply Z.eqb_neq; lia).
  rewrite Z.abs_opp.
  destruct (scaled (Z.abs num) den (scale_of (Z.abs num) den)) as [n d].
  replace (- num <? 0) with (negb (num <? 0))
    by (destruct (num <? 0) eqn:E1; destruct (- num <? 0) eqn:E2;
        try reflexivity;
        try apply Z.ltb_lt in E1; try apply Z.ltb_ge in E1;
        try apply Z.ltb_lt in E2; try apply Z.ltb_ge in E2; lia).
  match goal with |- context [if ?c then _ else _] => destruct c end;
    cbn [opposite]; [reflexivity|].
  f_equal. rewrite Z.sgn_opp. ring.
Qed.

(** ** Integers up to 2^53 *)

Lemma nearest_int (z : Z) :
  0 < z < 2 ^ 53 ->
  exists s, nearest z 1 = Dy (z * 2 ^ s) s /\ 0 <= s.
Proof.
  intros Hz.
  destruct (nearest_bounds z 1 z 0) as (m & s & E & Hs & Hm);
    try lia.
  exists s. split; [|exact Hs].
  rewrite E. f_equal. rewrite Z.sub_0_r in Hm. lia.
Qed.

Lemma round64_small (z : Z) : 0 <= z < 2 ^ 53 -> round64 z = Num z.
Proof.
  intros Hz. destruct (Z.eq_dec z 0) as [->|Hnz]; [reflexivity|].
  destruct (nearest_int z ltac:(lia)) as (s & E & Hs).
  unfold round64. rewrite E. cbn [Math_floor].
  replace (0 <=? s) with true by (symmetry; apply Z.leb_le; lia).
  rewrite Z.div_mul; [reflexivity|].
  pose proof (pow2_gt0 s Hs). lia.
Qed.

Lemma round64_opp_small (z : Z) : 0 <= z < 2 ^ 53 -> round64 (- z) = Num (- z).
Proof.
  intros Hz. destruct (Z.eq_dec z 0) as [->|Hnz]; [reflexivity|].
  destruct (nearest_int z ltac:(lia)) as (s & E & Hs).
  unfold round64. rewrite nearest_opp, E. cbn [opposite Math_floor].
  replace (0 <=? s) with true by (symmetry; apply Z.leb_le; lia).
  rewrite <- Z.mul_opp_l, Z.div_mul; [reflexivity|].
  pose proof (pow2_gt0 s Hs). lia.
Qed.

(** The integers that every double holds exactly. *)
Lemma round64_exact (z : Z) : - 2 ^ 53 <= z <= 2 ^ 53 -> round64 z = Num z.
Proof.
  intros Hz.
  destruct (Z.eq_dec z (2 ^ 53)) as [->|H1]; [reflexivity|].
  destruct (Z.eq_dec z (- 2 ^ 53)) as [->|H2]; [reflexivity|].
  destruct (Z_lt_le_dec z 0) as [Hneg|Hpos].
  - replace z with (- - z) by lia. apply round64_opp_small. lia.
  - apply round64_small. lia.
Qed.

(** ** [Math.floor] of a quotient *)

(** Below 2^53 the rounding of the quotient does not reach the next
    integer: the floor is the integer quotient. *)
Lemma floor_div_exact (x d : Z) :
  0 <= x < 2 ^ 53 -> 0 < d <= 2 ^ 53 ->
  floor_div (Num x) d = Num (x / d).
Proof.
  intros Hx Hd. unfold floor_div, div64.
  destruct (Z.eq_dec x 0) as [->|Hnz]; [now rewrite Z.div_0_l by lia|].
  unfold nearest.
  replace (x =? 0) with false by (symmetry; apply Z.eqb_neq; lia).
  rewrite (Z.abs_eq x) by lia.
  pose proof (scale_of_spec x d ltac:(lia) ltac:(lia)) as [Hs1 Hs2].
  cbv zeta in Hs1, Hs2. set (s := scale_of x d) in *.
  assert (Hs0 : 0 <= s).
  { destruct (Z_lt_le_dec s 0) as [Hneg|]; [|assumption]. exfalso.
    specialize (Hs2 ltac:(lia)). unfold scaled in Hs2.
    replace (0 <=? s) with false in Hs2 by (symmetry; apply Z.leb_gt; lia).
    cbn [fst snd] in Hs2.
    pose proof (pow2_gt0 (- s) ltac:(lia)) as Hp.
    pose proof (Z.mul_div_le x (d * 2 ^ (- s)) ltac:(nia)) as Hq.
    set (P := 2 ^ (- s)) in *. set (Q := x / (d * P)) in *.
    assert (d * P * 2 ^ 52 <= d * P * Q)
      by (apply Z.mul_le_mono_nonneg_l; nia).
    assert (2 <= P).
    { unfold P. change 2 with (2 ^ 1) at 1. apply Z.pow_le_mono_r; lia. }
    assert (1 * 2 * 2 ^ 52 <= d * P * 2 ^ 52)
      by (apply Z.mul_le_mono_nonneg_r; [apply Z.pow_nonneg|]; nia).
    change (2 ^ 53) with (1 * 2 * 2 ^ 52) in Hx. lia. }
  unfold scaled in *.
  replace (0 <=? s) with true in * by (symmetry; apply Z.leb_le; lia).
  cbn [fst snd] in Hs2.
  replace (s <? -971) with false by (symmetry; apply Z.ltb_ge; lia).
  replace (s =? -971) with false by (symmetry; apply Z.eqb_neq; lia).
  cbn [orb andb Math_floor]. rewrite (Z.sgn_pos x) by lia. rewrite Z.mul_1_l.
  replace (0 <=? s) with true by (symmetry; apply Z.leb_le; lia).
  f_equal.
  pose proof (pow2_gt0 s Hs0) as Hp. set (P := 2 ^ s) in *.
  (* the floor of the scaled quotient *)
  assert (Ht : x * P / d / P = x / d).
  { rewrite Z.div_div by lia. now rewrite Z.div_mul_cancel_r by lia. }
  unfold round_half_even.
  pose proof (Z.div_mod (x * P) d ltac:(lia)) as E.
  pose proof (Z.mod_pos_bound (x * P) d ltac:(lia)) as Hr.
  set (t := x * P / d) in *. set (r := (x * P) mod d) in *.
  destruct ((d <? 2 * r) || ((2 * r =? d) && Z.odd t))%bool eqn:Eup;
    [|exact Ht].
  assert (Hup : d <= 2 * r).
  { apply orb_true_iff in Eup. destruct Eup as [Eup|Eup].
    - apply Z.ltb_lt in Eup. lia.
    - apply andb_true_iff in Eup. destruct Eup as [Eup _].
      apply Z.eqb_eq in Eup. lia. }
  (* the quotient has room below the next integer *)
  assert (Hroom : d < 2 * P).
  { destruct (Z_lt_le_dec s 1074) as [Hn|Hc].
    - specialize (Hs2 Hn).
      assert (d * 2 ^ 52 <= d * t) by (apply Z.mul_le_mono_nonneg_l; lia).
      assert (x * P < 2 * 2 ^ 52 * P)
        by (apply Z.mul_lt_mono_pos_r; [lia|]; change (2 * 2 ^ 52) with (2 ^ 53); lia).
      nia.
    - assert (2 ^ 1074 <= P) by (apply Z.pow_le_mono_r; lia).
      assert (2 ^ 53 < 2 ^ 1074) by (apply Z.pow_lt_mono_r; lia). lia. }
  pose proof (Z.div_mod t P ltac:(lia)) as Et.
  pose proof (Z.mod_pos_bound t P ltac:(lia)) as Hb.
  rewrite <- Ht.
  set (a := t / P) in *. set (b := t mod P) in *.
  destruct (Z.eq_dec b (P - 1)) as [Hlast|Hnot].
  - exfalso.
    (* t + 1 = (a + 1) P, and x < (a + 1) d *)
    assert (Hq : x < (a + 1) * d).
    { pose proof (Z.div_mod x d ltac:(lia)) as Ex.
      pose proof (Z.mod_pos_bound x d ltac:(lia)) as Hxr.
      rewrite Ht in *. nia. }
    assert (P * ((a + 1) * d - x) = d - r) by nia.
    assert (1 <= (a + 1) * d - x) by lia.
    assert (P * 1 <= P * ((a + 1) * d - x))
      by (apply Z.mul_le_mono_nonneg_l; lia).
    lia.
  - symmetry. apply (Z.div_unique (t + 1) P a (b + 1)); lia.
Qed.

(** The floor of the nearest double of a fraction that leaves room below
    the next integer. *)
Lemma floor_nearest (num den N j : Z) :
  0 < num -> 0 < den -> 0 <= N -> 0 <= j ->
  N * den <= num ->
  num * 2 ^ j <= ((N + 1) * 2 ^ j - 1) * den ->
  (N + 1) * 2 ^ j <= 2 ^ 53 ->
  Math_floor (nearest num den) = Num N.
Proof.
  intros Hn Hd HN Hj Hlo Hhi Hfit.
  destruct (nearest_bounds num den N j Hn Hd HN Hj Hlo Hhi Hfit)
    as (m & s & -> & Hs & Hm).
  cbn [Math_floor].
  replace (0 <=? s) with true by (symmetry; apply Z.leb_le; lia).
  f_equal. pose proof (pow2_gt0 s ltac:(lia)) as Hp.
  pose proof (pow2_gt0 (s - j) ltac:(lia)) as Hpd.
  symmetry. apply (Z.div_unique m (2 ^ s) N (m - N * 2 ^ s)); lia.
Qed.

(** The seconds since the last fetch, added to the stored seconds and
    floored: the two roundings do not reach the next integer while the sum
    has fewer than 43 bits. *)
Lemma elapsed_exact (base delta : Z) :
  0 <= base -> 0 <= delta ->
  (base + delta / 1000 + 1) * 2 ^ 10 <= 2 ^ 53 ->
  Math_floor (add64 (Num base) (div64 (Num delta) 1000))
  = Num (base + delta / 1000).
Proof.
  intros Hb Hdl Hfit. cbn [div64].
  destruct (Z.eq_dec delta 0) as [->|Hnz].
  - rewrite nearest_zero. cbn [add64 Z.leb Z.compare].
    change (2 ^ 0) with 1. rewrite Z.mul_1_r, Z.add_0_r.
    change (0 / 1000) with 0 in *. rewrite Z.add_0_r in *.
    apply round64_small. change (2 ^ 10) with 1024 in Hfit. lia.
  - set (q := delta / 1000) in *.
    pose proof (Z.div_mod delta 1000 ltac:(lia)) as E.
    pose proof (Z.mod_pos_bound delta 1000 ltac:(lia)) as Hr.
    fold q in E.
    assert (Hq : 0 <= q) by (apply Z.div_pos; lia).
    change (2 ^ 10) with 1024 in Hfit.
    destruct (nearest_bounds delta 1000 q 10) as (m & s & -> & Hs & Hm);
      try (change (2 ^ 10) with 1024); try lia.
    cbn [add64].
    replace (0 <=? s) with true by (symmetry; apply Z.leb_le; lia).
    pose proof (pow2_gt0 s ltac:(lia)) as Hp.
    pose proof (pow2_gt0 (s - 10) ltac:(lia)) as Hpd.
    assert (Hsplit : 2 ^ s = 1024 * 2 ^ (s - 10)).
    { change 1024 with (2 ^ 10). rewrite <- Z.pow_add_r by lia.
      f_equal. lia. }
    destruct (Z.eq_dec (base * 2 ^ s + m) 0) as [Hz|Hpos].
    + rewrite Hz, nearest_zero. cbn [Math_floor Z.leb Z.compare].
      f_equal. change (2 ^ 0) with 1. rewrite Z.div_1_r. nia.
    + apply (floor_nearest _ _ (base + q) 10);
        try (change (2 ^ 10) with 1024); try lia; try nia.
Qed.

(** ** Integers beyond 2^53 *)

Lemma scale_of_int (z : Z) : 0 < z -> scale_of z 1 = 52 - Z.log2 z.
Proof.
  intros Hz. unfold scale_of. change (Z.log2 1) with 0. rewrite Z.sub_0_r.
  pose proof (Z.log2_spec z Hz) as [Hl1 Hl2].
  pose proof (Z.log2_nonneg z) as Hl0.
  set (L := Z.log2 z) in *. unfold scaled.
  destruct (0 <=? 52 - L) eqn:E0.
  - apply Z.leb_le in E0. rewrite Z.div_1_r.
    replace (z * 2 ^ (52 - L) <? 2 ^ 52) with false; [lia|].
    symmetry. apply Z.ltb_ge.
    assert (2 ^ 52 = 2 ^ L * 2 ^ (52 - L)).
    { rewrite <- Z.pow_add_r by lia. f_equal. lia. }
    pose proof (pow2_gt0 (52 - L) E0). nia.
  - apply Z.leb_gt in E0. rewrite Z.mul_1_l.
    replace (z / 2 ^ (- (52 - L)) <? 2 ^ 52) with false; [lia|].
    symmetry. apply Z.ltb_ge.
    pose proof (pow2_gt0 (- (52 - L)) ltac:(lia)).
    apply Z.div_le_lower_bound; [lia|].
    assert (2 ^ L = 2 ^ (- (52 - L)) * 2 ^ 52).
    { rewrite <- Z.pow_add_r by lia. f_equal. lia. }
    lia.
Qed.

Lemma round64_big (z : Z) :
  2 ^ 53 <= z ->
  round64 z
  = if ((971 <? Z.log2 z - 52)
        || ((Z.log2 z - 52 =? 971) && (mantissa z =? 2 ^ 53)))%bool
    then Infinity false
    else Num (mantissa z * 2 ^ (Z.log2 z - 52)).
Proof.
  intros Hz. assert (Hpos : 0 < z) by (pose proof (pow2_gt0 53); lia).
  assert (HL : 53 <= Z.log2 z) by (apply Z.log2_le_pow2; lia).
  unfold round64, nearest, mantissa.
  replace (z =? 0) with false by (symmetry; apply Z.eqb_neq; lia).
  rewrite (Z.abs_eq z) by lia. rewrite scale_of_int by exact Hpos.
  set (k := Z.log2 z - 52). replace (52 - Z.log2 z) with (- k) by (unfold k; lia).
  unfold scaled.
  replace (0 <=? - k) with false by (symmetry; apply Z.leb_gt; unfold k; lia).
  rewrite Z.opp_involutive, Z.mul_1_l.
  replace (- k <? -971) with (971 <? k)
    by (destruct (971 <? k) eqn:E1; destruct (- k <? -971) eqn:E2;
        try reflexivity;
        try apply Z.ltb_lt in E1; try apply Z.ltb_ge in E1;
        try apply Z.ltb_lt in E2; try apply Z.ltb_ge in E2; lia).
  replace (- k =? -971) with (k =? 971)
    by (destruct (k =? 971) eqn:E1; destruct (- k =? -971) eqn:E2;
        try reflexivity;
        try apply Z.eqb_eq in E1; try apply Z.eqb_neq in E1;
        try apply Z.eqb_eq in E2; try apply Z.eqb_neq in E2; lia).
  replace (z <? 0) with false by (symmetry; apply Z.ltb_ge; lia).
  destruct ((971 <? k) || ((k =? 971) && (round_half_even z (2 ^ k) =? 2 ^ 53)))%bool;
    [reflexivity|].
  cbn [Math_floor].
  replace (0 <=? - k) with false by (symmetry; apply Z.leb_gt; unfold k; lia).
  rewrite (Z.sgn_pos z) by lia. rewrite Z.mul_1_l, Z.opp_involutive.
  reflexivity.
Qed.

Lemma round_half_even_mono (n1 n2 d : Z) :
  0 < d -> n1 <= n2 -> round_half_even n1 d <= round_half_even n2 d.
Proof.
  intros Hd Hn. unfold round_half_even.
  pose proof (Z.div_le_mono n1 n2 d Hd Hn) as Ht.
  pose proof (Z.div_mod n1 d ltac:(lia)) as E1.
  pose proof (Z.div_mod n2 d ltac:(lia)) as E2.
  pose proof (Z.mod_pos_bound n1 d Hd) as Hr1.
  pose proof (Z.mod_pos_bound n2 d Hd) as Hr2.
  set (t1 := n1 / d) in *. set (t2 := n2 / d) in *.
  set (r1 := n1 mod d) in *. set (r2 := n2 mod d) in *.
  destruct (Z.eq_dec t1 t2) as [Heq|Hne].
  - assert (r1 <= r2) by nia. rewrite <- Heq.
    destruct ((d <? 2 * r1) || ((2 * r1 =? d) && Z.odd t1))%bool eqn:U1;
      destruct ((d <? 2 * r2) || ((2 * r2 =? d) && Z.odd t1))%bool eqn:U2;
      try lia.
    exfalso. apply orb_false_iff in U2. destruct U2 as [U2 U3].
    apply Z.ltb_ge in U2.
    apply orb_true_iff in U1. destruct U1 as [U1|U1].
    + apply Z.ltb_lt in U1. lia.
    + apply andb_true_iff in U1. destruct U1 as [U1 Hodd].
      apply Z.eqb_eq in U1. rewrite Hodd, andb_true_r in U3.
      apply Z.eqb_neq in U3. lia.
  - destruct ((d <? 2 * r1) || ((2 * r1 =? d) && Z.odd t1))%bool;
      destruct ((d <? 2 * r2) || ((2 * r2 =? d) && Z.odd t2))%bool; lia.
Qed.

(** The mantissa has 53 bits, or is 2^53. *)
Lemma mantissa_bounds (z : Z) :
  2 ^ 53 <= z -> 2 ^ 52 <= mantissa z <= 2 ^ 53.
Proof.
  intros Hz. assert (Hpos : 0 < z) by (pose proof (pow2_gt0 53); lia).
  assert (HL : 53 <= Z.log2 z) by (apply Z.log2_le_pow2; lia).
  pose proof (Z.log2_spec z Hpos) as [Hl1 Hl2].
  unfold mantissa. set (k := Z.log2 z - 52) in *.
  pose proof (pow2_gt0 k ltac:(unfold k; lia)) as Hp.
  assert (E1 : 2 ^ Z.log2 z = 2 ^ 52 * 2 ^ k).
  { rewrite <- Z.pow_add_r by (unfold k; lia). f_equal. unfold k. lia. }
  assert (E2 : 2 ^ Z.succ (Z.log2 z) = 2 ^ 53 * 2 ^ k).
  { rewrite <- Z.pow_add_r by (unfold k; lia). f_equal. unfold k. lia. }
  split.
  - etransitivity; [|apply round_half_even_floor; exact Hp].
    apply Z.div_le_lower_bound; lia.
  - apply round_half_even_le; [exact Hp | lia].
Qed.

(** Rounding keeps the order of the integers. *)
Lemma round64_mono (a b : Z) :
  0 <= a <= b -> jle (round64 a) (round64 b) = true.
Proof.
  intros Hab.
  destruct (Z_lt_le_dec b (2 ^ 53)) as [Hb|Hb].
  { rewrite !round64_small by lia. unfold jle. cbn [jlt jeq].
    destruct (Z.eq_dec a b) as [->|]; [now rewrite Z.eqb_refl, orb_true_r|].
    replace (a <? b) with true; [reflexivity|]. symmetry. apply Z.ltb_lt. lia. }
  pose proof (mantissa_bounds b Hb) as Hmb.
  assert (Hbpos : 0 < b) by (pose proof (pow2_gt0 53); lia).
  assert (HLb : 53 <= Z.log2 b) by (apply Z.log2_le_pow2; lia).
  pose proof (pow2_gt0 (Z.log2 b - 52) ltac:(lia)) as Hpb.
  rewrite (round64_big b Hb).
  destruct (Z_lt_le_dec a (2 ^ 53)) as [Ha|Ha].
  { rewrite round64_small by lia.
    destruct ((971 <? Z.log2 b - 52)
              || ((Z.log2 b - 52 =? 971) && (mantissa b =? 2 ^ 53)))%bool;
      [reflexivity|].
    unfold jle. cbn [jlt jeq].
    replace (a <? mantissa b * 2 ^ (Z.log2 b - 52)) with true; [reflexivity|].
    symmetry. apply Z.ltb_lt.
    assert (2 <= 2 ^ (Z.log2 b - 52)).
    { change 2 with (2 ^ 1) at 1. apply Z.pow_le_mono_r; lia. }
    change (2 ^ 53) with (2 ^ 52 * 2) in Ha. nia. }
  pose proof (mantissa_bounds a Ha) as Hma.
  assert (Hapos : 0 < a) by (pose proof (pow2_gt0 53); lia).
  assert (HLa : 53 <= Z.log2 a) by (apply Z.log2_le_pow2; lia).
  pose proof (pow2_gt0 (Z.log2 a - 52) ltac:(lia)) as Hpa.
  pose proof (Z.log2_le_mono a b ltac:(lia)) as HL.
  rewrite (round64_big a Ha).
  set (ka := Z.log2 a - 52) in *. set (kb := Z.log2 b - 52) in *.
  assert (Hk : ka <= kb) by (unfold ka, kb; lia).
  assert (Hsame : ka = kb -> mantissa a <= mantissa b).
  { intros E. unfold mantissa. fold ka kb. rewrite E.
    apply round_half_even_mono; lia. }
  destruct ((971 <? kb) || ((kb =? 971) && (mantissa b =? 2 ^ 53)))%bool eqn:Ob.
  - destruct ((971 <? ka) || ((ka =? 971) && (mantissa a =? 2 ^ 53)))%bool;
      reflexivity.
  - apply orb_false_iff in Ob. destruct Ob as [Ob1 Ob2]. apply Z.ltb_ge in Ob1.
    replace ((971 <? ka) || ((ka =? 971) && (mantissa a =? 2 ^ 53)))%bool
      with false.
    + unfold jle. cbn [jlt jeq].
      assert (mantissa a * 2 ^ ka <= mantissa b * 2 ^ kb).
      { destruct (Z.eq_dec ka kb) as [E|Hne].
        - rewrite E. specialize (Hsame E). nia.
        - assert (Hsplit : 2 ^ kb = 2 ^ ka * 2 ^ (kb - ka)).
          { rewrite <- Z.pow_add_r by lia. f_equal. lia. }
          assert (2 <= 2 ^ (kb - ka)).
          { change 2 with (2 ^ 1) at 1. apply Z.pow_le_mono_r; lia. }
          change (2 ^ 53) with (2 ^ 52 * 2) in Hma.
          rewrite Hsplit.
          assert (mantissa a * 2 ^ ka <= 2 ^ 52 * 2 * 2 ^ ka) by nia.
          assert (2 ^ 52 * (2 ^ ka * 2) <= mantissa b * (2 ^ ka * 2))
            by (apply Z.mul_le_mono_nonneg_r; lia).
          assert (mantissa b * (2 ^ ka * 2)
                  <= mantissa b * (2 ^ ka * 2 ^ (kb - ka)))
            by (apply Z.mul_le_mono_nonneg_l; [lia|];
                apply Z.mul_le_mono_nonneg_l; lia).
          lia. }
      destruct (Z.eq_dec (mantissa a * 2 ^ ka) (mantissa b * 2 ^ kb)) as [->|].
      * now rewrite Z.eqb_refl, orb_true_r.
      * replace (mantissa a * 2 ^ ka <? mantissa b * 2 ^ kb) with true;
          [reflexivity|]. symmetry. apply Z.ltb_lt. lia.
    + symmetry. apply orb_false_iff. split; [apply Z.ltb_ge; lia|].
      destruct (Z.eq_dec ka 971) as [E|Hne].
      * assert (kb = 971) by lia.
        replace (kb =? 971) with true in Ob2
          by (symmetry; apply Z.eqb_eq; assumption).
        cbn [andb] in Ob2. apply Z.eqb_neq in Ob2.
        specialize (Hsame ltac:(lia)).
        replace (mantissa a =? 2 ^ 53) with false;
          [apply andb_false_r|].
        symmetry. apply Z.eqb_neq. lia.
      * replace (ka =? 971) with false; [reflexivity|].
        symmetry. apply Z.eqb_neq. exact Hne.
Qed.

(** What a non-negative integer rounds to is not negative. *)
Lemma round64_nonneg (z : Z) :
  0 <= z -> jle (Num 0) (round64 z) = true.
Proof. intros Hz. apply (round64_mono 0 z). lia. Qed.

Lemma round64_pos (z : Z) : 0 < z -> jgt (round64 z) (Num 0) = true.
Proof.
  intros Hz. pose proof (round64_mono 1 z ltac:(lia)) as H.
  rewrite (round64_small 1) in H by (split; [lia | reflexivity]).
  unfold jgt. unfold jle in H.
  destruct (round64 z) as [n| |[|]]; cbn [jlt jeq] in *; try discriminate;
    [|reflexivity].
  apply orb_true_iff in H. apply Z.ltb_lt.
  destruct H as [H|H]; [apply Z.ltb_lt in H | apply Z.eqb_eq in H]; lia.
Qed.

(** ** The text of an integer up to 2^53 *)

(** What an integer from 2^53 on rounds to is not below 2^53. *)
Lemma round64_beyond (hi a : Z) :
  0 <= a < 2 ^ 53 -> a < hi -> jeq (round64 hi) (Num a) = false.
Proof.
  intros Ha Hhi. destruct (Z_lt_le_dec hi (2 ^ 53)) as [Hs|Hb].
  - rewrite round64_small by lia. cbn [jeq]. apply Z.eqb_neq. lia.
  - pose proof (round64_mono (2 ^ 53) hi ltac:(lia)) as H.
    rewrite (round64_exact (2 ^ 53)) in H by lia.
    unfold jle in H.
    destruct (round64 hi) as [n| |[|]]; cbn [jlt jeq] in *;
      try reflexivity.
    apply Z.eqb_neq. apply orb_true_iff in H.
    destruct H as [H|H]; [apply Z.ltb_lt in H | apply Z.eqb_eq in H]; lia.
Qed.

(** Only the integer itself reads back as it. *)
Lemma shortest_from_small (a len : Z) :
  0 <= a < 2 ^ 53 ->
  forall fuel k, Z.of_nat fuel = len - k + 1 ->
  shortest_from fuel k a len = a.
Proof.
  intros Ha. induction fuel as [|f IH]; intros k Hk; [reflexivity|].
  cbn [shortest_from].
  assert (Hp : 0 < 10 ^ (len - k)) by (apply Z.pow_pos_nonneg; lia).
  set (p := 10 ^ (len - k)) in *.
  pose proof (Z.div_mod a p ltac:(lia)) as E.
  pose proof (Z.mod_pos_bound a p Hp) as Hr.
  assert (Hdiv : 0 <= a / p) by (apply Z.div_pos; lia).
  rewrite (Z.mul_comm p) in E.
  set (lo := a / p * p) in *.
  assert (Hlo : 0 <= lo <= a) by (unfold lo; nia).
  rewrite (round64_small lo) by lia.
  rewrite (round64_beyond (lo + p) a) by lia.
  cbn [jeq andb]. rewrite andb_false_r.
  destruct (lo =? a) eqn:El.
  - now apply Z.eqb_eq in El.
  - apply IH. lia.
Qed.

Lemma shortest_small (a : Z) : 0 <= a < 2 ^ 53 -> shortest a = a.
Proof.
  intros Ha. unfold shortest. apply shortest_from_small; [exact Ha | lia].
Qed.

(** An integer below 2^53 is printed with all its digits. *)
Lemma NumberToString_small (n : Z) :
  0 <= n < 2 ^ 53 -> NumberToString n = digits n.
Proof.
  intros Hn. unfold NumberToString.
  replace (n <? 0) with false by (symmetry; apply Z.ltb_ge; lia).
  rewrite shortest_small by exact Hn.
  replace (n <? 10 ^ 21) with true; [reflexivity|].
  symmetry. apply Z.ltb_lt.
  assert (2 ^ 53 < 10 ^ 21) by reflexivity. lia.
Qed.

Lemma NumberToString_small_neg (n : Z) :
  0 < n < 2 ^ 53 -> NumberToString (- n) = 45%N :: digits n.
Proof.
  intros Hn. unfold NumberToString.
  replace (- n <? 0) with true by (symmetry; apply Z.ltb_lt; lia).
  rewrite Z.opp_involutive, shortest_small by lia.
  replace (n <? 10 ^ 21) with true; [reflexivity|].
  symmetry. apply Z.ltb_lt.
  assert (2 ^ 53 < 10 ^ 21) by reflexivity. lia.
Qed.

(** Sums and products of integers are exact up to 2^53. *)
Lemma jadd_small (x y : Z) :
  - 2 ^ 53 <= x + y <= 2 ^ 53 -> jadd (Num x) (Num y) = Num (x + y).
Proof. intros H. cbn [jadd]. now apply round64_exact. Qed.

Lemma jmul_small (x y : Z) :
  - 2 ^ 53 <= x * y <= 2 ^ 53 -> jmul (Num x) (Num y) = Num (x * y).
Proof. intros H. cbn [jmul]. now apply round64_exact. Qed.

(** ** Numbers and the platform's floats *)

(** On the sample operands the operations on Numbers give the doubles that
    the primitive binary64 floats give. *)
Lemma numbers_agree_with_floats :
  forallb agrees_with_floats sample_operands = true.
Proof. vm_compute. reflexivity. Qed.

(** The sums and products where rounding shows. *)
Lemma rounded_operations :
  round64 9007199254740993 = Num 9007199254740992 /\
  jadd (jmul (Num 2501999792984) (Num 3600)) (Num 1) = Num 9007199254742400 /\
  jmul (Num 3600) (Num (10 ^ 21)) = Num 3599999999999999832227840 /\
  floor_div (Num 3599999999999999832227840) 3600 = Num (10 ^ 21) /\
  NumberToString (10 ^ 21) = lit "1e+21" /\
  NumberToString (10 ^ 21 - 2 ^ 17) = lit "999999999999999900000".
Proof. repeat split; vm_compute; reflexivity. Qed.

(** Case analysis on every condition of the goal, innermost first. *)
Ltac case_conditions :=
  repeat match goal with
         | |- context [if ?c then _ else _] =>
             lazymatch c with
             | context [if _ then _ else _] => fail
             | _ => destruct c
             end
         end.

(** ** Strings *)

Lemma jseqb_eq (a b : jsstring) : JsString.eqb a b = true <-> a = b.
Proof.
  unfold JsString.eqb. destruct (list_eq_dec N.eq_dec a b); split; congruence.
Qed.

Lemma jseqb_neq (a b : jsstring) : JsString.eqb a b = false <-> a <> b.
Proof.
  unfold JsString.eqb. destruct (list_eq_dec N.eq_dec a b); split; congruence.
Qed.

Lemma jseqb_refl (a : jsstring) : JsString.eqb a a = true.
Proof. now apply jseqb_eq. Qed.

Lemma drop_while_app_stop (p : N -> bool) (a : jsstring) (c : N) (b : jsstring) :
  Forall (fun x => p x = true) a -> p c = false ->
  drop_while p (a ++ c :: b) = c :: b.
Proof.
  induction 1 as [|x a Hx _ IH]; intros Hc; simpl.
  - now rewrite Hc.
  - rewrite Hx. now apply IH.
Qed.

Lemma drop_while_all (p : N -> bool) (a : jsstring) :
  Forall (fun x => p x = true) a -> drop_while p a = [].
Proof.
  induction 1 as [|x a Hx _ IH]; simpl; [reflexivity|]. now rewrite Hx.
Qed.

Lemma drop_while_stop (p : N -> bool) (c : N) (b : jsstring) :
  p c = false -> drop_while p (c :: b) = c :: b.
Proof. intros H. simpl. now rewrite H. Qed.

Lemma take_while_app_stop (p : N -> bool) (a : jsstring) (c : N) (b : jsstring) :
  Forall (fun x => p x = true) a -> p c = false ->
  take_while p (a ++ c :: b) = a.
Proof.
  induction 1 as [|x a Hx _ IH]; intros Hc; simpl.
  - now rewrite Hc.
  - rewrite Hx. f_equal. now apply IH.
Qed.

Lemma take_while_all (p : N -> bool) (a : jsstring) :
  Forall (fun x => p x = true) a -> take_while p a = a.
Proof.
  induction 1 as [|x a Hx _ IH]; simpl; [reflexivity|]. rewrite Hx. now f_equal.
Qed.

Lemma drop_while_app_keep (p : N -> bool) (x : jsstring) (c : N) (y : jsstring) :
  p c = false -> drop_while p (x ++ c :: y) = drop_while p x ++ c :: y.
Proof.
  intros Hc. induction x as [|d x IH]; simpl.
  - now rewrite Hc.
  - destruct (p d); [exact IH | reflexivity].
Qed.

(** [trimEnd] leaves everything up to a character that is not white space. *)
Lemma trimEnd_app_keep (a : jsstring) (c : N) (b : jsstring) :
  is_space c = false -> trimEnd (a ++ c :: b) = a ++ c :: trimEnd b.
Proof.
  intros Hc. unfold trimEnd.
  rewrite rev_app_distr. simpl rev at 2. rewrite <- app_assoc. simpl app at 2.
  rewrite drop_while_app_keep by exact Hc.
  rewrite rev_app_distr. simpl. rewrite rev_involutive.
  now rewrite <- app_assoc.
Qed.

Lemma trimEnd_nil : trimEnd [] = [].
Proof. reflexivity. Qed.

Lemma trimEnd_spaces (a : jsstring) :
  Forall (fun x => is_space x = true) a -> trimEnd a = [].
Proof.
  intros H. unfold trimEnd. rewrite drop_while_all; [reflexivity|].
  now apply Forall_rev.
Qed.

(** A string that starts and ends with characters that are not white space
    is its own trim. *)
Lemma trimEnd_last (a : jsstring) (c : N) :
  is_space c = false -> trimEnd (a ++ [c]) = a ++ [c].
Proof. intros H. now rewrite trimEnd_app_keep. Qed.

Lemma trimStart_keep (c : N) (b : jsstring) :
  is_space c = false -> trimStart (c :: b) = c :: b.
Proof. intros H. unfold trimStart. simpl. now rewrite H. Qed.

(** ** Character classes *)

Lemma is_digit_range (c : N) : is_digit c = true <-> (48 <= c <= 57)%N.
Proof. unfold is_digit. rewrite andb_true_iff, !N.leb_le. tauto. Qed.

Lemma digit_not_space (c : N) : is_digit c = true -> is_space c = false.
Proof.
  intros H. apply is_digit_range in H. unfold is_space, is_line_terminator.
  repeat (apply orb_false_iff; split);
    try (apply N.eqb_neq; lia);
    apply andb_false_iff; left; apply N.leb_gt; lia.
Qed.

Lemma digit_is_word (c : N) : is_digit c = true -> is_word c = true.
Proof. intros H. unfold is_word. now rewrite H. Qed.

Lemma digit_value_digit (c : N) :
  is_digit c = true -> digit_value c = Some (Z.of_N c - 48).
Proof. intros H. unfold digit_value. now rewrite H. Qed.

Lemma in_radix_digit (c : N) : is_digit c = true -> in_radix 10 c = true.
Proof.
  intros H. unfold in_radix. rewrite digit_value_digit by exact H.
  apply is_digit_range in H. apply Z.ltb_lt. lia.
Qed.

(** ** Decimal digits *)

Lemma radix_value_snoc (r : Z) (ds : jsstring) (c : N) :
  radix_value r (ds ++ [c]) =
  match digit_value c with
  | Some d => r * radix_value r ds + d
  | None => radix_value r ds
  end.
Proof. unfold radix_value. now rewrite fold_left_app. Qed.

Lemma digit_char (d : Z) :
  0 <= d < 10 ->
  is_digit (Z.to_N (48 + d)) = true /\ Z.of_N (Z.to_N (48 + d)) - 48 = d.
Proof.
  intros H. split.
  - apply is_digit_range. lia.
  - lia.
Qed.

Lemma digits_aux_S (fuel : nat) (n : Z) (acc : jsstring) :
  digits_aux (S fuel) n acc =
  if n <? 10 then Z.to_N (48 + n mod 10) :: acc
  else digits_aux fuel (n / 10) (Z.to_N (48 + n mod 10) :: acc).
Proof. reflexivity. Qed.

Lemma digits_aux_spec (fuel : nat) :
  forall n acc, 0 <= n < 10 ^ Z.of_nat fuel -> (0 < fuel)%nat ->
  exists ds, digits_aux fuel n acc = ds ++ acc /\ ds <> [] /\
             all is_digit ds /\ radix_value 10 ds = n.
Proof.
  induction fuel as [|fuel IH]; intros n acc Hn Hf; [lia|].
  rewrite digits_aux_S.
  assert (Hd : 0 <= n mod 10 < 10) by (apply Z.mod_pos_bound; lia).
  destruct (digit_char _ Hd) as [Hdig Hval].
  destruct (n <? 10) eqn:Hlt.
  - apply Z.ltb_lt in Hlt.
    exists [Z.to_N (48 + n mod 10)]. repeat split.
    + discriminate.
    + constructor; [exact Hdig | constructor].
    + change [Z.to_N (48 + n mod 10)] with ([] ++ [Z.to_N (48 + n mod 10)]).
      rewrite radix_value_snoc, digit_value_digit by exact Hdig.
      rewrite Hval. change (radix_value 10 []) with 0.
      rewrite Z.mod_small; lia.
  - apply Z.ltb_ge in Hlt.
    destruct fuel as [|fuel'].
    { simpl in Hn. lia. }
    destruct (IH (n / 10) (Z.to_N (48 + n mod 10) :: acc)) as (ds & E & Hne & Hall & Hv).
    + split; [apply Z.div_pos; lia|].
      apply Z.div_lt_upper_bound; [lia|].
      replace (Z.of_nat (S (S fuel'))) with (Z.succ (Z.of_nat (S fuel'))) in Hn by lia.
      rewrite Z.pow_succ_r in Hn by lia. lia.
    + lia.
    + exists (ds ++ [Z.to_N (48 + n mod 10)]). repeat split.
      * rewrite E. now rewrite <- app_assoc.
      * destruct ds; discriminate.
      * apply Forall_app. split; [exact Hall|]. constructor; [exact Hdig|constructor].
      * rewrite radix_value_snoc, digit_value_digit by exact Hdig.
        rewrite Hv, Hval. pose proof (Z.div_mod n 10). lia.
Qed.

Lemma digits_spec (n : Z) :
  0 <= n ->
  digits n <> [] /\ all is_digit (digits n) /\ radix_value 10 (digits n) = n.
Proof.
  intros Hn. unfold digits.
  destruct (digits_aux_spec (S (Z.to_nat (Z.log2 n))) n []) as (ds & E & Hne & Hall & Hv).
  - split; [exact Hn|].
    destruct (Z.eq_dec n 0) as [->|Hnz]; [simpl; lia|].
    assert (Hlog : n < 2 ^ Z.succ (Z.log2 n)) by (apply Z.log2_spec; lia).
    pose proof (Z.log2_nonneg n) as Hl.
    replace (Z.of_nat (S (Z.to_nat (Z.log2 n)))) with (Z.succ (Z.log2 n)) by lia.
    eapply Z.lt_le_trans; [exact Hlog|].
    apply Z.pow_le_mono_l. lia.
  - lia.
  - rewrite E, app_nil_r. auto.
Qed.

Lemma NumberToString_nonneg (n : Z) :
  0 <= n < 2 ^ 53 -> NumberToString n = digits n.
Proof. apply NumberToString_small. Qed.

Lemma read_sign_digit (c : N) (s : jsstring) :
  is_digit c = true -> read_sign (c :: s) = (false, c :: s).
Proof.
  intros Hc. apply is_digit_range in Hc. unfold read_sign.
  destruct c as [|p]; [reflexivity|].
  do 6 (destruct p as [p|p|]; try reflexivity); lia.
Qed.

Lemma read_radix_digits (radix : option Z) (s : jsstring) :
  all is_digit s -> radix = None \/ radix = Some 10 ->
  read_radix radix s = (10, s).
Proof.
  intros Hall Hr. unfold read_radix.
  assert (Hrad : match radix with None => 10 | Some r => r end = 10)
    by (destruct Hr as [-> | ->]; reflexivity).
  rewrite Hrad.
  destruct s as [|c [|x rest]].
  - reflexivity.
  - destruct c as [|p]; [reflexivity|].
    do 6 (destruct p as [p|p|]; try reflexivity).
  - pose proof (Forall_inv (Forall_inv_tail Hall)) as Hx. simpl in Hx.
    assert (Hxx : (N.eqb x 120 || N.eqb x 88)%bool = false).
    { apply is_digit_range in Hx. apply orb_false_iff.
      split; apply N.eqb_neq; lia. }
    rewrite Hxx, andb_false_r.
    destruct c as [|p]; [reflexivity|].
    do 6 (destruct p as [p|p|]; try reflexivity).
Qed.

(** [parseInt] of a string of digits, with radix 10 or none: the double
    nearest to the number that the digits denote. *)
Lemma parseInt_digits (ds : jsstring) (radix : option Z) :
  ds <> [] -> all is_digit ds -> radix = None \/ radix = Some 10 ->
  parseInt ds radix = round64 (radix_value 10 ds).
Proof.
  intros Hne Hall Hr.
  destruct ds as [|c ds']; [congruence|].
  pose proof (Forall_inv Hall) as Hc. simpl in Hc.
  unfold parseInt.
  rewrite trimStart_keep by (now apply digit_not_space).
  rewrite read_sign_digit by exact Hc. cbn [fst snd].
  rewrite read_radix_digits by assumption. cbn [fst snd].
  rewrite take_while_all.
  - reflexivity.
  - eapply Forall_impl; [|exact Hall]. intros a Ha. now apply in_radix_digit.
Qed.

(** Up to 2^53 it is that number. *)
Lemma parseInt_digits_small (ds : jsstring) (radix : option Z) :
  ds <> [] -> all is_digit ds -> radix = None \/ radix = Some 10 ->
  radix_value 10 ds <= 2 ^ 53 ->
  parseInt ds radix = Num (radix_value 10 ds).
Proof.
  intros Hne Hall Hr Hb. rewrite parseInt_digits by assumption.
  apply round64_exact. split; [|exact Hb].
  assert (0 <= radix_value 10 ds); [|lia].
  clear Hne Hb. induction ds as [|c ds IH] using rev_ind; [reflexivity|].
  apply Forall_app in Hall. destruct Hall as [Hall Hc].
  rewrite radix_value_snoc.
  rewrite digit_value_digit by exact (Forall_inv Hc).
  pose proof (Forall_inv Hc) as Hd. simpl in Hd. apply is_digit_range in Hd.
  specialize (IH Hall). lia.
Qed.

(** ** The matcher *)

Section Many.
Variables (cap : bool) (a : N -> bool) (k : jsstring -> option matched).

(** A quantified item takes the whole run when the rest matches after it. *)
Lemma many_greedy (ds : jsstring) :
  forall taken s r,
  all a ds -> stops a s ->
  conclude cap k (rev ds ++ taken) s = Some r ->
  many cap a k taken (ds ++ s) = Some r.
Proof.
  induction ds as [|d ds IH]; intros taken s r Hall Hstop Hk.
  - simpl in *. destruct s as [|c s']; simpl.
    + exact Hk.
    + simpl in Hstop. rewrite Hstop. exact Hk.
  - simpl. rewrite (Forall_inv Hall).
    rewrite (IH (d :: taken) s r); auto.
    + now apply Forall_inv_tail in Hall.
    + simpl in Hk. now rewrite <- app_assoc in Hk.
Qed.

(** Whatever a quantified item matched is a run of the class followed by a
    match of the rest. *)
Lemma many_sound (s : jsstring) :
  forall taken r,
  many cap a k taken s = Some r ->
  exists ds s', s = ds ++ s' /\ all a ds /\
                conclude cap k (rev ds ++ taken) s' = Some r.
Proof.
  induction s as [|c s IH]; intros taken r H; simpl in H.
  - exists [], []. repeat split; [constructor | exact H].
  - destruct (a c) eqn:Hc.
    + destruct (many cap a k (c :: taken) s) as [r'|] eqn:E.
      * inversion H; subst r'. destruct (IH _ _ E) as (ds & s' & -> & Hall & Hk).
        exists (c :: ds), s'. repeat split.
        -- constructor; assumption.
        -- simpl. now rewrite <- app_assoc.
      * exists [], (c :: s). repeat split; [constructor | exact H].
    + exists [], (c :: s). repeat split; [constructor | exact H].
Qed.

(** It fails when the rest matches after no part of the run. *)
Lemma many_fail (ds : jsstring) :
  forall taken s,
  all a ds -> stops a s ->
  (forall ds1 ds2, ds = ds1 ++ ds2 -> k (ds2 ++ s) = None) ->
  many cap a k taken (ds ++ s) = None.
Proof.
  induction ds as [|d ds IH]; intros taken s Hall Hstop Hk.
  - assert (E : conclude cap k taken s = None).
    { unfold conclude. pose proof (Hk [] [] eq_refl) as E0. simpl in E0.
      now rewrite E0. }
    destruct s as [|c s']; simpl; [exact E|].
    simpl in Hstop. now rewrite Hstop.
  - simpl. rewrite (Forall_inv Hall).
    rewrite IH.
    + unfold conclude. pose proof (Hk [] (d :: ds) eq_refl) as E0.
      simpl in E0. simpl. now rewrite E0.
    + now apply Forall_inv_tail in Hall.
    + exact Hstop.
    + intros ds1 ds2 E. apply (Hk (d :: ds1) ds2). now rewrite E.
Qed.

End Many.

(** *** An amount and its unit: [(\d+)u] *)

Lemma re_amount_h : re_amount "h" = re_amount_of 104.
Proof. reflexivity. Qed.
Lemma re_amount_m : re_amount "m" = re_amount_of 109.
Proof. reflexivity. Qed.
Lemma re_amount_s : re_amount "s" = re_amount_of 115.
Proof. reflexivity. Qed.

Lemma match_unit_cons (u c : N) (s : jsstring) :
  match_here [chr u] (c :: s) = if N.eqb u c then Some ([], s) else None.
Proof. simpl. now destruct (N.eqb u c). Qed.

Lemma amount_here_unfold (u : N) (s : jsstring) :
  match_here (re_amount_of u) s =
  match s with
  | c :: s' => if is_digit c
               then many true is_digit (match_here [chr u]) [c] s'
               else None
  | [] => None
  end.
Proof. reflexivity. Qed.

Lemma amount_here_hit (u : N) (ds rest : jsstring) :
  ds <> [] -> all is_digit ds -> is_digit u = false ->
  match_here (re_amount_of u) (ds ++ u :: rest) = Some ([ds], rest).
Proof.
  intros Hne Hall Hu. destruct ds as [|d ds]; [congruence|].
  rewrite amount_here_unfold. simpl app. cbv beta iota.
  pose proof (Forall_inv Hall) as Hd. simpl in Hd. rewrite Hd.
  apply many_greedy.
  - now apply Forall_inv_tail in Hall.
  - exact Hu.
  - unfold conclude. rewrite match_unit_cons, N.eqb_refl.
    simpl. rewrite rev_app_distr, rev_involutive. reflexivity.
Qed.

Lemma misses_stops (u : N) (s : jsstring) : misses u s -> stops is_digit s.
Proof. destruct s; simpl; tauto. Qed.

Lemma amount_here_miss (u : N) (ds s : jsstring) :
  all is_digit ds -> is_digit u = false -> misses u s ->
  match_here (re_amount_of u) (ds ++ s) = None.
Proof.
  intros Hall Hu Hs. rewrite amount_here_unfold.
  destruct ds as [|d ds]; simpl app.
  - destruct s as [|c s']; [reflexivity|]. destruct Hs as [Hc _]. now rewrite Hc.
  - cbv beta iota. pose proof (Forall_inv Hall) as Hd. simpl in Hd. rewrite Hd.
    apply many_fail.
    + now apply Forall_inv_tail in Hall.
    + now apply misses_stops with u.
    + intros ds1 ds2 E.
      assert (H2 : all is_digit ds2).
      { apply Forall_inv_tail in Hall. rewrite E in Hall.
        now apply Forall_app in Hall. }
      destruct ds2 as [|x ds2]; simpl.
      * destruct s as [|c s']; [reflexivity|]. destruct Hs as [_ Hne].
        destruct (N.eqb u c) eqn:E'; [apply N.eqb_eq in E'; congruence|].
        reflexivity.
      * pose proof (Forall_inv H2) as Hx. simpl in Hx.
        destruct (N.eqb u x) eqn:E'; [|reflexivity].
        apply N.eqb_eq in E'. subst x. congruence.
Qed.

Lemma search_unfold (re : regex) (s : jsstring) :
  search re s =
  match match_here re s with
  | Some r => Some r
  | None => match s with [] => None | _ :: s' => search re s' end
  end.
Proof. destruct s; reflexivity. Qed.

Lemma search_amount_hit (u : N) (ds rest : jsstring) :
  ds <> [] -> all is_digit ds -> is_digit u = false ->
  search (re_amount_of u) (ds ++ u :: rest) = Some ([ds], rest).
Proof.
  intros. rewrite search_unfold, amount_here_hit by assumption. reflexivity.
Qed.

Lemma search_amount_skip_char (u c : N) (s : jsstring) :
  is_digit c = false ->
  search (re_amount_of u) (c :: s) = search (re_amount_of u) s.
Proof.
  intros Hc. rewrite search_unfold, amount_here_unfold. now rewrite Hc.
Qed.

Lemma search_amount_skip_digits (u : N) (ds s : jsstring) :
  all is_digit ds -> is_digit u = false -> misses u s ->
  search (re_amount_of u) (ds ++ s) = search (re_amount_of u) s.
Proof.
  intros Hall Hu Hs. induction ds as [|d ds IH]; [reflexivity|].
  rewrite search_unfold, amount_here_miss by assumption.
  simpl app. apply IH. now apply Forall_inv_tail in Hall.
Qed.

Lemma search_amount_nil (u : N) : search (re_amount_of u) [] = None.
Proof. reflexivity. Qed.

(** *** Unfolding the matcher one item at a time *)

Lemma match_here_plus (cap : bool) (a : N -> bool) (re : regex) (s : jsstring) :
  match_here (It cap Plus a :: re) s =
  match s with
  | c :: s' => if a c then many cap a (match_here re) [c] s' else None
  | [] => None
  end.
Proof. destruct s; reflexivity. Qed.

Lemma match_here_star (cap : bool) (a : N -> bool) (re : regex) (s : jsstring) :
  match_here (It cap Star a :: re) s = many cap a (match_here re) [] s.
Proof. destruct s; reflexivity. Qed.

Lemma match_here_one (cap : bool) (a : N -> bool) (re : regex) (s : jsstring) :
  match_here (It cap One a :: re) s =
  match s with
  | c :: s' => if a c then conclude cap (match_here re) [c] s' else None
  | [] => None
  end.
Proof. destruct s; reflexivity. Qed.

Lemma match_here_done (s : jsstring) : match_here [] s = Some ([], s).
Proof. destruct s; reflexivity. Qed.

Lemma conclude_some (cap : bool) (k : jsstring -> option matched)
    (taken rest : jsstring) (r : matched) :
  conclude cap k taken rest = Some r ->
  exists caps after,
    k rest = Some (caps, after) /\
    r = (if cap then rev taken :: caps else caps, after).
Proof.
  unfold conclude. destruct (k rest) as [[caps after]|]; [|discriminate].
  intros H. inversion H. eauto.
Qed.

(** ** Durations *)

Lemma amount_eq (re : regex) (s : jsstring) :
  amount re s = amount_of (search re s).
Proof. reflexivity. Qed.

Lemma unit_not_digit (c : N) : unit_char c -> is_digit c = false.
Proof. intros [-> | [-> | ->]]; reflexivity. Qed.

Lemma amount_tail (u : N) (toks : list (Z * N)) :
  unit_char u -> well_formed_tokens toks ->
  amount_of (search (re_amount_of u)
               (flat_map (fun q => 32%N :: q) (map token_string toks)))
  = round64 (find_amount u toks).
Proof.
  intros Hu Hwf. induction toks as [|[v u'] toks IH]; [reflexivity|].
  pose proof (Forall_inv Hwf) as [Hv Hu']. simpl in Hv, Hu'.
  apply Forall_inv_tail in Hwf. specialize (IH Hwf).
  destruct (digits_spec v Hv) as (Hne & Hall & Hval).
  simpl flat_map. simpl map. unfold token_string at 1. simpl fst. simpl snd.
  rewrite search_amount_skip_char by reflexivity.
  rewrite <- app_assoc. simpl app.
  simpl find_amount. destruct (N.eqb u' u) eqn:E.
  - apply N.eqb_eq in E. subst u'.
    rewrite search_amount_hit; auto using unit_not_digit.
    simpl. rewrite parseInt_digits by auto. now rewrite Hval.
  - apply N.eqb_neq in E.
    rewrite search_amount_skip_digits; auto using unit_not_digit.
    + rewrite search_amount_skip_char by (now apply unit_not_digit).
      exact IH.
    + simpl. split; [now apply unit_not_digit | exact E].
Qed.

Lemma amount_join (u : N) (toks : list (Z * N)) :
  unit_char u -> well_formed_tokens toks ->
  amount_of (search (re_amount_of u) (join_space (map token_string toks)))
  = round64 (find_amount u toks).
Proof.
  intros Hu Hwf. destruct toks as [|[v u'] toks]; [reflexivity|].
  pose proof (Forall_inv Hwf) as [Hv Hu']. simpl in Hv, Hu'.
  apply Forall_inv_tail in Hwf.
  destruct (digits_spec v Hv) as (Hne & Hall & Hval).
  simpl map. unfold join_space. unfold token_string at 1. simpl fst. simpl snd.
  rewrite <- app_assoc. simpl app.
  simpl find_amount. destruct (N.eqb u' u) eqn:E.
  - apply N.eqb_eq in E. subst u'.
    rewrite search_amount_hit; auto using unit_not_digit.
    simpl. rewrite parseInt_digits by auto. now rewrite Hval.
  - apply N.eqb_neq in E.
    rewrite search_amount_skip_digits; auto using unit_not_digit.
    + rewrite search_amount_skip_char by (now apply unit_not_digit).
      now apply amount_tail.
    + simpl. split; [now apply unit_not_digit | exact E].
Qed.

Lemma tokens_well_formed (h m s : option Z) :
  0 <= amount_or_0 h -> 0 <= amount_or_0 m -> 0 <= amount_or_0 s ->
  well_formed_tokens (tokens h m s).
Proof.
  intros Hh Hm Hs. unfold well_formed_tokens, unit_char.
  destruct h, m, s; simpl in *;
    repeat (constructor; [simpl; split; [lia | tauto] |]); constructor.
Qed.

Lemma find_amount_tokens (h m s : option Z) :
  find_amount 104 (tokens h m s) = amount_or_0 h /\
  find_amount 109 (tokens h m s) = amount_or_0 m /\
  find_amount 115 (tokens h m s) = amount_or_0 s.
Proof. destruct h, m, s; repeat split; reflexivity. Qed.

(** A duration string starts with a digit when it has a component. *)
Lemma join_tokens_head (toks : list (Z * N)) :
  well_formed_tokens toks -> toks <> [] ->
  exists c rest, join_space (map token_string toks) = c :: rest /\
                 is_digit c = true.
Proof.
  intros Hwf Hne. destruct toks as [|[v u] toks]; [congruence|].
  pose proof (Forall_inv Hwf) as [Hv _]. simpl in Hv.
  destruct (digits_spec v Hv) as (Hne' & Hall & _).
  simpl. unfold token_string at 1. simpl.
  destruct (digits v) as [|c ds]; [congruence|].
  exists c. eexists. split; [reflexivity|]. exact (Forall_inv Hall).
Qed.

(** Parsing a duration string adds up its components, each sum and
    product rounded. *)
Lemma convertTimeToSeconds_duration_rounded (h m s : option Z) :
  0 <= amount_or_0 h -> 0 <= amount_or_0 m -> 0 <= amount_or_0 s ->
  tokens h m s <> [] ->
  convertTimeToSeconds (duration_string h m s)
  = jadd (jadd (jmul (round64 (amount_or_0 h)) (Num 3600))
            (jmul (round64 (amount_or_0 m)) (Num 60)))
      (round64 (amount_or_0 s)).
Proof.
  intros Hh Hm Hs Hne.
  pose proof (tokens_well_formed h m s Hh Hm Hs) as Hwf.
  destruct (join_tokens_head _ Hwf Hne) as (c & rest & E & Hc).
  unfold convertTimeToSeconds.
  assert (G : (negb (nonempty (duration_string h m s))
               || JsString.eqb (duration_string h m s) (lit "''")
               || JsString.eqb (duration_string h m s) (lit "Not started"))%bool
              = false).
  { unfold duration_string. rewrite E. simpl negb.
    apply is_digit_range in Hc.
    repeat (apply orb_false_iff; split); [reflexivity| |];
      apply jseqb_neq; intros X; inversion X; lia. }
  rewrite G.
  rewrite !amount_eq, re_amount_h, re_amount_m, re_amount_s.
  unfold duration_string.
  rewrite !amount_join by (auto; unfold unit_char; tauto).
  destruct (find_amount_tokens h m s) as (-> & -> & ->).
  reflexivity.
Qed.

(** Up to 2^53 seconds nothing is rounded. *)
Lemma convertTimeToSeconds_duration_string (h m s : option Z) :
  0 <= amount_or_0 h -> 0 <= amount_or_0 m -> 0 <= amount_or_0 s ->
  amount_or_0 h * 3600 + amount_or_0 m * 60 + amount_or_0 s <= 2 ^ 53 ->
  convertTimeToSeconds (duration_string h m s)
  = Num (amount_or_0 h * 3600 + amount_or_0 m * 60 + amount_or_0 s).
Proof.
  intros Hh Hm Hs Hb.
  destruct (list_eq_dec (fun a b : Z * N => ltac:(decide equality; [apply N.eq_dec | apply Z.eq_dec]))
              (tokens h m s) []) as [E|Hne].
  - unfold duration_string. rewrite E. simpl.
    destruct h, m, s; try discriminate E. reflexivity.
  - rewrite convertTimeToSeconds_duration_rounded by assumption.
    assert (H53 : 0 < 2 ^ 53) by reflexivity.
    rewrite !round64_exact by lia.
    rewrite !jmul_small by lia. rewrite !jadd_small by lia. reflexivity.
Qed.

Lemma unit_not_space (c : N) : unit_char c -> is_space c = false.
Proof. intros [-> | [-> | ->]]; reflexivity. Qed.

Lemma token_string_ends (t : Z * N) (p : jsstring) :
  unit_char (snd t) -> ends_solid (p ++ token_string t).
Proof.
  intros Hu. exists (p ++ digits (fst t)), (snd t). split.
  - unfold token_string. now rewrite app_assoc.
  - now apply unit_not_space.
Qed.

Lemma join_tail_ends (toks : list (Z * N)) :
  forall p, well_formed_tokens toks -> ends_solid p ->
  ends_solid (p ++ flat_map (fun q => 32%N :: q) (map token_string toks)).
Proof.
  induction toks as [|t toks IH]; intros p Hwf Hp; simpl.
  - now rewrite app_nil_r.
  - pose proof (Forall_inv Hwf) as [_ Hu].
    apply Forall_inv_tail in Hwf.
    replace (p ++ 32%N :: token_string t ++
             flat_map (fun q => 32%N :: q) (map token_string toks))
      with (((p ++ [32%N]) ++ token_string t) ++
            flat_map (fun q => 32%N :: q) (map token_string toks))
      by (now rewrite <- !app_assoc).
    apply IH; [exact Hwf|]. now apply token_string_ends.
Qed.

Lemma join_tokens_ends (toks : list (Z * N)) :
  well_formed_tokens toks -> toks <> [] ->
  ends_solid (join_space (map token_string toks)).
Proof.
  intros Hwf Hne. destruct toks as [|t toks]; [congruence|].
  pose proof (Forall_inv Hwf) as [_ Hu]. apply Forall_inv_tail in Hwf.
  simpl. apply join_tail_ends; [exact Hwf|].
  change (token_string t) with ([] ++ token_string t).
  now apply token_string_ends.
Qed.

(** Trimming a duration string, with or without a space after it, gives
    the duration string. *)
Lemma trim_duration (toks : list (Z * N)) (trailing : jsstring) :
  well_formed_tokens toks -> toks <> [] ->
  all is_space trailing ->
  trim (join_space (map token_string toks) ++ trailing)
  = join_space (map token_string toks).
Proof.
  intros Hwf Hne Htr.
  destruct (join_tokens_head _ Hwf Hne) as (c & rest & E & Hc).
  destruct (join_tokens_ends _ Hwf Hne) as (front & u & E' & Hu).
  unfold trim. rewrite E. simpl app.
  rewrite trimStart_keep by (now apply digit_not_space).
  change (c :: rest ++ trailing) with ((c :: rest) ++ trailing).
  rewrite <- E, E', <- app_assoc. simpl app.
  rewrite trimEnd_app_keep by exact Hu.
  now rewrite trimEnd_spaces.
Qed.

Lemma jle_pos (n : Z) : 0 < n -> jle (Num n) (Num 0) = false.
Proof.
  intros H. unfold jle. simpl. apply orb_false_iff.
  split; [apply Z.ltb_ge | apply Z.eqb_neq]; lia.
Qed.

(** The three amounts of a positive number of seconds. *)
Lemma split_seconds (n : Z) :
  0 <= n ->
  let h := n / 3600 in
  let m := n mod 3600 / 60 in
  let s := n mod 60 in
  0 <= h /\ 0 <= m < 60 /\ 0 <= s < 60 /\ n = h * 3600 + m * 60 + s.
Proof.
  intros Hn. cbv zeta.
  pose proof (Z.div_mod n 3600 ltac:(lia)).
  pose proof (Z.mod_pos_bound n 3600 ltac:(lia)).
  pose proof (Z.div_mod (n mod 3600) 60 ltac:(lia)).
  pose proof (Z.mod_pos_bound (n mod 3600) 60 ltac:(lia)).
  pose proof (Z.mod_pos_bound n 60 ltac:(lia)).
  assert (n mod 60 = (n mod 3600) mod 60).
  { pose proof (Z.mod_pos_bound (n mod 3600) 60 ltac:(lia)).
    pose proof (Z.div_mod (n mod 3600) 60 ltac:(lia)).
    symmetry.
    apply Z.mod_unique with (q := 60 * (n / 3600) + n mod 3600 / 60); lia. }
  assert (0 <= n / 3600) by (apply Z.div_pos; lia).
  assert (0 <= n mod 3600 / 60 < 60).
  { split; [apply Z.div_pos; lia|]. apply Z.div_lt_upper_bound; lia. }
  lia.
Qed.

Lemma tokens_when_positive_wf (h m s : Z) :
  0 <= h -> 0 <= m -> 0 <= s ->
  well_formed_tokens
    (tokens (when_positive h) (when_positive m) (when_positive s)).
Proof.
  intros. apply tokens_well_formed;
    unfold when_positive, amount_or_0;
    match goal with |- context [0 <? ?x] => destruct (0 <? x) eqn:E end;
    lia.
Qed.

(** Rendering a positive number of seconds below 2^53 gives the duration
    string of its positive amounts. *)
Lemma convertSecondsToTime_pos (n : Z) :
  0 < n < 2 ^ 53 ->
  convertSecondsToTime (Num n)
  = duration_string (when_positive (n / 3600))
      (when_positive (n mod 3600 / 60)) (when_positive (n mod 60)).
Proof.
  intros Hn.
  destruct (split_seconds n ltac:(lia)) as (Hh & Hm & Hs & Hsum).
  assert (H53 : 2 ^ 53 = 9007199254740992) by reflexivity.
  unfold convertSecondsToTime. rewrite jle_pos by lia.
  cbn [jrem]. rewrite !Z.rem_mod_nonneg by lia.
  pose proof (Z.mod_pos_bound n 3600 ltac:(lia)) as Hr.
  rewrite (floor_div_exact n 3600) by lia.
  rewrite (floor_div_exact (n mod 3600) 60) by lia.
  cbn [jgt jlt jeq ToString].
  rewrite (NumberToString_small (n / 3600)) by lia.
  rewrite (NumberToString_small (n mod 3600 / 60)) by lia.
  rewrite (NumberToString_small (n mod 60)) by lia.
  set (h := n / 3600) in *. set (m := n mod 3600 / 60) in *.
  set (s := n mod 60) in *.
  pose proof (tokens_when_positive_wf h m s Hh ltac:(lia) ltac:(lia)) as Hwf.
  unfold duration_string.
  unfold when_positive in *.
  destruct (0 <? h) eqn:Eh; destruct (0 <? m) eqn:Em;
    destruct (0 <? s) eqn:Es;
    try (apply Z.ltb_ge in Eh); try (apply Z.ltb_ge in Em);
    try (apply Z.ltb_ge in Es);
    try (replace (h =? 0) with true by (symmetry; apply Z.eqb_eq; lia));
    try (replace (h =? 0) with false by (symmetry; apply Z.eqb_neq; apply Z.ltb_lt in Eh; lia));
    try (replace (m =? 0) with true by (symmetry; apply Z.eqb_eq; lia));
    try (replace (m =? 0) with false by (symmetry; apply Z.eqb_neq; apply Z.ltb_lt in Em; lia));
    cbn [orb andb app];
    try lia.
  all: change (lit "h ") with [104%N; 32%N];
       change (lit "m ") with [109%N; 32%N];
       change (lit "s") with [115%N].
  all: match goal with
       | |- trim ?x = join_space (map token_string ?toks) =>
           first
             [ replace x with (join_space (map token_string toks) ++ [])
                 by (unfold tokens, optional_token, join_space, token_string;
                     cbn [app map flat_map fst snd];
                     repeat first [ rewrite <- app_assoc
                                  | rewrite app_nil_r
                                  | progress cbn [app] ];
                     reflexivity)
             | replace x with (join_space (map token_string toks) ++ [32%N])
                 by (unfold tokens, optional_token, join_space, token_string;
                     cbn [app map flat_map fst snd];
                     repeat first [ rewrite <- app_assoc
                                  | rewrite app_nil_r
                                  | progress cbn [app] ];
                     reflexivity) ]
       end.
  all: apply trim_duration; [exact Hwf | discriminate | repeat constructor].
Qed.

Lemma no_zero_amounts (h m s : option Z) :
  no_zero_component h m s ->
  (match h with Some n => 0 < n | None => True end) /\
  (match m with Some n => 0 < n | None => True end) /\
  (match s with Some n => 0 < n | None => True end).
Proof.
  unfold no_zero_component, tokens. intros H.
  apply Forall_app in H. destruct H as [Hh H].
  apply Forall_app in H. destruct H as [Hm Hs].
  repeat split.
  - destruct h; [exact (Forall_inv Hh) | exact I].
  - destruct m; [exact (Forall_inv Hm) | exact I].
  - destruct s; [exact (Forall_inv Hs) | exact I].
Qed.

Lemma when_positive_amount (v : option Z) :
  (match v with Some n => 0 < n | None => True end) ->
  when_positive (amount_or_0 v) = v.
Proof.
  unfold when_positive. destruct v as [n|]; simpl; intros H.
  - destruct (0 <? n) eqn:E; [reflexivity | apply Z.ltb_ge in E; lia].
  - reflexivity.
Qed.

(** C1 fails as stated: [90s] is a well-formed duration string (one
    component, not zero, not padded), it parses to 90 seconds, and 90 seconds
    render as [1m 30s]. *)
Lemma C1_counterexample_90s :
  duration_string None None (Some 90) = lit "90s" /\
  no_zero_component None None (Some 90) /\
  convertSecondsToTime (convertTimeToSeconds (lit "90s")) = lit "1m 30s" /\
  JsString.eqb (lit "1m 30s") (lit "90s") = false.
Proof.
  repeat split; try reflexivity.
  repeat constructor.
Qed.

(** Beyond 2^53 seconds the sum is rounded: the second of this duration
    is lost. *)
Lemma duration_beyond_2_53 :
  convertTimeToSeconds (lit "2501999792984h 1s") = Num 9007199254742400 /\
  convertSecondsToTime (Num 9007199254742400) = lit "2501999792984h".
Proof. split; vm_compute; reflexivity. Qed.

(** C1 (amended): a duration string with at least one component, no
    component zero or padded, minutes and seconds below 60, and a total of
    less than 2^53 seconds, is rendered back from its parsed value:
    [convertSecondsToTime (convertTimeToSeconds s) = s]. *)
Theorem C1_render_parse_roundtrip (h m s : option Z) :
  no_zero_component h m s ->
  below_60 m -> below_60 s ->
  tokens h m s <> [] ->
  amount_or_0 h * 3600 + amount_or_0 m * 60 + amount_or_0 s < 2 ^ 53 ->
  convertSecondsToTime (convertTimeToSeconds (duration_string h m s))
  = duration_string h m s.
Proof.
  intros Hpos Hm Hs Hne Hb.
  destruct (no_zero_amounts h m s Hpos) as (Ph & Pm & Ps).
  assert (Hh0 : 0 <= amount_or_0 h) by (destruct h; simpl; lia).
  assert (Hm0 : 0 <= amount_or_0 m < 60)
    by (destruct m; simpl in *; lia).
  assert (Hs0 : 0 <= amount_or_0 s < 60)
    by (destruct s; simpl in *; lia).
  rewrite convertTimeToSeconds_duration_string by lia.
  set (n := amount_or_0 h * 3600 + amount_or_0 m * 60 + amount_or_0 s) in *.
  assert (Hn : 0 < n).
  { subst n. destruct h, m, s; simpl in *; try lia.
    exfalso. now apply Hne. }
  rewrite convertSecondsToTime_pos by lia.
  assert (Es : n mod 60 = amount_or_0 s).
  { symmetry. apply Z.mod_unique with (q := amount_or_0 h * 60 + amount_or_0 m);
      subst n; lia. }
  assert (Er : n mod 3600 = amount_or_0 m * 60 + amount_or_0 s).
  { symmetry. apply Z.mod_unique with (q := amount_or_0 h); subst n; lia. }
  assert (Eh : n / 3600 = amount_or_0 h).
  { symmetry. apply Z.div_unique with (r := amount_or_0 m * 60 + amount_or_0 s);
      subst n; lia. }
  assert (Em : n mod 3600 / 60 = amount_or_0 m).
  { rewrite Er. symmetry.
    apply Z.div_unique with (r := amount_or_0 s); lia. }
  rewrite Eh, Em, Es, !when_positive_amount by assumption.
  reflexivity.
Qed.

Lemma C1_render_parse_roundtrip_witness :
  convertSecondsToTime
    (convertTimeToSeconds (duration_string (Some 1) None (Some 5)))
  = duration_string (Some 1) None (Some 5).
Proof.
  apply (C1_render_parse_roundtrip (Some 1) None (Some 5)).
  - repeat constructor.
  - exact I.
  - simpl. lia.
  - discriminate.
  - reflexivity.
Defined.

Lemma no_zero_when_positive (h m s : Z) :
  no_zero_component (when_positive h) (when_positive m) (when_positive s).
Proof.
  unfold no_zero_component, tokens, when_positive.
  destruct (0 <? h) eqn:Eh; destruct (0 <? m) eqn:Em;
    destruct (0 <? s) eqn:Es; simpl;
    repeat (constructor; [simpl; now apply Z.ltb_lt|]); constructor.
Qed.

Lemma amount_when_positive (n : Z) :
  0 <= n -> amount_or_0 (when_positive n) = n.
Proof.
  intros H. unfold when_positive.
  destruct (0 <? n) eqn:E; simpl; [reflexivity|]. apply Z.ltb_ge in E. lia.
Qed.

(** C10 fails as stated: the Number 3.6e24 is a non-negative integer, its
    hours are 1e21, which the template prints as [1e+21], and what is
    rendered parses back to 77840 seconds. *)
Lemma C10_counterexample_large :
  round64 3599999999999999832227840 = Num 3599999999999999832227840 /\
  convertSecondsToTime (Num 3599999999999999832227840)
  = lit "1e+21h 37m 20s" /\
  convertTimeToSeconds (lit "1e+21h 37m 20s") = Num 77840 /\
  jeq (Num 77840) (Num 3599999999999999832227840) = false.
Proof. repeat split; vm_compute; reflexivity. Qed.

(** C10 (amended): for every non-negative integer [n] below 2^53, parsing
    what [convertSecondsToTime] renders gives [n] back; and the rendering
    has no zero component: it is [0s] for [n = 0] and otherwise a duration
    string all of whose components are positive. *)
Theorem C10_parse_render_roundtrip (n : Z) :
  0 <= n < 2 ^ 53 ->
  convertTimeToSeconds (convertSecondsToTime (Num n)) = Num n /\
  (n = 0 -> convertSecondsToTime (Num n) = lit "0s") /\
  (0 < n ->
   exists h m s,
     convertSecondsToTime (Num n) = duration_string h m s /\
     no_zero_component h m s).
Proof.
  intros Hn. split; [|split].
  - destruct (Z.eq_dec n 0) as [->|Hnz]; [reflexivity|].
    rewrite convertSecondsToTime_pos by lia.
    destruct (split_seconds n ltac:(lia)) as (Hh & Hm & Hs & Hsum).
    rewrite convertTimeToSeconds_duration_string
      by (rewrite !amount_when_positive; lia).
    rewrite !amount_when_positive by lia.
    f_equal. lia.
  - intros ->. reflexivity.
  - intros Hp. eexists _, _, _. split.
    + apply convertSecondsToTime_pos. lia.
    + apply no_zero_when_positive.
Qed.

Lemma C10_parse_render_roundtrip_witness :
  convertTimeToSeconds (convertSecondsToTime (Num 3725)) = Num 3725.
Proof.
  refine (proj1 (C10_parse_render_roundtrip 3725 _)).
  split; [lia | reflexivity].
Defined.

(** ** The sample of the specification *)

(** C5: the sample text parses to a record with two stages; the first
    stage's [time_cost] converts to 65 seconds, the second has [fail_count]
    2 and [needs_human_check] true, and the progress percentage is 50. *)
Theorem C5_sample :
  parseStatusResponse sample_status = Returned sample_record /\
  length (stage_list sample_record) = 2%nat /\
  option_map (fun s => convertTimeToSeconds_field (time_cost s))
    (array_get (stage_list sample_record) (Num 0)) = Some (Num 65) /\
  option_map fail_count (array_get (stage_list sample_record) (Num 1))
    = Some (Some (Num 2)) /\
  option_map needs_human_check (array_get (stage_list sample_record) (Num 1))
    = Some (Some true) /\
  calculateProgress (Some sample_record) = Num 50.
Proof.
  repeat split; vm_compute; reflexivity.
Qed.

(** ** Progress *)

Lemma array_get_position (l : list Stage) (i : nat) (s : Stage) :
  nth_error l i = Some s -> array_get l (Num (Z.of_nat i)) = Some s.
Proof.
  intros H. unfold array_get.
  destruct (Z.of_nat i <? 0) eqn:E; [apply Z.ltb_lt in E; lia|].
  now rewrite Nat2Z.id.
Qed.

(** With indices equal to positions, looking a stage up by its own index
    finds that stage. *)
Lemma filter_by_own_index (st : AgentStatus) :
  indexed_by_position (stage_list st) ->
  filter (fun s => reached_or_skipped_at st (index s)) (stage_list st)
  = filter reached_or_skipped (stage_list st).
Proof.
  intros Hpos. apply filter_ext_in. intros s Hin.
  destruct (In_nth_error _ _ Hin) as [i Hi].
  unfold reached_or_skipped_at.
  rewrite (Hpos i s Hi), (array_get_position _ _ _ Hi). reflexivity.
Qed.

Lemma completedStages_counted (st : AgentStatus) :
  indexed_by_position (stage_list st) ->
  completedStages st = counted_stages st.
Proof.
  intros Hpos. unfold completedStages, counted_stages, isStageCompleted,
    has_current_index, count_reached_or_skipped.
  destruct (process_complete st); simpl.
  - now rewrite filter_by_own_index.
  - destruct (current_stage_index st) as [csi|]; simpl.
    + destruct (jeq csi (Num (-1))); simpl.
      * now rewrite filter_by_own_index.
      * reflexivity.
    + now rewrite filter_by_own_index.
Qed.

(** C3 fails as stated: with both stages reached and the second one
    running, [k = 2] of [N = 2] stages satisfy [reached || isSkipped], so the
    claim gives 100, and [calculateProgress] gives 50. *)
Lemma C3_counterexample_running_stage :
  length (stage_list running_record) = 2%nat /\
  count_reached_or_skipped running_record = 2%nat /\
  spec_percentage 2 2 = 100 /\
  calculateProgress (Some running_record) = Num 50.
Proof.
  repeat split; vm_compute; reflexivity.
Qed.

(** Below 40 stages the double computation agrees with the exact rounding
    of [100*k/N]; at 40 it first falls short: 23 of 40 give 57, not 58. *)
Lemma percentage_exact_below_40 (k n : nat) :
  (k <= n)%nat -> (n < 40)%nat ->
  percentage k n = Num (spec_percentage k n).
Proof.
  intros Hk Hn.
  assert (H : forallb
                (fun n => forallb
                            (fun k => jeq (percentage k n)
                                        (Num (spec_percentage k n)))
                            (seq 0 (S n)))
                (seq 0 40) = true) by (vm_compute; reflexivity).
  rewrite forallb_forall in H.
  specialize (H n ltac:(apply in_seq; lia)).
  rewrite forallb_forall in H.
  specialize (H k ltac:(apply in_seq; lia)).
  destruct (percentage k n) as [z| |b]; try discriminate H.
  simpl in H. apply Z.eqb_eq in H. now subst.
Qed.

Lemma percentage_23_of_40 :
  percentage 23 40 = Num 57 /\ spec_percentage 23 40 = 58.
Proof. split; vm_compute; reflexivity. Qed.

Lemma counted_stages_le (st : AgentStatus) :
  (counted_stages st <= length (stage_list st))%nat.
Proof.
  unfold counted_stages, count_reached_or_skipped.
  destruct (process_complete st || negb (has_current_index st))%bool.
  - apply filter_length_le.
  - destruct (current_stage_index st); [apply filter_length_le | lia].
Qed.

(** C3 (amended): for a record whose stages carry their positions as
    indices, the percentage is [Math.round((k / N) * 100)], computed in
    doubles, where [N] is the number of stages and [k] counts the stages
    with [reached || is_skipped] when [process] reports completion or there
    is no active stage index, and the stages whose index is below
    [current_stage_index] otherwise. It is 0 when there is no stage, and it
    is the exact [round(100*k/N)] whenever there are fewer than 40
    stages. *)
Theorem C3_progress_by_design (st : AgentStatus) :
  indexed_by_position (stage_list st) ->
  calculateProgress (Some st)
  = percentage (counted_stages st) (length (stage_list st)) /\
  (stage_list st = [] -> calculateProgress (Some st) = Num 0) /\
  ((length (stage_list st) < 40)%nat ->
   calculateProgress (Some st)
   = Num (spec_percentage (counted_stages st) (length (stage_list st)))).
Proof.
  intros Hpos.
  assert (E : calculateProgress (Some st)
              = percentage (counted_stages st) (length (stage_list st))).
  { unfold calculateProgress, percentage.
    now rewrite completedStages_counted. }
  split; [exact E|]. split.
  - intros E0. unfold calculateProgress. now rewrite E0.
  - intros Hlt. rewrite E.
    apply percentage_exact_below_40; [apply counted_stages_le | exact Hlt].
Qed.

Lemma sample_indexed_by_position :
  indexed_by_position (stage_list sample_record).
Proof.
  intros i s H. destruct i as [|[|i]]; simpl in H.
  - now inversion H.
  - now inversion H.
  - destruct i; discriminate.
Qed.

Lemma C3_progress_by_design_witness :
  calculateProgress (Some sample_record)
  = Num (spec_percentage (counted_stages sample_record)
           (length (stage_list sample_record))).
Proof.
  apply (proj2 (proj2 (C3_progress_by_design sample_record
                         sample_indexed_by_position))).
  simpl. lia.
Defined.

(** ** The content extractor *)

Section ExtractorFacts.
Variable JSON_parse : jsstring -> option jsval.
Variable JSON_stringify : jsval -> jsval.
Variable Number_toString : Z -> Z -> jsstring.

Lemma sequence_no_fuel {A} (l : list (run A)) :
  Forall (fun r => r <> OutOfFuel) l -> sequence l <> OutOfFuel.
Proof.
  induction 1 as [|r l Hr _ IH]; simpl; [discriminate|].
  destruct r as [a| |]; simpl; try discriminate; [|congruence].
  destruct (sequence l); simpl; try discriminate. congruence.
Qed.

(** Converting a value to a string is not a loop of the model. *)
Lemma ToStringV_no_fuel :
  forall v, ToStringV Number_toString v <> OutOfFuel.
Proof.
  fix IH 1. intros v. destruct v as [| | b | m e | s | items | o];
    try (simpl; discriminate).
  - assert (H : Forall (fun r => r <> OutOfFuel)
                  (map (fun x => match x with
                                 | VUndefined | VNull => Returned []
                                 | _ => ToStringV Number_toString x
                                 end) items)).
    { induction items as [|x items IHl]; constructor.
      - pose proof (IH x) as Hx. destruct x; try discriminate; exact Hx.
      - exact IHl. }
    simpl. pose proof (sequence_no_fuel _ H) as Hs.
    destruct (sequence _); simpl; try discriminate. congruence.
  - simpl. destruct (dict_get (lit "toString") o); discriminate.
Qed.

(** The inner [try] always returns: whatever is thrown inside it is caught. *)
Lemma error_check_returns (text : jsstring) :
  exists r, error_check JSON_parse Number_toString text = Returned r.
Proof.
  unfold error_check, try_catch.
  destruct (JSON_parse text) as [parsed|]; simpl; [|eauto].
  destruct (get_property parsed (lit "error")) as [err| |] eqn:E; simpl;
    [| eauto |].
  - destruct (truthy err); [|eauto].
    pose proof (ToStringV_no_fuel err) as Hf.
    destruct (ToStringV Number_toString err); simpl; eauto. congruence.
  - destruct parsed; discriminate.
Qed.

(** The extractor returns a value on every input: it never throws. *)
Lemma extractTextContent_returns (data : jsval) :
  exists v,
    extractTextContent JSON_parse JSON_stringify Number_toString data
    = Returned v.
Proof.
  unfold extractTextContent, try_catch.
  destruct data as [| | b | m e | s | items | o]; simpl; eauto.
  destruct (dict_get (lit "content") o) as [[| | | | | content |]|]; eauto.
  destruct (find_text_item content) as [textItem|]; eauto.
  destruct (truthy (property textItem (lit "text"))); eauto.
  destruct (property textItem (lit "text")) as [| | | | t | |]; eauto.
  destruct (includes t (litq "'error'")); eauto.
  destruct (error_check_returns t) as [r ->]. simpl.
  destruct r; eauto.
Qed.

Lemma includes_nonempty (t p : jsstring) :
  p <> [] -> includes t p = true -> nonempty t = true.
Proof.
  intros Hp H. destruct t as [|c t]; [|reflexivity].
  destruct p; [congruence|]. discriminate.
Qed.

(** The extractor on a result with a text payload that mentions ["error"]. *)
Lemma extract_text_payload (data : jsval) (text : jsstring) :
  has_text_payload data text ->
  includes text (litq "'error'") = true ->
  extractTextContent JSON_parse JSON_stringify Number_toString data =
  match error_check JSON_parse Number_toString text with
  | Returned (Some v) => Returned v
  | Returned None => Returned (VString text)
  | Threw _ => Returned (JSON_stringify data)
  | OutOfFuel => OutOfFuel
  end.
Proof.
  intros (o & content & item & -> & Hc & Hf & Ht) Hinc.
  unfold extractTextContent. rewrite Hc, Hf, Ht. simpl truthy.
  rewrite (includes_nonempty text (litq "'error'")) by (discriminate || assumption).
  rewrite Hinc.
  destruct (error_check JSON_parse Number_toString text) as [[v|]| |];
    reflexivity.
Qed.

(** C8 (amended): for a result whose text payload mentions ["error"]: when
    the whole payload parses as JSON to a value whose [error] property is a
    non-empty string [msg], the extractor returns [error: msg]; when the
    payload does not parse, it returns the payload unchanged; and it
    returns, without throwing, on every input. *)
Theorem C8_error_envelope (data : jsval) (text : jsstring) :
  has_text_payload data text ->
  includes text (litq "'error'") = true ->
  (forall parsed msg,
     JSON_parse text = Some parsed ->
     get_property parsed (lit "error") = Returned (VString msg) ->
     msg <> [] ->
     extractTextContent JSON_parse JSON_stringify Number_toString data
     = Returned (VString (lit "error: " ++ msg))) /\
  (JSON_parse text = None ->
   extractTextContent JSON_parse JSON_stringify Number_toString data
   = Returned (VString text)) /\
  (forall any, exists v,
     extractTextContent JSON_parse JSON_stringify Number_toString any
     = Returned v).
Proof.
  intros Hp Hinc. repeat split.
  - intros parsed msg Hparse Herr Hmsg.
    rewrite (extract_text_payload data text Hp Hinc).
    unfold error_check. rewrite Hparse. simpl. rewrite Herr. simpl.
    destruct msg; [congruence|]. reflexivity.
  - intros Hparse.
    rewrite (extract_text_payload data text Hp Hinc).
    unfold error_check. rewrite Hparse. reflexivity.
  - apply extractTextContent_returns.
Qed.

End ExtractorFacts.

Lemma text_result_payload (text : jsstring) :
  has_text_payload (text_result text) text.
Proof.
  unfold has_text_payload, text_result. do 3 eexists.
  repeat split; reflexivity.
Qed.

(** The sample of the specification: [{"error":"bad arg"}] as the text of
    the result gives [error: bad arg]; and a payload that does not parse,
    [{"error":], is returned unchanged. *)
Lemma C8_error_envelope_witness :
  (forall stringify number_toString,
     extractTextContent Json.parse stringify number_toString
       (text_result (litq "{'error':'bad arg'}"))
     = Returned (VString (lit "error: bad arg"))) /\
  (forall stringify number_toString,
     extractTextContent Json.parse stringify number_toString
       (text_result (litq "{'error':"))
     = Returned (VString (litq "{'error':"))).
Proof.
  split; intros stringify number_toString.
  - apply (proj1 (C8_error_envelope Json.parse stringify number_toString
                    (text_result (litq "{'error':'bad arg'}"))
                    (litq "{'error':'bad arg'}")
                    (text_result_payload _) eq_refl)
             (VObject [(lit "error", VString (lit "bad arg"))])
             (lit "bad arg")).
    + reflexivity.
    + reflexivity.
    + discriminate.
  - apply (proj1 (proj2 (C8_error_envelope Json.parse stringify number_toString
                           (text_result (litq "{'error':"))
                           (litq "{'error':")
                           (text_result_payload _) eq_refl))).
    reflexivity.
Defined.

(** C8 fails as stated: the payload [failed: {"error":"bad arg"}] contains
    the envelope [{"error":"bad arg"}], which parses to an object with an
    [error] key, and the extractor returns the payload unchanged, not
    [error: bad arg]: it parses the whole payload, not a part of it. *)
Lemma C8_counterexample_embedded :
  includes (litq "failed: {'error':'bad arg'}") (litq "{'error':'bad arg'}")
  = true /\
  Json.parse (litq "{'error':'bad arg'}")
  = Some (VObject [(lit "error", VString (lit "bad arg"))]) /\
  Json.parse (litq "failed: {'error':'bad arg'}") = None /\
  (forall stringify number_toString,
     extractTextContent Json.parse stringify number_toString
       (text_result (litq "failed: {'error':'bad arg'}"))
     = Returned (VString (litq "failed: {'error':'bad arg'}"))).
Proof.
  repeat split; try (vm_compute; reflexivity).
Qed.

(** ** Lines of the status text *)

Lemma startsWith_app (p s : jsstring) :
  startsWith s p = true -> exists rest, s = p ++ rest.
Proof.
  revert s. induction p as [|a p IH]; intros s H.
  - now exists s.
  - destruct s as [|c s]; simpl in H; [discriminate|].
    apply andb_true_iff in H. destruct H as [Hc H].
    apply N.eqb_eq in Hc. subst c.
    destruct (IH s H) as [rest ->]. now exists rest.
Qed.


Lemma trim_keyed_line (ws key tail : jsstring) (d : N) :
  all is_space ws -> is_space d = false ->
  trim (ws ++ (d :: key) ++ 58%N :: tail) = (d :: key) ++ 58%N :: trimEnd tail.
Proof.
  intros Hws Hd. unfold trim, trimStart. simpl app.
  rewrite drop_while_app_stop by assumption.
  change (d :: key ++ 58%N :: tail) with ((d :: key) ++ 58%N :: tail).
  now rewrite trimEnd_app_keep.
Qed.

(** A line whose first character after the indentation is not a dash does
    not start a stage. *)
Lemma not_stage_start (ws tail : jsstring) (d : N) :
  all is_space ws -> is_space d = false -> d <> 45%N ->
  match_anchored re_stage_start (ws ++ d :: tail) = None.
Proof.
  intros Hws Hd Hdash. unfold match_anchored.
  change re_stage_start with
    (It false Star is_space :: It false One (N.eqb 45)
     :: It false Plus is_space :: str "index:").
  rewrite match_here_star. apply many_fail.
  - exact Hws.
  - exact Hd.
  - intros ds1 ds2 E. rewrite match_here_one.
    destruct ds2 as [|x ds2]; simpl app; cbv beta iota.
    + destruct (N.eqb 45 d) eqn:E'; [|reflexivity].
      apply N.eqb_eq in E'. congruence.
    + destruct (N.eqb 45 x) eqn:E'; [|reflexivity].
      apply N.eqb_eq in E'. subst x.
      assert (Hx : is_space 45 = true).
      { rewrite E in Hws. apply Forall_app in Hws.
        exact (Forall_inv (proj2 Hws)). }
      discriminate Hx.
Qed.

(** The first character of a line for a top-level key. *)
Lemma top_level_key_first (c : N) (rest : jsstring) :
  c <> 109%N -> c <> 112%N -> c <> 99%N -> c <> 108%N -> c <> 115%N ->
  top_level_key (c :: rest) = false.
Proof.
  intros Hm Hp Hc Hl Hs. unfold top_level_key.
  assert (E : forall x, x <> c -> N.eqb x c = false)
    by (intros x Hx; now apply N.eqb_neq).
  cbn [lit map list_ascii_of_string startsWith].
  change (N_of_ascii "m") with 109%N. change (N_of_ascii "p") with 112%N.
  change (N_of_ascii "c") with 99%N. change (N_of_ascii "l") with 108%N.
  rewrite !E by congruence. cbn [andb orb]. rewrite orb_false_r.
  apply jseqb_neq. intros X. inversion X as [[X1 X2]].
  apply Hs. rewrite X1. reflexivity.
Qed.

(** The dispatch of [body] on a line that is not blank and is not taken by
    a top-level key: it goes to the branch of the current section. *)
Lemma body_in_section (lines : list jsstring) (i : nat) (st : pstate) :
  nonempty (trim (nth i lines [])) = true ->
  top_level_key (trim (nth i lines [])) = false ->
  body lines i st =
  Returned
    (i,
     if section_eqb (currentSection st) SecStageList
     then stage_list_line (nth i lines []) (trim (nth i lines [])) st
     else if section_eqb (currentSection st) SecCurrentTask
     then current_task_line (nth i lines []) (trim (nth i lines [])) st
     else st).
Proof.
  intros Hne Hk. unfold top_level_key in Hk.
  repeat (apply orb_false_iff in Hk; destruct Hk as [Hk ?]).
  unfold body. rewrite Hne. cbn [negb].
  repeat match goal with H : _ = false |- _ => rewrite H; clear H end.
  destruct (section_eqb (currentSection st) SecStageList); [reflexivity|].
  destruct (section_eqb (currentSection st) SecCurrentTask); reflexivity.
Qed.

Lemma stage_property_reached (v : jsstring) (s : Stage) :
  stage_property (lit "reached") v s
  = set_reached (JsString.eqb v (lit "true")) s.
Proof. reflexivity. Qed.

Lemma stage_property_is_skipped (v : jsstring) (s : Stage) :
  stage_property (lit "is_skipped") v s
  = set_is_skipped (JsString.eqb v (lit "true")) s.
Proof. reflexivity. Qed.

Lemma stage_property_needs_human_check (v : jsstring) (s : Stage) :
  stage_property (lit "needs_human_check") v s
  = set_needs_human_check (JsString.eqb v (lit "true")) s.
Proof. reflexivity. Qed.

Lemma stage_property_fail_count (v : jsstring) (s : Stage) :
  stage_property (lit "fail_count") v s
  = set_fail_count (parseInt v (Some 10)) s.
Proof. reflexivity. Qed.

(** [parseInt(v, 10)] is [NaN] exactly on the values that do not start with
    an integer. *)
Lemma in_radix_10 (c : N) : in_radix 10 c = is_digit c.
Proof.
  unfold in_radix, digit_value.
  destruct (is_digit c) eqn:Hd.
  - apply is_digit_range in Hd. apply Z.ltb_lt. lia.
  - destruct (N.leb 97 c && N.leb c 122)%bool eqn:E1.
    + apply andb_true_iff in E1. rewrite !N.leb_le in E1.
      apply Z.ltb_ge. lia.
    + destruct (N.leb 65 c && N.leb c 90)%bool eqn:E2; [|reflexivity].
      apply andb_true_iff in E2. rewrite !N.leb_le in E2.
      apply Z.ltb_ge. lia.
Qed.

Lemma parseInt_10_NaN (v : jsstring) :
  starts_with_integer v = false -> parseInt v (Some 10) = NaN.
Proof.
  unfold starts_with_integer, parseInt. intros H.
  set (signed := read_sign (trimStart v)) in *.
  assert (R : read_radix (Some 10) (snd signed) = (10, snd signed)).
  { unfold read_radix. cbn [Z.eqb andb].
    destruct (snd signed) as [|a [|b r]]; try reflexivity.
    - destruct a as [|p]; [reflexivity|].
      do 6 (destruct p as [p|p|]; try reflexivity).
    - destruct a as [|p]; [reflexivity|].
      do 6 (destruct p as [p|p|]; try reflexivity). }
  rewrite R. cbn [fst snd].
  destruct (snd signed) as [|c r]; [reflexivity|].
  simpl take_while. rewrite in_radix_10, H. reflexivity.
Qed.

Lemma parseInt_10_number (v : jsstring) :
  starts_with_integer v = true -> exists z, parseInt v (Some 10) = round64 z.
Proof.
  unfold starts_with_integer, parseInt. intros H.
  set (signed := read_sign (trimStart v)) in *.
  assert (R : read_radix (Some 10) (snd signed) = (10, snd signed)).
  { unfold read_radix. cbn [Z.eqb andb].
    destruct (snd signed) as [|a [|b r]]; try reflexivity.
    - destruct a as [|p]; [reflexivity|].
      do 6 (destruct p as [p|p|]; try reflexivity).
    - destruct a as [|p]; [reflexivity|].
      do 6 (destruct p as [p|p|]; try reflexivity). }
  rewrite R. cbn [fst snd].
  destruct (snd signed) as [|c r]; [discriminate|].
  simpl take_while. rewrite in_radix_10, H. eauto.
Qed.



(** ** [current_task] with text on its line *)

(** C4 fails as stated: for [current_task: Mission completed] the parser
    stores an object whose title is the text, not the string variant. *)
Lemma C4_counterexample_object :
  parseStatusResponse (lit "current_task: Mission completed")
  = Returned
      (mkStatus None [] None (completed_task (lit "Mission completed"))
         None None None) /\
  is_string_variant (completed_task (lit "Mission completed")) = false.
Proof. split; vm_compute; reflexivity. Qed.

(** A [current_task:] line with text after the colon: the object that is
    stored, and the scanner's variables that stay as they were. *)
Lemma current_task_text_line (lines : list jsstring) (i : nat) (st : pstate) :
  let trimmedLine := trim (nth i lines []) in
  let value := trim (substring_from 13 trimmedLine) in
  startsWith trimmedLine (lit "current_task:") = true ->
  nonempty value = true ->
  task_truthy (current_task (result st)) = true ->
  body lines i st
  = Returned
      (i, set_result (set_current_task (completed_task value) (result st)) st).
Proof.
  intros trimmedLine value Hstart Hvalue Htask.
  destruct (startsWith_app _ _ Hstart) as [rest Ht].
  unfold body. fold trimmedLine.
  assert (E1 : nonempty trimmedLine = true) by (now rewrite Ht).
  assert (E2 : startsWith trimmedLine (lit "mission:") = false)
    by (now rewrite Ht).
  assert (E3 : startsWith trimmedLine (lit "process:") = false)
    by (now rewrite Ht).
  assert (E4 : startsWith trimmedLine (lit "current_stage_index:") = false)
    by (now rewrite Ht).
  assert (E5 : startsWith trimmedLine (lit "current_stage_name:") = false)
    by (now rewrite Ht).
  assert (E6 : startsWith trimmedLine (lit "last_check_result:") = false)
    by (now rewrite Ht).
  assert (E7 : JsString.eqb trimmedLine (lit "stage_list:") = false)
    by (rewrite Ht; apply jseqb_neq; discriminate).
  rewrite E1, E2, E3, E4, E5, E6, E7, Hstart. cbn [negb].
  fold value. rewrite Hvalue.
  assert (E8 : JsString.eqb value [] = false)
    by (apply jseqb_neq; destruct value; [discriminate Hvalue | discriminate]).
  rewrite E8, Htask. reflexivity.
Qed.

(** ** No active stage *)

(** What the page computes from a record without an active stage index:
    [current_stage_index] is [undefined] or the sentinel -1. *)
Lemma no_active_index_consumers (r : AgentStatus) (lastFetchTime : option Z)
    (now : Z) (idx : jsnum) :
  no_active_index r ->
  getCurrentStage (Some r) = None /\
  getCurrentStageElapsedTime (Some r) lastFetchTime now = lit "0s" /\
  inProgress (Some r) = false /\
  isStageCompleted (Some r) idx = reached_or_skipped_at r idx /\
  calculateProgress (Some r)
  = percentage
      (length (filter (fun s => reached_or_skipped_at r (index s))
                 (stage_list r)))
      (length (stage_list r)).
Proof.
  intros H.
  assert (G : getCurrentStage (Some r) = None)
    by (unfold getCurrentStage; destruct H as [-> | ->]; reflexivity).
  assert (C : forall x, isStageCompleted (Some r) x = reached_or_skipped_at r x).
  { intros x. unfold isStageCompleted.
    destruct H as [-> | ->]; cbn [jeq Z.eqb negb];
      now destruct (process_complete r). }
  repeat split.
  - exact G.
  - unfold getCurrentStageElapsedTime. now rewrite G.
  - unfold inProgress. destruct H as [-> | ->]; reflexivity.
  - apply C.
  - unfold calculateProgress, percentage, completedStages.
    now rewrite (filter_ext _ _ (fun s => C (index s))).
Qed.

(** A [current_stage_index:] line whose value does not start with an
    integer sets the sentinel -1. *)
Lemma stage_index_line (lines : list jsstring) (i : nat) (st : pstate) :
  let trimmedLine := trim (nth i lines []) in
  let value := trim (substring_from 20 trimmedLine) in
  startsWith trimmedLine (lit "current_stage_index:") = true ->
  starts_with_integer value = false ->
  body lines i st
  = Returned
      (i, set_section None
            (set_result (set_current_stage_index (Num (-1)) (result st)) st)).
Proof.
  intros trimmedLine value Hstart Hvalue.
  destruct (startsWith_app _ _ Hstart) as [rest Ht].
  unfold body. fold trimmedLine.
  assert (E1 : nonempty trimmedLine = true) by (now rewrite Ht).
  assert (E2 : startsWith trimmedLine (lit "mission:") = false)
    by (now rewrite Ht).
  assert (E3 : startsWith trimmedLine (lit "process:") = false)
    by (now rewrite Ht).
  rewrite E1, E2, E3, Hstart. cbn [negb]. fold value.
  rewrite (parseInt_10_NaN value Hvalue). cbn [isNaN negb].
  now rewrite andb_false_r.
Qed.

(** ** The parser returns *)

Lemma dict_get_replace_same {A} (k : jsstring) (v : A) (d : dict A) :
  dict_get k d <> None -> dict_get k (dict_replace k v d) = Some v.
Proof.
  induction d as [|[k' v'] d IH]; simpl; [congruence|].
  destruct (JsString.eqb k k') eqn:E; simpl; rewrite E; [reflexivity | exact IH].
Qed.

Lemma dict_get_replace_other {A} (k k0 : jsstring) (v : A) (d : dict A) :
  JsString.eqb k k0 = false ->
  dict_get k (dict_replace k0 v d) = dict_get k d.
Proof.
  intros Hk. induction d as [|[k' v'] d IH]; simpl; [reflexivity|].
  destruct (JsString.eqb k0 k') eqn:E; simpl.
  - apply jseqb_eq in E. subst k'. now rewrite Hk.
  - destruct (JsString.eqb k k'); [reflexivity | exact IH].
Qed.

Lemma dict_get_insert_same {A} (n : Z) (k : jsstring) (v : A) (d : dict A) :
  dict_get k d = None -> dict_get k (dict_insert n k v d) = Some v.
Proof.
  induction d as [|[k' v'] d IH]; simpl.
  - now rewrite jseqb_refl.
  - destruct (JsString.eqb k k') eqn:E; [discriminate|]. intros Hd.
    destruct (array_index k') as [n'|]; [destruct (n' <? n)|]; simpl;
      rewrite ?E, ?jseqb_refl; auto.
Qed.

Lemma dict_get_insert_other {A} (n : Z) (k k0 : jsstring) (v : A)
    (d : dict A) :
  JsString.eqb k k0 = false ->
  dict_get k (dict_insert n k0 v d) = dict_get k d.
Proof.
  intros Hk. induction d as [|[k' v'] d IH]; simpl.
  - now rewrite Hk.
  - destruct (array_index k') as [n'|]; [destruct (n' <? n)|]; simpl;
      rewrite ?Hk; try reflexivity.
    destruct (JsString.eqb k k'); [reflexivity | exact IH].
Qed.

Lemma dict_get_app {A} (k : jsstring) (d e : dict A) :
  dict_get k (d ++ e)
  = match dict_get k d with Some v => Some v | None => dict_get k e end.
Proof.
  induction d as [|[k' v'] d IH]; simpl; [reflexivity|].
  destruct (JsString.eqb k k'); [reflexivity | exact IH].
Qed.

(** A property whose name is an array index comes before the others, in
    ascending order, wherever it was set. *)
Lemma dict_put_key_order :
  map fst (dict_put (lit "2") 0 (dict_put (lit "10") 1 (dict_put (lit "b") 2 [])))
  = [lit "2"; lit "10"; lit "b"].
Proof. vm_compute. reflexivity. Qed.

Lemma dict_get_put_same {A} (k : jsstring) (v : A) (d : dict A) :
  dict_get k (dict_put k v d) = Some v.
Proof.
  unfold dict_put. destruct (dict_get k d) as [x|] eqn:E.
  - apply dict_get_replace_same. congruence.
  - destruct (array_index k) as [n|].
    + now apply dict_get_insert_same.
    + rewrite dict_get_app, E. simpl. now rewrite jseqb_refl.
Qed.

Lemma dict_get_put_other {A} (k k0 : jsstring) (v : A) (d : dict A) :
  JsString.eqb k k0 = false ->
  dict_get k (dict_put k0 v d) = dict_get k d.
Proof.
  intros Hk. unfold dict_put. destruct (dict_get k0 d) as [x|].
  - now apply dict_get_replace_other.
  - destruct (array_index k0) as [n|].
    + now apply dict_get_insert_other.
    + rewrite dict_get_app. simpl. rewrite Hk. now destruct (dict_get k d).
Qed.

Lemma jseqb_sym (a b : jsstring) : JsString.eqb a b = JsString.eqb b a.
Proof.
  destruct (JsString.eqb a b) eqn:E.
  - apply jseqb_eq in E. subst. now rewrite jseqb_refl.
  - symmetry. apply jseqb_neq. apply jseqb_neq in E. congruence.
Qed.

Lemma good_put_array (o : dict ci_value) (l : list jsstring) :
  good_entry (dict_put (lit "last_msg") (CArr l) o).
Proof. unfold good_entry. now rewrite dict_get_put_same. Qed.

Lemma good_put_other (o : dict ci_value) (k : jsstring) (v : ci_value) :
  JsString.eqb (lit "last_msg") k = false ->
  good_entry o -> good_entry (dict_put k v o).
Proof. intros Hk H. unfold good_entry. now rewrite dict_get_put_other. Qed.

Lemma good_store (st : lcr_state) (obj : dict ci_value)
    (before : list (dict ci_value)) :
  good_entry obj -> Forall good_entry before ->
  Forall good_entry (rev (obj :: before)).
Proof. intros Ho Hb. apply Forall_rev. now constructor. Qed.

(** One line of [parseLastCheckResult]: no throw, and the entries stay
    well formed. *)
Lemma lcr_line_returns (line : jsstring) (st : lcr_state) :
  Forall good_entry (checkInfoArray st) ->
  exists st', lcr_line line st = Returned st' /\
              Forall good_entry (checkInfoArray st').
Proof.
  intros Hgood. unfold lcr_line.
  destruct (JsString.eqb (trim line) (lit "check_info:")); [eauto|].
  destruct (insideCheckInfo st).
  - destruct (test (match_anchored re_name_start line)).
    + destruct (search re_name line) as [[[|name caps] r]|]; eauto.
      eexists. split; [reflexivity|]. simpl.
      apply Forall_app. split; [exact Hgood|].
      constructor; [|constructor]. exact I.
    + destruct (rev (checkInfoArray st)) as [|currentObj before] eqn:E; [eauto|].
      assert (Hrev : Forall good_entry (currentObj :: before))
        by (rewrite <- E; now apply Forall_rev).
      pose proof (Forall_inv Hrev) as Hcur.
      pose proof (Forall_inv_tail Hrev) as Hbefore.
      destruct (match_anchored re_property line)
        as [[[|property [|value caps]] r]|].
      3:{ (* a property line *)
          cbv zeta.
          destruct (JsString.eqb property (lit "last_msg")) eqn:E1.
          { apply jseqb_eq in E1. subst property. cbn [orb].
            eexists. split; [reflexivity|]. cbn [checkInfoArray].
            apply (good_store st); [apply good_put_array | exact Hbefore]. }
          destruct (JsString.eqb property (lit "description")) eqn:E2.
          { cbn [orb]. eexists. split; [reflexivity|]. cbn [checkInfoArray].
            apply (good_store st); [|exact Hbefore].
            apply good_put_other; [|exact Hcur].
            now rewrite jseqb_sym. }
          cbn [orb].
          destruct (JsString.eqb property (lit "count_pass")
                    || JsString.eqb property (lit "count_fail")
                    || JsString.eqb property (lit "count_check"))%bool.
          { eexists. split; [reflexivity|]. cbn [checkInfoArray].
            apply (good_store st); [|exact Hbefore].
            apply good_put_other; [|exact Hcur].
            now rewrite jseqb_sym. }
          eexists. split; [reflexivity|]. cbn [checkInfoArray].
          apply (good_store st); [|exact Hbefore].
          unfold dict_set_string.
          destruct (JsString.eqb property (lit "__proto__")); [exact Hcur|].
          apply good_put_other; [|exact Hcur]. now rewrite jseqb_sym. }
      all: (* not a property line *)
        cbv zeta;
        destruct ((test (match_anchored re_list_item line)
                   && includes line (lit "last_msg:"))
                  || includes line (lit "description:"))%bool; [|eauto];
        destruct (match_anchored re_array_item line) as [[[|item caps'] r']|];
        eauto;
        unfold push_last_msg;
        (destruct (ci_truthy (dict_get (lit "last_msg") currentObj)) eqn:Et;
         [ unfold good_entry in Hcur;
           destruct (dict_get (lit "last_msg") currentObj) as [[s|n|l]|] eqn:Eg;
           try contradiction; try discriminate Et;
           cbn [bind]; eexists; (split; [reflexivity|]); cbn [checkInfoArray];
           apply (good_store st); [apply good_put_array | exact Hbefore]
         | rewrite dict_get_put_same;
           cbn [bind]; eexists; (split; [reflexivity|]); cbn [checkInfoArray];
           apply (good_store st); [apply good_put_array | exact Hbefore] ]).
  - destruct (startsWith (trim line) (lit "check_pass:")); eauto.
Qed.

Lemma lcr_loop_returns (lines : list jsstring) :
  forall st, Forall good_entry (checkInfoArray st) ->
  exists st', lcr_loop lines st = Returned st'.
Proof.
  induction lines as [|line rest IH]; intros st Hgood; simpl; [eauto|].
  destruct (negb (nonempty (trim line))); [now apply IH|].
  match goal with |- context [if ?c then Returned st else _] => destruct c end;
    [eauto|].
  destruct (lcr_line_returns line st Hgood) as (st' & -> & Hgood').
  simpl. now apply IH.
Qed.

Lemma parseLastCheckResult_returns (lines : list jsstring) :
  exists r, parseLastCheckResult lines = Returned r.
Proof.
  unfold parseLastCheckResult.
  destruct (lcr_loop_returns lines (mkLcr (mkCheck None None) false []))
    as [st' ->]; [constructor|].
  simpl. eauto.
Qed.

(** The index that the search for the next top-level line leaves is not
    before the line it started from, and is an index of a line. *)
Lemma skip_block_bounds (len : nat) (rest : list jsstring) :
  forall j i, (i < j)%nat -> (j + length rest = len)%nat ->
  (i <= skip_block rest len j i < len)%nat.
Proof.
  induction rest as [|l rest IH]; intros j i Hij Hlen;
    cbn [skip_block length] in *.
  - lia.
  - destruct (nonempty (trim l) && negb (test (match_anchored re_indent l)))%bool.
    + lia.
    + destruct (Nat.eqb j (len - 1)) eqn:E.
      * specialize (IH (S j) j). lia.
      * specialize (IH (S j) i). lia.
Qed.

Lemma stage_list_line_task (line trimmedLine : jsstring) (st : pstate) :
  current_task (result (stage_list_line line trimmedLine st))
  = current_task (result st).
Proof.
  unfold stage_list_line.
  destruct (test (match_anchored re_stage_start line)).
  - destruct (currentStage st); reflexivity.
  - destruct (currentStage st); [|reflexivity].
    destruct (match_anchored re_property line)
      as [[[|property [|value caps]] r]|];
      try reflexivity;
      destruct (test (match_anchored re_key trimmedLine)); reflexivity.
Qed.

Lemma update_task_object (f : TaskInfo -> TaskInfo) (r : AgentStatus) :
  (exists t, current_task r = TaskObject t) ->
  exists t, current_task (update_task f r) = TaskObject t.
Proof.
  intros [t Ht]. unfold update_task. rewrite Ht. simpl. eauto.
Qed.

Lemma current_task_line_task (line trimmedLine : jsstring) (st : pstate) :
  task_is_object st ->
  task_is_object (current_task_line line trimmedLine st).
Proof.
  intros H. unfold current_task_line, task_is_object in *.
  case_conditions;
    try exact H;
    try (cbn [result set_result set_subsection set_section];
         first [exact H | apply update_task_object; exact H]).
  all: destruct (indexOf _ _);
    cbn [result set_result]; apply update_task_object; exact H.
Qed.

(** The body of the loop returns, leaves an index that is not before its
    own and is an index of a line, and keeps [current_task] an object. *)
Lemma body_returns (lines : list jsstring) (i : nat) (st : pstate) :
  (i < length lines)%nat -> task_is_object st ->
  exists i' st',
    body lines i st = Returned (i', st') /\
    (i <= i' < length lines)%nat /\ task_is_object st'.
Proof.
  intros Hi Hobj. pose proof Hobj as [t Ht]. unfold body.
  assert (Hsame : forall st', current_task (result st') = current_task (result st) ->
                              task_is_object st').
  { intros st' E. exists t. now rewrite E. }
  case_conditions;
    try (eexists _, _; split; [reflexivity|]; split; [lia|];
         first [ apply Hsame; reflexivity
               | apply Hsame; apply stage_list_line_task
               | apply current_task_line_task; exact Hobj
               | eexists; reflexivity ]).
  destruct (parseLastCheckResult_returns (skipn i lines)) as [r ->].
  cbn [bind]. eexists _, _. split; [reflexivity|]. split.
  - apply skip_block_bounds; [lia|]. rewrite length_skipn. lia.
  - apply Hsame. reflexivity.
Qed.

(** With one unit of fuel for every line that is left, the loop returns. *)
Lemma loop_returns (lines : list jsstring) (fuel : nat) :
  forall i st,
  (length lines - i <= fuel)%nat -> task_is_object st ->
  exists st', loop fuel lines i st = Returned st' /\ task_is_object st'.
Proof.
  induction fuel as [|fuel IH]; intros i st Hfuel Hobj.
  - simpl. destruct (Nat.leb (length lines) i) eqn:E; [eauto|].
    apply Nat.leb_gt in E. lia.
  - simpl. destruct (Nat.leb (length lines) i) eqn:E; [eauto|].
    apply Nat.leb_gt in E.
    destruct (body_returns lines i st E Hobj) as (i' & st' & -> & Hi' & Hobj').
    cbn [bind]. apply IH; [lia | exact Hobj'].
Qed.

Lemma after_loop_task (st : pstate) :
  current_task (after_loop st) = current_task (result st).
Proof. unfold after_loop. destruct (currentStage st); reflexivity. Qed.

(** Outside a block, a line that no top-level key takes changes nothing. *)
Lemma unmatched_line_skipped (lines : list jsstring) (i : nat) (st : pstate) :
  currentSection st = None ->
  top_level_key (trim (nth i lines [])) = false ->
  body lines i st = Returned (i, st).
Proof.
  intros Hsec Hkey.
  destruct (nonempty (trim (nth i lines []))) eqn:Hne.
  - rewrite body_in_section by assumption. now rewrite Hsec.
  - unfold body. now rewrite Hne.
Qed.

(** C2: on every input, [parseStatusResponse] returns a record (the
    loop ends within the fuel it is given and nothing is thrown), whose
    [stage_list] is a list and whose [current_task] is an object with its
    four fields; so does [parseLastCheckResult] on every list of lines. A
    line outside a block that no top-level key takes is skipped, the state
    of the scanner unchanged; and on the empty text every field without a
    line is left undefined. *)
Theorem C2_parse_total (statusText : jsstring) (lines : list jsstring) :
  (exists r t,
     parseStatusResponse statusText = Returned r /\
     current_task r = TaskObject t) /\
  (exists c, parseLastCheckResult lines = Returned c) /\
  (forall i st,
     currentSection st = None ->
     top_level_key (trim (nth i lines [])) = false ->
     body lines i st = Returned (i, st)) /\
  parseStatusResponse []
  = Returned (mkStatus None [] None (TaskObject initial_task) None None None).
Proof.
  split; [|split; [apply parseLastCheckResult_returns |
                   split; [apply unmatched_line_skipped | reflexivity]]].
  unfold parseStatusResponse, parseLines.
  destruct (loop_returns (split 10 statusText) (length (split 10 statusText))
              0 initial_state) as (st' & -> & t & Ht).
  - lia.
  - exists initial_task. reflexivity.
  - cbn [bind]. exists (after_loop st'), t. split; [reflexivity|].
    now rewrite after_loop_task.
Qed.

(** ** Stage indices *)

Section Subseq.
Context {A : Type}.
Implicit Types a b c : list A.

Lemma subseq_nil_l b : subseq [] b.
Proof. induction b; [apply subseq_nil | now apply subseq_skip]. Qed.

Lemma subseq_app_r a b c : subseq a b -> subseq a (b ++ c).
Proof.
  induction 1; simpl.
  - apply subseq_nil_l.
  - now apply subseq_skip.
  - now apply subseq_take.
Qed.

Lemma subseq_snoc a b x : subseq a b -> subseq (a ++ [x]) (b ++ [x]).
Proof.
  induction 1; simpl.
  - apply subseq_take, subseq_nil.
  - now apply subseq_skip.
  - now apply subseq_take.
Qed.

Lemma subseq_In a b x : subseq a b -> In x a -> In x b.
Proof.
  induction 1; simpl; intros H'; auto.
  destruct H' as [-> | H']; auto.
Qed.

Lemma subseq_NoDup a b : subseq a b -> NoDup b -> NoDup a.
Proof.
  induction 1; intros Hb.
  - constructor.
  - apply IHsubseq. now inversion Hb.
  - inversion Hb as [|? ? Hx Hb']; subst. constructor.
    + intros Hin. apply Hx. eapply subseq_In; eassumption.
    + now apply IHsubseq.
Qed.

End Subseq.

Lemma stage_property_index (property value : jsstring) (s : Stage) :
  index (stage_property property value s) = index s.
Proof.
  unfold stage_property.
  repeat match goal with
         | |- context [if ?c then _ else _] => destruct c
         end; reflexivity.
Qed.

(** A line in a [stage_list] block opens a stage with the index written on
    it, or leaves the opened stages as they are. *)
Lemma stage_list_line_opened (line trimmedLine : jsstring) (st : pstate) :
  opened (stage_list_line line trimmedLine st) = opened st ++ stage_start_index line.
Proof.
  unfold stage_list_line, stage_start_index, opened.
  destruct (test (match_anchored re_stage_start line)).
  - assert (E : index (match search re_index line with
                       | Some (d :: _, _) => set_index (parseInt d (Some 10)) new_stage
                       | _ => new_stage
                       end) = written_index line).
    { unfold written_index.
      destruct (search re_index line) as [[[|d caps] r]|]; reflexivity. }
    destruct (currentStage st) as [s|]; cbn [set_stage set_result result
      currentStage set_stage_list stage_list]; rewrite E.
    + now rewrite map_app.
    + now rewrite app_nil_r.
  - rewrite app_nil_r.
    destruct (currentStage st) as [s|] eqn:Es; [|now rewrite Es].
    destruct (match_anchored re_property line)
      as [[[|property [|value caps]] r]|];
      try (destruct (test (match_anchored re_key trimmedLine)));
      cbn [set_stage set_section set_subsection result currentStage];
      rewrite ?Es, ?stage_property_index; reflexivity.
Qed.

Lemma update_task_stage_list (f : TaskInfo -> TaskInfo) (r : AgentStatus) :
  stage_list (update_task f r) = stage_list r.
Proof. unfold update_task. destruct (current_task r); reflexivity. Qed.

Lemma current_task_line_opened (line trimmedLine : jsstring) (st : pstate) :
  opened (current_task_line line trimmedLine st) = opened st.
Proof.
  unfold current_task_line, opened.
  case_conditions;
    try reflexivity;
    try (cbn [result set_result currentStage];
         now rewrite update_task_stage_list).
  all: destruct (indexOf _ _); cbn [result set_result currentStage];
    now rewrite update_task_stage_list.
Qed.

(** What the body of the loop does to the opened stages. *)
Lemma body_opened (lines : list jsstring) (i i' : nat) (st st' : pstate) :
  body lines i st = Returned (i', st') ->
  opened st' = opened st \/
  (i' = i /\ opened st' = opened st ++ stage_start_index (nth i lines [])).
Proof.
  unfold body.
  case_conditions;
    try (intros H; inversion H; subst; left; reflexivity).
  - destruct (parseLastCheckResult (skipn i lines)); cbn [bind];
      intros H; inversion H; subst. left. reflexivity.
  - intros H; inversion H; subst. right. split; [reflexivity|].
    apply stage_list_line_opened.
  - intros H; inversion H; subst. left. apply current_task_line_opened.
Qed.

Lemma written_indices_app (a b : list jsstring) :
  written_indices (a ++ b) = written_indices a ++ written_indices b.
Proof. unfold written_indices. apply flat_map_app. Qed.

(** The lines up to index [i'] are the lines before [i], the line at [i]
    and the lines after it up to [i']. *)
Lemma firstn_step (lines : list jsstring) (i i' : nat) :
  (i < length lines)%nat -> (i <= i')%nat ->
  exists more,
    firstn (S i') lines = firstn i lines ++ nth i lines [] :: more.
Proof.
  intros Hi Hle.
  exists (firstn (i' - i) (skipn (S i) lines)).
  rewrite <- (firstn_skipn i lines) at 1.
  replace (S i') with (length (firstn i lines) + S (i' - i))%nat
    by (rewrite length_firstn; lia).
  rewrite firstn_app_2. f_equal.
  assert (E : skipn i lines = nth i lines [] :: skipn (S i) lines).
  { clear Hle. revert i Hi. induction lines as [|l lines IH]; intros i Hi.
    - simpl in Hi. lia.
    - destruct i as [|i]; [reflexivity|].
      simpl. apply IH. simpl in Hi. lia. }
  rewrite E. reflexivity.
Qed.

(** The body of the loop keeps the opened stages among the indices written
    on the lines it has passed. *)
Lemma body_keeps_subseq (lines : list jsstring) (i i' : nat) (st st' : pstate) :
  (i < length lines)%nat -> (i <= i')%nat ->
  body lines i st = Returned (i', st') ->
  subseq (opened st) (written_indices (firstn i lines)) ->
  subseq (opened st') (written_indices (firstn (S i') lines)).
Proof.
  intros Hi Hle Hbody Hinv.
  destruct (firstn_step lines i i' Hi Hle) as [more ->].
  change (nth i lines [] :: more) with ([nth i lines []] ++ more).
  rewrite !written_indices_app.
  destruct (body_opened _ _ _ _ _ Hbody) as [-> | [-> ->]].
  - now apply subseq_app_r.
  - rewrite app_assoc. apply subseq_app_r.
    unfold written_indices at 2. simpl flat_map. rewrite app_nil_r.
    unfold stage_start_index.
    destruct (test (match_anchored re_stage_start (nth i lines []))).
    + now apply subseq_snoc.
    + now rewrite !app_nil_r.
Qed.

Lemma loop_keeps_subseq (lines : list jsstring) (fuel : nat) :
  forall i st st',
  task_is_object st ->
  loop fuel lines i st = Returned st' ->
  subseq (opened st) (written_indices (firstn i lines)) ->
  subseq (opened st') (written_indices lines).
Proof.
  induction fuel as [|fuel IH]; intros i st st' Hobj Hloop Hinv; simpl in Hloop.
  - destruct (Nat.leb (length lines) i) eqn:E; [|discriminate].
    apply Nat.leb_le in E. inversion Hloop; subst.
    now rewrite firstn_all2 in Hinv.
  - destruct (Nat.leb (length lines) i) eqn:E.
    + apply Nat.leb_le in E. inversion Hloop; subst.
      now rewrite firstn_all2 in Hinv.
    + apply Nat.leb_gt in E.
      destruct (body_returns lines i st E Hobj)
        as (i' & st1 & Hbody & Hi' & Hobj1).
      rewrite Hbody in Hloop. cbn [bind] in Hloop.
      apply (IH (S i') st1 st' Hobj1 Hloop).
      apply (body_keeps_subseq lines i i' st st1); auto; lia.
Qed.

Lemma after_loop_indices (st : pstate) :
  map index (stage_list (after_loop st)) = opened st.
Proof.
  unfold after_loop, opened.
  destruct (currentStage st); simpl.
  - now rewrite map_app.
  - now rewrite app_nil_r.
Qed.

(** C9 fails as stated: two stage-start lines with index 0 give two
    entries of [stage_list] with index 0. *)
Lemma C9_counterexample_repeated_index :
  parseStatusResponse repeated_index_status
  = Returned
      (mkStatus None
         [ mkStage (Num 0) (Some (lit "first")) None None None None None;
           mkStage (Num 0) (Some (lit "second")) None None None None None ]
         None (TaskObject initial_task) None None None) /\
  written_indices (split 10 repeated_index_status) = [Num 0; Num 0].
Proof. split; vm_compute; reflexivity. Qed.

(** C9 (amended): the indices of [stage_list] are, in order, indices
    written on stage-start lines of the text, each line used at most once;
    so they are pairwise distinct whenever the indices written on the
    stage-start lines of the text are. *)
Theorem C9_indices_from_text (statusText : jsstring) :
  exists r,
    parseStatusResponse statusText = Returned r /\
    subseq (map index (stage_list r))
      (written_indices (split 10 statusText)) /\
    (NoDup (written_indices (split 10 statusText)) ->
     NoDup (map index (stage_list r))).
Proof.
  unfold parseStatusResponse, parseLines.
  set (lines := split 10 statusText).
  assert (Hobj : task_is_object initial_state)
    by (exists initial_task; reflexivity).
  destruct (loop_returns lines (length lines) 0 initial_state) as (st' & Hloop & _);
    [lia | exact Hobj |].
  rewrite Hloop. cbn [bind]. exists (after_loop st').
  assert (Hsub : subseq (map index (stage_list (after_loop st')))
                   (written_indices lines)).
  { rewrite after_loop_indices.
    apply (loop_keeps_subseq lines (length lines) 0 initial_state st' Hobj Hloop).
    apply subseq_nil. }
  split; [reflexivity|]. split; [exact Hsub|].
  now apply subseq_NoDup.
Qed.

(** ** The index of the loop *)

Lemma skipn_nth (lines : list jsstring) :
  forall i, (i < length lines)%nat ->
  skipn i lines = nth i lines [] :: skipn (S i) lines.
Proof.
  induction lines as [|l lines IH]; intros i Hi.
  - simpl in Hi. lia.
  - destruct i as [|i]; [reflexivity|].
    simpl. apply IH. simpl in Hi. lia.
Qed.

(** The search after [last_check_result:] stops before a top-level line. *)
Lemma skip_block_stops (lines : list jsstring) (k : nat) :
  (k < length lines)%nat -> top_level_line (nth k lines []) ->
  forall n j i, (k - j = n)%nat -> (i < j)%nat -> (j <= k)%nat ->
  (skip_block (skipn j lines) (length lines) j i < k)%nat.
Proof.
  intros Hk [Hne Hind]. induction n as [|n IH]; intros j i Hn Hij Hjk.
  - assert (j = k) by lia. subst j.
    rewrite skipn_nth by exact Hk. cbn [skip_block].
    rewrite Hne, Hind. cbn [negb andb]. lia.
  - rewrite skipn_nth by lia. cbn [skip_block].
    destruct (nonempty (trim (nth j lines []))
              && negb (test (match_anchored re_indent (nth j lines []))))%bool.
    + lia.
    + apply IH; [lia| |lia].
      destruct (Nat.eqb j (length lines - 1)); lia.
Qed.

(** The index that the body of the loop leaves. *)
Lemma body_index (lines : list jsstring) (i i' : nat) (st st' : pstate) :
  body lines i st = Returned (i', st') ->
  i' = i \/ i' = skip_block (skipn (S i) lines) (length lines) (S i) i.
Proof.
  unfold body.
  case_conditions;
    try (intros H; inversion H; subst; left; reflexivity).
  destruct (parseLastCheckResult (skipn i lines)); cbn [bind];
    intros H; inversion H; subst. right. reflexivity.
Qed.

Lemma starts_nonempty (t p : jsstring) :
  p <> [] -> startsWith t p = true -> nonempty t = true.
Proof.
  intros Hp H. destruct (startsWith_app _ _ H) as [rest ->].
  destruct p; [congruence | reflexivity].
Qed.

Lemma after_loop_fields (st : pstate) :
  current_stage_index (after_loop st) = current_stage_index (result st) /\
  current_task (after_loop st) = current_task (result st).
Proof. unfold after_loop. destruct (currentStage st); split; reflexivity. Qed.

(** ** Durations of any text *)

Lemma search_sound (re : regex) (s : jsstring) (r : matched) :
  search re s = Some r ->
  exists pre suf, s = pre ++ suf /\ match_here re suf = Some r.
Proof.
  induction s as [|c s IH]; rewrite search_unfold.
  - destruct (match_here re []) eqn:E; [|discriminate].
    intros H. inversion H; subst. exists [], []. auto.
  - destruct (match_here re (c :: s)) eqn:E.
    + intros H. inversion H; subst. exists [], (c :: s). auto.
    + intros H. destruct (IH H) as (pre & suf & -> & Hm).
      exists (c :: pre), suf. auto.
Qed.

(** What [(\d+)u] captures is a run of digits. *)
Lemma amount_here_digits (u : N) (s : jsstring) (r : matched) :
  match_here (re_amount_of u) s = Some r ->
  exists ds rest, r = ([ds], rest) /\ ds <> [] /\ all is_digit ds.
Proof.
  rewrite amount_here_unfold.
  destruct s as [|c s']; [discriminate|].
  destruct (is_digit c) eqn:Hc; [|discriminate].
  intros H. apply many_sound in H.
  destruct H as (ds & s'' & -> & Hds & H).
  apply conclude_some in H. destruct H as (caps & after & Hk & ->).
  destruct s'' as [|x s3]; [discriminate|].
  rewrite match_unit_cons in Hk.
  destruct (N.eqb u x); [|discriminate]. inversion Hk; subst caps after.
  exists (rev (rev ds ++ [c])), s3.
  rewrite rev_app_distr, rev_involutive. simpl.
  repeat split; [discriminate | constructor; assumption].
Qed.

Lemma radix_value_nonneg (ds : jsstring) : 0 <= radix_value 10 ds.
Proof.
  induction ds as [|c ds IH] using rev_ind; [reflexivity|].
  rewrite radix_value_snoc. unfold digit_value.
  destruct (is_digit c) eqn:Hc.
  - apply is_digit_range in Hc. lia.
  - destruct (N.leb 97 c && N.leb c 122)%bool eqn:E1.
    + apply andb_true_iff in E1. destruct E1 as [E1 _].
      apply N.leb_le in E1. lia.
    + destruct (N.leb 65 c && N.leb c 90)%bool eqn:E2; [|exact IH].
      apply andb_true_iff in E2. destruct E2 as [E2 _].
      apply N.leb_le in E2. lia.
Qed.

(** What the code compares with [>= 0]: a Number that is not [NaN] and
    not negative. *)
Lemma round64_not_NaN (z : Z) : isNaN (round64 z) = false.
Proof.
  unfold round64, nearest. destruct (z =? 0); [reflexivity|].
  destruct (scaled (Z.abs z) 1 (scale_of (Z.abs z) 1)) as [n d].
  match goal with |- context [if ?c then _ else _] => destruct c end;
    reflexivity.
Qed.

Lemma jmul_count (a : jsnum) (c : Z) :
  0 < c -> jle (Num 0) a = true -> jle (Num 0) (jmul a (Num c)) = true.
Proof.
  intros Hc Ha. destruct a as [x| |[|]]; try discriminate Ha.
  - cbn [jmul]. apply round64_nonneg.
    unfold jle in Ha. cbn [jlt jeq] in Ha. apply orb_true_iff in Ha.
    destruct Ha as [Ha|Ha]; [apply Z.ltb_lt in Ha | apply Z.eqb_eq in Ha]; nia.
  - cbn [jmul]. replace (c =? 0) with false by (symmetry; apply Z.eqb_neq; lia).
    replace (c <? 0) with false by (symmetry; apply Z.ltb_ge; lia).
    reflexivity.
Qed.

Lemma jadd_count (a b : jsnum) :
  jle (Num 0) a = true -> jle (Num 0) b = true ->
  jle (Num 0) (jadd a b) = true.
Proof.
  intros Ha Hb.
  destruct a as [x| |[|]]; try discriminate Ha;
    destruct b as [y| |[|]]; try discriminate Hb; try reflexivity.
  cbn [jadd]. apply round64_nonneg.
  unfold jle in Ha, Hb. cbn [jlt jeq] in Ha, Hb.
  apply orb_true_iff in Ha. apply orb_true_iff in Hb.
  destruct Ha as [Ha|Ha]; [apply Z.ltb_lt in Ha | apply Z.eqb_eq in Ha];
    destruct Hb as [Hb|Hb]; [apply Z.ltb_lt in Hb | apply Z.eqb_eq in Hb
                            | apply Z.ltb_lt in Hb | apply Z.eqb_eq in Hb];
    lia.
Qed.

(** The amount of a unit in any text is a count. *)
Lemma amount_nonneg (u : N) (s : jsstring) :
  jle (Num 0) (amount_of (search (re_amount_of u) s)) = true.
Proof.
  destruct (search (re_amount_of u) s) as [r|] eqn:E; [|reflexivity].
  apply search_sound in E. destruct E as (pre & suf & _ & Hm).
  apply amount_here_digits in Hm.
  destruct Hm as (ds & rest & -> & Hne & Hall).
  simpl. rewrite parseInt_digits by auto.
  apply round64_nonneg. apply radix_value_nonneg.
Qed.

Lemma convertTimeToSeconds_count (timeStr : jsstring) :
  jle (Num 0) (convertTimeToSeconds timeStr) = true.
Proof.
  unfold convertTimeToSeconds.
  destruct (negb (nonempty timeStr) || JsString.eqb timeStr (lit "''")
            || JsString.eqb timeStr (lit "Not started"))%bool;
    [reflexivity|].
  rewrite !amount_eq, re_amount_h, re_amount_m, re_amount_s.
  repeat first [apply jadd_count | apply jmul_count; [lia|]
               | apply amount_nonneg].
Qed.

Lemma count_value (n : Z) : jle (Num 0) (Num n) = true -> 0 <= n.
Proof.
  unfold jle. cbn [jlt jeq]. intros H. apply orb_true_iff in H.
  destruct H as [H|H]; [apply Z.ltb_lt in H | apply Z.eqb_eq in H]; lia.
Qed.

(** X1: whatever the text, [convertTimeToSeconds] returns a count of
    seconds: a Number [>= 0], so neither [NaN] nor negative (it is
    [Infinity] for an amount beyond the largest double). *)
Theorem X1_duration_is_a_count (timeStr : jsstring) :
  jge (convertTimeToSeconds timeStr) (Num 0) = true /\
  isNaN (convertTimeToSeconds timeStr) = false.
Proof.
  pose proof (convertTimeToSeconds_count timeStr) as H.
  split; [exact H|].
  now destruct (convertTimeToSeconds timeStr).
Qed.

Lemma search_amount_no_digit (u : N) (s : jsstring) :
  no_digit s -> search (re_amount_of u) s = None.
Proof.
  induction 1 as [|c s Hc _ IH]; [reflexivity|].
  now rewrite search_amount_skip_char.
Qed.

(** X2: a text without a decimal digit is 0 seconds; the three texts that
    the function tests for first (the empty one, the two quotes and
    [Not started]) are such texts. *)
Theorem X2_no_digit_no_time (timeStr : jsstring) :
  no_digit timeStr -> convertTimeToSeconds timeStr = Num 0.
Proof.
  intros H. unfold convertTimeToSeconds.
  destruct (negb (nonempty timeStr) || JsString.eqb timeStr (lit "''")
            || JsString.eqb timeStr (lit "Not started"))%bool; [reflexivity|].
  rewrite !amount_eq, re_amount_h, re_amount_m, re_amount_s.
  now rewrite !search_amount_no_digit.
Qed.

Lemma X2_no_digit_no_time_witness :
  convertTimeToSeconds (lit "about an hour") = Num 0.
Proof.
  apply (X2_no_digit_no_time (lit "about an hour")).
  repeat constructor.
Defined.

(** Parsing what was rendered from a count below 2^53 gives the count
    back. *)
Lemma convertTimeToSeconds_rendered (n : Z) :
  0 <= n < 2 ^ 53 ->
  convertTimeToSeconds (convertSecondsToTime (Num n)) = Num n.
Proof.
  intros Hn. destruct (Z.eq_dec n 0) as [->|Hnz]; [reflexivity|].
  rewrite convertSecondsToTime_pos by lia.
  destruct (split_seconds n ltac:(lia)) as (Hh & Hm & Hs & Hsum).
  rewrite convertTimeToSeconds_duration_string
    by (rewrite !amount_when_positive; lia).
  rewrite !amount_when_positive by lia.
  f_equal. lia.
Qed.

(** X3: for a text of fewer than 2^53 seconds, rendering the seconds
    keeps their number, and what is rendered is a fixed point: parsing and
    rendering it again gives the same text. *)
Theorem X3_shown_duration_is_normal (timeStr : jsstring) (n : Z) :
  convertTimeToSeconds timeStr = Num n -> n < 2 ^ 53 ->
  convertTimeToSeconds (shown_duration timeStr) = Num n /\
  shown_duration (shown_duration timeStr) = shown_duration timeStr.
Proof.
  intros E Hn. unfold shown_duration. rewrite E.
  pose proof (convertTimeToSeconds_count timeStr) as H0.
  rewrite E in H0. apply count_value in H0.
  rewrite convertTimeToSeconds_rendered by lia. auto.
Qed.

Lemma X3_shown_duration_is_normal_witness :
  convertTimeToSeconds (shown_duration (lit "90s")) = Num 90 /\
  shown_duration (shown_duration (lit "90s")) = shown_duration (lit "90s").
Proof.
  apply (X3_shown_duration_is_normal (lit "90s") 90); reflexivity.
Defined.

(** ** The elapsed time of the running stage *)

(** X4: while the current stage is neither completed nor skipped and a
    fetch time is recorded that the clock has not gone back past (both
    times integers of milliseconds that are doubles), the elapsed time
    shown is the stored time of the stage plus the whole
    seconds since the fetch, and it reads back as that number of seconds:
    as long as the sum has fewer than 43 bits, nothing is lost in the
    fraction of a second that is added and floored. *)
Theorem X4_elapsed_time_ticks (status : AgentStatus) (currentStage : Stage)
    (lastFetchTime now base : Z) :
  getCurrentStage (Some status) = Some currentStage ->
  isStageCompleted (Some status) (index currentStage) = false ->
  is_true (is_skipped currentStage) = false ->
  lastFetchTime <> 0 -> - 2 ^ 53 <= lastFetchTime <= now -> now <= 2 ^ 53 ->
  convertTimeToSeconds_field (time_cost currentStage) = Num base ->
  (base + (now - lastFetchTime) / 1000 + 1) * 2 ^ 10 <= 2 ^ 53 ->
  0 <= base /\
  getCurrentStageElapsedTime (Some status) (Some lastFetchTime) now
  = convertSecondsToTime (Num (base + (now - lastFetchTime) / 1000)) /\
  convertTimeToSeconds
    (getCurrentStageElapsedTime (Some status) (Some lastFetchTime) now)
  = Num (base + (now - lastFetchTime) / 1000).
Proof.
  intros Hcur Hdone Hskip Hlast [_ Hclock] _ Hbase Hfit.
  assert (Hpos : 0 <= base).
  { apply count_value. rewrite <- Hbase. unfold convertTimeToSeconds_field.
    destruct (time_cost currentStage) as [t|];
      [apply convertTimeToSeconds_count | reflexivity]. }
  split; [exact Hpos|].
  set (delta := now - lastFetchTime) in *.
  assert (Hq : 0 <= delta / 1000) by (apply Z.div_pos; unfold delta; lia).
  pose proof (Z.div_mod delta 1000 ltac:(lia)) as Ed.
  pose proof (Z.mod_pos_bound delta 1000 ltac:(lia)) as Hr.
  change (2 ^ 10) with 1024 in Hfit.
  assert (H53 : 2 ^ 53 = 9007199254740992) by reflexivity.
  assert (E : getCurrentStageElapsedTime (Some status) (Some lastFetchTime) now
              = convertSecondsToTime (Num (base + delta / 1000))).
  { unfold getCurrentStageElapsedTime. rewrite Hcur, Hdone, Hskip.
    cbn [orb].
    replace (lastFetchTime =? 0) with false
      by (symmetry; now apply Z.eqb_neq).
    cbv zeta. rewrite Hbase. fold delta.
    rewrite (round64_exact delta) by (unfold delta in *; lia).
    rewrite elapsed_exact; [reflexivity | exact Hpos | unfold delta; lia |].
    change (2 ^ 10) with 1024. lia. }
  split; [exact E|]. rewrite E.
  apply convertTimeToSeconds_rendered. lia.
Qed.

Lemma X4_elapsed_time_ticks_witness :
  getCurrentStageElapsedTime (Some running_record) (Some 1000) 91500
  = lit "1m 40s".
Proof.
  destruct (X4_elapsed_time_ticks running_record
              (mkStage (Num 1) (Some (lit "implement")) (Some true)
                 (Some (Num 0)) (Some false) (Some (lit "10s")) (Some false))
              1000 91500 10 eq_refl eq_refl eq_refl ltac:(discriminate)
              ltac:(split; discriminate) ltac:(discriminate) eq_refl
              ltac:(discriminate))
    as (_ & E & _).
  rewrite E. reflexivity.
Defined.

(** ** The stages that count as completed *)

Lemma indexed_by_position_snoc (l : list Stage) (x : Stage) :
  indexed_by_position (l ++ [x]) ->
  indexed_by_position l /\ index x = Num (Z.of_nat (length l)).
Proof.
  intros H. split.
  - intros i s Hi. apply H. rewrite nth_error_app1; [exact Hi|].
    apply nth_error_Some. congruence.
  - apply H. rewrite nth_error_app2 by lia.
    now rewrite Nat.sub_diag.
Qed.

(** With indices equal to positions, the stages below [c] are the first
    [c]. *)
Lemma count_below (l : list Stage) (c : Z) :
  indexed_by_position l -> 0 <= c ->
  length (filter (fun s => jlt (index s) (Num c)) l)
  = Nat.min (Z.to_nat c) (length l).
Proof.
  intros Hpos Hc. induction l as [|x l IH] using rev_ind; [simpl; lia|].
  apply indexed_by_position_snoc in Hpos. destruct Hpos as [Hl Hx].
  rewrite filter_app, !length_app, IH by exact Hl.
  cbn [filter length]. rewrite Hx. cbn [jlt].
  destruct (Z.of_nat (length l) <? c) eqn:E.
  - apply Z.ltb_lt in E. simpl. lia.
  - apply Z.ltb_ge in E. simpl. lia.
Qed.

Lemma isStageCompleted_active (st : AgentStatus) (c : Z) (idx : jsnum) :
  current_stage_index st = Some (Num c) -> c <> -1 ->
  process_complete st = false ->
  isStageCompleted (Some st) idx = jlt idx (Num c).
Proof.
  intros Hc Hne Hp. unfold isStageCompleted. rewrite Hp, Hc.
  cbn [jeq]. replace (c =? -1) with false; [reflexivity|].
  symmetry. now apply Z.eqb_neq.
Qed.

(** X5: while stage [c] of [N] is the current one and [process] does not
    report completion, the stages that count as completed are exactly the
    [c] stages before it: the current stage itself is in progress (the
    one-second timer runs, its status reads [IN PROGRESS] unless it is
    skipped), and the percentage is that of [c] out of [N]. *)
Theorem X5_running_stage (st : AgentStatus) (c : Z) :
  indexed_by_position (stage_list st) ->
  current_stage_index st = Some (Num c) ->
  0 <= c < Z.of_nat (length (stage_list st)) ->
  process_complete st = false ->
  (exists cs,
     getCurrentStage (Some st) = Some cs /\ index cs = Num c /\
     isStageCompleted (Some st) (index cs) = false /\
     Page.stage_status st cs
     = (if flag (is_skipped cs) then lit "SKIPPED" else lit "IN PROGRESS")) /\
  inProgress (Some st) = true /\
  completedStages st = Z.to_nat c /\
  calculateProgress (Some st)
  = percentage (Z.to_nat c) (length (stage_list st)).
Proof.
  intros Hpos Hc Hrange Hp.
  assert (Hne : c <> -1) by lia.
  assert (Hdone : forall idx, isStageCompleted (Some st) idx = jlt idx (Num c))
    by (intros idx; now apply isStageCompleted_active).
  destruct (nth_error (stage_list st) (Z.to_nat c)) as [cs|] eqn:Hnth.
  2:{ apply nth_error_None in Hnth. lia. }
  assert (Hidx : index cs = Num c).
  { rewrite (Hpos _ _ Hnth). f_equal. lia. }
  assert (Hget : array_get (stage_list st) (Num c) = Some cs).
  { rewrite <- (Z2Nat.id c) by lia. now apply array_get_position. }
  assert (Hself : isStageCompleted (Some st) (index cs) = false).
  { rewrite Hdone, Hidx. cbn [jlt]. apply Z.ltb_irrefl. }
  assert (Hcount : completedStages st = Z.to_nat c).
  { unfold completedStages.
    rewrite (filter_ext _ _ (fun s => Hdone (index s))).
    rewrite count_below by (auto; lia). lia. }
  repeat split.
  - exists cs. repeat split.
    + unfold getCurrentStage. now rewrite Hc.
    + exact Hidx.
    + exact Hself.
    + unfold Page.stage_status. now rewrite Hself.
  - unfold inProgress. now rewrite Hc, Hget, Hself.
  - exact Hcount.
  - unfold calculateProgress, percentage. fold (completedStages st).
    now rewrite Hcount.
Qed.

Lemma X5_running_stage_witness :
  inProgress (Some running_record) = true /\
  completedStages running_record = 1%nat.
Proof.
  destruct (X5_running_stage running_record 1) as (_ & Hrun & Hcount & _).
  - intros i s H. destruct i as [|[|i]]; simpl in H.
    + now inversion H.
    + now inversion H.
    + destruct i; discriminate.
  - reflexivity.
  - simpl. lia.
  - reflexivity.
  - split; [exact Hrun | exact Hcount].
Defined.

(** *** The [process] text *)

Lemma search_process_text (a b : Z) :
  0 <= a -> 0 <= b ->
  search re_process (process_text a b) = Some ([digits a; digits b], []).
Proof.
  intros Ha Hb. unfold process_text.
  destruct (digits_spec a Ha) as (Hnea & Halla & _).
  destruct (digits_spec b Hb) as (Hneb & Hallb & _).
  rewrite search_unfold.
  change re_process with
    [It true Plus is_digit; It false One (N.eqb 47); It true Plus is_digit].
  rewrite match_here_plus.
  destruct (digits a) as [|d da]; [congruence|].
  simpl app. cbv beta iota.
  pose proof (Forall_inv Halla) as Hd. simpl in Hd. rewrite Hd.
  change (lit "/") with [47%N]. simpl app.
  erewrite many_greedy; [reflexivity | now apply Forall_inv_tail in Halla
                        | reflexivity |].
  unfold conclude. rewrite match_here_one. rewrite N.eqb_refl.
  unfold conclude. rewrite match_here_plus.
  destruct (digits b) as [|e db]; [congruence|].
  pose proof (Forall_inv Hallb) as He. simpl in He. rewrite He.
  assert (M : many true is_digit (match_here []) [e] db
              = Some ([rev (rev db ++ [e])], [])).
  { rewrite <- (app_nil_r db) at 1.
    apply many_greedy;
      [now apply Forall_inv_tail in Hallb | exact I | reflexivity]. }
  rewrite M. rewrite !rev_app_distr, !rev_involutive. reflexivity.
Qed.

(** The two numbers are compared as the doubles that [parseInt] makes of
    them. *)
Lemma process_complete_text (st : AgentStatus) (a b : Z) :
  process st = Some (process_text a b) -> 0 <= a -> 0 <= b ->
  process_complete st
  = (jge (round64 a) (round64 b) && jgt (round64 a) (Num 0))%bool.
Proof.
  intros Hp Ha Hb. unfold process_complete.
  rewrite Hp, search_process_text by assumption.
  destruct (digits_spec a Ha) as (Hnea & Halla & Hva).
  destruct (digits_spec b Hb) as (Hneb & Hallb & Hvb).
  rewrite !parseInt_digits by auto. now rewrite Hva, Hvb.
Qed.

(** Rounding keeps [a >= b] and [a > 0]. *)
Lemma process_complete_ge (st : AgentStatus) (a b : Z) :
  process st = Some (process_text a b) -> 0 <= b <= a -> 0 < a ->
  process_complete st = true.
Proof.
  intros Hp Hab Ha.
  rewrite (process_complete_text st a b Hp) by lia.
  unfold jge. rewrite (round64_mono b a) by lia.
  now rewrite round64_pos.
Qed.

Lemma process_complete_lt (st : AgentStatus) (a b : Z) :
  process st = Some (process_text a b) -> 0 <= a -> 0 <= b ->
  (a < b /\ b <= 2 ^ 53) \/ a = 0 ->
  process_complete st = false.
Proof.
  intros Hp Ha Hb Hless.
  rewrite (process_complete_text st a b Hp) by lia.
  destruct Hless as [[Hless Hfit] | ->].
  - rewrite !round64_exact by lia.
    unfold jge, jle. cbn [jlt jeq].
    replace (b <? a) with false by (symmetry; apply Z.ltb_ge; lia).
    replace (b =? a) with false by (symmetry; apply Z.eqb_neq; lia).
    reflexivity.
  - change (round64 0) with (Num 0). apply andb_false_r.
Qed.

(** X6: the [process] text [a/b] decides how completion is read. When
    [a >= b] and [a > 0], every stage is judged by its own flags, whatever
    the current stage index; when [a < b] (both numbers up to 2^53, where
    [parseInt] is exact) or [a = 0], with a current stage index [c] (not
    -1), a stage is completed exactly when its index is below [c]. *)
Theorem X6_process_text_decides (st : AgentStatus) (a b : Z) :
  process st = Some (process_text a b) -> 0 <= a -> 0 <= b ->
  (b <= a -> 0 < a ->
   forall idx, isStageCompleted (Some st) idx = reached_or_skipped_at st idx) /\
  ((a < b /\ b <= 2 ^ 53) \/ a = 0 ->
   forall c i, current_stage_index st = Some (Num c) -> c <> -1 ->
               isStageCompleted (Some st) (Num i) = (i <? c)).
Proof.
  intros Hp Ha Hb. split.
  - intros Hle Hpos idx. unfold isStageCompleted.
    now rewrite (process_complete_ge st a b Hp) by lia.
  - intros Hless c i Hc Hne.
    rewrite (isStageCompleted_active st c (Num i) Hc Hne); [reflexivity|].
    now apply (process_complete_lt st a b).
Qed.

Lemma X6_process_text_decides_witness :
  isStageCompleted (Some running_record) (Num 0) = true /\
  isStageCompleted (Some running_record) (Num 1) = false.
Proof.
  destruct (X6_process_text_decides running_record 1 2 eq_refl
              ltac:(lia) ltac:(lia)) as [_ H].
  assert (Hless : (1 < 2 /\ 2 <= 2 ^ 53) \/ 1 = 0)
    by (left; split; [lia | discriminate]).
  split.
  - exact (H Hless 1 0 eq_refl ltac:(discriminate)).
  - exact (H Hless 1 1 eq_refl ltac:(discriminate)).
Defined.

(** Beyond 2^53 the order of the two numbers can be lost: this text has
    [a < b], and its two numbers are the same double. *)
Lemma process_beyond_2_53 :
  jge (parseInt (lit "9007199254740992") (Some 10))
    (parseInt (lit "9007199254740993") (Some 10)) = true.
Proof. vm_compute. reflexivity. Qed.

(** ** The cards of the stage list *)

Lemma badge_In (cond : bool) (text x : jsstring) :
  In x (Page.badge cond text) <-> cond = true /\ x = text.
Proof.
  unfold Page.badge. destruct cond; simpl.
  - split; [intros [<- | []]; auto | intros [_ ->]; auto].
  - split; [intros [] | intros [H _]; discriminate].
Qed.

Lemma includes_app_r (a p b : jsstring) : includes (a ++ p ++ b) p = true.
Proof.
  induction a as [|c a IH].
  - simpl app. assert (H : startsWith (p ++ b) p = true).
    { induction p as [|x p IHp]; [now destruct b|].
      simpl. now rewrite N.eqb_refl. }
    destruct (p ++ b); simpl in *; now rewrite H.
  - simpl app. simpl includes. rewrite IH. apply orb_true_r.
Qed.

(** The text of the failure badge says [failure]. *)
Lemma failures_In (stage : Stage) (x : jsstring) :
  In x (Page.failures stage) -> includes x (lit " failure") = true.
Proof.
  unfold Page.failures. destruct (fail_count stage) as [n|]; [|intros []].
  intros H. apply badge_In in H. destruct H as [_ ->].
  apply includes_app_r.
Qed.

(** When each of the four state badges is on a card. *)
Lemma shows_state (status : AgentStatus) (stage : Stage) :
  (shows status stage "Completed" <->
   (Page.isCompleted status stage && negb (flag (is_skipped stage)))%bool
   = true) /\
  (shows status stage "In Progress" <->
   Page.isInProgress status stage = true) /\
  (shows status stage "Skipped" <-> flag (is_skipped stage) = true) /\
  (shows status stage "Pending" <->
   (negb (flag (reached stage)) && negb (flag (is_skipped stage)))%bool
   = true).
Proof.
  unfold shows, Page.badges.
  repeat split; intros H;
    repeat (rewrite !in_app_iff in H || rewrite !in_app_iff);
    repeat rewrite badge_In in *;
    try (destruct H as [[H _] | [[_ H] | [[_ H] | [[_ H] | [[_ H] | H]]]]];
         first [ exact H | discriminate H
               | apply failures_In in H; discriminate H ]);
    try (destruct H as [[_ H] | [[H _] | [[_ H] | [[_ H] | [[_ H] | H]]]]];
         first [ exact H | discriminate H
               | apply failures_In in H; discriminate H ]);
    try (destruct H as [[_ H] | [[_ H] | [[H _] | [[_ H] | [[_ H] | H]]]]];
         first [ exact H | discriminate H
               | apply failures_In in H; discriminate H ]);
    try (destruct H as [[_ H] | [[_ H] | [[_ H] | [[H _] | [[_ H] | H]]]]];
         first [ exact H | discriminate H
               | apply failures_In in H; discriminate H ]);
    auto 10.
Qed.

(** X7: every card of the stage list carries at least one of the four
    state badges, and [Completed] is never shown together with
    [In Progress] or [Skipped], nor [Pending] together with [In Progress]
    or [Skipped]. ([Completed] and [Pending] are shown together on a stage
    that is counted as completed without being reached or skipped.) *)
Theorem X7_state_badges (status : AgentStatus) (stage : Stage) :
  (shows status stage "Completed" \/ shows status stage "In Progress" \/
   shows status stage "Skipped" \/ shows status stage "Pending") /\
  ~ (shows status stage "Completed" /\ shows status stage "In Progress") /\
  ~ (shows status stage "Completed" /\ shows status stage "Skipped") /\
  ~ (shows status stage "Pending" /\ shows status stage "In Progress") /\
  ~ (shows status stage "Pending" /\ shows status stage "Skipped") /\
  (shows status stage "Completed" /\ shows status stage "Pending" <->
   Page.isCompleted status stage = true /\ flag (reached stage) = false /\
   flag (is_skipped stage) = false).
Proof.
  destruct (shows_state status stage) as (Hc & Hi & Hs & Hp).
  rewrite Hc, Hi, Hs, Hp. unfold Page.isInProgress.
  destruct (Page.isCompleted status stage), (flag (reached stage)),
    (flag (is_skipped stage)); cbn [andb negb];
    intuition congruence.
Qed.

(** X8: the colour of a card follows its badges: yellow exactly when
    [Skipped] is shown, green exactly when [Completed] is, blue exactly
    when [In Progress] is shown without [Skipped]; every other card
    (orange or slate) shows [Pending]. *)
Theorem X8_card_colour (status : AgentStatus) (stage : Stage) :
  (Page.card_class status stage = lit "bg-yellow-50 border-l-yellow-500" <->
   shows status stage "Skipped") /\
  (Page.card_class status stage = lit "bg-green-50 border-l-green-500" <->
   shows status stage "Completed") /\
  (Page.card_class status stage = lit "bg-blue-50 border-l-blue-500" <->
   shows status stage "In Progress" /\ ~ shows status stage "Skipped") /\
  (Page.card_class status stage = lit "bg-orange-50 border-l-orange-500" \/
   Page.card_class status stage = lit "bg-slate-50 border-l-slate-300" ->
   shows status stage "Pending").
Proof.
  destruct (shows_state status stage) as (Hc & Hi & Hs & Hp).
  rewrite Hc, Hi, Hs, Hp. unfold Page.card_class, Page.isInProgress.
  destruct (Page.isCompleted status stage), (flag (reached stage)),
    (flag (is_skipped stage)), (flag (needs_human_check stage));
    cbn [andb negb];
    intuition (try discriminate; try congruence).
Qed.

(** ** The card of the current stage *)

(** X9: the status line and the clock of the current stage agree. The
    line reads [IN PROGRESS] exactly when the one-second timer runs and
    the stage is not skipped; and when it reads something else, the time
    shown is the stored [time_cost] (or [0s]), whatever the clock says. *)
Theorem X9_status_and_clock (status : AgentStatus) (cs : Stage)
    (lastFetchTime : option Z) (now : Z) :
  Page.currentStage status = Some cs ->
  (Page.stage_status status cs = lit "IN PROGRESS" <->
   inProgress (Some status) = true /\ flag (is_skipped cs) = false) /\
  (Page.stage_status status cs <> lit "IN PROGRESS" ->
   getCurrentStageElapsedTime (Some status) lastFetchTime now
   = time_cost_or_0s cs).
Proof.
  intros Hcur. unfold Page.currentStage in Hcur.
  destruct (current_stage_index status) as [csi|] eqn:Hcsi; [|discriminate].
  assert (Hrun : inProgress (Some status)
                 = negb (isStageCompleted (Some status) (index cs)))
    by (unfold inProgress; now rewrite Hcsi, Hcur).
  assert (Hget : getCurrentStage (Some status) = Some cs)
    by (unfold getCurrentStage; now rewrite Hcsi).
  assert (Hflag : is_true (is_skipped cs) = flag (is_skipped cs))
    by (destruct (is_skipped cs) as [[|]|]; reflexivity).
  rewrite Hrun. unfold Page.stage_status, getCurrentStageElapsedTime.
  rewrite Hget, Hflag.
  destruct (flag (is_skipped cs)),
    (isStageCompleted (Some status) (index cs)); cbn [negb orb];
    intuition (try discriminate; try congruence).
Qed.

Lemma X9_status_and_clock_witness :
  inProgress (Some running_record) = true /\ flag (Some false) = false.
Proof.
  exact (proj1 (proj1 (X9_status_and_clock running_record
                         (mkStage (Num 1) (Some (lit "implement"))
                            (Some true) (Some (Num 0)) (Some false)
                            (Some (lit "10s")) (Some false))
                         None 0 eq_refl)) eq_refl).
Defined.

(** ** Invariants of the loop of the parser *)

(** A property of the index and the local variables that every run of the
    body keeps holds when the loop ends. *)
Lemma loop_invariant (P : nat -> pstate -> Prop) (lines : list jsstring) :
  (forall i st i' st',
     (i < length lines)%nat -> task_is_object st -> P i st ->
     body lines i st = Returned (i', st') -> P (S i') st') ->
  forall fuel i st,
  (i <= length lines)%nat -> (length lines - i <= fuel)%nat ->
  task_is_object st -> P i st ->
  exists st',
    loop fuel lines i st = Returned st' /\ task_is_object st' /\
    P (length lines) st'.
Proof.
  intros Hstep. induction fuel as [|fuel IH]; intros i st Hi Hfuel Hobj HP.
  - assert (i = length lines) by lia. subst i.
    exists st. cbn [loop]. rewrite Nat.leb_refl. auto.
  - cbn [loop]. destruct (Nat.leb (length lines) i) eqn:E.
    + apply Nat.leb_le in E. assert (i = length lines) by lia. subst i.
      exists st. auto.
    + apply Nat.leb_gt in E.
      destruct (body_returns lines i st E Hobj)
        as (i' & st1 & Hbody & Hi' & Hobj1).
      rewrite Hbody. cbn [bind].
      apply IH; [lia | lia | exact Hobj1 |].
      now apply (Hstep i st i' st1).
Qed.

Lemma initial_task_is_object : task_is_object initial_state.
Proof. exists initial_task. reflexivity. Qed.

(** The same for the whole parse. *)
Lemma parse_invariant (P : nat -> pstate -> Prop) (lines : list jsstring) :
  (forall i st i' st',
     (i < length lines)%nat -> task_is_object st -> P i st ->
     body lines i st = Returned (i', st') -> P (S i') st') ->
  P 0%nat initial_state ->
  exists st,
    parseLines lines = Returned (after_loop st) /\ task_is_object st /\
    P (length lines) st.
Proof.
  intros Hstep H0.
  destruct (loop_invariant P lines Hstep (length lines) 0 initial_state)
    as (st & E & Hobj & HP);
    [lia | lia | apply initial_task_is_object | exact H0 |].
  exists st. unfold parseLines. rewrite E. auto.
Qed.

(** ** Texts without a key *)

Lemma split_one_line (s : jsstring) : one_line s -> split 10 s = [s].
Proof.
  induction 1 as [|c s Hc _ IH]; [reflexivity|].
  simpl. replace (N.eqb c 10) with false
    by (symmetry; now apply N.eqb_neq).
  now rewrite IH.
Qed.

(** A text none of whose lines is taken by a top-level key leaves the
    scanner where it starts. *)
Lemma no_key_no_status (statusText : jsstring) :
  Forall (fun l => top_level_key (trim l) = false) (split 10 statusText) ->
  parseStatusResponse statusText = Returned empty_record.
Proof.
  intros Hall. unfold parseStatusResponse.
  destruct (parse_invariant (fun _ st => st = initial_state)
              (split 10 statusText)) as (st & E & _ & ->).
  - intros i st i' st' Hi _ -> Hbody.
    rewrite unmatched_line_skipped in Hbody.
    + now inversion Hbody.
    + reflexivity.
    + rewrite Forall_forall in Hall. apply Hall. now apply nth_In.
  - reflexivity.
  - exact E.
Qed.

(** X10: a text none of whose lines is taken by a top-level key
    ([mission:], [process:], [current_stage_index:], [current_stage_name:],
    [last_check_result:], [stage_list:], [current_task:], after trimming)
    parses to the record that the parser starts from: nothing is read
    outside a block, whatever the lines look like. *)
Theorem X10_no_key_no_status (statusText : jsstring) :
  Forall (fun l => top_level_key (trim l) = false) (split 10 statusText) ->
  parseStatusResponse statusText = Returned empty_record.
Proof. apply no_key_no_status. Qed.

Lemma X10_no_key_no_status_witness :
  parseStatusResponse (lit "error: bad arg") = Returned empty_record.
Proof.
  apply (X10_no_key_no_status (lit "error: bad arg")).
  repeat constructor.
Defined.

(** ** [last_check_result] *)

Lemma startsWith_app_l (a q rest : jsstring) :
  startsWith a q = true -> startsWith (a ++ rest) q = true.
Proof.
  revert q. induction a as [|x a IH]; intros q Hq.
  - destruct q; [now destruct rest | discriminate].
  - destruct q as [|y q]; [reflexivity|].
    simpl in *. apply andb_true_iff in Hq. destruct Hq as [Hy Hq].
    rewrite Hy. simpl. now apply IH.
Qed.

Lemma includes_cons (c : N) (a q : jsstring) :
  includes (c :: a) q = (startsWith (c :: a) q || includes a q)%bool.
Proof. reflexivity. Qed.

Lemma includes_app_l (a q rest : jsstring) :
  includes a q = true -> includes (a ++ rest) q = true.
Proof.
  induction a as [|c a IH]; intros Hq.
  - simpl in Hq. rewrite orb_false_r in Hq.
    destruct q; [|discriminate]. now destruct rest.
  - rewrite includes_cons in Hq. apply orb_true_iff in Hq.
    change ((c :: a) ++ rest) with (c :: a ++ rest). rewrite includes_cons.
    destruct Hq as [Hq | Hq].
    + change (c :: a ++ rest) with ((c :: a) ++ rest).
      now rewrite (startsWith_app_l _ _ _ Hq).
    + rewrite (IH Hq). apply orb_true_r.
Qed.

Lemma startsWith_includes (t p q : jsstring) :
  startsWith t p = true -> includes p q = true -> includes t q = true.
Proof.
  intros Hp Hq. destruct (startsWith_app _ _ Hp) as [rest ->].
  now apply includes_app_l.
Qed.

(** On a [last_check_result:] line that is not indented the helper stops
    at once: the line itself is the "new top-level property" that it looks
    for. *)
Lemma parseLastCheckResult_key_line (line : jsstring) (rest : list jsstring) :
  is_check_result_line line = true ->
  test (match_anchored re_indent line) = false ->
  parseLastCheckResult (line :: rest) = Returned empty_check_result.
Proof.
  unfold is_check_result_line. intros Hkey Hind.
  unfold parseLastCheckResult. cbn [lcr_loop].
  assert (Hne : nonempty (trim line) = true)
    by (apply (starts_nonempty _ (lit "last_check_result:"));
        [discriminate | exact Hkey]).
  assert (Hline : nonempty line = true).
  { destruct line; [discriminate Hne | reflexivity]. }
  assert (Hdash : startsWith (trim line) (lit "- ") = false).
  { destruct (startsWith_app _ _ Hkey) as [r ->]. reflexivity. }
  assert (Hcolon : includes (trim line) (lit ":") = true)
    by (apply (startsWith_includes _ _ _ Hkey); reflexivity).
  rewrite Hne, Hline, Hind, Hdash, Hcolon. reflexivity.
Qed.

(** The body of the loop on a [last_check_result:] line that is not
    indented. *)
Lemma check_result_line (lines : list jsstring) (i : nat) (st : pstate) :
  (i < length lines)%nat ->
  is_check_result_line (nth i lines []) = true ->
  test (match_anchored re_indent (nth i lines [])) = false ->
  body lines i st
  = Returned
      (skip_block (skipn (S i) lines) (length lines) (S i) i,
       set_section None
         (set_result (set_last_check_result empty_check_result (result st))
            st)).
Proof.
  intros Hi Hkey Hind.
  unfold body. rewrite (skipn_nth lines i Hi).
  rewrite (parseLastCheckResult_key_line _ _ Hkey Hind).
  unfold is_check_result_line in Hkey.
  destruct (startsWith_app _ _ Hkey) as [r Ht].
  set (trimmedLine := trim (nth i lines [])) in *.
  assert (E1 : nonempty trimmedLine = true) by (now rewrite Ht).
  assert (E2 : startsWith trimmedLine (lit "mission:") = false)
    by (now rewrite Ht).
  assert (E3 : startsWith trimmedLine (lit "process:") = false)
    by (now rewrite Ht).
  assert (E4 : startsWith trimmedLine (lit "current_stage_index:") = false)
    by (now rewrite Ht).
  assert (E5 : startsWith trimmedLine (lit "current_stage_name:") = false)
    by (now rewrite Ht).
  rewrite E1, E2, E3, E4, E5, Hkey. reflexivity.
Qed.

(** Any other line leaves the index and [last_check_result] as they are. *)
Lemma other_line_keeps_check_result (lines : list jsstring) (i i' : nat)
    (st st' : pstate) :
  is_check_result_line (nth i lines []) = false ->
  body lines i st = Returned (i', st') ->
  i' = i /\ last_check_result (result st') = last_check_result (result st).
Proof.
  unfold is_check_result_line. intros Hkey. unfold body. rewrite Hkey.
  assert (Hs : forall l t s,
             last_check_result (result (stage_list_line l t s))
             = last_check_result (result s)).
  { intros l t s. unfold stage_list_line.
    destruct (test (match_anchored re_stage_start l)).
    - destruct (currentStage s); destruct (search re_index l) as [[[|d ?] ?]|];
        reflexivity.
    - destruct (currentStage s); [|reflexivity].
      destruct (match_anchored re_property l) as [[[|p [|v ?]] ?]|];
        try reflexivity;
        destruct (test (match_anchored re_key t)); reflexivity. }
  assert (Hu : forall f r,
             last_check_result (update_task f r) = last_check_result r).
  { intros f r. unfold update_task. now destruct (current_task r). }
  assert (Hc : forall l t s,
             last_check_result (result (current_task_line l t s))
             = last_check_result (result s)).
  { intros l t s. unfold current_task_line.
    case_conditions; try reflexivity; cbn [result set_result]; try apply Hu.
    destruct (indexOf _ _); cbn [result set_result]; apply Hu. }
  case_conditions; intros H; inversion H; subst; split;
    try reflexivity; cbn [result set_result set_section];
    try apply Hs; apply Hc.
Qed.

Lemma existsb_firstn_S (f : jsstring -> bool) (lines : list jsstring) (i : nat) :
  (i < length lines)%nat ->
  existsb f (firstn (S i) lines)
  = (existsb f (firstn i lines) || f (nth i lines []))%bool.
Proof.
  revert i. induction lines as [|l lines IH]; intros i Hi;
    [simpl in Hi; lia|].
  destruct i as [|i].
  - simpl. now rewrite orb_false_r.
  - change (firstn (S (S i)) (l :: lines)) with (l :: firstn (S i) lines).
    change (firstn (S i) (l :: lines)) with (l :: firstn i lines).
    change (nth (S i) (l :: lines) []) with (nth i lines []).
    cbn [existsb]. rewrite IH by (simpl in Hi; lia).
    now rewrite orb_assoc.
Qed.

Lemma existsb_firstn_le (f : jsstring -> bool) (lines : list jsstring)
    (i j : nat) :
  (i <= j)%nat -> existsb f (firstn i lines) = true ->
  existsb f (firstn j lines) = true.
Proof.
  intros Hle H. apply existsb_exists in H. destruct H as (x & Hin & Hx).
  apply existsb_exists. exists x. split; [|exact Hx].
  rewrite <- (firstn_skipn i (firstn j lines)).
  rewrite firstn_firstn, Nat.min_l by exact Hle.
  apply in_or_app. now left.
Qed.

(** X11: in a text whose [last_check_result:] lines are not indented,
    the parsed [last_check_result] is the empty object whenever there is
    such a line, and [undefined] otherwise: the helper is handed the key
    line first and stops on it, so nothing of the block under the key is
    ever read. *)
Theorem X11_check_result_is_empty (statusText : jsstring) :
  (forall l, In l (split 10 statusText) ->
             is_check_result_line l = true ->
             test (match_anchored re_indent l) = false) ->
  exists r,
    parseStatusResponse statusText = Returned r /\
    last_check_result r
    = if existsb is_check_result_line (split 10 statusText)
      then Some empty_check_result else None.
Proof.
  intros Hflat. unfold parseStatusResponse.
  set (lines := split 10 statusText) in *.
  destruct (parse_invariant
              (fun i st =>
                 last_check_result (result st)
                 = if existsb is_check_result_line (firstn i lines)
                   then Some empty_check_result else None) lines)
    as (st & E & _ & HP).
  - intros i st i' st' Hi Hobj HP Hbody.
    destruct (is_check_result_line (nth i lines [])) eqn:Hkey.
    + rewrite check_result_line in Hbody;
        [| exact Hi | exact Hkey | apply Hflat; [now apply nth_In | exact Hkey]].
      injection Hbody as Hi' Hst'. subst i' st'.
      assert (Hle : (i <= skip_block (skipn (S i) lines) (length lines) (S i) i)%nat).
      { apply skip_block_bounds; [lia|]. rewrite length_skipn. lia. }
      rewrite (existsb_firstn_le _ _ (S i)); [reflexivity | apply le_n_S; exact Hle |].
      rewrite existsb_firstn_S by exact Hi. rewrite Hkey. apply orb_true_r.
    + destruct (other_line_keeps_check_result _ _ _ _ _ Hkey Hbody)
        as [-> Hsame].
      rewrite Hsame, HP, existsb_firstn_S by exact Hi.
      now rewrite Hkey, orb_false_r.
  - reflexivity.
  - exists (after_loop st). split; [exact E|].
    rewrite firstn_all in HP. rewrite <- HP.
    unfold after_loop. now destruct (currentStage st).
Qed.

Lemma X11_check_result_is_empty_witness :
  exists r,
    parseStatusResponse checked_status = Returned r /\
    last_check_result r = Some empty_check_result.
Proof.
  apply (X11_check_result_is_empty checked_status).
  intros l Hin Hkey. vm_compute in Hin.
  repeat (destruct Hin as [<- | Hin]; [try discriminate Hkey; reflexivity|]).
  destruct Hin.
Defined.

(** ** The parser as a scan of the lines *)

(** On a line that is not a [last_check_result:] line the body of the loop
    looks at that line only and leaves the index alone. *)
Lemma body_line_step (lines : list jsstring) (i : nat) (st : pstate) :
  is_check_result_line (nth i lines []) = false ->
  body lines i st = Returned (i, line_step (nth i lines []) st).
Proof.
  unfold is_check_result_line, line_step, body. cbn [nth]. intros Hkey.
  rewrite Hkey. case_conditions; reflexivity.
Qed.

Lemma loop_scan (lines : list jsstring) :
  no_check_result_line lines ->
  forall fuel i st,
  (i <= length lines)%nat -> (length lines - i <= fuel)%nat ->
  loop fuel lines i st = Returned (scan (skipn i lines) st).
Proof.
  intros Hno fuel. induction fuel as [|fuel IH]; intros i st Hi Hfuel.
  - assert (i = length lines) by lia. subst i.
    cbn [loop]. rewrite Nat.leb_refl, skipn_all. reflexivity.
  - cbn [loop]. destruct (Nat.leb (length lines) i) eqn:E.
    + apply Nat.leb_le in E. assert (i = length lines) by lia. subst i.
      now rewrite skipn_all.
    + apply Nat.leb_gt in E.
      assert (Hkey : is_check_result_line (nth i lines []) = false).
      { unfold no_check_result_line in Hno. rewrite Forall_forall in Hno.
        apply Hno. now apply nth_In. }
      rewrite (body_line_step lines i st Hkey). cbn [bind].
      rewrite IH by lia. rewrite (skipn_nth lines i E). reflexivity.
Qed.

Lemma parseLines_scan (lines : list jsstring) :
  no_check_result_line lines ->
  parseLines lines = Returned (after_loop (scan lines initial_state)).
Proof.
  intros Hno. unfold parseLines.
  rewrite (loop_scan lines Hno) by lia. reflexivity.
Qed.

Lemma split_app_sep (a b : jsstring) :
  split 10 (a ++ 10%N :: b) = split 10 a ++ split 10 b.
Proof.
  induction a as [|c a IH]; [reflexivity|].
  simpl app. cbn [split]. rewrite IH.
  destruct (N.eqb c 10); [reflexivity|].
  destruct (split 10 a) as [|l ls] eqn:E; [|reflexivity].
  destruct a; simpl in E; [discriminate|].
  destruct (N.eqb n 10); [discriminate|].
  destruct (split 10 a); discriminate.
Qed.

Lemma scan_app (a b : list jsstring) (st : pstate) :
  scan (a ++ b) st = scan b (scan a st).
Proof. unfold scan. apply fold_left_app. Qed.

(** X12: on a text without a [last_check_result:] line the parser is a
    scan of the lines from left to right: each line changes the local
    variables by itself, and a text [a], a line feed and a text [b] is
    parsed by scanning [b] from the variables that [a] leaves. (A
    [last_check_result:] line is the one place where the loop reads ahead
    and moves its index.) *)
Theorem X12_parse_is_a_scan (a b : jsstring) :
  no_check_result_line (split 10 a) ->
  no_check_result_line (split 10 b) ->
  parseStatusResponse a
  = Returned (after_loop (scan (split 10 a) initial_state)) /\
  parseStatusResponse (a ++ 10%N :: b)
  = Returned
      (after_loop (scan (split 10 b) (scan (split 10 a) initial_state))).
Proof.
  intros Ha Hb. unfold parseStatusResponse. split.
  - now apply parseLines_scan.
  - rewrite split_app_sep, parseLines_scan.
    + now rewrite scan_app.
    + apply Forall_app. now split.
Qed.

Lemma X12_parse_is_a_scan_witness :
  parseStatusResponse (lit "mission: m" ++ 10%N :: lit "process: 0/1")
  = Returned
      (after_loop
         (scan [lit "process: 0/1"] (scan [lit "mission: m"] initial_state))).
Proof.
  apply (proj2 (X12_parse_is_a_scan (lit "mission: m") (lit "process: 0/1")
                  ltac:(repeat constructor) ltac:(repeat constructor))).
Defined.

(** ** The lines of the layout *)

(** *** Values and their trimming *)

Lemma trimEnd_solid (a v : jsstring) :
  stops is_space (rev v) -> v <> [] -> trimEnd (a ++ v) = a ++ v.
Proof.
  intros Hend Hne. unfold trimEnd. rewrite rev_app_distr.
  destruct (rev v) as [|c w] eqn:E.
  - apply (f_equal (@rev N)) in E. rewrite rev_involutive in E.
    simpl in E. congruence.
  - simpl in Hend. simpl app. cbn [drop_while]. rewrite Hend.
    change (c :: w ++ rev a) with ((c :: w) ++ rev a).
    rewrite <- E, <- rev_app_distr. apply rev_involutive.
Qed.

Lemma trimStart_solid (v : jsstring) : stops is_space v -> trimStart v = v.
Proof.
  destruct v as [|c v]; [reflexivity|]. intros H. now apply trimStart_keep.
Qed.

Lemma trim_value (v : jsstring) : value_text v -> trim v = v.
Proof.
  intros (_ & Hs & He). unfold trim. rewrite trimStart_solid by exact Hs.
  destruct v as [|c v]; [reflexivity|].
  apply (trimEnd_solid [] (c :: v)); [exact He | discriminate].
Qed.

(** What is left of [: value] at the end of a trimmed line, and its
    trim. *)
Lemma trimEnd_space_value (v : jsstring) :
  value_text v ->
  trimEnd (32%N :: v) = match v with [] => [] | _ => 32%N :: v end.
Proof.
  intros (_ & _ & He). destruct v as [|c v]; [reflexivity|].
  apply (trimEnd_solid [32%N] (c :: v)); [exact He | discriminate].
Qed.

Lemma trim_space_value (v : jsstring) :
  value_text v -> trim (trimEnd (32%N :: v)) = v.
Proof.
  intros Hv. rewrite trimEnd_space_value by exact Hv.
  destruct v as [|c v]; [reflexivity|].
  unfold trim. change (trimStart (32%N :: c :: v)) with (trimStart (c :: v)).
  fold (trim (c :: v)). now apply trim_value.
Qed.

Lemma value_one_line (v : jsstring) : value_text v -> one_line v.
Proof.
  intros (Hd & _). eapply Forall_impl; [|exact Hd].
  intros c Hc ->. discriminate Hc.
Qed.

Lemma digits_value (n : Z) : 0 <= n -> value_text (digits n).
Proof.
  intros Hn. destruct (digits_spec n Hn) as (Hne & Hall & _).
  assert (Hsp : forall c, is_digit c = true -> is_space c = false)
    by apply digit_not_space.
  repeat split.
  - eapply Forall_impl; [|exact Hall]. intros c Hc. simpl in Hc.
    apply is_digit_range in Hc. unfold is_dot, is_line_terminator.
    apply negb_true_iff. repeat (apply orb_false_iff; split);
      apply N.eqb_neq; lia.
  - destruct (digits n) as [|c ds]; [exact I|].
    apply Hsp. exact (Forall_inv Hall).
  - apply Forall_rev in Hall.
    destruct (rev (digits n)) as [|c ds]; [exact I|].
    apply Hsp. exact (Forall_inv Hall).
Qed.

Lemma bool_text_value (b : bool) : value_text (bool_text b).
Proof. destruct b; repeat split; repeat constructor. Qed.

(** *** A top-level key with its value *)

(** Conditions that compute are decided. *)
Ltac decide_conditions :=
  repeat match goal with
         | |- context [if ?c then _ else _] =>
             let b := eval hnf in c in
             lazymatch b with
             | true => change c with true
             | false => change c with false
             end;
             cbv iota
         end.

Lemma startsWith_prefix (p x : jsstring) : startsWith (p ++ x) p = true.
Proof.
  induction p as [|c p IH]; [now destruct x|].
  simpl. now rewrite N.eqb_refl.
Qed.

Lemma step_mission (v : jsstring) m sl p ct csi nm lcr sec sub cur :
  value_text v ->
  line_step (lit "mission: " ++ v)
    (mkP (mkStatus m sl p ct csi nm lcr) sec sub cur)
  = mkP (mkStatus (Some v) sl p ct csi nm lcr) None sub cur.
Proof.
  intros Hv. unfold line_step, body. cbn [nth].
  assert (Ht : trim (lit "mission: " ++ v)
               = lit "mission:" ++ trimEnd (32%N :: v)).
  { apply (trim_keyed_line [] (lit "ission") (32%N :: v) 109%N);
      [constructor | reflexivity]. }
  rewrite Ht. pose proof (trim_space_value v Hv) as HX.
  set (X := trimEnd (32%N :: v)) in *. clearbody X.
  decide_conditions. rewrite startsWith_prefix.
  change (substring_from 8 (lit "mission:" ++ X)) with X.
  rewrite HX. reflexivity.
Qed.

Lemma step_process (v : jsstring) m sl p ct csi nm lcr sec sub cur :
  value_text v ->
  line_step (lit "process: " ++ v)
    (mkP (mkStatus m sl p ct csi nm lcr) sec sub cur)
  = mkP (mkStatus m sl (Some v) ct csi nm lcr) None sub cur.
Proof.
  intros Hv. unfold line_step, body. cbn [nth].
  assert (Ht : trim (lit "process: " ++ v)
               = lit "process:" ++ trimEnd (32%N :: v)).
  { apply (trim_keyed_line [] (lit "rocess") (32%N :: v) 112%N);
      [constructor | reflexivity]. }
  rewrite Ht. pose proof (trim_space_value v Hv) as HX.
  set (X := trimEnd (32%N :: v)) in *. clearbody X.
  decide_conditions. rewrite startsWith_prefix.
  change (substring_from 8 (lit "process:" ++ X)) with X.
  rewrite HX. reflexivity.
Qed.

Lemma step_current_stage_name (v : jsstring) m sl p ct csi nm lcr sec sub cur :
  value_text v ->
  line_step (lit "current_stage_name: " ++ v)
    (mkP (mkStatus m sl p ct csi nm lcr) sec sub cur)
  = mkP (mkStatus m sl p ct csi (Some v) lcr) None sub cur.
Proof.
  intros Hv. unfold line_step, body. cbn [nth].
  assert (Ht : trim (lit "current_stage_name: " ++ v)
               = lit "current_stage_name:" ++ trimEnd (32%N :: v)).
  { apply (trim_keyed_line [] (lit "urrent_stage_name") (32%N :: v) 99%N);
      [constructor | reflexivity]. }
  rewrite Ht. pose proof (trim_space_value v Hv) as HX.
  set (X := trimEnd (32%N :: v)) in *. clearbody X.
  decide_conditions. rewrite startsWith_prefix.
  change (substring_from 19 (lit "current_stage_name:" ++ X)) with X.
  rewrite HX. reflexivity.
Qed.

Lemma parseInt_of_digits (n : Z) :
  0 <= n < 2 ^ 53 -> parseInt (digits n) (Some 10) = Num n.
Proof.
  intros Hn. destruct (digits_spec n (proj1 Hn)) as (Hne & Hall & Hval).
  rewrite parseInt_digits by auto. rewrite Hval.
  apply round64_small. exact Hn.
Qed.

Lemma step_current_stage_index (c : Z) m sl p ct csi nm lcr sec sub cur :
  0 <= c < 2 ^ 53 ->
  line_step (lit "current_stage_index: " ++ ToString (Num c))
    (mkP (mkStatus m sl p ct csi nm lcr) sec sub cur)
  = mkP (mkStatus m sl p ct (Some (Num c)) nm lcr) None sub cur.
Proof.
  intros Hc. cbn [ToString]. rewrite NumberToString_nonneg by exact Hc.
  pose proof (digits_value c (proj1 Hc)) as Hv.
  destruct (digits_spec c (proj1 Hc)) as (Hne & _ & _).
  unfold line_step, body. cbn [nth].
  assert (Ht : trim (lit "current_stage_index: " ++ digits c)
               = lit "current_stage_index:" ++ trimEnd (32%N :: digits c)).
  { apply (trim_keyed_line [] (lit "urrent_stage_index")
             (32%N :: digits c) 99%N); [constructor | reflexivity]. }
  rewrite Ht. pose proof (trim_space_value _ Hv) as HX.
  set (X := trimEnd (32%N :: digits c)) in *. clearbody X.
  decide_conditions. rewrite startsWith_prefix.
  change (substring_from 20 (lit "current_stage_index:" ++ X)) with X.
  rewrite HX, parseInt_of_digits by exact Hc.
  destruct (digits c); [congruence | reflexivity].
Qed.

(** *** The lines of a stage *)

Lemma word_not_space (c : N) : is_word c = true -> is_space c = false.
Proof.
  unfold is_word, is_digit. intros H.
  repeat (apply orb_true_iff in H; destruct H as [H | H]);
    try (apply andb_true_iff in H; destruct H as [H1 H2];
         apply N.leb_le in H1; apply N.leb_le in H2);
    try apply N.eqb_eq in H;
    unfold is_space, is_line_terminator;
    repeat (apply orb_false_iff; split);
    try (apply N.eqb_neq; lia);
    apply andb_false_iff; left; apply N.leb_gt; lia.
Qed.

(** An indented [key: value] line matches the property pattern, which
    captures the key and the value. *)
Lemma property_line_match (key v : jsstring) :
  key <> [] -> all is_word key -> all is_dot v -> stops is_space v ->
  match_anchored re_property (32%N :: 32%N :: key ++ 58%N :: 32%N :: v)
  = Some ([key; v], []).
Proof.
  intros Hne Hkey Hdot Hstop. unfold match_anchored.
  change re_property with
    [It false Plus is_space; It true Plus is_word; It false One (N.eqb 58);
     It false Star is_space; It true Star is_dot].
  destruct key as [|d key]; [congruence|].
  pose proof (Forall_inv Hkey) as Hd. simpl in Hd.
  apply Forall_inv_tail in Hkey.
  assert (M3 : match_here [It true Star is_dot] v = Some ([v], [])).
  { rewrite match_here_star. rewrite <- (app_nil_r v) at 1.
    apply many_greedy; [exact Hdot | exact I |].
    unfold conclude. rewrite match_here_done.
    now rewrite app_nil_r, rev_involutive. }
  assert (M2 : match_here [It false Star is_space; It true Star is_dot]
                 (32%N :: v) = Some ([v], [])).
  { rewrite match_here_star. change (32%N :: v) with ([32%N] ++ v).
    apply many_greedy; [repeat constructor | exact Hstop |].
    unfold conclude. now rewrite M3. }
  assert (M1 : match_here [It false One (N.eqb 58); It false Star is_space;
                           It true Star is_dot]
                 (58%N :: 32%N :: v) = Some ([v], [])).
  { rewrite match_here_one, N.eqb_refl. unfold conclude. now rewrite M2. }
  assert (M0 : match_here [It true Plus is_word; It false One (N.eqb 58);
                           It false Star is_space; It true Star is_dot]
                 ((d :: key) ++ 58%N :: 32%N :: v) = Some ([d :: key; v], [])).
  { rewrite match_here_plus. simpl app. cbv iota. rewrite Hd.
    apply many_greedy; [exact Hkey | reflexivity |].
    unfold conclude. rewrite M1.
    now rewrite rev_app_distr, rev_involutive. }
  rewrite match_here_plus. change (is_space 32) with true. cbv iota.
  change (32%N :: (d :: key) ++ 58%N :: 32%N :: v)
    with ([32%N] ++ (d :: key) ++ 58%N :: 32%N :: v).
  apply many_greedy.
  - repeat constructor.
  - simpl. now apply word_not_space.
  - unfold conclude. now rewrite M0.
Qed.

Lemma search_index_line (ds : jsstring) :
  ds <> [] -> all is_digit ds ->
  search re_index (lit "- index: " ++ ds) = Some ([ds], []).
Proof.
  intros Hne Hall.
  assert (M1 : match_here [It true Plus is_digit] ds = Some ([ds], [])).
  { rewrite match_here_plus. destruct ds as [|d ds]; [congruence|].
    pose proof (Forall_inv Hall) as Hd. simpl in Hd. rewrite Hd.
    rewrite <- (app_nil_r ds) at 1.
    apply many_greedy; [now apply Forall_inv_tail in Hall | exact I |].
    unfold conclude. rewrite match_here_done.
    now rewrite rev_app_distr, rev_involutive. }
  assert (M : match_here [It false Star is_space; It true Plus is_digit]
                (32%N :: ds) = Some ([ds], [])).
  { rewrite match_here_star. change (32%N :: ds) with ([32%N] ++ ds).
    apply many_greedy.
    - repeat constructor.
    - destruct ds as [|d ds]; [exact I|]. simpl.
      apply digit_not_space. exact (Forall_inv Hall).
    - unfold conclude. now rewrite M1. }
  change re_index with
    (It false One (N.eqb 105) :: It false One (N.eqb 110)
     :: It false One (N.eqb 100) :: It false One (N.eqb 101)
     :: It false One (N.eqb 120) :: It false One (N.eqb 58)
     :: [It false Star is_space; It true Plus is_digit]).
  change (lit "- index: " ++ ds)
    with (45%N :: 32%N :: 105%N :: 110%N :: 100%N :: 101%N :: 120%N
          :: 58%N :: 32%N :: ds).
  rewrite search_unfold, match_here_one. change (N.eqb 105 45) with false.
  cbv iota.
  rewrite search_unfold, match_here_one. change (N.eqb 105 32) with false.
  cbv iota.
  rewrite search_unfold.
  repeat (rewrite match_here_one, N.eqb_refl; unfold conclude).
  now rewrite M.
Qed.

(** The line that starts a stage: the open stage goes to the list and a
    new one is opened with the index of the line. *)
Lemma step_stage_start (i : Z) m sl p ct csi nm lcr sub cur :
  0 <= i < 2 ^ 53 ->
  line_step (lit "- index: " ++ ToString (Num i))
    (mkP (mkStatus m sl p ct csi nm lcr) (Some SecStageList) sub cur)
  = mkP (mkStatus m (sl ++ option_list cur) p ct csi nm lcr)
      (Some SecStageList) sub (Some (set_index (Num i) new_stage)).
Proof.
  intros Hi. cbn [ToString]. rewrite NumberToString_nonneg by exact Hi.
  destruct (digits_spec i (proj1 Hi)) as (Hne & Hall & Hval).
  pose proof (digits_value i (proj1 Hi)) as (_ & _ & Hend).
  unfold line_step, body. cbn [nth].
  assert (Ht : trim (lit "- index: " ++ digits i)
               = lit "- index: " ++ digits i).
  { unfold trim.
    change (lit "- index: " ++ digits i)
      with (45%N :: lit " index: " ++ digits i).
    rewrite trimStart_keep by reflexivity.
    now apply (trimEnd_solid (lit "- index: ") (digits i)). }
  rewrite Ht.
  set (ds := digits i) in *.
  assert (Hs : search re_index (lit "- index: " ++ ds) = Some ([ds], []))
    by (now apply search_index_line).
  assert (Hp : parseInt ds (Some 10) = Num i)
    by (unfold ds; now apply parseInt_of_digits).
  clearbody ds.
  decide_conditions. unfold stage_list_line. decide_conditions.
  rewrite Hs, Hp.
  destruct cur; cbn [option_list]; [reflexivity|].
  now rewrite app_nil_r.
Qed.

(** A property line of the open stage. *)
Lemma step_stage_property (key v : jsstring) (d : N) (s : Stage)
    r sub :
  all is_word (d :: key) -> value_text v ->
  d <> 109%N -> d <> 112%N -> d <> 99%N -> d <> 108%N -> d <> 115%N ->
  line_step (32%N :: 32%N :: (d :: key) ++ 58%N :: 32%N :: v)
    (mkP r (Some SecStageList) sub (Some s))
  = mkP r (Some SecStageList) sub
      (Some (stage_property (d :: key) v s)).
Proof.
  intros Hkey Hv Hm Hp Hc Hl Hs.
  pose proof Hv as (Hdot & Hstart & _).
  pose proof (Forall_inv Hkey) as Hd. simpl in Hd.
  assert (Hsp : is_space d = false) by (now apply word_not_space).
  assert (Hdash : d <> 45%N).
  { intros ->. discriminate Hd. }
  set (line := 32%N :: 32%N :: (d :: key) ++ 58%N :: 32%N :: v).
  assert (Ht : trim line = (d :: key) ++ 58%N :: trimEnd (32%N :: v)).
  { apply (trim_keyed_line [32%N; 32%N] key (32%N :: v) d);
      [repeat constructor | exact Hsp]. }
  unfold line_step.
  rewrite (body_in_section [line] 0).
  - cbn [nth]. cbn [currentSection section_eqb].
    unfold stage_list_line.
    replace (match_anchored re_stage_start line) with (@None matched)
      by (symmetry;
          apply (not_stage_start [32%N; 32%N] (key ++ 58%N :: 32%N :: v) d);
          [repeat constructor | assumption | assumption]).
    cbn [test currentStage].
    unfold line.
    rewrite property_line_match by (discriminate || assumption).
    rewrite (trim_value v Hv). reflexivity.
  - cbn [nth]. now rewrite Ht.
  - cbn [nth]. rewrite Ht. now apply top_level_key_first.
Qed.

Lemma bool_text_true (b : bool) : JsString.eqb (bool_text b) (lit "true") = b.
Proof. now destruct b. Qed.

(** The seven lines of a stage. *)
Lemma scan_stage (s : Stage) m sl p ct csi nm lcr sub cur :
  written_stage s ->
  scan (stage_lines s)
    (mkP (mkStatus m sl p ct csi nm lcr) (Some SecStageList) sub cur)
  = mkP (mkStatus m (sl ++ option_list cur) p ct csi nm lcr)
      (Some SecStageList) sub (Some s).
Proof.
  intros (i & t & r & f & k & c & h & -> & Hi & Hf & Ht & Hc).
  unfold scan, stage_lines.
  cbn [index title reached fail_count is_skipped time_cost needs_human_check
       text_of flag number_of fold_left].
  rewrite step_stage_start by exact Hi.
  change (lit "  title: " ++ t)
    with (32%N :: 32%N :: lit "title" ++ 58%N :: 32%N :: t).
  rewrite (step_stage_property (lit "itle") t 116%N)
    by first [assumption | discriminate | repeat constructor].
  change (lit "  reached: " ++ bool_text r)
    with (32%N :: 32%N :: lit "reached" ++ 58%N :: 32%N :: bool_text r).
  rewrite (step_stage_property (lit "eached") (bool_text r) 114%N)
    by first [apply bool_text_value | discriminate | repeat constructor].
  cbn [ToString]. rewrite NumberToString_nonneg by exact Hf.
  change (lit "  fail_count: " ++ digits f)
    with (32%N :: 32%N :: lit "fail_count" ++ 58%N :: 32%N :: digits f).
  rewrite (step_stage_property (lit "ail_count") (digits f) 102%N)
    by first [apply digits_value; exact (proj1 Hf) | discriminate
             | repeat constructor].
  change (lit "  is_skipped: " ++ bool_text k)
    with (32%N :: 32%N :: lit "is_skipped" ++ 58%N :: 32%N :: bool_text k).
  rewrite (step_stage_property (lit "s_skipped") (bool_text k) 105%N)
    by first [apply bool_text_value | discriminate | repeat constructor].
  change (lit "  time_cost: " ++ c)
    with (32%N :: 32%N :: lit "time_cost" ++ 58%N :: 32%N :: c).
  rewrite (step_stage_property (lit "ime_cost") c 116%N)
    by first [assumption | discriminate | repeat constructor].
  change (lit "  needs_human_check: " ++ bool_text h)
    with (32%N :: 32%N :: lit "needs_human_check" ++ 58%N :: 32%N
          :: bool_text h).
  rewrite (step_stage_property (lit "eeds_human_check") (bool_text h) 110%N)
    by first [apply bool_text_value | discriminate | repeat constructor].
  do 2 f_equal.
  change (116%N :: lit "itle") with (lit "title").
  change (114%N :: lit "eached") with (lit "reached").
  change (102%N :: lit "ail_count") with (lit "fail_count").
  change (105%N :: lit "s_skipped") with (lit "is_skipped").
  change (116%N :: lit "ime_cost") with (lit "time_cost").
  change (110%N :: lit "eeds_human_check") with (lit "needs_human_check").
  rewrite stage_property_needs_human_check, stage_property_is_skipped,
    stage_property_fail_count, stage_property_reached.
  rewrite !bool_text_true, parseInt_of_digits by exact Hf.
  reflexivity.
Qed.

(** The stages of a list, one after the other. *)
Lemma scan_stages (stages : list Stage) m p ct csi nm lcr sub :
  Forall written_stage stages ->
  forall sl cur,
  exists sl' cur',
    scan (flat_map stage_lines stages)
      (mkP (mkStatus m sl p ct csi nm lcr) (Some SecStageList) sub cur)
    = mkP (mkStatus m sl' p ct csi nm lcr) (Some SecStageList) sub cur' /\
    sl' ++ option_list cur' = sl ++ option_list cur ++ stages.
Proof.
  induction 1 as [|s stages Hs _ IH]; intros sl cur.
  - exists sl, cur. split; [reflexivity | now rewrite app_nil_r].
  - cbn [flat_map]. rewrite scan_app, scan_stage by exact Hs.
    destruct (IH (sl ++ option_list cur) (Some s)) as (sl' & cur' & E & Hl).
    exists sl', cur'. split; [exact E|].
    rewrite Hl. cbn [option_list]. now rewrite <- !app_assoc.
Qed.

(** *** The block headers *)

Lemma step_stage_list r sec sub cur :
  line_step (lit "stage_list:") (mkP r sec sub cur)
  = mkP r (Some SecStageList) sub cur.
Proof. reflexivity. Qed.

Lemma step_current_task m sl p t csi nm lcr sec sub cur :
  line_step (lit "current_task:")
    (mkP (mkStatus m sl p (TaskObject t) csi nm lcr) sec sub cur)
  = mkP (mkStatus m sl p (TaskObject t) csi nm lcr) (Some SecCurrentTask)
      sub cur.
Proof. reflexivity. Qed.

Lemma step_description r sub cur :
  line_step (lit "  description:") (mkP r (Some SecCurrentTask) sub cur)
  = mkP r (Some SecCurrentTask) (Some SubDescription) cur.
Proof. reflexivity. Qed.

Lemma step_reference_files r sub cur :
  line_step (lit "  reference_files:") (mkP r (Some SecCurrentTask) sub cur)
  = mkP r (Some SecCurrentTask) (Some SubReferenceFiles) cur.
Proof. destruct sub as [[| |]|]; reflexivity. Qed.

Lemma step_output_files r sub cur :
  line_step (lit "  output_files:") (mkP r (Some SecCurrentTask) sub cur)
  = mkP r (Some SecCurrentTask) (Some SubOutputFiles) cur.
Proof. destruct sub as [[| |]|]; reflexivity. Qed.

(** *** The [current_task] block *)

Lemma step_task_title (v : jsstring) m sl p t0 d rf o csi nm lcr sub cur :
  value_text v ->
  line_step (lit "  title: " ++ v)
    (mkP (mkStatus m sl p (TaskObject (mkTask t0 d rf o)) csi nm lcr)
       (Some SecCurrentTask) sub cur)
  = mkP (mkStatus m sl p (TaskObject (mkTask v d rf o)) csi nm lcr)
      (Some SecCurrentTask) sub cur.
Proof.
  intros Hv.
  set (line := lit "  title: " ++ v).
  assert (Ht : trim line = lit "title:" ++ trimEnd (32%N :: v)).
  { apply (trim_keyed_line [32%N; 32%N] (lit "itle") (32%N :: v) 116%N);
      [repeat constructor | reflexivity]. }
  pose proof (trim_space_value v Hv) as HX.
  unfold line_step. rewrite (body_in_section [line] 0).
  - cbn [nth currentSection section_eqb]. rewrite Ht.
    set (X := trimEnd (32%N :: v)) in *. clearbody X.
    unfold current_task_line. cbv zeta. rewrite startsWith_prefix.
    change (substring_from 6 (lit "title:" ++ X)) with X.
    rewrite HX. reflexivity.
  - cbn [nth]. now rewrite Ht.
  - cbn [nth]. rewrite Ht. now apply top_level_key_first.
Qed.

(** An item line matches the item pattern, which leaves the item. *)
Lemma list_item_match (x : jsstring) :
  stops is_space x ->
  match_anchored re_list_item (item_line x) = Some ([], x).
Proof.
  intros Hx. unfold match_anchored, item_line.
  change re_list_item with
    [It false Star is_space; It false One (N.eqb 45);
     It false Plus is_space].
  assert (M2 : match_here [It false Plus is_space] (32%N :: x)
               = Some ([], x)).
  { rewrite match_here_plus. change (is_space 32) with true. cbv iota.
    change x with ([] ++ x) at 1.
    apply many_greedy; [constructor | exact Hx | reflexivity]. }
  assert (M1 : match_here [It false One (N.eqb 45); It false Plus is_space]
                 (45%N :: 32%N :: x) = Some ([], x)).
  { rewrite match_here_one, N.eqb_refl. unfold conclude. now rewrite M2. }
  rewrite match_here_star.
  change (lit "  - " ++ x) with ([32%N; 32%N] ++ 45%N :: 32%N :: x).
  apply many_greedy; [repeat constructor | reflexivity |].
  unfold conclude. now rewrite M1.
Qed.

Lemma trim_item_line (x : jsstring) :
  item_text x -> trim (item_line x) = lit "- " ++ x.
Proof.
  intros ((_ & _ & Hend) & Hne). unfold trim, item_line.
  change (trimStart (lit "  - " ++ x)) with (lit "- " ++ x).
  now apply (trimEnd_solid (lit "- ") x).
Qed.

(** The dispatch of an item line inside the [current_task] block. *)
Lemma item_line_in_task (x : jsstring) (st : pstate) :
  item_text x -> currentSection st = Some SecCurrentTask ->
  line_step (item_line x) st
  = current_task_line (item_line x) (lit "- " ++ x) st.
Proof.
  intros Hx Hsec. unfold line_step.
  rewrite (body_in_section [item_line x] 0); cbn [nth];
    rewrite (trim_item_line x Hx); [|reflexivity|reflexivity].
  now rewrite Hsec.
Qed.

Lemma step_description_item (x : jsstring) m sl p t0 d rf o csi nm lcr cur :
  item_text x ->
  line_step (item_line x)
    (mkP (mkStatus m sl p (TaskObject (mkTask t0 d rf o)) csi nm lcr)
       (Some SecCurrentTask) (Some SubDescription) cur)
  = mkP (mkStatus m sl p (TaskObject (mkTask t0 (d ++ [x]) rf o)) csi nm lcr)
      (Some SecCurrentTask) (Some SubDescription) cur.
Proof.
  intros Hx. rewrite item_line_in_task by (assumption || reflexivity).
  pose proof Hx as ((_ & Hstart & _) & Hne).
  unfold current_task_line. cbv zeta.
  rewrite (list_item_match x Hstart). unfold remove_match.
  rewrite (list_item_match x Hstart), (trim_value x (proj1 Hx)).
  decide_conditions.
  destruct x; [congruence | reflexivity].
Qed.

Lemma step_output_item (x : jsstring) m sl p t0 d rf o csi nm lcr cur :
  item_text x ->
  line_step (item_line x)
    (mkP (mkStatus m sl p (TaskObject (mkTask t0 d rf o)) csi nm lcr)
       (Some SecCurrentTask) (Some SubOutputFiles) cur)
  = mkP (mkStatus m sl p (TaskObject (mkTask t0 d rf (o ++ [x]))) csi nm lcr)
      (Some SecCurrentTask) (Some SubOutputFiles) cur.
Proof.
  intros Hx. rewrite item_line_in_task by (assumption || reflexivity).
  pose proof Hx as ((_ & Hstart & _) & Hne).
  unfold current_task_line. cbv zeta.
  rewrite (list_item_match x Hstart). unfold remove_match.
  rewrite (list_item_match x Hstart), (trim_value x (proj1 Hx)).
  decide_conditions.
  destruct x; [congruence | reflexivity].
Qed.

Lemma startsWith_nil (s : jsstring) : startsWith s [] = true.
Proof. now destruct s. Qed.

Lemma startsWith_cons (c a : N) (s p : jsstring) :
  startsWith (c :: s) (a :: p) = (N.eqb a c && startsWith s p)%bool.
Proof. reflexivity. Qed.

(** The first [: ] of [name: status] is the one after the name when the
    name has none. *)
Lemma indexOf_separator (f s : jsstring) :
  includes f (lit ": ") = false ->
  indexOf (f ++ lit ": " ++ s) (lit ": ") = Some (length f).
Proof.
  change (lit ": ") with [58%N; 32%N].
  induction f as [|c f IH]; intros Hf.
  { change ([] ++ [58%N; 32%N] ++ s) with (58%N :: 32%N :: s).
    cbn [indexOf].
    now rewrite !startsWith_cons, startsWith_nil. }
  rewrite includes_cons in Hf. apply orb_false_iff in Hf.
  destruct Hf as [Hhere Hrest].
  change ((c :: f) ++ [58%N; 32%N] ++ s)
    with (c :: f ++ [58%N; 32%N] ++ s).
  cbn [indexOf].
  assert (E : startsWith (c :: f ++ [58%N; 32%N] ++ s) [58%N; 32%N]
              = false).
  { rewrite startsWith_cons in Hhere |- *.
    destruct (N.eqb 58 c); [|reflexivity]. cbn [andb] in *.
    destruct f as [|x f].
    - reflexivity.
    - change ((x :: f) ++ [58%N; 32%N] ++ s)
        with (x :: f ++ [58%N; 32%N] ++ s).
      rewrite startsWith_cons in Hhere |- *.
      rewrite startsWith_nil in Hhere |- *. exact Hhere. }
  rewrite E, (IH Hrest). reflexivity.
Qed.

Lemma firstn_app_exact {A} (a b : list A) : firstn (length a) (a ++ b) = a.
Proof.
  induction a as [|x a IH]; [now destruct b|]. simpl. now rewrite IH.
Qed.

Lemma skipn_app_exact {A} (a b : list A) : skipn (length a) (a ++ b) = b.
Proof. induction a as [|x a IH]; [reflexivity | exact IH]. Qed.

Lemma reference_entry_value (e : jsstring * jsstring) :
  written_reference e -> item_text (fst e ++ lit ": " ++ snd e).
Proof.
  intros (((Hd1 & Hs1 & _) & Hn1) & ((Hd2 & _ & He2) & Hn2) & _).
  destruct e as [f s]. cbn [fst snd] in *. repeat split.
  - apply Forall_app. split; [exact Hd1|].
    repeat (constructor; [reflexivity|]). exact Hd2.
  - destruct f; [congruence | exact Hs1].
  - rewrite !rev_app_distr.
    destruct (rev s) as [|c w] eqn:E; [|exact He2].
    apply (f_equal (@rev N)) in E. rewrite rev_involutive in E.
    simpl in E. congruence.
  - destruct f; [congruence | discriminate].
Qed.

Lemma step_reference_item (e : jsstring * jsstring)
    m sl p t0 d rf o csi nm lcr cur :
  written_reference e ->
  line_step (reference_line e)
    (mkP (mkStatus m sl p (TaskObject (mkTask t0 d rf o)) csi nm lcr)
       (Some SecCurrentTask) (Some SubReferenceFiles) cur)
  = mkP (mkStatus m sl p
           (TaskObject (mkTask t0 d (dict_put (fst e) (snd e) rf) o))
           csi nm lcr)
      (Some SecCurrentTask) (Some SubReferenceFiles) cur.
Proof.
  intros He. pose proof (reference_entry_value e He) as Hx.
  pose proof He as (_ & _ & Hsep & Hproto & _).
  set (x := fst e ++ lit ": " ++ snd e) in *.
  change (reference_line e) with (item_line x).
  rewrite item_line_in_task by (assumption || reflexivity).
  pose proof Hx as ((_ & Hstart & _) & Hne).
  unfold current_task_line. cbv zeta.
  rewrite (list_item_match x Hstart). unfold remove_match.
  rewrite (list_item_match x Hstart), (trim_value x (proj1 Hx)).
  decide_conditions.
  unfold x at 1. rewrite (indexOf_separator _ _ Hsep).
  unfold substring_to, substring_from, x.
  rewrite firstn_app_exact.
  replace (length (fst e) + 2)%nat
    with (length (fst e ++ lit ": "))%nat
    by (rewrite length_app; reflexivity).
  rewrite app_assoc, skipn_app_exact.
  unfold dict_set_string.
  replace (JsString.eqb (fst e) (lit "__proto__")) with false
    by (symmetry; now apply jseqb_neq).
  reflexivity.
Qed.

(** *** The lists of the block *)

Lemma scan_description (items : list jsstring) m sl p t0 rf o csi nm lcr cur :
  Forall item_text items ->
  forall d,
  scan (map item_line items)
    (mkP (mkStatus m sl p (TaskObject (mkTask t0 d rf o)) csi nm lcr)
       (Some SecCurrentTask) (Some SubDescription) cur)
  = mkP (mkStatus m sl p (TaskObject (mkTask t0 (d ++ items) rf o))
           csi nm lcr)
      (Some SecCurrentTask) (Some SubDescription) cur.
Proof.
  induction 1 as [|x items Hx _ IH]; intros d.
  - now rewrite app_nil_r.
  - cbn [map]. change (scan (?l :: ?ls) ?st) with (scan ls (line_step l st)).
    rewrite step_description_item by exact Hx.
    rewrite IH. now rewrite <- app_assoc.
Qed.

Lemma scan_output_files (items : list jsstring) m sl p t0 d rf csi nm lcr cur :
  Forall item_text items ->
  forall o,
  scan (map item_line items)
    (mkP (mkStatus m sl p (TaskObject (mkTask t0 d rf o)) csi nm lcr)
       (Some SecCurrentTask) (Some SubOutputFiles) cur)
  = mkP (mkStatus m sl p (TaskObject (mkTask t0 d rf (o ++ items)))
           csi nm lcr)
      (Some SecCurrentTask) (Some SubOutputFiles) cur.
Proof.
  induction 1 as [|x items Hx _ IH]; intros o.
  - now rewrite app_nil_r.
  - cbn [map]. change (scan (?l :: ?ls) ?st) with (scan ls (line_step l st)).
    rewrite step_output_item by exact Hx.
    rewrite IH. now rewrite <- app_assoc.
Qed.

(** A key that the object does not have yet, and that is not an array
    index, is added at the end. *)
Lemma dict_put_new {A} (k : jsstring) (v : A) (d : dict A) :
  ~ In k (map fst d) -> array_index k = None ->
  dict_put k v d = d ++ [(k, v)].
Proof.
  intros Hk Hi. unfold dict_put. rewrite Hi.
  replace (dict_get k d) with (@None A); [reflexivity|].
  symmetry. induction d as [|[k' v'] d IH]; [reflexivity|].
  simpl in Hk. simpl.
  replace (JsString.eqb k k') with false
    by (symmetry; apply jseqb_neq; intros ->; tauto).
  apply IH. tauto.
Qed.

Lemma scan_reference_files (refs : list (jsstring * jsstring))
    m sl p t0 d o csi nm lcr cur :
  Forall written_reference refs ->
  forall rf,
  NoDup (map fst (rf ++ refs)) ->
  scan (map reference_line refs)
    (mkP (mkStatus m sl p (TaskObject (mkTask t0 d rf o)) csi nm lcr)
       (Some SecCurrentTask) (Some SubReferenceFiles) cur)
  = mkP (mkStatus m sl p (TaskObject (mkTask t0 d (rf ++ refs) o))
           csi nm lcr)
      (Some SecCurrentTask) (Some SubReferenceFiles) cur.
Proof.
  induction 1 as [|e refs He _ IH]; intros rf Hnd.
  - now rewrite app_nil_r.
  - cbn [map]. change (scan (?l :: ?ls) ?st) with (scan ls (line_step l st)).
    rewrite step_reference_item by exact He.
    assert (Hnew : ~ In (fst e) (map fst rf)).
    { rewrite map_app in Hnd. simpl in Hnd.
      apply NoDup_remove_2 in Hnd. intros Hin. apply Hnd.
      apply in_or_app. now left. }
    rewrite (dict_put_new _ _ _ Hnew)
      by (destruct He as (_ & _ & _ & _ & Hidx); exact Hidx).
    destruct e as [f s]. cbn [fst snd].
    rewrite IH.
    + now rewrite <- app_assoc.
    + now rewrite <- app_assoc.
Qed.

(** The whole [current_task] block, read into an empty task. *)
Lemma scan_task (t : TaskInfo) m sl p csi nm lcr sec sub cur :
  written_task t ->
  scan (task_lines t)
    (mkP (mkStatus m sl p (TaskObject initial_task) csi nm lcr) sec sub cur)
  = mkP (mkStatus m sl p (TaskObject t) csi nm lcr)
      (Some SecCurrentTask) (Some SubOutputFiles) cur.
Proof.
  intros (Ht & Hd & Hr & Hnd & Ho). destruct t as [tt d rf o].
  cbn [task_title description reference_files output_files] in *.
  unfold task_lines.
  cbn [task_title description reference_files output_files].
  change (scan ([?a; ?b; ?c] ++ ?rest) ?st)
    with (scan rest (line_step c (line_step b (line_step a st)))).
  unfold initial_task.
  rewrite step_current_task, step_task_title, step_description by exact Ht.
  rewrite scan_app, scan_description by exact Hd.
  change (scan ([?a] ++ ?rest) ?st) with (scan rest (line_step a st)).
  rewrite step_reference_files.
  rewrite scan_app, scan_reference_files by assumption.
  change (scan ([?a] ++ ?rest) ?st) with (scan rest (line_step a st)).
  rewrite step_output_files.
  rewrite scan_output_files by exact Ho.
  reflexivity.
Qed.

(** ** The layout is read back *)

Lemma scan_status_lines (m p n : jsstring) (t : TaskInfo) (c : Z)
    (stages : list Stage) :
  value_text m -> value_text p -> value_text n -> 0 <= c < 2 ^ 53 ->
  written_task t -> Forall written_stage stages ->
  after_loop
    (scan (status_lines
             (mkStatus (Some m) stages (Some p) (TaskObject t)
                (Some (Num c)) (Some n) None))
       initial_state)
  = mkStatus (Some m) stages (Some p) (TaskObject t) (Some (Num c))
      (Some n) None.
Proof.
  intros Hm Hp Hn Hc Ht Hs. unfold status_lines.
  cbn [mission stage_list process current_task current_stage_index
       current_stage_name text_of number_of task_of].
  unfold initial_state.
  change (scan ([?a; ?b] ++ ?rest) ?st)
    with (scan rest (line_step b (line_step a st))).
  rewrite step_mission, step_stage_list by exact Hm.
  rewrite scan_app.
  destruct (scan_stages stages (Some m) None (TaskObject initial_task)
              None None None None Hs [] None) as (sl' & cur' & -> & Hl).
  change (scan ([?a] ++ ?rest) ?st) with (scan rest (line_step a st)).
  rewrite step_process by exact Hp.
  rewrite scan_app, scan_task by exact Ht.
  change (scan [?a; ?b] ?st) with (line_step b (line_step a st)).
  rewrite step_current_stage_index, step_current_stage_name by assumption.
  unfold after_loop. cbn [currentStage result stage_list set_stage_list
                          mission process current_task current_stage_index
                          current_stage_name last_check_result].
  cbn [app option_list] in Hl.
  destruct cur' as [s|]; cbn [option_list] in Hl.
  - now rewrite Hl.
  - rewrite app_nil_r in Hl. now rewrite Hl.
Qed.

(** *** No line of the layout is a [last_check_result:] line *)

Lemma not_check_result_line (ws rest : jsstring) (d : N) :
  all is_space ws -> is_space d = false -> d <> 108%N ->
  is_check_result_line (ws ++ d :: rest) = false.
Proof.
  intros Hws Hd Hl. unfold is_check_result_line, trim, trimStart.
  rewrite drop_while_app_stop by assumption.
  pose proof (trimEnd_app_keep [] d rest Hd) as E. simpl app in E.
  rewrite E.
  change (lit "last_check_result:") with (108%N :: lit "ast_check_result:").
  rewrite startsWith_cons.
  replace (N.eqb 108 d) with false; [reflexivity|].
  symmetry. apply N.eqb_neq. congruence.
Qed.

Lemma stage_lines_plain (s : Stage) : no_check_result_line (stage_lines s).
Proof.
  unfold no_check_result_line, stage_lines.
  repeat (constructor;
          [first [ apply (not_check_result_line [] _ 45%N);
                   [constructor | reflexivity | discriminate]
                 | apply (not_check_result_line [32%N; 32%N] _ 116%N);
                   [repeat constructor | reflexivity | discriminate]
                 | apply (not_check_result_line [32%N; 32%N] _ 114%N);
                   [repeat constructor | reflexivity | discriminate]
                 | apply (not_check_result_line [32%N; 32%N] _ 102%N);
                   [repeat constructor | reflexivity | discriminate]
                 | apply (not_check_result_line [32%N; 32%N] _ 105%N);
                   [repeat constructor | reflexivity | discriminate]
                 | apply (not_check_result_line [32%N; 32%N] _ 110%N);
                   [repeat constructor | reflexivity | discriminate] ]|]).
  constructor.
Qed.

Lemma task_lines_plain (t : TaskInfo) : no_check_result_line (task_lines t).
Proof.
  unfold no_check_result_line, task_lines.
  assert (Hitem : forall x, is_check_result_line (lit "  - " ++ x) = false).
  { intros x. apply (not_check_result_line [32%N; 32%N] _ 45%N);
      [repeat constructor | reflexivity | discriminate]. }
  repeat first
    [ apply Forall_app; split
    | apply Forall_cons
    | apply Forall_nil
    | apply Forall_map; apply Forall_forall; intros x _; apply Hitem
    | reflexivity
    | apply (not_check_result_line [32%N; 32%N] _ 116%N);
      [repeat constructor | reflexivity | discriminate] ].
Qed.

Lemma status_lines_plain (r : AgentStatus) :
  no_check_result_line (status_lines r).
Proof.
  unfold no_check_result_line, status_lines.
  repeat first
    [ apply task_lines_plain
    | apply Forall_flat_map; apply Forall_forall; intros s _;
      apply stage_lines_plain
    | apply Forall_app; split
    | apply Forall_cons
    | apply Forall_nil
    | reflexivity
    | apply (not_check_result_line [] _ 109%N);
      [constructor | reflexivity | discriminate]
    | apply (not_check_result_line [] _ 112%N);
      [constructor | reflexivity | discriminate]
    | apply (not_check_result_line [] _ 99%N);
      [constructor | reflexivity | discriminate] ].
Qed.

(** *** Lines and line feeds *)

Lemma split_join_lines (l : jsstring) (ls : list jsstring) :
  Forall one_line (l :: ls) -> split 10 (join_lines (l :: ls)) = l :: ls.
Proof.
  revert l. induction ls as [|l2 ls IH]; intros l H.
  - cbn [join_lines flat_map]. rewrite app_nil_r.
    apply split_one_line. exact (Forall_inv H).
  - change (join_lines (l :: l2 :: ls))
      with (l ++ 10%N :: join_lines (l2 :: ls)).
    rewrite split_app_sep, (split_one_line l) by exact (Forall_inv H).
    rewrite IH by exact (Forall_inv_tail H). reflexivity.
Qed.

Lemma one_line_app (a b : jsstring) :
  one_line a -> one_line b -> one_line (a ++ b).
Proof. intros Ha Hb. apply Forall_app. now split. Qed.

Lemma one_line_lit_value (a : string) (v : jsstring) :
  one_line (lit a) -> value_text v -> one_line (lit a ++ v).
Proof. intros Ha Hv. apply one_line_app; [exact Ha | now apply value_one_line]. Qed.

Ltac one_line_lit :=
  solve [repeat (constructor; [discriminate|]); constructor].

Lemma stage_lines_one_line (s : Stage) :
  written_stage s -> Forall one_line (stage_lines s).
Proof.
  intros (i & t & r & f & k & c & h & -> & Hi & Hf & Ht & Hc).
  unfold stage_lines.
  cbn [index title reached fail_count is_skipped time_cost needs_human_check
       text_of flag number_of ToString].
  rewrite !NumberToString_nonneg by assumption.
  repeat (constructor;
          [apply one_line_lit_value;
           [one_line_lit
           | first [ assumption | apply bool_text_value
                   | apply digits_value; lia ]]|]).
  constructor.
Qed.

Lemma item_one_line (x : jsstring) : item_text x -> one_line (item_line x).
Proof.
  intros [Hx _]. unfold item_line.
  apply one_line_lit_value; [one_line_lit | exact Hx].
Qed.

Lemma task_lines_one_line (t : TaskInfo) :
  written_task t -> Forall one_line (task_lines t).
Proof.
  intros (Ht & Hd & Hr & _ & Ho). unfold task_lines.
  assert (Hitems : forall items, Forall item_text items ->
                                 Forall one_line (map item_line items)).
  { intros items H. apply Forall_map. eapply Forall_impl; [|exact H].
    intros x Hx. now apply item_one_line. }
  apply Forall_app. split.
  { constructor; [one_line_lit|].
    constructor; [apply one_line_lit_value; [one_line_lit | exact Ht]|].
    constructor; [one_line_lit | constructor]. }
  apply Forall_app. split; [now apply Hitems|].
  apply Forall_app. split; [constructor; [one_line_lit | constructor]|].
  apply Forall_app. split.
  { apply Forall_map. eapply Forall_impl; [|exact Hr].
    intros e He. change (reference_line e)
      with (item_line (fst e ++ lit ": " ++ snd e)).
    apply item_one_line. now apply reference_entry_value. }
  apply Forall_app. split; [constructor; [one_line_lit | constructor]|].
  now apply Hitems.
Qed.

Lemma status_lines_one_line (m p n : jsstring) (t : TaskInfo) (c : Z)
    (stages : list Stage) :
  value_text m -> value_text p -> value_text n -> 0 <= c < 2 ^ 53 ->
  written_task t -> Forall written_stage stages ->
  Forall one_line
    (status_lines
       (mkStatus (Some m) stages (Some p) (TaskObject t) (Some (Num c))
          (Some n) None)).
Proof.
  intros Hm Hp Hn Hc Ht Hs. unfold status_lines.
  cbn [mission stage_list process current_task current_stage_index
       current_stage_name text_of number_of task_of ToString].
  rewrite NumberToString_nonneg by exact Hc.
  apply Forall_app. split.
  { constructor; [apply one_line_lit_value; [one_line_lit | exact Hm]|].
    constructor; [one_line_lit | constructor]. }
  apply Forall_app. split.
  { apply Forall_flat_map. eapply Forall_impl; [|exact Hs].
    intros s. apply stage_lines_one_line. }
  apply Forall_app. split.
  { constructor; [apply one_line_lit_value; [one_line_lit | exact Hp]|].
    constructor. }
  apply Forall_app. split; [now apply task_lines_one_line|].
  constructor;
    [apply one_line_lit_value; [one_line_lit | apply digits_value; lia]|].
  constructor; [apply one_line_lit_value; [one_line_lit | exact Hn]|].
  constructor.
Qed.

(** X13: the layout that the comment of the parser documents is read
    back in full. For every record with all its fields (values that fit on
    a line, natural numbers below 2^53 for the indices and failure counts,
    reference files with distinct names none of which is an array index),
    parsing the text of the record gives the record. *)
Theorem X13_layout_is_read_back (r : AgentStatus) :
  written_status r -> parseStatusResponse (status_text r) = Returned r.
Proof.
  intros (m & p & t & c & n & E & Hm & Hp & Hn & Hc & Ht & Hs).
  rewrite E. set (stages := stage_list r) in *. clearbody stages. clear E r.
  unfold parseStatusResponse, status_text.
  pose proof (status_lines_one_line m p n t c stages Hm Hp Hn Hc Ht Hs)
    as Hlines.
  assert (Hsplit : split 10 (join_lines
            (status_lines
               (mkStatus (Some m) stages (Some p) (TaskObject t)
                  (Some (Num c)) (Some n) None)))
          = status_lines
              (mkStatus (Some m) stages (Some p) (TaskObject t)
                 (Some (Num c)) (Some n) None)).
  { remember (status_lines _) as lines eqn:El.
    destruct lines as [|l ls]; [discriminate El|].
    now apply split_join_lines. }
  rewrite Hsplit, parseLines_scan by apply status_lines_plain.
  now rewrite scan_status_lines.
Qed.

Ltac value_text_lit :=
  solve [repeat split; try discriminate; repeat constructor].

Lemma full_record_written : written_status full_record.
Proof.
  exists (lit "Adder verification"), (lit "1/2"),
    (mkTask (lit "implement")
       [lit "Step 1: read Adder/README.md"; lit "Step 2: write the tests"]
       [(lit "Adder/README.md", lit "Read"); (lit "Adder/design.md", lit "Not Read")]
       [lit "out/report.md"]),
    1, (lit "implement").
  split; [reflexivity|].
  split; [value_text_lit|]. split; [value_text_lit|].
  split; [value_text_lit|]. split; [split; [lia | reflexivity]|]. split.
  - split; [value_text_lit|]. split.
    { repeat (constructor; [value_text_lit|]). constructor. }
    split.
    { repeat (constructor; [value_text_lit|]). constructor. }
    split.
    { repeat (constructor; [simpl; intuition discriminate|]). constructor. }
    repeat (constructor; [value_text_lit|]). constructor.
  - constructor.
    { exists 0, (lit "plan"), true, 0, false, (lit "1m 5s"), false.
      split; [reflexivity|]. split; [split; [lia | reflexivity]|].
      split; [split; [lia | reflexivity]|].
      split; value_text_lit. }
    constructor; [|constructor].
    exists 1, (lit "implement"), false, 2, false, (lit "''"), true.
    split; [reflexivity|]. split; [split; [lia | reflexivity]|].
    split; [split; [lia | reflexivity]|].
    split; value_text_lit.
Defined.

Lemma X13_layout_is_read_back_witness :
  parseStatusResponse (status_text full_record) = Returned full_record.
Proof. exact (X13_layout_is_read_back full_record full_record_written). Defined.

(** ** The parser of [AgentStatus.tsx] and the parser of [App.tsx] *)

Lemma drop_while_stops (p : N -> bool) (s : jsstring) :
  stops p (drop_while p s).
Proof.
  induction s as [|c s IH]; [exact I|]. simpl.
  destruct (p c) eqn:E; [exact IH | exact E].
Qed.

Lemma drop_while_nil_all (p : N -> bool) (s : jsstring) :
  drop_while p s = [] -> all p s.
Proof.
  induction s as [|c s IH]; [constructor|]. simpl.
  destruct (p c) eqn:E; [|discriminate].
  intros H. constructor; [exact E | now apply IH].
Qed.

(** A trimmed text does not end with white space. *)
Lemma trim_end_solid (l : jsstring) : stops is_space (rev (trim l)).
Proof.
  unfold trim, trimEnd. rewrite rev_involutive. apply drop_while_stops.
Qed.

Lemma trim_nil_all (s : jsstring) : trim s = [] -> all is_space s.
Proof.
  unfold trim, trimEnd. intros H.
  apply (f_equal (@rev N)) in H. rewrite rev_involutive in H. simpl in H.
  apply drop_while_nil_all in H. apply Forall_rev in H.
  rewrite rev_involutive in H.
  pose proof (drop_while_stops is_space s) as Hs. fold (trimStart s) in Hs.
  destruct (trimStart s) as [|c u] eqn:E.
  - now apply drop_while_nil_all.
  - simpl in Hs. pose proof (Forall_inv H) as Hc. simpl in Hc. congruence.
Qed.

(** In a trimmed line, a key that is followed by white space only is
    followed by nothing. *)
Lemma key_alone (l key rest : jsstring) :
  trim l = key ++ rest -> trim rest = [] -> rest = [].
Proof.
  intros Ht Hr. apply trim_nil_all in Hr.
  destruct rest as [|c rest] using rev_ind; [reflexivity|].
  pose proof (trim_end_solid l) as Hs. rewrite Ht in Hs.
  rewrite app_assoc, rev_app_distr in Hs. simpl in Hs.
  apply Forall_app in Hr. destruct Hr as [_ Hc].
  pose proof (Forall_inv Hc) as Hc'. simpl in Hc'. congruence.
Qed.

Lemma stage_list_line_agrees (line t : jsstring) (o : AgentStatusTsx.pstate) :
  AgentStatusTsx.currentSection o = Some AgentStatusTsx.SecStageList ->
  stage_list_line line t (upgrade_state o)
  = upgrade_state (AgentStatusTsx.stage_list_line line t o) /\
  AgentStatusTsx.currentSection (AgentStatusTsx.stage_list_line line t o)
  <> Some AgentStatusTsx.SecLastCheckResult.
Proof.
  destruct o as [[m sl p ct csi nm lcr] sec sub cur]. intros Hsec.
  simpl in Hsec. subst sec.
  unfold stage_list_line, AgentStatusTsx.stage_list_line, upgrade_state.
  cbn [AgentStatusTsx.currentStage AgentStatusTsx.currentSection
       AgentStatusTsx.currentSubsection AgentStatusTsx.result
       currentStage currentSection currentSubsection result].
  destruct (test (match_anchored re_stage_start line)).
  - destruct cur; destruct (search re_index line) as [[[|d ?] ?]|];
      split; (reflexivity || discriminate).
  - destruct cur; [|split; (reflexivity || discriminate)].
    destruct (match_anchored re_property line) as [[[|k [|v ?]] ?]|];
      try destruct (test (match_anchored re_key t));
      split; (reflexivity || discriminate).
Qed.

Lemma current_task_line_agrees (line t : jsstring)
    (o : AgentStatusTsx.pstate) :
  AgentStatusTsx.currentSection o = Some AgentStatusTsx.SecCurrentTask ->
  current_task_line line t (upgrade_state o)
  = upgrade_state (AgentStatusTsx.current_task_line line t o) /\
  AgentStatusTsx.currentSection (AgentStatusTsx.current_task_line line t o)
  <> Some AgentStatusTsx.SecLastCheckResult.
Proof.
  destruct o as [[m sl p ct csi nm lcr] sec sub cur]. intros Hsec.
  simpl in Hsec. subst sec.
  unfold current_task_line, AgentStatusTsx.current_task_line, upgrade_state.
  cbn [AgentStatusTsx.currentStage AgentStatusTsx.currentSection
       AgentStatusTsx.currentSubsection AgentStatusTsx.result
       currentStage currentSection currentSubsection result].
  cbv zeta.
  destruct (startsWith t (lit "title:"));
    [split; (reflexivity || discriminate)|].
  destruct (JsString.eqb t (lit "description:"));
    [split; (reflexivity || discriminate)|].
  destruct (subsection_eqb sub SubDescription
            && test (match_anchored re_list_item line))%bool.
  { destruct (nonempty (trim (remove_match re_list_item line)));
      split; (reflexivity || discriminate). }
  destruct (JsString.eqb t (lit "reference_files:"));
    [split; (reflexivity || discriminate)|].
  destruct (subsection_eqb sub SubReferenceFiles
            && test (match_anchored re_list_item line))%bool.
  { destruct (indexOf (trim (remove_match re_list_item line)) (lit ": "));
      split; (reflexivity || discriminate). }
  destruct (JsString.eqb t (lit "output_files:"));
    [split; (reflexivity || discriminate)|].
  destruct (subsection_eqb sub SubOutputFiles
            && test (match_anchored re_list_item line))%bool.
  { destruct (nonempty (trim (remove_match re_list_item line)));
      split; (reflexivity || discriminate). }
  destruct (test (match_anchored re_key t));
    split; (reflexivity || discriminate).
Qed.

Lemma parseInt_nil (radix : option Z) : parseInt [] radix = NaN.
Proof. destruct radix; reflexivity. Qed.

(** On a common line the two bodies do the same. *)
Lemma body_agrees (l : jsstring) (o : AgentStatusTsx.pstate) :
  common_line l = true ->
  AgentStatusTsx.currentSection o <> Some AgentStatusTsx.SecLastCheckResult ->
  line_step l (upgrade_state o) = upgrade_state (AgentStatusTsx.body l o) /\
  AgentStatusTsx.currentSection (AgentStatusTsx.body l o)
  <> Some AgentStatusTsx.SecLastCheckResult.
Proof.
  unfold common_line. cbv zeta. intros H Hsec.
  apply andb_true_iff in H. destruct H as [H H3].
  apply andb_true_iff in H. destruct H as [H1 H2].
  apply negb_true_iff in H1, H2, H3.
  unfold line_step, body, AgentStatusTsx.body. cbn [nth].
  set (t := trim l) in *.
  destruct (nonempty t) eqn:Hne; cbn [negb];
    [|split; [reflexivity | exact Hsec]].
  destruct (startsWith t (lit "mission:"));
    [split; [reflexivity | discriminate]|].
  destruct (startsWith t (lit "process:"));
    [split; [reflexivity | discriminate]|].
  destruct (startsWith t (lit "current_stage_index:")).
  { cbn [andb] in H3.
    destruct (trim (substring_from 20 t)) as [|c v] eqn:Ev.
    - rewrite parseInt_nil in H3. discriminate H3.
    - cbn [nonempty andb]. rewrite H3. cbn [negb].
      split; [reflexivity | discriminate]. }
  destruct (startsWith t (lit "current_stage_name:"));
    [split; [reflexivity | discriminate]|].
  rewrite H1.
  destruct (JsString.eqb t (lit "stage_list:"));
    [split; [reflexivity | discriminate]|].
  destruct (startsWith t (lit "current_task:")) eqn:Ect.
  { cbn [andb] in H2. rewrite H2. cbn [andb].
    destruct (startsWith_app _ _ Ect) as [rest Et].
    assert (Hrest : rest = []).
    { apply (key_alone l (lit "current_task:") rest Et).
      destruct (trim (substring_from 13 t)) eqn:Ev; [|discriminate H2].
      rewrite Et in Ev. exact Ev. }
    subst rest. rewrite app_nil_r in Et. rewrite Et, jseqb_refl.
    split; [reflexivity | discriminate]. }
  replace (JsString.eqb t (lit "current_task:")) with false.
  2:{ symmetry. apply jseqb_neq. intros E. rewrite E in Ect.
      discriminate Ect. }
  destruct o as [[m sl p ct csi nm lcr] sec sub cur].
  cbn [AgentStatusTsx.currentSection] in Hsec.
  destruct sec as [[| |]|]; [congruence | | |].
  - apply (stage_list_line_agrees l t
             (AgentStatusTsx.mkP
                (AgentStatusTsx.mkStatus m sl p ct csi nm lcr)
                (Some AgentStatusTsx.SecStageList) sub cur)).
    reflexivity.
  - apply (current_task_line_agrees l t
             (AgentStatusTsx.mkP
                (AgentStatusTsx.mkStatus m sl p ct csi nm lcr)
                (Some AgentStatusTsx.SecCurrentTask) sub cur)).
    reflexivity.
  - split; [reflexivity | discriminate].
Qed.

Lemma scan_agrees (lines : list jsstring) :
  Forall (fun l => common_line l = true) lines ->
  forall o,
  AgentStatusTsx.currentSection o <> Some AgentStatusTsx.SecLastCheckResult ->
  scan lines (upgrade_state o)
  = upgrade_state (fold_left (fun st line => AgentStatusTsx.body line st)
                     lines o).
Proof.
  induction 1 as [|l lines Hl _ IH]; intros o Hsec; [reflexivity|].
  cbn [fold_left]. change (scan (l :: lines) ?st)
    with (scan lines (line_step l st)).
  destruct (body_agrees l o Hl Hsec) as [-> Hsec'].
  now apply IH.
Qed.

Lemma common_line_plain (lines : list jsstring) :
  Forall (fun l => common_line l = true) lines ->
  no_check_result_line lines.
Proof.
  intros H. eapply Forall_impl; [|exact H].
  intros l Hl. unfold common_line in Hl. cbv zeta in Hl.
  apply andb_true_iff in Hl. destruct Hl as [Hl _].
  apply andb_true_iff in Hl. destruct Hl as [Hl _].
  now apply negb_true_iff in Hl.
Qed.

(** X14: the parser of [App.tsx] and the parser of [AgentStatus.tsx] give
    the same record on every text that has no [last_check_result:] line,
    no [current_task:] line with text after the colon and no
    [current_stage_index:] line whose value is not a number; these three
    cases are all that the two versions treat differently. *)
Theorem X14_versions_agree (statusText : jsstring) :
  Forall (fun l => common_line l = true) (split 10 statusText) ->
  parseStatusResponse statusText
  = Returned (upgrade (AgentStatusTsx.parseStatusResponse statusText)).
Proof.
  intros H. unfold parseStatusResponse, AgentStatusTsx.parseStatusResponse.
  rewrite parseLines_scan by (now apply common_line_plain).
  change initial_state with (upgrade_state AgentStatusTsx.initial_state).
  rewrite (scan_agrees _ H) by discriminate.
  f_equal.
  destruct (fold_left _ _ _) as [[m sl p ct csi nm lcr] sec sub [s|]];
    reflexivity.
Qed.

Lemma X14_versions_agree_witness :
  parseStatusResponse sample_status
  = Returned (upgrade (AgentStatusTsx.parseStatusResponse sample_status)).
Proof.
  apply (X14_versions_agree sample_status).
  apply Forall_forall. apply forallb_forall. vm_compute. reflexivity.
Defined.

(** ** The content extractor, beyond the error envelope *)

Lemma find_text_item_first (before after : list jsval) (item : jsval) :
  Forall not_text_item before -> text_item item ->
  find_text_item (before ++ item :: after) = Some item.
Proof.
  unfold find_text_item, not_text_item, text_item.
  induction 1 as [|x before Hx _ IH]; intros Hitem; simpl.
  - now rewrite Hitem.
  - rewrite Hx. now apply IH.
Qed.

Section ExtractorMore.
Variable JSON_parse : jsstring -> option jsval.
Variable JSON_stringify : jsval -> jsval.
Variable Number_toString : Z -> Z -> jsstring.

(** X15: the first element of [content] with [type] ["text"] decides,
    whatever comes after it. If its [text] is a non-empty string that does
    not contain ["error"] (with the quotes), that string is returned as it
    is; if its [text] is missing or falsy, the whole result is returned as
    JSON, even when a later element has a text. *)
Theorem X15_first_text_item_decides (o : dict jsval)
    (before after : list jsval) (item : jsval) :
  dict_get (lit "content") o = Some (VArray (before ++ item :: after)) ->
  Forall not_text_item before -> text_item item ->
  (forall text,
     property item (lit "text") = VString text -> text <> [] ->
     includes text (litq "'error'") = false ->
     extractTextContent JSON_parse JSON_stringify Number_toString (VObject o)
     = Returned (VString text)) /\
  (truthy (property item (lit "text")) = false ->
   extractTextContent JSON_parse JSON_stringify Number_toString (VObject o)
   = Returned (JSON_stringify (VObject o))).
Proof.
  intros Hc Hb Hi. unfold extractTextContent.
  rewrite Hc, (find_text_item_first before after item Hb Hi). split.
  - intros text Ht Hne Herr. rewrite Ht. cbn [truthy].
    destruct text; [congruence|]. cbn [nonempty]. now rewrite Herr.
  - intros Hf. now rewrite Hf.
Qed.

(** X16: what the extractor returns is always one of three things: the
    JSON of its argument, the [text] of the first text item as it is, or a
    string that starts with [error: ]. *)
Theorem X16_three_results (data : jsval) :
  exists v,
    extractTextContent JSON_parse JSON_stringify Number_toString data
    = Returned v /\
    (v = JSON_stringify data \/
     (exists o content item,
        data = VObject o /\
        dict_get (lit "content") o = Some (VArray content) /\
        find_text_item content = Some item /\
        v = property item (lit "text") /\ truthy v = true) \/
     (exists msg, v = VString (lit "error: " ++ msg))).
Proof.
  unfold extractTextContent, try_catch.
  destruct data as [| | b | m e | s | items | o];
    try (eexists; split; [reflexivity | left; reflexivity]).
  destruct (dict_get (lit "content") o) as [[| | | | | content |]|] eqn:Hc;
    try (eexists; split; [reflexivity | left; reflexivity]).
  destruct (find_text_item content) as [item|] eqn:Hf;
    [|eexists; split; [reflexivity | left; reflexivity]].
  destruct (truthy (property item (lit "text"))) eqn:Ht;
    [|eexists; split; [reflexivity | left; reflexivity]].
  assert (Hsame : exists o0 content0 item0,
             VObject o = VObject o0 /\
             dict_get (lit "content") o0 = Some (VArray content0) /\
             find_text_item content0 = Some item0 /\
             property item (lit "text") = property item0 (lit "text") /\
             truthy (property item (lit "text")) = true)
    by (exists o, content, item; auto).
  destruct (property item (lit "text")) as [| | | | t | |] eqn:Hp;
    try (eexists; split; [reflexivity | right; left; exact Hsame]).
  destruct (includes t (litq "'error'"));
    [|eexists; split; [reflexivity | right; left; exact Hsame]].
  unfold error_check, try_catch.
  destruct (JSON_parse t) as [parsed|];
    [|eexists; split; [reflexivity | right; left; exact Hsame]].
  cbn [bind].
  destruct (get_property parsed (lit "error")) as [err| |] eqn:He;
    cbn [bind].
  - destruct (truthy err).
    + pose proof (ToStringV_no_fuel Number_toString err) as Hfuel.
      destruct (ToStringV Number_toString err) as [msg| |]; cbn [bind].
      * eexists. split; [reflexivity|]. right. right. now exists msg.
      * eexists. split; [reflexivity | right; left; exact Hsame].
      * congruence.
    + eexists. split; [reflexivity | right; left; exact Hsame].
  - eexists. split; [reflexivity | right; left; exact Hsame].
  - destruct parsed; discriminate He.
Qed.

(** *** From the reply to the status *)

Lemma error_line_no_key (msg : jsstring) :
  top_level_key (trim (lit "error: " ++ msg)) = false.
Proof.
  assert (Ht : trim (lit "error: " ++ msg)
               = lit "error:" ++ trimEnd (32%N :: msg)).
  { apply (trim_keyed_line [] (lit "rror") (32%N :: msg) 101%N);
      [constructor | reflexivity]. }
  rewrite Ht. now apply top_level_key_first.
Qed.

(** X17: an error of the tool does not become an error of the page. When
    the payload is an error envelope with a message of one line,
    [fetchStatus] gets the text [error: message] from the extractor and
    parses it like a status: nothing in it is a key, so the page is given
    the empty record, and nothing is thrown that would set its error. *)
Theorem X17_tool_error_is_an_empty_status (data : jsval)
    (text msg : jsstring) (parsed : jsval) :
  has_text_payload data text ->
  includes text (litq "'error'") = true ->
  JSON_parse text = Some parsed ->
  get_property parsed (lit "error") = Returned (VString msg) ->
  msg <> [] -> one_line msg ->
  status_of_result JSON_parse JSON_stringify Number_toString data
  = Returned empty_record.
Proof.
  intros Hp Hinc Hparse Herr Hmsg Hline. unfold status_of_result.
  rewrite (extract_text_payload JSON_parse JSON_stringify Number_toString
             data text Hp Hinc).
  unfold error_check. rewrite Hparse. cbn [bind try_catch]. rewrite Herr.
  cbn [bind truthy]. destruct msg as [|c msg]; [congruence|].
  cbn [nonempty ToStringV bind].
  apply no_key_no_status.
  rewrite split_one_line.
  - constructor; [apply error_line_no_key | constructor].
  - apply one_line_app; [|exact Hline].
    repeat (constructor; [discriminate|]). constructor.
Qed.

End ExtractorMore.

Lemma X15_first_text_item_decides_witness :
  extractTextContent Json.parse (fun _ => VUndefined) (fun _ _ => [])
    (VObject
       [(lit "content",
         VArray [VObject [(lit "type", VString (lit "image"))];
                 VObject [(lit "type", VString (lit "text"));
                          (lit "text", VString (lit "mission: m"))];
                 VObject [(lit "type", VString (lit "text"));
                          (lit "text", VString (lit "mission: n"))]])])
  = Returned (VString (lit "mission: m")).
Proof.
  apply (proj1 (X15_first_text_item_decides Json.parse (fun _ => VUndefined)
                  (fun _ _ => [])
                  [(lit "content",
                    VArray [VObject [(lit "type", VString (lit "image"))];
                            VObject [(lit "type", VString (lit "text"));
                                     (lit "text", VString (lit "mission: m"))];
                            VObject [(lit "type", VString (lit "text"));
                                     (lit "text", VString (lit "mission: n"))]])]
                  [VObject [(lit "type", VString (lit "image"))]]
                  [VObject [(lit "type", VString (lit "text"));
                            (lit "text", VString (lit "mission: n"))]]
                  (VObject [(lit "type", VString (lit "text"));
                            (lit "text", VString (lit "mission: m"))])
                  eq_refl ltac:(repeat constructor) eq_refl)).
  - reflexivity.
  - discriminate.
  - reflexivity.
Defined.

Lemma X17_tool_error_is_an_empty_status_witness :
  status_of_result Json.parse (fun _ => VUndefined) (fun _ _ => [])
    (text_result (litq "{'error':'bad arg'}"))
  = Returned empty_record.
Proof.
  apply (X17_tool_error_is_an_empty_status Json.parse (fun _ => VUndefined)
           (fun _ _ => []) (text_result (litq "{'error':'bad arg'}"))
           (litq "{'error':'bad arg'}") (lit "bad arg")
           (VObject [(lit "error", VString (lit "bad arg"))])).
  - apply text_result_payload.
  - reflexivity.
  - reflexivity.
  - reflexivity.
  - discriminate.
  - repeat (constructor; [discriminate|]). constructor.
Defined.

(** ** The choice of the status tool *)

Section StatusToolFacts.
Variable toLowerCase : jsstring -> jsstring.

(** The three tests of the callback come to one: the name contains
    [status]. *)
Lemma is_status_tool_includes (tool : jsval) (n : jsstring) :
  get_property tool (lit "name") = Returned (VString n) ->
  is_status_tool toLowerCase tool
  = Returned (includes (toLowerCase n) (lit "status")).
Proof.
  intros Hn. unfold is_status_tool. rewrite Hn. cbn [bind]. f_equal.
  destruct (JsString.eqb (toLowerCase n) (lit "status")) eqn:E1.
  - apply jseqb_eq in E1. now rewrite E1.
  - destruct (JsString.eqb (toLowerCase n) (lit "agentstatus")) eqn:E2.
    + apply jseqb_eq in E2. now rewrite E2.
    + reflexivity.
Qed.

Lemma find_first_none (l : list jsval) :
  Forall (other_tool toLowerCase) l ->
  find_first (is_status_tool toLowerCase) l = Returned None.
Proof.
  induction 1 as [|x l (n & Hn & Hx) _ IH]; [reflexivity|].
  cbn [find_first]. rewrite (is_status_tool_includes x n Hn), Hx.
  exact IH.
Qed.

Lemma find_first_hit (before after : list jsval) (tool : jsval) :
  Forall (other_tool toLowerCase) before -> status_named toLowerCase tool ->
  find_first (is_status_tool toLowerCase) (before ++ tool :: after)
  = Returned (Some tool).
Proof.
  intros Hb (n & Hn & Ht).
  induction Hb as [|x l (m & Hm & Hx) _ IH].
  - cbn [app find_first]. now rewrite (is_status_tool_includes tool n Hn), Ht.
  - cbn [app find_first]. rewrite (is_status_tool_includes x m Hm), Hx.
    exact IH.
Qed.

(** X18: [fetchStatus] calls the first tool of the list whose name, in
    lower case, contains [status] (the two exact names that the code also
    tests for are such names), whatever tools come after it; and when the
    reply has no [tools] or no tool has such a name, it fails with
    [Status tool not found in available tools]. *)
Theorem X18_status_tool_choice (o : dict jsval) :
  (forall before tool after,
     dict_get (lit "tools") o = Some (VArray (before ++ tool :: after)) ->
     Forall (other_tool toLowerCase) before ->
     status_named toLowerCase tool ->
     status_tool_or_error toLowerCase (VObject o) = Returned tool) /\
  (forall tools,
     dict_get (lit "tools") o = Some (VArray tools) ->
     Forall (other_tool toLowerCase) tools ->
     status_tool_or_error toLowerCase (VObject o)
     = Threw (lit "Status tool not found in available tools")) /\
  (dict_get (lit "tools") o = None ->
   status_tool_or_error toLowerCase (VObject o)
   = Threw (lit "Status tool not found in available tools")).
Proof.
  unfold status_tool_or_error, statusTool. cbn [get_property bind].
  repeat split.
  - intros before tool after -> Hb Ht.
    now rewrite (find_first_hit before after tool Hb Ht).
  - intros tools -> Hall. now rewrite (find_first_none tools Hall).
  - intros ->. reflexivity.
Qed.

End StatusToolFacts.

Lemma X18_status_tool_choice_witness :
  status_tool_or_error (fun s => s)
    (VObject
       [(lit "tools",
         VArray [VObject [(lit "name", VString (lit "echo"))];
                 VObject [(lit "name", VString (lit "agent_status"))];
                 VObject [(lit "name", VString (lit "status"))]])])
  = Returned (VObject [(lit "name", VString (lit "agent_status"))]).
Proof.
  apply (proj1 (X18_status_tool_choice (fun s => s)
                  [(lit "tools",
                    VArray [VObject [(lit "name", VString (lit "echo"))];
                            VObject [(lit "name",
                                      VString (lit "agent_status"))];
                            VObject [(lit "name", VString (lit "status"))]])])
           [VObject [(lit "name", VString (lit "echo"))]]
           (VObject [(lit "name", VString (lit "agent_status"))])
           [VObject [(lit "name", VString (lit "status"))]]).
  - reflexivity.
  - constructor; [|constructor]. exists (lit "echo"). split; reflexivity.
  - exists (lit "agent_status"). split; reflexivity.
Defined.

(** ** The block under [last_check_result:] *)

(** Where the search after a [last_check_result:] line leaves the index:
    the loop goes on at the next line that is not passed over. *)
Lemma skip_block_read (lines : list jsstring) :
  forall rest j i,
  skipn j lines = rest -> (1 <= j <= length lines)%nat ->
  (j = length lines -> i = (length lines - 1)%nat) ->
  (j <= S (skip_block rest (length lines) j i) <= length lines)%nat /\
  read_lines false (skipn (S (skip_block rest (length lines) j i)) lines)
  = read_lines true rest.
Proof.
  induction rest as [|l rest IH]; intros j i Hrest Hj Hlast.
  - assert (j = length lines).
    { apply (f_equal (@length _)) in Hrest. rewrite length_skipn in Hrest.
      simpl in Hrest. lia. }
    cbn [skip_block]. rewrite (Hlast H).
    replace (S (length lines - 1)) with (length lines) by lia.
    rewrite skipn_all. split; [lia | reflexivity].
  - assert (Hlt : (j < length lines)%nat).
    { apply (f_equal (@length _)) in Hrest. rewrite length_skipn in Hrest.
      simpl in Hrest. lia. }
    assert (Hnext : skipn (S j) lines = rest).
    { rewrite (skipn_nth lines j Hlt) in Hrest. now inversion Hrest. }
    cbn [skip_block read_lines]. unfold passed_over.
    destruct (nonempty (trim l) && negb (test (match_anchored re_indent l)))%bool.
    + replace (S (j - 1)) with j by lia. rewrite Hrest.
      split; [lia | reflexivity].
    + cbn [negb andb].
      destruct (IH (S j) (if Nat.eqb j (length lines - 1) then j else i)
                  Hnext ltac:(lia)) as [Hb Hr].
      * intros E. replace (Nat.eqb j (length lines - 1)) with true; [lia|].
        symmetry. apply Nat.eqb_eq. lia.
      * split; [lia | exact Hr].
Qed.

(** A [last_check_result:] line at the margin, alone: the result gets the
    empty object and the section is closed. *)
Lemma line_step_check_result (l : jsstring) (st : pstate) :
  is_check_result_line l = true ->
  test (match_anchored re_indent l) = false ->
  line_step l st
  = set_section None
      (set_result (set_last_check_result empty_check_result (result st)) st).
Proof.
  intros Hkey Hind. unfold line_step.
  now rewrite (check_result_line [l] 0 st) by (cbn [nth length]; auto).
Qed.

(** The loop is a scan of the lines it comes to. *)
Lemma loop_read (lines : list jsstring) :
  forall fuel i st,
  (i <= length lines)%nat -> (length lines - i <= fuel)%nat ->
  Forall key_at_margin (read_lines false (skipn i lines)) ->
  loop fuel lines i st
  = Returned (scan (read_lines false (skipn i lines)) st).
Proof.
  induction fuel as [|fuel IH]; intros i st Hi Hfuel Hkeys.
  - assert (i = length lines) by lia. subst i.
    cbn [loop]. rewrite Nat.leb_refl, skipn_all. reflexivity.
  - cbn [loop]. destruct (Nat.leb (length lines) i) eqn:E.
    + apply Nat.leb_le in E. assert (i = length lines) by lia. subst i.
      now rewrite skipn_all.
    + apply Nat.leb_gt in E.
      rewrite (skipn_nth lines i E) in Hkeys |- *.
      cbn [read_lines andb] in Hkeys |- *.
      destruct (is_check_result_line (nth i lines [])) eqn:Hkey.
      * assert (Hind : test (match_anchored re_indent (nth i lines [])) = false)
          by (apply (Forall_inv Hkeys); exact Hkey).
        rewrite (check_result_line lines i st E Hkey Hind). cbn [bind].
        destruct (skip_block_read lines (skipn (S i) lines) (S i) i
                    eq_refl ltac:(lia) ltac:(lia)) as [Hb Hr].
        rewrite IH; [| lia | lia |].
        -- rewrite Hr. cbn [scan fold_left].
           now rewrite (line_step_check_result _ st Hkey Hind).
        -- rewrite Hr. exact (Forall_inv_tail Hkeys).
      * rewrite (body_line_step lines i st Hkey). cbn [bind].
        rewrite IH; [reflexivity | lia | lia | exact (Forall_inv_tail Hkeys)].
Qed.

Lemma parseLines_read (lines : list jsstring) :
  Forall key_at_margin (read_lines false lines) ->
  parseLines lines
  = Returned (after_loop (scan (read_lines false lines) initial_state)).
Proof.
  intros H. unfold parseLines.
  rewrite (loop_read lines (length lines) 0 initial_state) by (auto; lia).
  reflexivity.
Qed.

Lemma read_lines_In (x : jsstring) (lines : list jsstring) :
  forall b, In x (read_lines b lines) -> In x lines.
Proof.
  induction lines as [|l lines IH]; intros b H; [exact H|].
  cbn [read_lines] in H. destruct (b && passed_over l)%bool.
  - right. exact (IH _ H).
  - destruct H as [<- | H]; [now left | right; exact (IH _ H)].
Qed.

(** The lines of a block after the key are not come to. *)
Lemma read_lines_block (pre block post : list jsstring) (key : jsstring) :
  is_check_result_line key = true ->
  Forall (fun l => passed_over l = true) block ->
  forall b,
  read_lines b (pre ++ key :: block ++ post)
  = read_lines b (pre ++ key :: post).
Proof.
  intros Hkey Hblock.
  assert (Hskip : read_lines true (block ++ post) = read_lines true post).
  { induction Hblock as [|l block Hl _ IH]; [reflexivity|].
    cbn [app read_lines]. now rewrite Hl. }
  induction pre as [|l pre IH]; intros b; cbn [app read_lines].
  - rewrite Hkey, Hskip. reflexivity.
  - now rewrite !IH.
Qed.

(** X19: what stands under a [last_check_result:] line has no part in the
    result. In a text whose [last_check_result:] lines start at the margin,
    the blank and indented lines that follow such a line can be taken out:
    the text with them and the text without them give the same record. *)
Theorem X19_check_result_block_is_skipped
    (pre block post : list jsstring) (key : jsstring) :
  is_check_result_line key = true ->
  Forall key_at_margin (pre ++ key :: post) ->
  Forall (fun l => passed_over l = true) block ->
  Forall one_line (pre ++ key :: block ++ post) ->
  exists r,
    parseStatusResponse (join_lines (pre ++ key :: block ++ post))
    = Returned r /\
    parseStatusResponse (join_lines (pre ++ key :: post)) = Returned r.
Proof.
  intros Hkey Hkeys Hblock Hlines.
  assert (Hread : Forall key_at_margin (read_lines false (pre ++ key :: post))).
  { apply Forall_forall. intros x Hx.
    rewrite Forall_forall in Hkeys. apply Hkeys.
    exact (read_lines_In _ _ _ Hx). }
  assert (Hshort : Forall one_line (pre ++ key :: post)).
  { apply Forall_forall. intros x Hx.
    rewrite Forall_forall in Hlines. apply Hlines.
    apply in_app_or in Hx. apply in_or_app.
    destruct Hx as [Hx | [<- | Hx]]; [now left | right; now left |].
    right. right. apply in_or_app. now right. }
  assert (E2 : parseStatusResponse (join_lines (pre ++ key :: post))
               = Returned
                   (after_loop
                      (scan (read_lines false (pre ++ key :: post))
                         initial_state))).
  { unfold parseStatusResponse.
    destruct (pre ++ key :: post) as [|l ls] eqn:E;
      [now destruct pre|].
    rewrite split_join_lines by exact Hshort.
    now apply parseLines_read. }
  assert (E1 : parseStatusResponse (join_lines (pre ++ key :: block ++ post))
               = Returned
                   (after_loop
                      (scan (read_lines false (pre ++ key :: post))
                         initial_state))).
  { unfold parseStatusResponse.
    rewrite <- (read_lines_block pre block post key Hkey Hblock false).
    destruct (pre ++ key :: block ++ post) as [|l ls] eqn:E;
      [now destruct pre|].
    rewrite split_join_lines by exact Hlines.
    apply parseLines_read. rewrite <- E.
    now rewrite (read_lines_block pre block post key Hkey Hblock false). }
  eexists. split; [exact E1 | exact E2].
Qed.

Lemma X19_check_result_block_is_skipped_witness :
  exists r,
    parseStatusResponse
      (join_lines ([lit "mission: m"] ++ lit "last_check_result:"
                   :: block_lines ++ [lit "process: 0/1"]))
    = Returned r /\
    parseStatusResponse
      (join_lines ([lit "mission: m"] ++ lit "last_check_result:"
                   :: [lit "process: 0/1"]))
    = Returned r.
Proof.
  apply (X19_check_result_block_is_skipped
           [lit "mission: m"] block_lines [lit "process: 0/1"]
           (lit "last_check_result:")).
  - reflexivity.
  - repeat constructor; intros H; first [discriminate H | reflexivity].
  - repeat constructor.
  - repeat (constructor; [one_line_lit|]). constructor.
Defined.

(** ** The check result *)

Lemma lcr_loop_stop (stop : jsstring) (rest : list jsstring) (st : lcr_state) :
  starts_next_property stop = true ->
  lcr_loop (stop :: rest) st = Returned st.
Proof.
  unfold starts_next_property. intros H. cbn [lcr_loop].
  apply andb_true_iff in H. destruct H as [H H5].
  apply andb_true_iff in H. destruct H as [H H4].
  apply andb_true_iff in H. destruct H as [H H3].
  apply andb_true_iff in H. destruct H as [H1 H2].
  now rewrite H1, H2, H3, H4, H5.
Qed.

Lemma lcr_loop_app_stop (block rest : list jsstring) (stop : jsstring) :
  starts_next_property stop = true ->
  forall st, lcr_loop (block ++ stop :: rest) st = lcr_loop block st.
Proof.
  intros Hstop. induction block as [|l block IH]; intros st.
  - now apply lcr_loop_stop.
  - cbn [app lcr_loop].
    destruct (negb (nonempty (trim l))); [apply IH|].
    match goal with |- context [if ?c then Returned st else _] => destruct c end;
      [reflexivity|].
    destruct (lcr_line l st); cbn [bind]; auto.
Qed.

(** X20: [parseLastCheckResult] is handed all the lines that are left of
    the text, and reads them up to the next top-level property only: what
    stands from that line on has no part in the result. *)
Theorem X20_check_result_ends_at_next_property
    (block rest : list jsstring) (stop : jsstring) :
  starts_next_property stop = true ->
  exists r,
    parseLastCheckResult (block ++ stop :: rest) = Returned r /\
    parseLastCheckResult block = Returned r.
Proof.
  intros Hstop.
  destruct (parseLastCheckResult_returns block) as [r E].
  exists r. split; [|exact E].
  unfold parseLastCheckResult in *.
  now rewrite lcr_loop_app_stop.
Qed.

Lemma X20_check_result_ends_at_next_property_witness :
  exists r,
    parseLastCheckResult
      ([lit "  last_check_result:"; lit "    check_pass: true"]
       ++ lit "process: 0/1" :: [lit "    check_pass: false"])
    = Returned r /\
    parseLastCheckResult [lit "  last_check_result:"; lit "    check_pass: true"]
    = Returned r.
Proof.
  apply (X20_check_result_ends_at_next_property
           [lit "  last_check_result:"; lit "    check_pass: true"]
           [lit "    check_pass: false"] (lit "process: 0/1")).
  reflexivity.
Defined.

(** *** The kinds of the values *)

Lemma dict_get_put {A} (k k0 : jsstring) (v : A) (d : dict A) :
  dict_get k (dict_put k0 v d)
  = if JsString.eqb k k0 then Some v else dict_get k d.
Proof.
  destruct (JsString.eqb k k0) eqn:E.
  - apply jseqb_eq in E. subst. apply dict_get_put_same.
  - now apply dict_get_put_other.
Qed.

Lemma typed_put (o : dict ci_value) (k : jsstring) (v : ci_value) :
  typed_entry o -> typed_value k v -> typed_entry (dict_put k v o).
Proof.
  intros [[n Hn] Hall] Hv. split.
  - rewrite dict_get_put.
    destruct (JsString.eqb (lit "name") k) eqn:E; [|now exists n].
    apply jseqb_eq in E. subst k.
    destruct v as [s|x|l]; [now exists s | |];
      cbv [typed_value] in Hv; [destruct Hv as [_ Hv]|]; discriminate Hv.
  - intros k' v'. rewrite dict_get_put.
    destruct (JsString.eqb k' k) eqn:E; [|apply Hall].
    apply jseqb_eq in E. subst k'. intros H. now inversion H; subst.
Qed.

Lemma typed_new_entry (name : jsstring) :
  typed_entry [(lit "name", CStr name)].
Proof.
  split; [now exists name|].
  intros k v. cbn [dict_get].
  destruct (JsString.eqb k (lit "name")) eqn:E; [|discriminate].
  apply jseqb_eq in E. subst k. intros H. inversion H; subst.
  split; reflexivity.
Qed.

Lemma typed_store (obj : dict ci_value) (before : list (dict ci_value)) :
  typed_entry obj -> Forall typed_entry before ->
  Forall typed_entry (rev (obj :: before)).
Proof. intros Ho Hb. apply Forall_rev. now constructor. Qed.

(** The array that an item is pushed to. *)
Lemma typed_last_msg (o : dict ci_value) :
  typed_entry o -> ci_truthy (dict_get (lit "last_msg") o) = true ->
  exists l, dict_get (lit "last_msg") o = Some (CArr l).
Proof.
  intros [_ Hall] Ht.
  destruct (dict_get (lit "last_msg") o) as [[s|n|l]|] eqn:E;
    [| | now exists l | discriminate Ht];
    apply Hall in E; destruct E as [E _]; discriminate E.
Qed.

(** One line of [parseLastCheckResult] keeps the entries well typed and
    [check_info] out of the result that is being built. *)
Lemma lcr_line_typed (line : jsstring) (st : lcr_state) :
  Forall typed_entry (checkInfoArray st) ->
  check_info (lcr_result st) = None ->
  exists st', lcr_line line st = Returned st' /\
              Forall typed_entry (checkInfoArray st') /\
              check_info (lcr_result st') = None.
Proof.
  intros Hgood Hnone. unfold lcr_line.
  destruct (JsString.eqb (trim line) (lit "check_info:")); [eauto|].
  destruct (insideCheckInfo st).
  - destruct (test (match_anchored re_name_start line)).
    + destruct (search re_name line) as [[[|name caps] r]|]; eauto.
      eexists. split; [reflexivity|]. split; [|exact Hnone]. simpl.
      apply Forall_app. split; [exact Hgood|].
      constructor; [|constructor]. apply typed_new_entry.
    + destruct (rev (checkInfoArray st)) as [|currentObj before] eqn:E; [eauto|].
      assert (Hrev : Forall typed_entry (currentObj :: before))
        by (rewrite <- E; now apply Forall_rev).
      pose proof (Forall_inv Hrev) as Hcur.
      pose proof (Forall_inv_tail Hrev) as Hbefore.
      destruct (match_anchored re_property line)
        as [[[|property [|value caps]] r]|].
      3:{ (* a property line *)
          cbv zeta. fold (is_array_key property). fold (is_count_key property).
          destruct (is_array_key property) eqn:E1.
          { eexists. split; [reflexivity|]. split; [|exact Hnone].
            cbn [checkInfoArray].
            apply typed_store; [|exact Hbefore].
            apply typed_put; [exact Hcur | exact E1]. }
          destruct (is_count_key property) eqn:E2.
          { eexists. split; [reflexivity|]. split; [|exact Hnone].
            cbn [checkInfoArray].
            apply typed_store; [|exact Hbefore].
            apply typed_put; [exact Hcur | split; assumption]. }
          eexists. split; [reflexivity|]. split; [|exact Hnone].
          cbn [checkInfoArray].
          apply typed_store; [|exact Hbefore].
          unfold dict_set_string.
          destruct (JsString.eqb property (lit "__proto__")); [exact Hcur|].
          apply typed_put; [exact Hcur | split; assumption]. }
      all: (* not a property line *)
        cbv zeta;
        destruct ((test (match_anchored re_list_item line)
                   && includes line (lit "last_msg:"))
                  || includes line (lit "description:"))%bool; [|eauto];
        destruct (match_anchored re_array_item line) as [[[|item caps'] r']|];
        eauto;
        unfold push_last_msg;
        (destruct (ci_truthy (dict_get (lit "last_msg") currentObj)) eqn:Et;
         [ destruct (typed_last_msg currentObj Hcur Et) as [l ->]
         | rewrite dict_get_put_same ];
         cbn [bind]; eexists; (split; [reflexivity|]);
         (split; [|exact Hnone]); cbn [checkInfoArray];
         apply typed_store; try exact Hbefore;
         repeat (apply typed_put; [|reflexivity]); exact Hcur).
  - destruct (startsWith (trim line) (lit "check_pass:")); eauto.
Qed.

Lemma lcr_loop_typed (lines : list jsstring) :
  forall st,
  Forall typed_entry (checkInfoArray st) ->
  check_info (lcr_result st) = None ->
  exists st', lcr_loop lines st = Returned st' /\
              Forall typed_entry (checkInfoArray st') /\
              check_info (lcr_result st') = None.
Proof.
  induction lines as [|line rest IH]; intros st Hgood Hnone; cbn [lcr_loop];
    [eauto|].
  destruct (negb (nonempty (trim line))); [now apply IH|].
  match goal with |- context [if ?c then Returned st else _] => destruct c end;
    [eauto|].
  destruct (lcr_line_typed line st Hgood Hnone) as (st' & -> & Hgood' & Hnone').
  cbn [bind]. now apply IH.
Qed.

Lemma parseLastCheckResult_typed (lines : list jsstring) :
  exists r, parseLastCheckResult lines = Returned r /\ typed_check_result r.
Proof.
  unfold parseLastCheckResult.
  destruct (lcr_loop_typed lines (mkLcr (mkCheck None None) false []))
    as (st & -> & Hgood & Hnone); [constructor | reflexivity |].
  cbn [bind]. eexists. split; [reflexivity|].
  unfold typed_check_result.
  destruct (checkInfoArray st) as [|o arr] eqn:E.
  - now rewrite Hnone.
  - cbn [check_info]. split; [discriminate | exact Hgood].
Qed.

(** X21: whatever the text, the [last_check_result] of the record that the
    parser returns is absent or well typed: its [check_info] is absent or a
    non-empty array, every entry of it has a [name] that is a string,
    [last_msg] and [description] hold arrays and nothing else does,
    [count_pass], [count_fail] and [count_check] hold numbers and nothing
    else does, and every other property holds a string. *)
Theorem X21_check_result_is_typed (statusText : jsstring) :
  exists r,
    parseStatusResponse statusText = Returned r /\
    match last_check_result r with
    | Some c => typed_check_result c
    | None => True
    end.
Proof.
  unfold parseStatusResponse.
  destruct (parse_invariant
              (fun _ st =>
                 match last_check_result (result st) with
                 | Some c => typed_check_result c
                 | None => True
                 end) (split 10 statusText))
    as (st & E & _ & HP).
  - intros i st i' st' Hi Hobj HP Hbody.
    destruct (is_check_result_line (nth i (split 10 statusText) [])) eqn:Hkey.
    + revert Hbody. unfold body. unfold is_check_result_line in Hkey.
      destruct (startsWith_app _ _ Hkey) as [r Ht].
      set (lines := split 10 statusText) in *.
      set (trimmedLine := trim (nth i lines [])) in *.
      assert (E1 : nonempty trimmedLine = true) by (now rewrite Ht).
      assert (E2 : startsWith trimmedLine (lit "mission:") = false)
        by (now rewrite Ht).
      assert (E3 : startsWith trimmedLine (lit "process:") = false)
        by (now rewrite Ht).
      assert (E4 : startsWith trimmedLine (lit "current_stage_index:") = false)
        by (now rewrite Ht).
      assert (E5 : startsWith trimmedLine (lit "current_stage_name:") = false)
        by (now rewrite Ht).
      cbv zeta. fold trimmedLine. rewrite E1, E2, E3, E4, E5, Hkey.
      cbn [negb].
      destruct (parseLastCheckResult_typed (skipn i lines)) as (c & -> & Hc).
      cbn [bind]. intros H. injection H as _ <-. exact Hc.
    + destruct (other_line_keeps_check_result _ _ _ _ _ Hkey Hbody)
        as [_ Hsame].
      now rewrite Hsame.
  - exact I.
  - exists (after_loop st). split; [exact E|].
    unfold after_loop. now destruct (currentStage st).
Qed.

(** ** The progress of the two pages *)

Lemma flag_is_true (o : option bool) : flag o = is_true o.
Proof. now destruct o as [[|]|]. Qed.

(** When [process] reports completion, the page of [App.tsx] counts the
    stages that are reached or skipped. *)
Lemma completedStages_complete (st : AgentStatus) :
  process_complete st = true -> indexed_by_position (stage_list st) ->
  completedStages st = length (filter reached_or_skipped (stage_list st)).
Proof.
  intros Hp Hpos. unfold completedStages, isStageCompleted. rewrite Hp.
  now rewrite filter_by_own_index.
Qed.

(** X22: on a finished run without skipped stages the two pages show the
    same percentage. When [process] reads [a/b] with [a >= b] and [a > 0],
    the page of [App.tsx] counts the stages that are reached or skipped and
    the page of [AgentStatus.tsx] the stages that are reached, so with
    indices equal to positions and no stage skipped [calculateProgress]
    returns the same number in both. *)
Theorem X22_pages_show_same_progress (r : AgentStatusTsx.AgentStatus)
    (a b : Z) :
  AgentStatusTsx.process r = Some (process_text a b) ->
  0 <= b <= a -> 0 < a ->
  indexed_by_position (AgentStatusTsx.stage_list r) ->
  Forall (fun s => is_true (is_skipped s) = false)
    (AgentStatusTsx.stage_list r) ->
  calculateProgress (Some (upgrade r))
  = AgentStatusTsx.calculateProgress (Some r).
Proof.
  intros Hp Hab Ha Hpos Hskip.
  assert (Hc : process_complete (upgrade r) = true)
    by (apply (process_complete_ge (upgrade r) a b); auto; lia).
  unfold calculateProgress, AgentStatusTsx.calculateProgress.
  rewrite (completedStages_complete (upgrade r) Hc Hpos).
  cbn [upgrade stage_list].
  replace (filter reached_or_skipped (AgentStatusTsx.stage_list r))
    with (filter (fun stage => flag (reached stage))
            (AgentStatusTsx.stage_list r)); [reflexivity|].
  apply filter_ext_in. intros s Hin.
  rewrite Forall_forall in Hskip. unfold reached_or_skipped.
  now rewrite (Hskip s Hin), orb_false_r, flag_is_true.
Qed.

Lemma X22_pages_show_same_progress_witness :
  calculateProgress (Some (upgrade finished_record))
  = AgentStatusTsx.calculateProgress (Some finished_record).
Proof.
  apply (X22_pages_show_same_progress finished_record 2 2).
  - reflexivity.
  - lia.
  - lia.
  - intros i s H. destruct i as [|[|i]]; simpl in H.
    + now inversion H.
    + now inversion H.
    + destruct i; discriminate.
  - repeat constructor.
Defined.

(** ** A line of a text and the lines around it *)

Lemma nth_in_pre (pre post : list jsstring) (line : jsstring) (i : nat) :
  (i < length pre)%nat -> In (nth i (pre ++ line :: post) []) pre.
Proof. intros H. rewrite app_nth1 by exact H. now apply nth_In. Qed.

Lemma nth_in_post (pre post : list jsstring) (line : jsstring) (i : nat) :
  (length pre < i)%nat -> (i < length (pre ++ line :: post))%nat ->
  In (nth i (pre ++ line :: post) []) post.
Proof.
  intros H1 H2. rewrite length_app in H2. cbn [length] in H2.
  rewrite app_nth2 by lia.
  destruct (i - length pre)%nat as [|n] eqn:E; [lia|].
  cbn [nth]. apply nth_In. lia.
Qed.

(** Before a line that the loop comes to, the body of the loop leaves the
    index before that line. *)
Lemma body_before (pre post : list jsstring) (line : jsstring)
    (i i' : nat) (st st' : pstate) :
  nonempty (trim line) = true ->
  loop_comes_to pre line ->
  (i < length pre)%nat ->
  body (pre ++ line :: post) i st = Returned (i', st') ->
  (i' < length pre)%nat.
Proof.
  intros Hne [Hind | Hno] Hi Hbody.
  - destruct (body_index _ _ _ _ _ Hbody) as [-> | ->]; [exact Hi|].
    apply (skip_block_stops (pre ++ line :: post) (length pre))
      with (n := (length pre - S i)%nat).
    + rewrite length_app. cbn [length]. lia.
    + rewrite nth_middle. split; assumption.
    + reflexivity.
    + lia.
    + lia.
  - assert (Hk : is_check_result_line (nth i (pre ++ line :: post) []) = false).
    { unfold no_check_result_line in Hno. rewrite Forall_forall in Hno.
      apply Hno. now apply nth_in_pre. }
    destruct (other_line_keeps_check_result _ _ _ _ _ Hk Hbody) as [-> _].
    exact Hi.
Qed.

(** Parsing a text around one of its lines, to which the loop comes:
    [I] is kept by the other lines and by the line, [Q] is set by the line
    and kept by the lines after it. *)
Lemma parse_after_line (pre post : list jsstring) (line : jsstring)
    (I Q : pstate -> Prop) :
  let lines := pre ++ line :: post in
  nonempty (trim line) = true ->
  loop_comes_to pre line ->
  I initial_state ->
  (forall i st i' st',
     In (nth i lines []) (pre ++ post) -> task_is_object st -> I st ->
     body lines i st = Returned (i', st') -> I st') ->
  (forall i st i' st',
     In (nth i lines []) post -> task_is_object st -> I st -> Q st ->
     body lines i st = Returned (i', st') -> Q st') ->
  (forall st, task_is_object st -> I st ->
     exists st',
       body lines (length pre) st = Returned (length pre, st') /\
       I st' /\ Q st') ->
  exists st,
    parseLines lines = Returned (after_loop st) /\ task_is_object st /\
    I st /\ Q st.
Proof.
  intros lines Hne Hreach H0 HI HQ Hk.
  assert (Hstep : forall i st i' st',
    (i < length lines)%nat -> task_is_object st ->
    I st /\ ((i <= length pre)%nat \/ Q st) ->
    body lines i st = Returned (i', st') ->
    I st' /\ ((S i' <= length pre)%nat \/ Q st')).
  { intros i st i' st' Hi Hobj [HIst Hor] Hbody.
    destruct (Nat.lt_trichotomy i (length pre)) as [Hlt | [-> | Hgt]].
    - split.
      + apply (HI i st i' st'); auto.
        apply in_or_app. left. now apply nth_in_pre.
      + left.
        pose proof (body_before pre post line i i' st st' Hne Hreach Hlt Hbody).
        lia.
    - destruct (Hk st Hobj HIst) as (st1 & Hb & HI1 & HQ1).
      rewrite Hb in Hbody. inversion Hbody; subst.
      split; [exact HI1 | right; exact HQ1].
    - assert (Hin : In (nth i lines []) post)
        by (apply nth_in_post; assumption).
      destruct Hor as [Hle | HQst]; [lia|].
      split.
      + apply (HI i st i' st'); auto. apply in_or_app. now right.
      + right. apply (HQ i st i' st'); auto. }
  destruct (parse_invariant
              (fun i st => I st /\ ((i <= length pre)%nat \/ Q st))
              lines Hstep)
    as (st & E & Hobj & HIst & Hor).
  - split; [exact H0 | left; lia].
  - exists st. repeat split; auto.
    destruct Hor as [Hle | HQst]; [|exact HQst].
    unfold lines in Hle. rewrite length_app in Hle. cbn [length] in Hle. lia.
Qed.

Lemma forallb_In (f : jsstring -> bool) (l : list jsstring) (x : jsstring) :
  forallb (fun y => negb (f y)) l = true -> In x l -> f x = false.
Proof.
  intros H Hin. rewrite forallb_forall in H.
  apply negb_true_iff. now apply H.
Qed.

(** ** [current_task] with text on its line *)

Lemma stage_list_line_section (line trimmedLine : jsstring) (st : pstate) :
  in_task_section st = false ->
  in_task_section (stage_list_line line trimmedLine st) = false.
Proof.
  unfold in_task_section, stage_list_line. intros H.
  destruct (test (match_anchored re_stage_start line)).
  - destruct (currentStage st); exact H.
  - destruct (currentStage st); [|exact H].
    destruct (match_anchored re_property line)
      as [[[|property [|value caps]] r]|];
      try exact H;
      destruct (test (match_anchored re_key trimmedLine));
      first [exact H | reflexivity].
Qed.

(** Only a [current_task:] line opens a [current_task] block. *)
Lemma body_section_kept (lines : list jsstring) (i i' : nat)
    (st st' : pstate) :
  is_current_task_line (nth i lines []) = false ->
  in_task_section st = false ->
  body lines i st = Returned (i', st') ->
  in_task_section st' = false.
Proof.
  unfold is_current_task_line. intros Hline Hsec.
  pose proof Hsec as Hsec'. unfold in_task_section in Hsec'.
  unfold body. rewrite Hline, Hsec'.
  case_conditions;
    try (intros H; inversion H; subst; first [reflexivity | exact Hsec]).
  - destruct (parseLastCheckResult (skipn i lines)); cbn [bind];
      intros H; inversion H; subst. reflexivity.
  - intros H; inversion H; subst. now apply stage_list_line_section.
Qed.

(** Outside a [current_task] block only a [current_task:] line changes
    [current_task]. *)
Lemma body_task_kept (lines : list jsstring) (i i' : nat) (st st' : pstate) :
  is_current_task_line (nth i lines []) = false ->
  in_task_section st = false ->
  body lines i st = Returned (i', st') ->
  current_task (result st') = current_task (result st).
Proof.
  unfold is_current_task_line, in_task_section. intros Hline Hsec.
  unfold body. rewrite Hline, Hsec.
  case_conditions;
    try (intros H; inversion H; subst; reflexivity).
  - destruct (parseLastCheckResult (skipn i lines)); cbn [bind];
      intros H; inversion H; subst. reflexivity.
  - intros H; inversion H; subst. apply stage_list_line_task.
Qed.

Lemma object_is_truthy (st : pstate) :
  task_is_object st -> task_truthy (current_task (result st)) = true.
Proof. intros [t ->]. reflexivity. Qed.

(** The record of a text with one [current_task:] line, which has text
    after the colon. *)
Lemma current_task_text_record (pre post : list jsstring) (line : jsstring) :
  is_current_task_line line = true ->
  nonempty (trim (substring_from 13 (trim line))) = true ->
  loop_comes_to pre line ->
  forallb (fun l => negb (is_current_task_line l)) (pre ++ post) = true ->
  exists r,
    parseLines (pre ++ line :: post) = Returned r /\
    current_task r = completed_task (trim (substring_from 13 (trim line))).
Proof.
  intros Hline Hvalue Hreach Hothers.
  set (value := trim (substring_from 13 (trim line))) in *.
  destruct (parse_after_line pre post line
              (fun st => in_task_section st = false)
              (fun st => current_task (result st) = completed_task value))
    as (st & E & _ & _ & HQ).
  - apply (starts_nonempty _ (lit "current_task:")); [discriminate | exact Hline].
  - exact Hreach.
  - reflexivity.
  - intros i st i' st' Hin _ HI Hbody.
    apply (body_section_kept _ _ _ _ _ (forallb_In _ _ _ Hothers Hin) HI Hbody).
  - intros i st i' st' Hin _ HI HQ Hbody.
    rewrite <- HQ.
    apply (body_task_kept _ _ _ _ _
             (forallb_In _ _ _ Hothers (in_or_app _ _ _ (or_intror Hin)))
             HI Hbody).
  - intros st Hobj HI. eexists. split; [|split].
    + apply current_task_text_line.
      * now rewrite nth_middle.
      * rewrite nth_middle. exact Hvalue.
      * now apply object_is_truthy.
    + exact HI.
    + rewrite nth_middle. reflexivity.
  - exists (after_loop st). split; [exact E|].
    now rewrite (proj2 (after_loop_fields st)).
Qed.

(** C4 (amended): the parser never produces the string variant, the
    [current_task] of every parsed record is an object; a [current_task:]
    line with text after the colon makes the body of the
    loop store the object [{title: text, description: ["Mission completed
    or no active task"], reference_files: {}, output_files: []}] and leave
    the section, the subsection and the open stage as they were, so that no
    [current_task] block is opened; and in a text in which this is the only
    [current_task:] line and to which the loop comes, whatever lines stand
    before and after it, that object is the [current_task] of the parsed
    record. *)
Theorem C4_current_task_text :
  (forall statusText,
     exists r,
       parseStatusResponse statusText = Returned r /\
       is_string_variant (current_task r) = false) /\
  (forall lines i st,
     is_current_task_line (nth i lines []) = true ->
     nonempty (trim (substring_from 13 (trim (nth i lines [])))) = true ->
     task_truthy (current_task (result st)) = true ->
     exists st',
       body lines i st = Returned (i, st') /\
       current_task (result st')
       = completed_task (trim (substring_from 13 (trim (nth i lines [])))) /\
       is_string_variant (current_task (result st')) = false /\
       currentSection st' = currentSection st /\
       currentSubsection st' = currentSubsection st /\
       currentStage st' = currentStage st) /\
  (forall statusText pre line post,
     split 10 statusText = pre ++ line :: post ->
     is_current_task_line line = true ->
     nonempty (trim (substring_from 13 (trim line))) = true ->
     loop_comes_to pre line ->
     forallb (fun l => negb (is_current_task_line l)) (pre ++ post) = true ->
     exists r,
       parseStatusResponse statusText = Returned r /\
       current_task r = completed_task (trim (substring_from 13 (trim line))) /\
       is_string_variant (current_task r) = false).
Proof.
  split; [|split].
  - intros statusText. unfold parseStatusResponse.
    destruct (parse_invariant (fun _ _ => True) (split 10 statusText))
      as (st & E & [t Ht] & _); [auto | exact I |].
    exists (after_loop st). split; [exact E|].
    now rewrite (proj2 (after_loop_fields st)), Ht.
  - intros lines i st Hline Hvalue Htask.
    eexists. split; [now apply current_task_text_line|].
    repeat split.
  - intros statusText pre line post Hsplit Hline Hvalue Hreach Hothers.
    unfold parseStatusResponse. rewrite Hsplit.
    destruct (current_task_text_record pre post line Hline Hvalue Hreach Hothers)
      as (r & E & Hr).
    exists r. split; [exact E|]. split; [exact Hr|]. now rewrite Hr.
Qed.

Lemma C4_current_task_text_witness :
  exists r,
    parseStatusResponse finished_status = Returned r /\
    current_task r = completed_task (lit "Mission completed") /\
    is_string_variant (current_task r) = false.
Proof.
  exact (proj2 (proj2 C4_current_task_text) finished_status
           [ lit "mission: Verify the Adder"; lit "stage_list:";
             lit "- index: 0"; lit "  title: Requirement analysis";
             lit "  reached: true"; lit "  time_cost: 1m 5s";
             lit "- index: 1"; lit "  title: Functional specification";
             lit "  reached: true"; lit "  is_skipped: false";
             lit "process: 2/2" ]
           (lit "current_task: Mission completed")
           [ lit "current_stage_index: null"; lit "current_stage_name: none";
             lit "last_check_result:"; lit "  check_pass: true" ]
           eq_refl eq_refl eq_refl (or_introl eq_refl) eq_refl).
Defined.

(** ** No active stage *)

Lemma update_task_stage_index (f : TaskInfo -> TaskInfo) (r : AgentStatus) :
  current_stage_index (update_task f r) = current_stage_index r.
Proof. unfold update_task. destruct (current_task r); reflexivity. Qed.

Lemma stage_list_line_stage_index (line trimmedLine : jsstring) (st : pstate) :
  current_stage_index (result (stage_list_line line trimmedLine st))
  = current_stage_index (result st).
Proof.
  unfold stage_list_line.
  destruct (test (match_anchored re_stage_start line)).
  - destruct (currentStage st); reflexivity.
  - destruct (currentStage st); [|reflexivity].
    destruct (match_anchored re_property line)
      as [[[|property [|value caps]] r]|];
      try reflexivity;
      destruct (test (match_anchored re_key trimmedLine)); reflexivity.
Qed.

Lemma current_task_line_stage_index (line trimmedLine : jsstring)
    (st : pstate) :
  current_stage_index (result (current_task_line line trimmedLine st))
  = current_stage_index (result st).
Proof.
  unfold current_task_line.
  case_conditions;
    try reflexivity;
    try (cbn [result set_result]; now rewrite update_task_stage_index).
  all: destruct (indexOf _ _); cbn [result set_result];
    now rewrite update_task_stage_index.
Qed.

(** Only a [current_stage_index:] line changes [current_stage_index]. *)
Lemma body_stage_index_kept (lines : list jsstring) (i i' : nat)
    (st st' : pstate) :
  is_stage_index_line (nth i lines []) = false ->
  body lines i st = Returned (i', st') ->
  current_stage_index (result st') = current_stage_index (result st).
Proof.
  unfold is_stage_index_line. intros Hline.
  unfold body. rewrite Hline.
  case_conditions;
    try (intros H; inversion H; subst; reflexivity).
  - destruct (parseLastCheckResult (skipn i lines)); cbn [bind];
      intros H; inversion H; subst. reflexivity.
  - intros H; inversion H; subst. apply stage_list_line_stage_index.
  - intros H; inversion H; subst. apply current_task_line_stage_index.
Qed.

Lemma starts_with_integer_nonempty (v : jsstring) :
  starts_with_integer v = true -> nonempty v = true.
Proof. destruct v; [discriminate | reflexivity]. Qed.

(** A [current_stage_index:] line whose value starts with an integer sets
    the Number that [parseInt] reads from it. *)
Lemma stage_index_number_line (lines : list jsstring) (i : nat) (st : pstate) :
  let trimmedLine := trim (nth i lines []) in
  let value := trim (substring_from 20 trimmedLine) in
  startsWith trimmedLine (lit "current_stage_index:") = true ->
  starts_with_integer value = true ->
  isNaN (parseInt value (Some 10)) = false /\
  body lines i st
  = Returned
      (i, set_section None
            (set_result
               (set_current_stage_index (parseInt value (Some 10)) (result st))
               st)).
Proof.
  intros trimmedLine value Hstart Hvalue.
  destruct (parseInt_10_number value Hvalue) as [z Hz].
  assert (Hnum : isNaN (parseInt value (Some 10)) = false)
    by (rewrite Hz; apply round64_not_NaN).
  split; [exact Hnum|].
  destruct (startsWith_app _ _ Hstart) as [rest Ht].
  unfold body. fold trimmedLine.
  assert (E1 : nonempty trimmedLine = true) by (now rewrite Ht).
  assert (E2 : startsWith trimmedLine (lit "mission:") = false)
    by (now rewrite Ht).
  assert (E3 : startsWith trimmedLine (lit "process:") = false)
    by (now rewrite Ht).
  rewrite E1, E2, E3, Hstart. cbn [negb]. fold value.
  rewrite Hnum, (starts_with_integer_nonempty value Hvalue). reflexivity.
Qed.

(** The record of a text whose last [current_stage_index:] line has a value
    that does not start with an integer. *)
Lemma stage_index_record (pre post : list jsstring) (line : jsstring) :
  is_stage_index_line line = true ->
  starts_with_integer (trim (substring_from 20 (trim line))) = false ->
  loop_comes_to pre line ->
  forallb (fun l => negb (is_stage_index_line l)) post = true ->
  exists r,
    parseLines (pre ++ line :: post) = Returned r /\
    current_stage_index r = Some (Num (-1)).
Proof.
  intros Hline Hvalue Hreach Hafter.
  destruct (parse_after_line pre post line
              (fun _ => True)
              (fun st => current_stage_index (result st) = Some (Num (-1))))
    as (st & E & _ & _ & HQ).
  - apply (starts_nonempty _ (lit "current_stage_index:"));
      [discriminate | exact Hline].
  - exact Hreach.
  - exact I.
  - auto.
  - intros i st i' st' Hin _ _ HQ Hbody.
    rewrite <- HQ.
    apply (body_stage_index_kept _ _ _ _ _ (forallb_In _ _ _ Hafter Hin) Hbody).
  - intros st _ _. eexists. split; [|split].
    + apply stage_index_line; now rewrite nth_middle.
    + exact I.
    + reflexivity.
  - exists (after_loop st). split; [exact E|].
    now rewrite (proj1 (after_loop_fields st)).
Qed.

(** The record of a text without a [current_stage_index:] line. *)
Lemma no_stage_index_record (lines : list jsstring) :
  forallb (fun l => negb (is_stage_index_line l)) lines = true ->
  exists r,
    parseLines lines = Returned r /\ current_stage_index r = None.
Proof.
  intros Hno.
  destruct (parse_invariant
              (fun _ st => current_stage_index (result st) = None) lines)
    as (st & E & _ & HP).
  - intros i st i' st' Hi _ HP Hbody. rewrite <- HP.
    apply (body_stage_index_kept _ _ _ _ _
             (forallb_In _ _ _ Hno (nth_In _ _ Hi)) Hbody).
  - reflexivity.
  - exists (after_loop st). split; [exact E|].
    now rewrite (proj1 (after_loop_fields st)).
Qed.

(** C7 fails as stated: the value [1abc] is not a number, and the parser
    reads the index 1 from it, not the sentinel. *)
Lemma C7_counterexample_leading_digit :
  parseStatusResponse leading_digit_status
  = Returned
      (mkStatus None [] None (TaskObject initial_task) (Some (Num 1))
         None None) /\
  starts_with_integer (lit "1abc") = true /\
  jeq (Num 1) (Num (-1)) = false.
Proof. repeat split; vm_compute; reflexivity. Qed.

(** C7 (amended): a [current_stage_index:] line whose value does not start
    with an integer (it is empty, [null], or any other text without a
    leading digit) sets the index to the sentinel -1, which is not 0, and a
    value that starts with an integer sets the Number that [parseInt] reads
    from its digits, never [NaN]. In a text to whose last
    [current_stage_index:] line the loop comes, whatever lines stand before
    and after it, the parsed record holds the sentinel when that line has
    such a value; a text without a [current_stage_index:] line leaves the
    index [undefined]. On every record without an active stage index (the
    sentinel or [undefined]) the lookup [stage_list[-1]] reads no element,
    [getCurrentStage] finds no stage, the elapsed time is [0s], no timer is
    started, and a stage counts as completed by its own flags. *)
Theorem C7_no_active_stage :
  (forall statusText pre line post,
     split 10 statusText = pre ++ line :: post ->
     is_stage_index_line line = true ->
     starts_with_integer (trim (substring_from 20 (trim line))) = false ->
     loop_comes_to pre line ->
     forallb (fun l => negb (is_stage_index_line l)) post = true ->
     exists r,
       parseStatusResponse statusText = Returned r /\
       current_stage_index r = Some (Num (-1)) /\
       no_active_index r) /\
  (forall statusText,
     forallb (fun l => negb (is_stage_index_line l)) (split 10 statusText)
     = true ->
     exists r,
       parseStatusResponse statusText = Returned r /\
       current_stage_index r = None /\
       no_active_index r) /\
  jeq (Num (-1)) (Num 0) = false /\
  (forall lines i st,
     is_stage_index_line (nth i lines []) = true ->
     starts_with_integer
       (trim (substring_from 20 (trim (nth i lines [])))) = false ->
     body lines i st
     = Returned
         (i, set_section None
               (set_result (set_current_stage_index (Num (-1)) (result st))
                  st))) /\
  (forall lines i st,
     is_stage_index_line (nth i lines []) = true ->
     starts_with_integer
       (trim (substring_from 20 (trim (nth i lines [])))) = true ->
     exists n,
       isNaN n = false /\
       n = parseInt (trim (substring_from 20 (trim (nth i lines []))))
             (Some 10) /\
       body lines i st
       = Returned
           (i, set_section None
                 (set_result (set_current_stage_index n (result st)) st))) /\
  (forall r lastFetchTime now idx,
     no_active_index r ->
     array_get (stage_list r) (Num (-1)) = None /\
     getCurrentStage (Some r) = None /\
     getCurrentStageElapsedTime (Some r) lastFetchTime now = lit "0s" /\
     inProgress (Some r) = false /\
     isStageCompleted (Some r) idx = reached_or_skipped_at r idx /\
     calculateProgress (Some r)
     = percentage
         (length (filter (fun s => reached_or_skipped_at r (index s))
                    (stage_list r)))
         (length (stage_list r))).
Proof.
  split; [|split; [|split; [reflexivity | split; [|split]]]].
  - intros statusText pre line post Hsplit Hline Hvalue Hreach Hafter.
    unfold parseStatusResponse. rewrite Hsplit.
    destruct (stage_index_record pre post line Hline Hvalue Hreach Hafter)
      as (r & E & Hr).
    exists r. split; [exact E|]. split; [exact Hr|]. now right.
  - intros statusText Hno. unfold parseStatusResponse.
    destruct (no_stage_index_record _ Hno) as (r & E & Hr).
    exists r. split; [exact E|]. split; [exact Hr|]. now left.
  - intros lines i st Hline Hvalue. now apply stage_index_line.
  - intros lines i st Hline Hvalue.
    destruct (stage_index_number_line lines i st Hline Hvalue) as [Hn Hb].
    eexists. split; [exact Hn|]. split; [reflexivity | exact Hb].
  - intros r lastFetchTime now idx Hr.
    split; [reflexivity|]. now apply no_active_index_consumers.
Qed.

Lemma C7_no_active_stage_witness :
  exists r,
    parseStatusResponse finished_status = Returned r /\
    current_stage_index r = Some (Num (-1)) /\
    no_active_index r.
Proof.
  exact (proj1 C7_no_active_stage finished_status
           [ lit "mission: Verify the Adder"; lit "stage_list:";
             lit "- index: 0"; lit "  title: Requirement analysis";
             lit "  reached: true"; lit "  time_cost: 1m 5s";
             lit "- index: 1"; lit "  title: Functional specification";
             lit "  reached: true"; lit "  is_skipped: false";
             lit "process: 2/2"; lit "current_task: Mission completed" ]
           (lit "current_stage_index: null")
           [ lit "current_stage_name: none";
             lit "last_check_result:"; lit "  check_pass: true" ]
           eq_refl eq_refl eq_refl (or_introl eq_refl) eq_refl).
Defined.

(** ** Stage properties *)











